(* ===== verification/_CoqProject ===== *)
-Q . S2P
Prelude.v
GoStrings.v
Bytes.v
GoPath.v
Schema.v
World.v
BaseFs.v
Tar.v
Crypto.v
Models.v
Configs.v
Updates.v
Ostree.v
Tuf.v
FsHandles.v
TufFs.v
GatewayStorage.v
ApiStorage.v
ApiTuf.v
TufSpec.v
TufLife.v
TufKeys.v
Encoding.v
Toys.v
Http.v
Gateway.v
Limiter.v
ApiUpdate.v
Rollouts.v
ApiSpec.v
Integration.v
Scopes.v
Users.v
UserOps.v
Auth.v
AuthLocal.v
UiApi.v
UiUpdates.v
ReadOnly.v
UiRoutes.v
UiSpec.v
WebPages.v
Web.v
WebSpec.v
GatewaySpec.v
GatewayCfg.v
Daemons.v
Witnesses.v
WitnessesTuf.v
WitnessesUi.v
WitnessesWeb.v
WitnessesGw.v
CliApi.v
CliLogin.v
CliConfigs.v
CliShow.v
CliArchive.v
CliProgress.v
CliWalk.v
CliSpec.v
CliConfigSpec.v
WitnessesCli.v
SetupPki.v
Setup.v
SetupSpec.v
ServeSpec.v
WitnessesSetup.v
