(* ===== verification/Prelude.v ===== *)
(** * The update server

    A model of the fleet update server (Go, under src/) with the theorems that
    make it correct.  Definitions follow the source function by function and keep
    its names; the manifest maps each to its lines.

    ** The program and its parts

    One process serves two sides.  Devices talk to the gateway (server/gateway)
    over TLS with a client certificate: they check in, report events and states,
    fetch TUF metadata, OSTree objects and their configuration.  Operators talk to
    the API (server/ui/api) with a session or a token (auth, storage/users): they
    upload updates, roll them out, follow their progress, label and delete devices
    and edit configurations.  Both sides are thin layers over the storage packages
    (storage/gateway, storage/api), which keep rows in SQLite (storage/db.go) and
    files below one data directory (storage/file*.go).  Four goroutines
    (server/ui/daemons) work on timers: the watchdog that commits the rollouts of
    the journal, two collectors, and the refresh of the TUF timestamps.  Commands
    of the server (cmd/server) make the keys, certificates, accounts and TUF
    metadata of a data directory before it is served.  A command line client (cli/)
    calls the API of the operators over HTTP and keeps contexts in a file.

    ** Files, from the bottom up

    Language and libraries.
    - Prelude: Go errors, the state-and-error monad [M], invariants of monadic
      code ([keeps]) with their tactics and hint database, lemmas on lists.
    - GoStrings, Bytes, GoPath, Encoding: strings and strconv, slices with bounds
      checks, path/filepath with the theory of cleaned paths, hex, base64, UTF-8.
    - Crypto: digests, certificates, JSON and times as type classes with their
      laws, and FNV-128a as written.

    The state.
    - Schema: the tables of storage/db.go as records and finite maps.
    - World: file system, database, clock, random source, and the list of faults:
      each system call and each SQL statement takes the next entry and, when it
      names an error, fails with it and without effect.

    Storage.
    - BaseFs (file.go), Tar (file_tar.go), Configs (file_configs.go), Updates
      (file_updates.go), FsHandles (file_devices.go, file_certs.go,
      file_auth_config.go, file_audit.go, file_branding.go), Models (models.go),
      Ostree (ostree/ostree.go), Tuf (tuf/), TufFs (file_tuf.go,
      file_tuf_import.go).
    - GatewayStorage (storage/gateway), ApiStorage, ApiUpdate, ApiTuf (storage/api),
      Scopes, Users, UserOps (storage/users): Users has the statements, UserOps the
      operations.

    Servers.
    - Http: a request is a record, a handler runs over the world, the state of the
      front end and the outputs so far; a goroutine is an output [Go] that the
      environment runs later.  The user or device that a middleware puts into the
      context of a request is an argument of the handlers behind it.
    - Limiter, Auth, AuthLocal (auth/); UiApi, UiUpdates, UiRoutes (server/ui/api);
      Web and WebPages (server/ui/web); Gateway (server/gateway); Rollouts, Daemons
      (server/ui/daemons).
    - SetupPki (cmd/server/pki.go, pki_init.go, csr.go, csr_sign.go), Setup
      (auth_init.go, tuf_init.go, user_add.go, dev_server.go, serve.go, the storages,
      auth/provider.go, the two server.go): the commands that set a server up and
      its start.

    Client.
    - CliApi (cli/api, cli/config): the configuration file, requests and responses;
      a command runs over its host, a remote side and what it has printed so far.
      The remote side is a type class [Network]; [server_net] makes one of the
      handlers of the server, given which handler each request reaches
      ([dispatch]), so that client and server are run against each other.
    - CliLogin, CliConfigs, CliShow, CliArchive (cli/subcommands) and CliProgress
      (progress.go): the commands; the goroutine that sizes an upload while it is
      written is a transition system with its channels.

    Properties across files: ApiSpec, Integration, TufSpec, TufLife, TufKeys,
    ReadOnly, UiSpec, WebSpec, GatewaySpec, GatewayCfg, CliWalk, CliSpec,
    CliConfigSpec, SetupSpec, ServeSpec.  Witnesses, WitnessesTuf, WitnessesUi, WitnessesWeb,
    WitnessesGw, WitnessesCli and WitnessesSetup apply each theorem that has
    hypotheses to a concrete run; Toys has the concrete codecs and ciphers they run
    on, proved to satisfy the laws.

    ** What the theorems show

    - Files: a write is atomic at any failing call (BaseFs); unpacking an archive
      stays below its directory and within its limits, and its limiter terminates
      (Tar); a configuration directory refines a list of history entries (Configs);
      reading OSTree objects implements the abstract directory tree and never
      panics on any bytes (Ostree).
    - Rollouts: a transition system of requests, commits, watchdog rounds, restarts
      and failures, in which no rollout that is not committed is lost (Rollouts);
      the handler that creates rollouts and the job it leaves behind make exactly
      steps of it (UiSpec); what a commit assigns (ApiSpec); what the reports count
      (ApiUpdate).
    - TUF: generated and refreshed documents pass a client's verification, versions
      grow, keys survive a restart, an imported root is rotated (TufSpec, TufLife,
      TufKeys), and with the daemon no timestamp ever expires (Daemons).
    - Who may do what: what a request is authenticated as (Auth), that nothing
      changes through the API without the scope of its route (UiRoutes), that
      credentials never exceed their account and how long they live (UserOps),
      logins and password changes (AuthLocal), blocked addresses (Limiter), the
      device flow (UserOps).
    - Devices: who a connection is taken for and that a device changes its own row
      and none of its rights (GatewaySpec); retired certificates do not come back
      (GatewayStorage) and stay on record until they expire (Daemons); the layers of
      a configuration, kept events, lifetime of tokens (GatewayCfg).
    - Web pages: nothing changes without a session with the right, whatever the
      route; what the pages read of the links of the API is what it printed
      (WebSpec).
    - The client: a login ends and leaves what the other commands find (CliLogin);
      against the handlers of the server, following a log prints the log (CliSpec)
      and setting a configuration stores it (CliConfigSpec); the archive of a
      directory holds the directory (CliWalk), and an upload neither hangs nor loses
      a file in any interleaving of its goroutines (CliProgress).
    - Set-up: which paths each command can touch (SetupSpec); keys are never written
      over, a new account can log in, and a development server starts on what its
      set-up left, with its admin (ServeSpec).

    ** How it is modelled

    - Paths are strings; the file system is a finite map from cleaned paths.
      Entries have names that a directory can list ([name_ok]).  There are no
      symbolic links in it, as the program makes none; a hard link is a copy of a
      file that is not written again.  Appends are atomic.
    - A SQL statement is one atomic function on the tables, with its triggers,
      unique indexes and generated columns; a transaction works on a copy that
      takes effect at the commit.
    - A panic is an error value [ErrPanic], so that its absence can be stated.
      Integers that can wrap are wrapped where the code computes them ([wrap64]).
      Iteration over a Go map goes over [map_to_list]: theorems do not depend on
      its order but where they say so.  Logging has no effect and is left out.
    - The file system, SQLite, regular expressions, number formats, FNV-128a, hex,
      base64 and path functions are concrete.  SHA-256, HMAC, HKDF, AES-GCM,
      ed25519, RSA, scrypt, JSON, canonical JSON, TOML, X.509, tar and gzip framing
      (a list of items, each possibly a read error), deflate, time formats, the
      token bucket, the cache of tokens, the OAuth2 exchange, and the limit on
      request bodies are operations of type classes; where a theorem needs more
      than a function it names the class of laws, which state documented behaviour.
      That two keys have different identifiers is a hypothesis where it is used: it
      is the absence of SHA-256 collisions.
    - Time passes between steps of a run (and in the pauses of a loop), not inside
      an operation, but for the waits the code makes itself.
    - The protocol of the rollouts assumes of the timing what the code assumes: a
      request writes the file of its rollout before a second rollover of the
      journal after its append (two rounds of the watchdog, ten minutes).

    Fuel and bounds: recursion is structural but for the loops over the bytes of
    OSTree objects and over path prefixes, whose fuel is the length of the data,
    with proofs that it is enough ([ReadFile_never_panics],
    [diskSizeLimiter_terminates]); a daemon is followed for as many pauses as a run
    has.  The polls of a login have fuel as an argument, and one more than the
    intervals in the lifetime of the code is enough ([login_polls_end]).  The walk
    of a directory has the length of the longest path as its fuel, each directory
    makes the path longer, and it is enough ([archive_holds_directory]); the loop
    over the certificates of a text has the length of the text ([cert_summaries_fuel]).

    ** Not modelled

    - The templates of the web pages: a page is an output with the name of its
      template; the data a page shows beyond the storage calls that fetch it.
    - The tools that seed demonstration and load-test data (cmd/seed, contrib): no
      part of the server.  Flag parsing, listening and shutdown, the TLS transport,
      what the commands of the server print, the display of the progress of an
      upload, and the Configure of the OAuth2 providers (an argument of the start).
    - A database with only some of its tables: in the model the creation of the
      tables takes effect as a whole or not at all.
    - Logging, request logs, the keep-alive comments of idle event streams, and
      the waiting for new lines in [readFileLines]: a tail is the list of lines
      that the reader yields. *)
From Stdlib Require Export ZArith Lia Ascii String Sorted.
From stdpp Require Export base tactics option list gmap strings.
Global Open Scope Z_scope.

(** ** Go errors *)

(** The error values the program distinguishes with [errors.Is]/[errors.As];
    every other error is a [ErrMsg].  [ErrWrap] is [fmt.Errorf("...: %w")]. *)
Inductive error :=
  | ErrNotExist              (* os.ErrNotExist *)
  | ErrExist                 (* os.ErrExist *)
  | ErrIO                    (* any other failure of a system call *)
  | ErrNoRows                (* sql.ErrNoRows *)
  | ErrDbConstraintUnique    (* sqlite: UNIQUE / PRIMARY KEY violation *)
  | ErrUpdateInUse           (* trigger prevent_delete_update_in_use *)
  | ErrInvalidUpdate
  | ErrTufNotInitialized
  | ErrTufAlreadyInitialized
  | ErrTarUnpackExceedsLimit
  | ErrConfigUploadBroken
  | ErrHTTP (code : Z) (msg : string) (* echo.HTTPError *)
  | ErrPanic (msg : string)  (* not an error value: the goroutine panics *)
  | ErrMsg (msg : string)
  | ErrWrap (msg : string) (inner : error).

#[global] Instance error_eq_dec : EqDecision error.
Proof. solve_decision. Defined.

(** [errors.Is(err, target)] for the sentinel targets above. *)
Fixpoint errors_Is (e target : error) : bool :=
  bool_decide (e = target) ||
  match e with ErrWrap _ e' => errors_Is e' target | _ => false end.

(** Is the error a panic, however wrapped? *)
Fixpoint panics (e : error) : bool :=
  match e with ErrPanic _ => true | ErrWrap _ e' => panics e' | _ => false end.

Inductive result (A : Type) :=
  | Ok (a : A)
  | Err (e : error).
Arguments Ok {A} a.
Arguments Err {A} e.

Definition is_Ok {A} (r : result A) : bool :=
  match r with Ok _ => true | Err _ => false end.

#[global] Instance result_eq_dec {A} `{EqDecision A} : EqDecision (result A).
Proof. solve_decision. Defined.

#[global] Instance result_ret : MRet result := @Ok.
#[global] Instance result_bind : MBind result := λ A B f r,
  match r with Ok a => f a | Err e => Err e end.

(** ** State-and-error monad: what a Go method call does to the process state *)
Definition M (S A : Type) := S -> result A * S.

#[global] Instance M_ret {S} : MRet (M S) := λ A a s, (Ok a, s).
#[global] Instance M_bind {S} : MBind (M S) := λ A B f m s,
  match m s with
  | (Ok a, s') => f a s'
  | (Err e, s') => (Err e, s')
  end.

Section Monad.
Context {S : Type}.

Definition fail {A} (e : error) : M S A := λ s, (Err e, s).
Definition lift {A} (r : result A) : M S A := λ s, (r, s).
Definition get_state : M S S := λ s, (Ok s, s).
Definition gets {A} (f : S -> A) : M S A := λ s, (Ok (f s), s).
Definition modify (f : S -> S) : M S unit := λ s, (Ok tt, f s).

(** [v, err := m] with the error kept as a value, the way Go code does. *)
Definition try {A} (m : M S A) : M S (result A) := λ s,
  let '(r, s') := m s in (Ok r, s').

(** [if err := m; err != nil { err = g(err) }]. *)
Definition map_err {A} (g : error -> error) (m : M S A) : M S A := λ s,
  match m s with
  | (Err e, s') => (Err (g e), s')
  | r => r
  end.

(** [fmt.Errorf(msg + ": %w", err)]. *)
Definition wrap {A} (msg : string) (m : M S A) : M S A := map_err (ErrWrap msg) m.

(** [_ = m]: the error is silenced, the effect stays. *)
Definition ignore {A} (m : M S A) : M S unit := λ s, let '(_, s') := m s in (Ok tt, s').

(** [for _, x := range l { if err := f x; err != nil { return err } }]. *)
Fixpoint forM {A} (l : list A) (f : A -> M S unit) : M S unit :=
  match l with
  | [] => mret tt
  | x :: l' => f x ≫= λ _, forM l' f
  end.

(** Same, collecting the values. *)
Fixpoint mapM_M {A B} (f : A -> M S B) (l : list A) : M S (list B) :=
  match l with
  | [] => mret []
  | x :: l' => y ← f x; ys ← mapM_M f l'; mret (y :: ys)
  end.

Lemma bind_Ok {A B} (m : M S A) (f : A -> M S B) s a s' :
  m s = (Ok a, s') -> (m ≫= f) s = f a s'.
Proof. intros H. unfold mbind, M_bind. by rewrite H. Qed.

Lemma bind_Err {A B} (m : M S A) (f : A -> M S B) s e s' :
  m s = (Err e, s') -> (m ≫= f) s = (Err e, s').
Proof. intros H. unfold mbind, M_bind. by rewrite H. Qed.

Lemma bind_try {A B} (m : M S A) (f : result A -> M S B) s r s' :
  m s = (r, s') -> (try m ≫= f) s = f r s'.
Proof. intros H. unfold mbind, M_bind, try. by rewrite H. Qed.
Lemma bind_ignore {A B} (m : M S A) (f : unit -> M S B) s r s' :
  m s = (r, s') -> (ignore m ≫= f) s = f tt s'.
Proof. intros H. unfold mbind, M_bind, ignore. by rewrite H. Qed.
Lemma wrap_Ok {A} msg (m : M S A) s a s' : m s = (Ok a, s') -> wrap msg m s = (Ok a, s').
Proof. intros H. unfold wrap, map_err. by rewrite H. Qed.
Lemma wrap_Err {A} msg (m : M S A) s e s' :
  m s = (Err e, s') -> wrap msg m s = (Err (ErrWrap msg e), s').
Proof. intros H. unfold wrap, map_err. by rewrite H. Qed.

Lemma bind_inv_Ok {A B} (m : M S A) (f : A -> M S B) s b s' :
  (m ≫= f) s = (Ok b, s') -> ∃ a s1, m s = (Ok a, s1) ∧ f a s1 = (Ok b, s').
Proof.
  unfold mbind, M_bind. destruct (m s) as [[a|e] s1] eqn:E; [|discriminate].
  eauto.
Qed.

Lemma bind_inv {A B} (m : M S A) (f : A -> M S B) s r s' :
  (m ≫= f) s = (r, s') ->
  (∃ a s1, m s = (Ok a, s1) ∧ f a s1 = (r, s')) \/ (∃ e, m s = (Err e, s') ∧ r = Err e).
Proof.
  unfold mbind, M_bind. destruct (m s) as [[a|e] s1] eqn:E; intros H; simplify_eq; eauto.
Qed.
Lemma try_inv {A} (m : M S A) s r s' :
  try m s = (r, s') -> ∃ r0, m s = (r0, s') ∧ r = Ok r0.
Proof. unfold try. destruct (m s) as [r0 s1]. intros. simplify_eq. eauto. Qed.
Lemma ignore_inv {A} (m : M S A) s r s' :
  ignore m s = (r, s') -> ∃ r0, m s = (r0, s') ∧ r = Ok tt.
Proof. unfold ignore. destruct (m s) as [r0 s1]. intros. simplify_eq. eauto. Qed.
Lemma bind_try_inv {A B} (m : M S A) (f : result A -> M S B) s r s' :
  (try m ≫= f) s = (r, s') -> ∃ r0 s1, m s = (r0, s1) ∧ f r0 s1 = (r, s').
Proof. unfold mbind, M_bind, try. destruct (m s) as [r0 s1]. eauto. Qed.
Lemma bind_ignore_inv {A B} (m : M S A) (f : unit -> M S B) s r s' :
  (ignore m ≫= f) s = (r, s') -> ∃ r0 s1, m s = (r0, s1) ∧ f tt s1 = (r, s').
Proof. unfold mbind, M_bind, ignore. destruct (m s) as [r0 s1]. eauto. Qed.
Lemma bind_gets_inv {A B} (g : S -> A) (f : A -> M S B) s r s' :
  (gets g ≫= f) s = (r, s') -> f (g s) s = (r, s').
Proof. done. Qed.
(** Successful runs of a step that only inspects a value. *)
Lemma bind_lift_Ok {A B} (r : result A) (f : A -> M S B) s b s' :
  (lift r ≫= f) s = (Ok b, s') -> ∃ a, r = Ok a ∧ f a s = (Ok b, s').
Proof. unfold mbind, M_bind, lift. destruct r; [eauto|done]. Qed.
Lemma bind_wrap_lift_Ok {A B} msg (r : result A) (f : A -> M S B) s b s' :
  (wrap msg (lift r) ≫= f) s = (Ok b, s') -> ∃ a, r = Ok a ∧ f a s = (Ok b, s').
Proof. unfold mbind, M_bind, wrap, map_err, lift. destruct r; [eauto|done]. Qed.
Lemma wrap_Ok_inv {A} msg (m : M S A) s a s' : wrap msg m s = (Ok a, s') -> m s = (Ok a, s').
Proof. unfold wrap, map_err. by destruct (m s) as [[]]. Qed.
Lemma bind_wrap_Ok {A B} msg (m : M S A) (f : A -> M S B) s b s' :
  (wrap msg m ≫= f) s = (Ok b, s') -> ∃ a s1, m s = (Ok a, s1) ∧ f a s1 = (Ok b, s').
Proof. intros (a & s1 & E%wrap_Ok_inv & E')%bind_inv_Ok. eauto. Qed.
Lemma map_err_inv {A} g (m : M S A) s r s' :
  map_err g m s = (r, s') ->
  ∃ r0, m s = (r0, s') ∧ r = match r0 with Ok a => Ok a | Err e => Err (g e) end.
Proof. unfold map_err. destruct (m s) as [[a|e] s1]; intros; simplify_eq; eauto. Qed.
Lemma fail_inv {A} e s (r : result A) s' : fail e s = (r, s') -> r = Err e ∧ s' = s.
Proof. by intros [= <- <-]. Qed.
Lemma ret_inv {A} (a : A) s (r : result A) s' : (mret a : M S A) s = (r, s') -> r = Ok a ∧ s' = s.
Proof. by intros [= <- <-]. Qed.

Lemma lift_inv {A} (r0 : result A) s (r : result A) s' :
  (lift r0 : M S A) s = (r, s') -> r0 = r ∧ s' = s.
Proof. by intros [= <- <-]. Qed.

Lemma bind_assoc {A B C} (m : M S A) (f : A -> M S B) (g : B -> M S C) s :
  ((m ≫= f) ≫= g) s = (m ≫= (λ x, f x ≫= g)) s.
Proof. unfold mbind, M_bind. by destruct (m s) as [[a|e] s1]. Qed.
End Monad.

(** ** What a computation keeps: every run, successful or not, is related by [R],
    and a successful one returns a value in [Q]. *)
Definition keeps {S A} (R : relation S) (m : M S A) (Q : A -> Prop) : Prop :=
  ∀ s r s', m s = (r, s') -> R s s' ∧ match r with Ok a => Q a | Err _ => True end.
Notation any := (λ _, True) (only parsing).

Section Keeps.
Context {S : Type} {R : relation S} `{!PreOrder R}.
Implicit Types (A B : Type).

Lemma keeps_ret {A} (a : A) (Q : A -> Prop) : Q a -> keeps R (mret a) Q.
Proof. by intros H s r s' [= <- <-]. Qed.
Lemma keeps_fail {A} e (Q : A -> Prop) : keeps R (fail e) Q.
Proof. by intros s r s' [= <- <-]. Qed.
Lemma keeps_lift {A} (r : result A) (Q : A -> Prop) : (∀ a, r = Ok a -> Q a) -> keeps R (lift r) Q.
Proof. intros H s r' s' [= <- <-]. split; [done|]. destruct r; auto. Qed.
Lemma keeps_gets {A} (f : S -> A) (Q : A -> Prop) : (∀ s, Q (f s)) -> keeps R (gets f) Q.
Proof. by intros H s r s' [= <- <-]. Qed.
Lemma keeps_get_state (Q : S -> Prop) : (∀ s, Q s) -> keeps R get_state Q.
Proof. by intros H s r s' [= <- <-]. Qed.
Lemma keeps_bind {A B} (m : M S A) (f : A -> M S B) P Q :
  keeps R m P -> (∀ a, P a -> keeps R (f a) Q) -> keeps R (m ≫= f) Q.
Proof.
  intros Hm Hf s r s' H. apply bind_inv in H as [(a & s1 & E & H)|(e & E & ->)].
  - apply Hm in E as [H1 Ha]. apply Hf in H as [H2 HQ]; [|done]. split; [by etrans|done].
  - by apply Hm in E.
Qed.
Lemma keeps_try {A} (m : M S A) P Q :
  keeps R m P -> (∀ r, match r with Ok a => P a | Err _ => True end -> Q r) -> keeps R (try m) Q.
Proof. intros Hm HQ s r s' H. apply try_inv in H as (r0 & H & ->). apply Hm in H as [? ?]. auto. Qed.
Lemma keeps_map_err {A} g (m : M S A) Q : keeps R m Q -> keeps R (map_err g m) Q.
Proof.
  intros Hm s r s' H. apply map_err_inv in H as (r0 & H & ->). apply Hm in H as [? ?].
  split; [done|]. by destruct r0.
Qed.
Lemma keeps_wrap {A} msg (m : M S A) Q : keeps R m Q -> keeps R (wrap msg m) Q.
Proof. apply keeps_map_err. Qed.
Lemma keeps_ignore {A} (m : M S A) P (Q : unit -> Prop) : keeps R m P -> Q tt -> keeps R (ignore m) Q.
Proof. intros Hm HQ s r s' H. apply ignore_inv in H as (r0 & H & ->). by apply Hm in H as [? _]. Qed.
Lemma keeps_forM {A} (l : list A) (f : A -> M S unit) :
  (∀ x, x ∈ l -> keeps R (f x) any) -> keeps R (forM l f) any.
Proof.
  induction l as [|x l IH]; intros H; simpl; [by apply keeps_ret|].
  eapply keeps_bind; [apply H; set_solver|]. intros _ _. apply IH. set_solver.
Qed.
Lemma keeps_mapM {A B} (f : A -> M S B) (l : list A) :
  (∀ x, x ∈ l -> keeps R (f x) any) -> keeps R (mapM_M f l) any.
Proof.
  induction l as [|x l IH]; intros H; simpl; [by apply keeps_ret|].
  eapply keeps_bind; [apply H; set_solver|]. intros y _.
  eapply keeps_bind; [apply IH; set_solver|]. intros ys _. by apply keeps_ret.
Qed.
Lemma keeps_weaken {A} (m : M S A) (P Q : A -> Prop) :
  keeps R m P -> (∀ a, P a -> Q a) -> keeps R m Q.
Proof. intros Hm HPQ s r s' H. apply Hm in H as [? ?]. split; [done|]. destruct r; auto. Qed.
Lemma keeps_any {A} (m : M S A) (Q : A -> Prop) : keeps R m Q -> keeps R m any.
Proof. intros H. by eapply keeps_weaken. Qed.
Lemma keeps_bind_Err {A B} e (f : A -> M S B) Q : keeps R (lift (Err e) ≫= f) Q.
Proof. by intros s r s' [= <- <-]. Qed.
Lemma keeps_bind_wrap_Err {A B} msg e (f : A -> M S B) Q : keeps R (wrap msg (lift (Err e)) ≫= f) Q.
Proof. by intros s r s' [= <- <-]. Qed.
End Keeps.

(** Facts about successful results only. *)
Notation yields m Q := (keeps (λ _ _, True) m Q).
#[global] Instance total_preorder {S} : PreOrder (λ _ _ : S, True).
Proof. by split. Qed.

(** Prove [keeps R m any] by following the code; what remains are the calls
    that the database [keeps] does not know. *)
Create HintDb keeps discriminated.
Lemma yields_any {S A} (m : M S A) : yields m any.
Proof. intros s r s' _. by destruct r. Qed.
#[export] Hint Resolve yields_any : keeps.
Ltac keeps_step :=
  lazymatch goal with
  | |- keeps _ (mret _) _ => apply keeps_ret; try exact I
  | |- keeps _ (fail _) _ => apply keeps_fail
  | |- keeps _ (lift _) _ => apply keeps_lift; try (intros; exact I)
  | |- keeps _ (gets _) _ => apply keeps_gets; try (intros; exact I)
  | |- keeps _ get_state _ => apply keeps_get_state; try (intros; exact I)
  | |- keeps _ (wrap _ _) _ => apply keeps_wrap
  | |- keeps _ (map_err _ _) _ => apply keeps_map_err
  | |- keeps _ (try _) _ => eapply (keeps_try _ any); [|intros; exact I]
  | |- keeps _ (ignore _) _ => eapply (keeps_ignore _ any); [|exact I]
  | |- keeps _ (forM _ _) _ => apply keeps_forM; intros
  | |- keeps _ (mapM_M _ _) _ => apply keeps_mapM; intros
  | |- keeps _ (lift (Err _) ≫= _) _ => apply keeps_bind_Err
  | |- keeps _ (wrap _ (lift (Err _)) ≫= _) _ => apply keeps_bind_wrap_Err
  | |- keeps _ (_ ≫= _) _ => eapply (keeps_bind _ _ any); [|intros ? _]
  | |- keeps _ (match ?x with _ => _ end) _ => destruct x eqn:?
  | |- keeps _ (match ?x with _ => _ end _) _ => destruct x eqn:?
  | |- keeps _ (let _ := _ in _) _ => cbv zeta
  end.
Ltac keeps_auto := repeat first [solve [eauto with keeps] | keeps_step].

(** ** 64-bit integers *)

Definition wrap64 (z : Z) : Z := (z + 2 ^ 63) `mod` 2 ^ 64 - 2 ^ 63.
Definition in_int64 (z : Z) : Prop := - 2 ^ 63 <= z < 2 ^ 63.
Definition in_int64b (z : Z) : bool := (- 2 ^ 63 <=? z) && (z <? 2 ^ 63).

Lemma wrap64_small z : in_int64 z -> wrap64 z = z.
Proof. unfold in_int64, wrap64. intros. rewrite Z.mod_small; lia. Qed.

Lemma wrap64_range z : in_int64 (wrap64 z).
Proof.
  unfold in_int64, wrap64. pose proof (Z.mod_pos_bound (z + 2 ^ 63) (2 ^ 64)). lia.
Qed.

(** ** Sorting: [slices.SortFunc] with a three-way comparison.  Ties keep
    their order, as in the insertion sort Go uses for short slices. *)
Section Sort.
Context {A : Type} (cmp : A -> A -> Z).

Fixpoint insert_by (x : A) (l : list A) : list A :=
  match l with
  | [] => [x]
  | y :: l' => if cmp x y <? 0 then x :: l else y :: insert_by x l'
  end.

Definition sort_by (l : list A) : list A := foldr insert_by [] (reverse l).

Lemma insert_by_perm x l : insert_by x l ≡ₚ x :: l.
Proof.
  induction l as [|y l IH]; simpl; [done|]. destruct (_ <? _); [done|].
  rewrite IH. constructor.
Qed.

Lemma sort_by_perm l : sort_by l ≡ₚ l.
Proof.
  unfold sort_by. rewrite <-(reverse_Permutation l) at 2.
  induction (reverse l) as [|x l' IH]; simpl; [done|].
  rewrite insert_by_perm. by rewrite IH.
Qed.

Lemma sort_by_elem x l : x ∈ sort_by l ↔ x ∈ l.
Proof. by rewrite sort_by_perm. Qed.

(** The head of a sorted list has nothing before it. *)
Lemma sort_by_head l x l' :
  (∀ a, ~ cmp a a < 0) -> (∀ a b c, cmp a b < 0 -> cmp b c < 0 -> cmp a c < 0) ->
  sort_by l = x :: l' -> x ∈ l ∧ ∀ y, y ∈ l -> ~ cmp y x < 0.
Proof.
  intros Hi Ht E. split; [rewrite <-sort_by_elem, E; by left|].
  intros y Hy. rewrite <-elem_of_reverse in Hy. revert x l' E y Hy. unfold sort_by.
  induction (reverse l) as [|z r IH]; intros x l' E y Hy; [by apply elem_of_nil in Hy|].
  simpl in E. destruct (foldr insert_by [] r) as [|h t] eqn:Er; simpl in E.
  - simplify_eq. destruct r as [|z' r]; [|exfalso; revert Er; simpl; destruct (foldr _ _ r); simpl; by repeat case_match].
    apply list_elem_of_singleton in Hy as ->. apply Hi.
  - destruct (Z.ltb_spec (cmp z h) 0) as [Hlt|Hge]; simplify_eq;
      apply elem_of_cons in Hy as [->|Hy]; [apply Hi| | |by eapply IH]; [|lia].
    intros Hyx. eapply IH; [done..|]. by eapply Ht.
Qed.

Lemma length_sort_by l : length (sort_by l) = length l.
Proof. by rewrite sort_by_perm. Qed.

(** When [cmp] is the sign of a total preorder, the result is ordered. *)
Lemma insert_by_sorted x l :
  (∀ a b, cmp a b < 0 -> cmp b a >= 0) ->
  (∀ a b, ~ cmp a b < 0 -> cmp b a <= 0) ->
  Sorted (λ a b, cmp a b <= 0) l -> Sorted (λ a b, cmp a b <= 0) (insert_by x l).
Proof.
  intros H1 H2. induction l as [|y l IH]; intros Hs; simpl.
  { repeat constructor. }
  destruct (Z.ltb_spec (cmp x y) 0).
  - constructor; [done|]. constructor. lia.
  - apply Sorted_inv in Hs as [Hs Hd]. constructor; [auto|].
    destruct l as [|z l]; simpl; [constructor; apply H2; lia|].
    destruct (cmp x z <? 0); constructor; [apply H2; lia|].
    by apply HdRel_inv in Hd.
Qed.

Lemma sort_by_sorted l :
  (∀ a b, cmp a b < 0 -> cmp b a >= 0) ->
  (∀ a b, ~ cmp a b < 0 -> cmp b a <= 0) ->
  Sorted (λ a b, cmp a b <= 0) (sort_by l).
Proof.
  intros H1 H2. unfold sort_by. induction (reverse l); simpl; [constructor|].
  by apply insert_by_sorted.
Qed.
End Sort.

(** ** Generic lemmas on lists and maps *)

Lemma foldl_snoc {A B} (f : A -> B -> A) l x a :
  foldl f a (l ++ [x]) = f (foldl f a l) x.
Proof. by rewrite foldl_app. Qed.

(** The keys of a map whose entries pass a test. *)
Section MapKeys.
Context `{Countable K} {V : Type} (m : gmap K V) (P : K * V -> bool).
Notation keys := (map fst (List.filter P (map_to_list m))).

Lemma elem_of_filter_keys k : k ∈ keys ↔ ∃ v, m !! k = Some v ∧ P (k, v) = true.
Proof.
  rewrite list_elem_of_In, List.in_map_iff. split.
  - intros ([k' v] & <- & [Hin Hv]%List.filter_In).
    apply list_elem_of_In, elem_of_map_to_list in Hin. simpl. eauto.
  - intros (v & Hk & HP). exists (k, v). split; [done|]. apply List.filter_In.
    by rewrite <-list_elem_of_In, elem_of_map_to_list.
Qed.
Lemma NoDup_filter_keys : NoDup keys.
Proof.
  pose proof (NoDup_fst_map_to_list m) as Hn. unfold fmap in Hn.
  induction (map_to_list m) as [|[k v] l IH]; simpl in *; [constructor|].
  apply NoDup_cons in Hn as [Hk Hn]. destruct (P _); simpl; [|auto]. constructor; [|auto].
  intros Hin. apply Hk. apply list_elem_of_In, List.in_map_iff in Hin as (x & Hx & Hin).
  apply List.filter_In in Hin as [Hin _]. apply list_elem_of_In, List.in_map_iff. eauto.
Qed.
End MapKeys.

(** ** Automation *)

(** Unfold one layer of monadic code and reduce. *)
Ltac mrun := unfold mbind, M_bind, mret, M_ret, fail, lift, gets, get_state, modify,
  try, ignore, wrap, map_err in *; simpl in *.

(** Split on the scrutinee of the outermost [match] of the goal or a hypothesis. *)
Ltac case_goal :=
  match goal with
  | |- context [match ?x with _ => _ end] =>
      lazymatch x with context [match _ with _ => _ end] => fail | _ => destruct x eqn:? end
  end.
Ltac case_hyp H :=
  match type of H with
  | context [match ?x with _ => _ end] =>
      lazymatch x with context [match _ with _ => _ end] => fail | _ => destruct x eqn:? end
  end.

(** Decompose a run of monadic code in hypothesis [H] into the runs of its
    steps; one goal per way the first step can end. *)
Ltac minv H :=
  lazymatch type of H with
  | (try _ ≫= _) _ = _ =>
      let a := fresh "res" in let s := fresh "st" in let E := fresh "E" in
      apply bind_try_inv in H as (a & s & E & H)
  | (ignore _ ≫= _) _ = _ =>
      let a := fresh "res" in let s := fresh "st" in let E := fresh "E" in
      apply bind_ignore_inv in H as (a & s & E & H)
  | (gets _ ≫= _) _ = _ => apply bind_gets_inv in H
  | (get_state ≫= _) _ = _ => unfold get_state in H; apply (bind_gets_inv id) in H; simpl in H
  | (_ ≫= _) _ = _ =>
      let a := fresh "v" in let s := fresh "st" in let E := fresh "E" in let e := fresh "err" in
      apply bind_inv in H as [(a & s & E & H)|(e & E & H)]; [|first [discriminate H | subst]]
  | try _ _ = _ => let r := fresh "res" in let E := fresh "E" in
      apply try_inv in H as (r & H & E); try discriminate E; try (injection E as E; subst)
  | ignore _ _ = _ => let r := fresh "res" in let E := fresh "E" in
      apply ignore_inv in H as (r & H & E); try discriminate E
  | map_err _ _ _ = _ => let r := fresh "res" in let E := fresh "E" in
      apply map_err_inv in H as (r & H & E)
  | wrap _ _ _ = _ => unfold wrap in H; minv H
  | lift _ _ = _ => let E := fresh "E" in let F := fresh "F" in
      apply lift_inv in H as [E F]; try subst; try discriminate E
  | fail _ _ = _ => let E := fresh "E" in let F := fresh "F" in
      apply fail_inv in H as [E F]; try subst; try discriminate E
  | mret _ _ = _ => let E := fresh "E" in 
      let F := fresh "F" in
      apply ret_inv in H as [E F]; try discriminate E; try (injection E as E); try subst
  end.

(** Turn boolean tests into propositions. *)
Ltac bool_to_prop := repeat match goal with
  | H : (_ && _) = true |- _ => apply andb_true_iff in H as [? ?]
  | H : (_ || _) = false |- _ => apply orb_false_iff in H as [? ?]
  | H : negb _ = true |- _ => apply negb_true_iff in H
  | H : negb _ = false |- _ => apply negb_false_iff in H
  | H : (_ <? _) = true |- _ => apply Z.ltb_lt in H
  | H : (_ <? _) = false |- _ => apply Z.ltb_ge in H
  | H : (_ <=? _) = true |- _ => apply Z.leb_le in H
  | H : (_ <=? _) = false |- _ => apply Z.leb_gt in H
  | H : (_ =? _) = true |- _ => apply Z.eqb_eq in H
  | H : (_ =? _) = false |- _ => apply Z.eqb_neq in H
  | H : bool_decide _ = true |- _ => apply bool_decide_eq_true in H
  | H : bool_decide _ = false |- _ => apply bool_decide_eq_false in H
  end.

Create HintDb server discriminated.
#[export] Hint Resolve wrap64_range : server.
