(* ===== verification/GoStrings.v ===== *)
(** Go's [strings], [strconv] and [fmt] functions the program uses, on byte
    strings, with the lemmas about them that the components share. *)
From S2P Require Import Prelude.
Open Scope Z_scope.

Notation str1 c := (String c EmptyString).
#[global] Arguments String.append !_ _ / : simpl nomatch.

(** ** Length, concatenation, slices *)

Definition len (s : string) : Z := Z.of_nat (String.length s).

Fixpoint str_take (n : nat) (s : string) : string :=
  match n, s with
  | S n', String c s' => String c (str_take n' s')
  | _, _ => ""
  end.
Fixpoint str_drop (n : nat) (s : string) : string :=
  match n, s with
  | S n', String _ s' => str_drop n' s'
  | _, _ => s
  end.

Fixpoint str_all (p : ascii -> bool) (s : string) : bool :=
  match s with "" => true | String c s' => p c && str_all p s' end.
Definition has_char (c : ascii) (s : string) : bool := negb (str_all (λ x, negb (Ascii.eqb x c)) s).
Definition no_char (c : ascii) (s : string) : bool := str_all (λ x, negb (Ascii.eqb x c)) s.

(** ** Package strings *)

Definition HasPrefix (s p : string) : bool := String.prefix p s.
Definition TrimPrefix (s p : string) : string :=
  if HasPrefix s p then str_drop (String.length p) s else s.
(** [s] without the suffix [p], when it ends in [p]. *)
Fixpoint cut_suffix (s p : string) : option string :=
  if String.eqb s p then Some "" else
  match s with
  | "" => None
  | String c s' => match cut_suffix s' p with Some r => Some (String c r) | None => None end
  end.
Definition HasSuffix (s p : string) : bool := bool_decide (is_Some (cut_suffix s p)).
Definition TrimSuffix (s p : string) : string :=
  match cut_suffix s p with Some r => r | None => s end.

(** [strings.Split(s, c)] for a one-byte separator. *)
Fixpoint Split (s : string) (c : ascii) : list string :=
  match s with
  | "" => [""]
  | String x s' =>
      if Ascii.eqb x c then "" :: Split s' c
      else match Split s' c with
           | p :: ps => String x p :: ps
           | [] => [str1 x]
           end
  end.

(** [strings.Cut(s, c)]: [None] when the separator is not found. *)
Fixpoint Cut (s : string) (c : ascii) : option (string * string) :=
  match s with
  | "" => None
  | String x s' =>
      if Ascii.eqb x c then Some ("", s')
      else match Cut s' c with Some (a, b) => Some (String x a, b) | None => None end
  end.

(** [strings.SplitN(s, c, n)] for [n > 0]: at most [n] parts, the last one unsplit. *)
Fixpoint SplitN (s : string) (c : ascii) (n : nat) : list string :=
  match n with
  | O => []
  | S n' =>
      match n' with
      | O => [s]
      | _ => match Cut s c with
             | Some (a, b) => a :: SplitN b c n'
             | None => [s]
             end
      end
  end.

Fixpoint Join (l : list string) (sep : string) : string :=
  match l with
  | [] => ""
  | [x] => x
  | x :: l' => x +:+ sep +:+ Join l' sep
  end.

(** The UTF-8 encodings of the characters for which [unicode.IsSpace] holds. *)
Definition byte (n : nat) : ascii := ascii_of_nat n.
Definition bytes (l : list nat) : string := string_of_list_ascii (map ascii_of_nat l).
Definition space_seqs : list string :=
  map bytes ([[9]; [10]; [11]; [12]; [13]; [32]; [194; 133]; [194; 160]; [225; 154; 128];
   [226; 128; 128]; [226; 128; 129]; [226; 128; 130]; [226; 128; 131]; [226; 128; 132];
   [226; 128; 133]; [226; 128; 134]; [226; 128; 135]; [226; 128; 136]; [226; 128; 137];
   [226; 128; 138]; [226; 128; 168]; [226; 128; 169]; [226; 128; 175]; [226; 129; 159];
   [227; 128; 128]])%nat.

Fixpoint trim_left (fuel : nat) (s : string) : string :=
  match fuel with
  | O => s
  | S f => match List.find (HasPrefix s) space_seqs with
           | Some p => trim_left f (str_drop (String.length p) s)
           | None => s
           end
  end.
Fixpoint trim_right (fuel : nat) (s : string) : string :=
  match fuel with
  | O => s
  | S f => match List.find (HasSuffix s) space_seqs with
           | Some p => trim_right f (TrimSuffix s p)
           | None => s
           end
  end.
Definition TrimSpace (s : string) : string :=
  let s1 := trim_left (String.length s) s in trim_right (String.length s1) s1.

(** [sort.Strings]: byte-lexicographic. *)
Definition str_cmp (a b : string) : Z :=
  match String.compare a b with Lt => -1 | Eq => 0 | Gt => 1 end.
Definition sort_strings (l : list string) : list string := sort_by str_cmp l.

(** ** Numbers *)

Definition digit_char (d : Z) : ascii :=
  ascii_of_nat (Z.to_nat (if d <? 10 then 48 + d else 87 + d)).
Definition char_digit (c : ascii) : option Z :=
  let n := Z.of_nat (nat_of_ascii c) in
  if (48 <=? n) && (n <=? 57) then Some (n - 48)
  else if (97 <=? n) && (n <=? 122) then Some (n - 87)
  else if (65 <=? n) && (n <=? 90) then Some (n - 55)
  else None.

Fixpoint digits (fuel : nat) (b n : Z) : string :=
  match fuel with
  | O => ""
  | S f => if n <? b then str1 (digit_char n)
           else digits f b (n / b) +:+ str1 (digit_char (n `mod` b))
  end.
Definition format_uint (b n : Z) : string := digits (S (Z.to_nat (Z.log2 n))) b n.
Definition format_int (b n : Z) : string :=
  if n <? 0 then "-" +:+ format_uint b (- n) else format_uint b n.
(** [strconv.Itoa], [%d] and [%x] (of an int64). *)
Definition Itoa (n : Z) : string := format_int 10 n.
Definition fmt_x (n : Z) : string := format_int 16 n.

Fixpoint parse_digits (b : Z) (s : string) (acc : Z) : option Z :=
  match s with
  | "" => Some acc
  | String c s' =>
      match char_digit c with
      | Some d => if d <? b then parse_digits b s' (acc * b + d) else None
      | None => None
      end
  end.
Definition parse_uint (b : Z) (s : string) : option Z :=
  match s with "" => None | _ => parse_digits b s 0 end.
(** [strconv.ParseInt(s, b, 64)]: optional sign, digits, int64 range. *)
Definition ParseInt (s : string) (b : Z) : option Z :=
  let signed := match s with
    | String "-" s' => option_map Z.opp (parse_uint b s')
    | String "+" s' => parse_uint b s'
    | _ => parse_uint b s
    end in
  match signed with
  | Some n => if in_int64b n then Some n else None
  | None => None
  end.
Definition Atoi (s : string) : option Z := ParseInt s 10.

(** ** Character classes of the program's regular expressions *)
Definition in_range (lo hi : nat) (c : ascii) : bool :=
  (lo <=? nat_of_ascii c)%nat && (nat_of_ascii c <=? hi)%nat.
Definition is_lower := in_range 97 122.
Definition is_upper := in_range 65 90.
Definition is_digit := in_range 48 57.
Definition is_alnum (c : ascii) : bool := is_lower c || is_upper c || is_digit c.
Definition one_of (cs : string) (c : ascii) : bool := has_char c cs.
Definition non_empty (s : string) : bool := negb (String.eqb s "").

(** ** Lemmas: strings *)

Lemma str_app_nil_r (s : string) : s +:+ "" = s.
Proof. induction s; simpl; congruence. Qed.
Lemma str_app_assoc (a b c : string) : (a +:+ b) +:+ c = a +:+ b +:+ c.
Proof. induction a; simpl; congruence. Qed.
Lemma str_length_app (a b : string) :
  String.length (a +:+ b) = (String.length a + String.length b)%nat.
Proof. induction a; simpl; congruence. Qed.
Lemma str_app_inv_head (a b c : string) : a +:+ b = a +:+ c -> b = c.
Proof. induction a; simpl; intros H; [done|]. injection H; auto. Qed.
Lemma str_app_inv_tail (a b c : string) : a +:+ c = b +:+ c -> a = b.
Proof.
  revert b. induction a as [|x a IH]; intros [|y b] H; simpl in *; try done.
  - apply (f_equal String.length) in H. simpl in H. rewrite str_length_app in H. lia.
  - apply (f_equal String.length) in H. simpl in H. rewrite str_length_app in H. lia.
  - injection H as -> H. f_equal. auto.
Qed.

Lemma str_all_app p a b : str_all p (a +:+ b) = str_all p a && str_all p b.
Proof. induction a as [|c a IH]; simpl; [done|]. by rewrite IH, andb_assoc. Qed.
Lemma no_char_app c a b : no_char c (a +:+ b) = no_char c a && no_char c b.
Proof. apply str_all_app. Qed.
Lemma str_all_impl (p q : ascii -> bool) s :
  (∀ c, p c = true -> q c = true) -> str_all p s = true -> str_all q s = true.
Proof.
  intros Hpq. induction s as [|c s IH]; simpl; [done|].
  intros [H1 H2]%andb_true_iff. rewrite (Hpq _ H1). auto.
Qed.

Lemma HasPrefix_app s p : HasPrefix (p +:+ s) p = true.
Proof.
  unfold HasPrefix. induction p as [|c p IH]; simpl; [by destruct s|].
  by destruct (ascii_dec c c).
Qed.
Lemma HasPrefix_cons x s c p :
  HasPrefix (String x s) (String c p) = Ascii.eqb c x && HasPrefix s p.
Proof.
  unfold HasPrefix. cbn [String.prefix].
  destruct (ascii_dec c x) as [->|Hn]; [by rewrite Ascii.eqb_refl|].
  by rewrite (proj2 (Ascii.eqb_neq c x)).
Qed.
Lemma HasPrefix_nil s : HasPrefix s "" = true.
Proof. by destruct s. Qed.
Lemma HasPrefix_spec s p : HasPrefix s p = true ↔ ∃ r, s = p +:+ r.
Proof.
  split; [|intros [r ->]; apply HasPrefix_app].
  unfold HasPrefix. revert s. induction p as [|c p IH]; intros s H; simpl in *; [eauto|].
  destruct s as [|d s]; [done|]. simpl in H. destruct (ascii_dec c d) as [->|]; [|discriminate].
  destruct (IH _ H) as [r ->]. by exists r.
Qed.
Lemma cut_suffix_spec s p r : cut_suffix s p = Some r ↔ s = r +:+ p.
Proof.
  revert r. induction s as [|c s IH]; intros r; cbn [cut_suffix].
  - destruct (String.eqb_spec "" p) as [<-|Hn].
    + rewrite str_app_nil_r. split; [by intros [= <-]|by intros <-].
    + split; [done|]. destruct r; simpl; intros ?; [congruence|done].
  - destruct (String.eqb_spec (String c s) p) as [Heq|Hn].
    + split; [by intros [= <-]|]. intros H. rewrite <-Heq in H.
      apply (str_app_inv_tail "" r (String c s)) in H. by subst.
    + destruct (cut_suffix s p) as [r'|] eqn:E.
      * pose proof (proj1 (IH r') eq_refl) as ->. split.
        { by intros [= <-]. }
        destruct r as [|x r]; simpl; [intros; congruence|].
        intros [= -> H]. by apply str_app_inv_tail in H as ->.
      * split; [done|]. destruct r as [|x r]; simpl; [intros; congruence|].
        intros [= -> H]. assert (None = Some r) by (by apply IH). done.
Qed.
Lemma cut_suffix_app s p : cut_suffix (s +:+ p) p = Some s.
Proof. by apply cut_suffix_spec. Qed.
Lemma HasSuffix_spec s p : HasSuffix s p = true ↔ ∃ r, s = r +:+ p.
Proof.
  unfold HasSuffix. rewrite bool_decide_eq_true. split.
  - intros [r H]. exists r. by apply cut_suffix_spec.
  - intros [r H]. exists r. by apply cut_suffix_spec.
Qed.
Lemma HasSuffix_app s p : HasSuffix (s +:+ p) p = true.
Proof. apply HasSuffix_spec. eauto. Qed.

Lemma str_drop_app p s : str_drop (String.length p) (p +:+ s) = s.
Proof. by induction p. Qed.
Lemma TrimPrefix_app p s : TrimPrefix (p +:+ s) p = s.
Proof. unfold TrimPrefix. by rewrite HasPrefix_app, str_drop_app. Qed.
Lemma TrimSuffix_app p s : TrimSuffix (p +:+ s) s = p.
Proof. unfold TrimSuffix. by rewrite cut_suffix_app. Qed.

(** ** Lemmas: splitting and joining *)

Lemma Cut_spec s c a b : Cut s c = Some (a, b) → s = a +:+ String c b ∧ no_char c a = true.
Proof.
  revert a. induction s as [|x s IH]; intros a H; simpl in *; [done|].
  destruct (Ascii.eqb_spec x c) as [->|Hn].
  - by simplify_eq.
  - destruct (Cut s c) as [[a' b']|] eqn:E; [|done]. simplify_eq/=.
    destruct (IH _ eq_refl) as [-> H]. split; [done|].
    unfold no_char in *. simpl. destruct (Ascii.eqb_spec x c); [done|]. done.
Qed.
Lemma Cut_app s c t : no_char c s = true -> Cut (s +:+ String c t) c = Some (s, t).
Proof.
  induction s as [|x s IH]; simpl; intros H.
  - by rewrite Ascii.eqb_refl.
  - apply andb_true_iff in H as [H1 H2]. apply negb_true_iff in H1. rewrite H1.
    by rewrite IH.
Qed.
Lemma SplitN_app a c b n :
  no_char c a = true -> SplitN (a +:+ String c "" +:+ b) c (S (S n)) = a :: SplitN b c (S n).
Proof. intros Ha. change (String c "" +:+ b) with (String c b). cbn [SplitN]. by rewrite Cut_app. Qed.
Lemma last_char_app a b r c :
  b <> "" -> no_char c b = true -> a +:+ b <> r +:+ str1 c.
Proof.
  intros Hb Hc. revert r. induction a as [|x a IH]; intros r E.
  - change (b = r +:+ str1 c) in E. rewrite E, no_char_app in Hc.
    apply andb_true_iff in Hc as [_ Hc]. unfold no_char in Hc. simpl in Hc.
    by rewrite Ascii.eqb_refl in Hc.
  - destruct r as [|y r].
    + apply (f_equal String.length) in E. simpl in E. rewrite str_length_app in E.
      destruct b; [done|]. simpl in E. lia.
    + injection E as _ E. by apply IH in E.
Qed.
Lemma Cut_None s c : no_char c s = true -> Cut s c = None.
Proof.
  induction s as [|x s IH]; simpl; intros H; [done|].
  apply andb_true_iff in H as [H1 H2]. apply negb_true_iff in H1. rewrite H1.
  by rewrite IH.
Qed.

Lemma Split_no_char s c : no_char c s = true -> Split s c = [s].
Proof.
  induction s as [|x s IH]; simpl; intros H; [done|].
  apply andb_true_iff in H as [H1 H2]. apply negb_true_iff in H1. rewrite H1.
  by rewrite IH.
Qed.
Lemma Split_app s c t : no_char c s = true -> Split (s +:+ String c t) c = s :: Split t c.
Proof.
  induction s as [|x s IH]; simpl; intros H.
  - by rewrite Ascii.eqb_refl.
  - apply andb_true_iff in H as [H1 H2]. apply negb_true_iff in H1. rewrite H1.
    by rewrite IH.
Qed.
Lemma Split_not_nil s c : Split s c <> [].
Proof.
  destruct s as [|x s]; simpl; [done|]. destruct (Ascii.eqb x c); [done|].
  by destruct (Split s c).
Qed.
Lemma Split_elem_no_char s c x : x ∈ Split s c -> no_char c x = true.
Proof.
  revert x. induction s as [|y s IH]; intros x; simpl.
  - intros ->%list_elem_of_singleton. done.
  - destruct (Ascii.eqb y c) eqn:E.
    + intros [->|H]%elem_of_cons; [done|auto].
    + destruct (Split s c) as [|p ps] eqn:Es; [by destruct (Split_not_nil s c)|].
      intros [->|H]%elem_of_cons; [|apply IH; by constructor].
      unfold no_char. simpl. rewrite E. apply IH. constructor.
Qed.
Lemma Join_cons x l sep : l <> [] -> Join (x :: l) sep = x +:+ sep +:+ Join l sep.
Proof. by destruct l. Qed.
Lemma Join_cons_char x p ps sep : Join (String x p :: ps) sep = String x (Join (p :: ps) sep).
Proof. by destruct ps. Qed.
Lemma Join_Split s c : Join (Split s c) (str1 c) = s.
Proof.
  induction s as [|x s IH]; [done|]. cbn [Split]. pose proof (Split_not_nil s c).
  destruct (Ascii.eqb_spec x c) as [->|Hn].
  - rewrite Join_cons by done. by rewrite IH.
  - destruct (Split s c) as [|p ps]; [done|]. by rewrite Join_cons_char, IH.
Qed.
Lemma Split_Join l c :
  l <> [] -> Forall (λ x, no_char c x = true) l -> Split (Join l (str1 c)) c = l.
Proof.
  intros Hne. induction 1 as [|x l Hx Hl IH]; [done|].
  destruct l as [|y l]; [by apply Split_no_char|].
  change (Join (x :: y :: l) (str1 c)) with (x +:+ String c (Join (y :: l) (str1 c))).
  rewrite Split_app by done. by rewrite IH.
Qed.

(** ** Lemmas: numbers *)

Lemma char_digit_char d : 0 <= d < 16 -> char_digit (digit_char d) = Some d.
Proof.
  intros H. assert (In d [0;1;2;3;4;5;6;7;8;9;10;11;12;13;14;15]) as Hin by (simpl; lia).
  simpl in Hin. repeat destruct Hin as [<-|Hin]; try done.
Qed.
Lemma parse_digits_app b s t acc :
  parse_digits b (s +:+ t) acc =
  match parse_digits b s acc with Some a => parse_digits b t a | None => None end.
Proof.
  revert acc. induction s as [|c s IH]; intros acc; simpl; [done|].
  destruct (char_digit c) as [d|]; [|done]. destruct (d <? b); [|done]. apply IH.
Qed.
Lemma digits_parse fuel b n :
  2 <= b <= 16 -> 0 <= n < b ^ Z.of_nat fuel -> parse_digits b (digits fuel b n) 0 = Some n.
Proof.
  intros Hb. revert n. induction fuel as [|f IH]; intros n Hn.
  { simpl in *. f_equal. lia. }
  cbn [digits]. destruct (Z.ltb_spec n b).
  - simpl. rewrite char_digit_char by lia. rewrite (proj2 (Z.ltb_lt n b)) by done. done.
  - rewrite parse_digits_app, IH.
    + simpl. pose proof (Z.mod_pos_bound n b).
      rewrite char_digit_char by lia. rewrite (proj2 (Z.ltb_lt (n `mod` b) b)) by lia.
      f_equal. rewrite (Z.div_mod n b) at 3 by lia. lia.
    + rewrite Nat2Z.inj_succ, Z.pow_succ_r in Hn by lia.
      split; [apply Z.div_pos; lia|]. apply Z.div_lt_upper_bound; lia.
Qed.
Lemma log2_pow_bound b n : 2 <= b -> 0 <= n -> n < b ^ Z.of_nat (S (Z.to_nat (Z.log2 n))).
Proof.
  intros Hb Hn. apply Z.lt_le_trans with (2 ^ Z.of_nat (S (Z.to_nat (Z.log2 n)))).
  - destruct (Z.eq_dec n 0) as [->|]; [simpl; lia|].
    pose proof (Z.log2_spec n). pose proof (Z.log2_nonneg n).
    rewrite Nat2Z.inj_succ, Z2Nat.id by lia. lia.
  - apply Z.pow_le_mono_l. lia.
Qed.
Lemma parse_format_uint b n :
  2 <= b <= 16 -> 0 <= n -> parse_uint b (format_uint b n) = Some n.
Proof.
  intros Hb Hn. pose proof (digits_parse (S (Z.to_nat (Z.log2 n))) b n Hb) as H.
  unfold parse_uint, format_uint.
  destruct (digits _ b n) eqn:E.
  - exfalso. cbn [digits] in E. destruct (n <? b); [done|].
    apply (f_equal String.length) in E. rewrite str_length_app in E. simpl in E. lia.
  - rewrite <-E in *. apply H. split; [done|]. apply log2_pow_bound; lia.
Qed.

(** The characters [format_uint] emits are digits. *)
Definition is_hexdigit (c : ascii) : bool := is_digit c || in_range 97 102 c.
Lemma digit_char_hex d : 0 <= d < 16 -> is_hexdigit (digit_char d) = true.
Proof.
  intros H. assert (In d [0;1;2;3;4;5;6;7;8;9;10;11;12;13;14;15]) as Hin by (simpl; lia).
  simpl in Hin. repeat destruct Hin as [<-|Hin]; try done.
Qed.
Lemma digits_hex fuel b n :
  2 <= b <= 16 -> 0 <= n -> str_all is_hexdigit (digits fuel b n) = true.
Proof.
  intros Hb. revert n. induction fuel as [|f IH]; intros n Hn; [done|].
  cbn [digits]. destruct (Z.ltb_spec n b).
  - cbn [str_all]. rewrite digit_char_hex by lia. done.
  - rewrite str_all_app, IH by (apply Z.div_pos; lia).
    pose proof (Z.mod_pos_bound n b). cbn [str_all].
    rewrite digit_char_hex by lia. done.
Qed.
Lemma format_uint_hex b n :
  2 <= b <= 16 -> 0 <= n -> str_all is_hexdigit (format_uint b n) = true.
Proof. apply digits_hex. Qed.
Lemma format_uint_not_sign b n :
  2 <= b <= 16 -> 0 <= n ->
  ∃ c s, format_uint b n = String c s ∧ is_hexdigit c = true.
Proof.
  intros Hb Hn. pose proof (format_uint_hex b n Hb Hn) as H.
  pose proof (parse_format_uint b n Hb Hn) as Hp.
  destruct (format_uint b n) as [|c s]; [done|]. simpl in H.
  apply andb_true_iff in H as [H _]. eauto.
Qed.

(** [strconv.ParseInt] inverts [%d] / [%x] on the int64 range. *)
Lemma ParseInt_format b n :
  2 <= b <= 16 -> in_int64 n -> ParseInt (format_int b n) b = Some n.
Proof.
  intros Hb Hn. unfold ParseInt, format_int.
  assert (in_int64b n = true) as Hr.
  { unfold in_int64, in_int64b in *. apply andb_true_iff.
    split; [apply Z.leb_le|apply Z.ltb_lt]; lia. }
  destruct (Z.ltb_spec n 0).
  - cbn -[parse_uint format_uint in_int64b]. rewrite parse_format_uint by lia.
    cbn -[in_int64b]. rewrite Z.opp_involutive, Hr. done.
  - destruct (format_uint_not_sign b n) as (c & s & E & Hc); [lia..|].
    pose proof (parse_format_uint b n Hb ltac:(lia)) as Hp. rewrite E in *.
    destruct c as [[] [] [] [] [] [] [] []]; try done; rewrite Hp, Hr; done.
Qed.
Lemma Atoi_Itoa n : in_int64 n -> Atoi (Itoa n) = Some n.
Proof. apply ParseInt_format. lia. Qed.
Lemma Itoa_inj n m : in_int64 n -> in_int64 m -> Itoa n = Itoa m -> n = m.
Proof. intros H1 H2 H. apply Atoi_Itoa in H1, H2. congruence. Qed.

Lemma format_int_no_char c b n :
  2 <= b <= 16 -> negb (is_hexdigit c) && negb (Ascii.eqb c "-") = true -> no_char c (format_int b n) = true.
Proof.
  intros Hb [Hc Hm]%andb_true_iff. apply negb_true_iff in Hc, Hm.
  assert (∀ m, 0 <= m -> no_char c (format_uint b m) = true) as Hu.
  { intros m Hm0. eapply str_all_impl; [|apply format_uint_hex; eassumption].
    intros x Hx. apply negb_true_iff. destruct (Ascii.eqb_spec x c) as [->|]; [congruence|done]. }
  unfold format_int. destruct (n <? 0) eqn:E.
  - bool_to_prop. rewrite no_char_app. apply andb_true_iff. split; [|apply Hu; lia].
    unfold no_char. cbn [str_all]. rewrite andb_true_r.
    apply negb_true_iff. destruct (Ascii.eqb_spec "-" c) as [<-|]; [done|reflexivity].
  - bool_to_prop. apply Hu; lia.
Qed.

#[export] Hint Rewrite str_length_app str_app_nil_r str_app_assoc : server.

(** ** Lemmas: the byte order of strings *)
Lemma ascii_compare_lt_trans a b c :
  Ascii.compare a b = Lt -> Ascii.compare b c = Lt -> Ascii.compare a c = Lt.
Proof. unfold Ascii.compare. rewrite !N.compare_lt_iff. lia. Qed.
Lemma ascii_compare_eq a b : Ascii.compare a b = Eq -> a = b.
Proof.
  unfold Ascii.compare. rewrite N.compare_eq_iff. intros E.
  by rewrite <-(ascii_N_embedding a), <-(ascii_N_embedding b), E.
Qed.
Lemma string_compare_lt_trans a b c :
  String.compare a b = Lt -> String.compare b c = Lt -> String.compare a c = Lt.
Proof.
  revert b c. induction a as [|x a IH]; intros [|y b] [|z c]; simpl; try done.
  destruct (Ascii.compare x y) eqn:E1; [| |done]; destruct (Ascii.compare y z) eqn:E2; try done.
  - apply ascii_compare_eq in E1, E2. subst. replace (Ascii.compare z z) with Eq; [apply IH|].
    symmetry. unfold Ascii.compare. by rewrite N.compare_refl.
  - apply ascii_compare_eq in E1. subst. by rewrite E2.
  - apply ascii_compare_eq in E2. subst. by rewrite E1.
  - by rewrite (ascii_compare_lt_trans _ _ _ E1 E2).
Qed.
Lemma str_cmp_lt a b : str_cmp a b < 0 ↔ String.compare a b = Lt.
Proof. unfold str_cmp. destruct (String.compare a b); split; (done || lia). Qed.
Lemma str_cmp_trans a b c : str_cmp a b < 0 -> str_cmp b c < 0 -> str_cmp a c < 0.
Proof. rewrite !str_cmp_lt. apply string_compare_lt_trans. Qed.
Lemma str_cmp_antisym a b : str_cmp a b = - str_cmp b a.
Proof. unfold str_cmp. rewrite String.compare_antisym. by destruct (String.compare b a). Qed.
Lemma str_cmp_eq a b : str_cmp a b = 0 -> a = b.
Proof. unfold str_cmp. destruct (String.compare a b) eqn:E; [by apply String.compare_eq_iff in E|lia|lia]. Qed.
