(* ===== verification/Bytes.v ===== *)
(** Go byte slices: indexing and slicing with their bounds checks, and
    package encoding/binary's fixed-width integers. *)
From S2P Require Import Prelude GoStrings.

(** [data[i]] and [data[a:b]].  Go checks the upper bound of a slice of a slice
    against its capacity; the model checks the length, so an index it accepts
    is one that reads the data. *)
Definition index_out_of_range : error := ErrPanic "index out of range".
Definition slice (data : string) (a b : Z) : result string :=
  if (0 <=? a) && (a <=? b) && (b <=? len data)
  then Ok (str_take (Z.to_nat (b - a)) (str_drop (Z.to_nat a) data))
  else Err index_out_of_range.
Definition byte_val (c : ascii) : Z := Z.of_nat (nat_of_ascii c).
Definition index (data : string) (i : Z) : result Z :=
  match slice data i (i + 1) with
  | Ok (String c _) => Ok (byte_val c)
  | Ok "" => Err index_out_of_range
  | Err e => Err e
  end.

(** Little-endian and big-endian unsigned integers. *)
Fixpoint le_value (s : string) : Z :=
  match s with "" => 0 | String c s' => byte_val c + 256 * le_value s' end.
Fixpoint be_value_acc (acc : Z) (s : string) : Z :=
  match s with "" => acc | String c s' => be_value_acc (256 * acc + byte_val c) s' end.
Definition le_uint (n : nat) (data : string) : result Z :=
  if len data <? Z.of_nat n then Err index_out_of_range else Ok (le_value (str_take n data)).
Definition LittleEndian_Uint16 := le_uint 2.
Definition LittleEndian_Uint32 := le_uint 4.
Definition BigEndian_Uint32 (data : string) : result Z :=
  if len data <? 4 then Err index_out_of_range else Ok (be_value_acc 0 (str_take 4 data)).

(** The encoder of little-endian integers, for specifications. *)
Fixpoint le_bytes (n : nat) (z : Z) : string :=
  match n with
  | O => ""
  | S n' => String (ascii_of_nat (Z.to_nat (z mod 256))) (le_bytes n' (z / 256))
  end.

(** ** Theory *)

Lemma len_app a b : len (a +:+ b) = len a + len b.
Proof. unfold len. rewrite str_length_app. lia. Qed.
Lemma len_nonneg s : 0 <= len s.
Proof. unfold len. lia. Qed.
Lemma len_cons c s : len (String c s) = 1 + len s.
Proof. unfold len. simpl. lia. Qed.
Lemma len_0 s : len s = 0 -> s = "".
Proof. destruct s; [done|]. rewrite len_cons. pose proof (len_nonneg s). lia. Qed.
Lemma len_app_nonempty a b : len b <> 0 -> len (a +:+ b) <> 0.
Proof. rewrite len_app. pose proof (len_nonneg a). pose proof (len_nonneg b). lia. Qed.
Lemma str_take_app_exact a b : str_take (String.length a) (a +:+ b) = a.
Proof. induction a as [|c a IH]; simpl; [by destruct b|by rewrite IH]. Qed.
Lemma str_take_all n s : (String.length s <= n)%nat -> str_take n s = s.
Proof. revert s. induction n as [|n IH]; intros [|c s] H; simpl in *; [done|lia|done|]. rewrite IH; [done|lia]. Qed.
Lemma str_take_len n s : (n <= String.length s)%nat -> String.length (str_take n s) = n.
Proof. revert s. induction n as [|n IH]; intros [|c s] H; simpl in *; [done|done|lia|]. rewrite IH; lia. Qed.
Lemma str_drop_len n s : String.length (str_drop n s) = (String.length s - n)%nat.
Proof. revert s. induction n as [|n IH]; intros [|c s]; simpl; try done. Qed.
Lemma str_take_drop n s : str_take n s +:+ str_drop n s = s.
Proof. revert s. induction n as [|n IH]; intros [|c s]; simpl; try done. by rewrite IH. Qed.

Lemma slice_spec data a b r :
  slice data a b = r ->
  match r with
  | Ok s => 0 <= a <= b ∧ b <= len data ∧ len s = b - a
  | Err e => e = index_out_of_range ∧ ~ (0 <= a <= b ∧ b <= len data)
  end.
Proof.
  unfold slice. intros <-. destruct (_ && _) eqn:E.
  - bool_to_prop. split_and!; try lia. unfold len in *. rewrite str_take_len; [lia|]. rewrite str_drop_len. lia.
  - split; [done|]. intros [[H1 H2] H3]. by rewrite (proj2 (Z.leb_le _ _) H1), (proj2 (Z.leb_le _ _) H2), (proj2 (Z.leb_le _ _) H3) in E.
Qed.
Lemma slice_app a b c : slice (a +:+ b +:+ c) (len a) (len a + len b) = Ok b.
Proof.
  unfold slice. rewrite !len_app. pose proof (len_nonneg a). pose proof (len_nonneg b). pose proof (len_nonneg c).
  rewrite !(proj2 (Z.leb_le _ _)) by lia. simpl. f_equal.
  replace (Z.to_nat (len a)) with (String.length a) by (unfold len; lia).
  replace (Z.to_nat (len a + len b - len a)) with (String.length b) by (unfold len; lia).
  by rewrite str_drop_app, str_take_app_exact.
Qed.
(** A slice is found wherever the data splits around it. *)
Lemma slice_at data x a b c i j :
  data = a +:+ b +:+ c -> i = len a -> j = len a + len b -> x = b -> slice data i j = Ok x.
Proof. intros -> -> -> ->. apply slice_app. Qed.
Lemma slice_from data i : 0 <= i <= len data -> ∃ s, slice data i (len data) = Ok s ∧ len s = len data - i.
Proof.
  intros H. destruct (slice data i (len data)) as [s|e] eqn:E; apply slice_spec in E; [|lia].
  eexists. split; [done|]. lia.
Qed.

Lemma byte_val_range c : 0 <= byte_val c < 256.
Proof. unfold byte_val. pose proof (nat_ascii_bounded c). lia. Qed.
Lemma le_value_range s : 0 <= le_value s < 256 ^ len s.
Proof.
  induction s as [|c s IH]; [done|]. cbn [le_value]. rewrite len_cons, Z.pow_add_r by (pose proof (len_nonneg s); lia).
  pose proof (byte_val_range c). nia.
Qed.
Lemma le_bytes_len n z : len (le_bytes n z) = Z.of_nat n.
Proof. revert z. induction n as [|n IH]; intros z; [done|]. cbn [le_bytes]. rewrite len_cons, IH. lia. Qed.
Lemma le_value_bytes n z : 0 <= z < 256 ^ Z.of_nat n -> le_value (le_bytes n z) = z.
Proof.
  revert z. induction n as [|n IH]; intros z Hz; [simpl in *; lia|]. cbn [le_bytes le_value].
  rewrite Nat2Z.inj_succ, Z.pow_succ_r in Hz by lia.
  rewrite IH by (split; [apply Z.div_pos; lia|apply Z.div_lt_upper_bound; lia]).
  unfold byte_val. pose proof (Z.mod_pos_bound z 256). rewrite nat_ascii_embedding by lia.
  rewrite Z2Nat.id by lia. pose proof (Z.div_mod z 256). lia.
Qed.
Lemma be_value_acc_nonneg s acc : 0 <= acc -> 0 <= be_value_acc acc s.
Proof. revert acc. induction s as [|c s IH]; intros acc H; [done|]. apply IH. pose proof (byte_val_range c). lia. Qed.

(** ** Computations that do not panic: no run that is not made to panic from
    outside ends in a panic. *)
Definition no_panic {A} (r : result A) : Prop := match r with Ok _ => True | Err e => panics e = false end.
Lemma no_panic_bind {A B} (r : result A) (f : A -> result B) :
  no_panic r -> (∀ a, r = Ok a -> no_panic (f a)) -> no_panic (r ≫= f).
Proof. destruct r; simpl; auto. Qed.
Lemma slice_no_panic data a b : 0 <= a <= b -> b <= len data -> no_panic (slice data a b).
Proof. intros. destruct (slice data a b) eqn:E; [done|]. apply slice_spec in E. lia. Qed.
