(* ===== verification/GoPath.v ===== *)
(** Go's package [path/filepath] on Unix: [Clean], [Join], [Dir], [Split] and
    [Rel], with the theory of cleaned paths the storage layer relies on. *)
From S2P Require Import Prelude GoStrings.
Open Scope Z_scope.

Notation slash := ("/"%char) (only parsing).

(** One path element against the stack of the elements kept so far (top first). *)
Definition comp_step (rooted : bool) (stk : list string) (c : string) : list string :=
  if bool_decide (c = "" \/ c = ".") then stk
  else if bool_decide (c = "..") then
    match stk with
    | t :: stk' => if bool_decide (t = "..") then ".." :: stk else stk'
    | [] => if rooted then [] else [".."]
    end
  else c :: stk.

Definition clean_comps (rooted : bool) (l : list string) : list string :=
  reverse (foldl (comp_step rooted) [] l).
Definition render (rooted : bool) (cs : list string) : string :=
  if rooted then "/" +:+ Join cs "/"
  else match cs with [] => "." | _ => Join cs "/" end.

Definition rooted (p : string) : bool := HasPrefix p "/".
Definition comps (p : string) : list string := clean_comps (rooted p) (Split p slash).
Definition Clean (p : string) : string := render (rooted p) (comps p).

(** [filepath.Join]: leading empty elements are dropped, the rest is joined and cleaned. *)
Fixpoint filepath_Join (l : list string) : string :=
  match l with
  | [] => ""
  | e :: l' => if String.eqb e "" then filepath_Join l' else Clean (Join l "/")
  end.

(** The path up to and including its last slash, and the rest. *)
Fixpoint filepath_Split (p : string) : string * string :=
  match p with
  | "" => ("", "")
  | String c p' =>
      let '(d, f) := filepath_Split p' in
      if Ascii.eqb c slash then (String c d, f)
      else if String.eqb d "" then ("", String c f) else (String c d, f)
  end.
Definition filepath_Dir (p : string) : string := Clean (filepath_Split p).1.

Fixpoint strip_common (a b : list string) : list string * list string :=
  match a, b with
  | x :: a', y :: b' => if String.eqb x y then strip_common a' b' else (a, b)
  | _, _ => (a, b)
  end.
Definition filepath_Rel (base targ : string) : result string :=
  if String.eqb (Clean base) (Clean targ) then Ok "." else
  if negb (Bool.eqb (rooted base) (rooted targ)) then Err (ErrMsg "Rel: can't make relative") else
  let '(b, t) := strip_common (comps base) (comps targ) in
  match b with
  | ".." :: _ => Err (ErrMsg "Rel: can't make relative")
  | _ => Ok (Join (map (λ _, "..") b ++ t) "/")
  end.

(** ** Theory *)

(** A plain directory entry name. *)
Definition name_ok (c : string) : Prop :=
  c <> "" ∧ c <> "." ∧ c <> ".." ∧ no_char slash c = true.
#[global] Instance name_ok_dec c : Decision (name_ok c).
Proof. unfold name_ok. apply _. Defined.

(** Elements of a cleaned path: some [..] (none when rooted), then names. *)
Definition comps_ok (r : bool) (cs : list string) : Prop :=
  ∃ n names, cs = replicate n ".." ++ names ∧ Forall name_ok names ∧ (r = true -> n = O).

Lemma comp_step_name r stk c : name_ok c -> comp_step r stk c = c :: stk.
Proof.
  intros (H1 & H2 & H3 & _). unfold comp_step.
  rewrite bool_decide_eq_false_2 by (by intros [?|?]). by rewrite bool_decide_eq_false_2.
Qed.

Lemma comp_step_dots r stk :
  stk = [] \/ head stk = Some ".." -> r = false -> comp_step r stk ".." = ".." :: stk.
Proof.
  intros Hs ->. unfold comp_step. simpl.
  destruct stk as [|t stk]; [done|]. destruct Hs as [|[= ->]]; [done|].
  by rewrite bool_decide_eq_true_2.
Qed.

Lemma comp_step_pop r t stk : t <> ".." -> comp_step r (t :: stk) ".." = stk.
Proof. intros H. unfold comp_step. simpl. by rewrite bool_decide_eq_false_2. Qed.

Lemma foldl_names r names stk :
  Forall name_ok names -> foldl (comp_step r) stk names = reverse names ++ stk.
Proof.
  intros H. revert stk. induction H as [|c names Hc Hn IH]; intros stk; [done|].
  simpl. rewrite comp_step_name, IH by done. rewrite reverse_cons. by rewrite <-app_assoc.
Qed.
Lemma foldl_dots_acc n m :
  foldl (comp_step false) (replicate m "..") (replicate n "..") = replicate (n + m) "..".
Proof.
  revert m. induction n as [|n IH]; intros m; [done|]. simpl.
  rewrite comp_step_dots; [|destruct m; simpl; auto|done].
  change (".." :: replicate m "..") with (replicate (S m) ".."). rewrite IH.
  replace (n + S m)%nat with (S (n + m)) by lia. done.
Qed.
Lemma foldl_dots n : foldl (comp_step false) [] (replicate n "..") = replicate n "..".
Proof. change [] with (replicate 0 (A:=string) ".."). by rewrite foldl_dots_acc, Nat.add_0_r. Qed.

Lemma clean_comps_fixed r cs : comps_ok r cs -> clean_comps r cs = cs.
Proof.
  intros (n & names & -> & Hn & Hr). unfold clean_comps. rewrite foldl_app.
  destruct r.
  - rewrite (Hr eq_refl). simpl. rewrite foldl_names by done.
    by rewrite app_nil_r, reverse_involutive.
  - rewrite foldl_dots, foldl_names by done. rewrite reverse_app, reverse_involutive.
    f_equal. rewrite reverse_replicate. done.
Qed.

Lemma comp_step_ok r stk c :
  no_char slash c = true -> comps_ok r (reverse stk) -> comps_ok r (reverse (comp_step r stk c)).
Proof.
  intros Hc (n & names & E & Hn & Hr). unfold comp_step.
  destruct (bool_decide_reflect (c = "" \/ c = ".")); [by exists n, names|].
  destruct (bool_decide_reflect (c = "..")) as [->|].
  - destruct stk as [|t stk'].
    + destruct r; [by exists n, names|]. exists 1%nat, []. by repeat constructor.
    + rewrite reverse_cons in E. destruct (bool_decide_reflect (t = "..")) as [->|Ht].
      * destruct names as [|x names] using rev_ind.
        -- rewrite app_nil_r in E. exists (S n), []. rewrite !reverse_cons, E. split_and!; auto.
           { by rewrite app_nil_r, <-replicate_S_end. }
           intros Hrt. specialize (Hr Hrt). subst n. by destruct (reverse stk').
        -- rewrite app_assoc in E. apply app_inj_tail in E as [_ <-].
           apply Forall_app in Hn as [_ Hx]. apply Forall_inv in Hx. by destruct Hx as (_ & _ & ? & _).
      * destruct names as [|x names _] using rev_ind.
        -- rewrite app_nil_r in E. destruct n as [|n]; [by destruct (reverse stk')|].
           rewrite replicate_S_end in E. apply app_inj_tail in E as [_ ->]. done.
        -- rewrite app_assoc in E. apply app_inj_tail in E as [-> _].
           apply Forall_app in Hn as [? _]. by exists n, names.
  - exists n, (names ++ [c]). rewrite reverse_cons, E, app_assoc. split_and!; auto.
    apply Forall_app; split; [done|]. repeat constructor; naive_solver.
Qed.

Lemma foldl_comp_ok r l stk :
  Forall (λ c, no_char slash c = true) l -> comps_ok r (reverse stk) ->
  comps_ok r (reverse (foldl (comp_step r) stk l)).
Proof.
  intros Hl. revert stk. induction Hl as [|c l Hc Hl IH]; intros stk Hs; [done|].
  simpl. apply IH. by apply comp_step_ok.
Qed.
Lemma Split_no_slash p : Forall (λ c, no_char slash c = true) (Split p slash).
Proof. apply Forall_forall. intros x. apply Split_elem_no_char. Qed.
Lemma comps_ok_comps p : comps_ok (rooted p) (comps p).
Proof.
  apply foldl_comp_ok; [apply Split_no_slash|]. exists O, []. by repeat constructor.
Qed.

Lemma comps_ok_no_slash r cs : comps_ok r cs -> Forall (λ c, no_char slash c = true) cs.
Proof.
  intros (n & names & -> & Hn & _). apply Forall_app. split.
  - apply Forall_replicate. done.
  - eapply Forall_impl; [done|]. by intros x (_ & _ & _ & ?).
Qed.
Lemma comps_ok_head r c cs : comps_ok r (c :: cs) -> c <> "" ∧ c <> ".".
Proof.
  intros (n & names & E & Hn & _). destruct n; simpl in E.
  - subst names. apply Forall_inv in Hn. by destruct Hn as (? & ? & _).
  - by injection E as -> _.
Qed.

Lemma Split_slash_head s : Split ("/" +:+ s) slash = "" :: Split s slash.
Proof. done. Qed.
Lemma foldl_skip_empty r l : foldl (comp_step r) [] ("" :: l) = foldl (comp_step r) [] l.
Proof. done. Qed.

Lemma HasPrefix_Join_slash c cs :
  c <> "" -> no_char slash c = true -> HasPrefix (Join (c :: cs) "/") "/" = false.
Proof.
  destruct c as [|x c]; [done|]. intros _ H. rewrite Join_cons_char.
  rewrite HasPrefix_cons. simpl in H. apply andb_true_iff in H as [H _].
  destruct (Ascii.eqb_spec "/" x) as [<-|]; [discriminate H|done].
Qed.

Lemma rooted_render r cs : comps_ok r cs -> rooted (render r cs) = r.
Proof.
  intros Hok. unfold rooted, render. destruct r.
  - apply HasPrefix_app.
  - destruct cs as [|c cs]; [done|]. apply HasPrefix_Join_slash.
    + by eapply comps_ok_head.
    + by apply comps_ok_no_slash, Forall_inv in Hok.
Qed.
Lemma comps_render r cs : comps_ok r cs -> comps (render r cs) = cs.
Proof.
  intros Hok. unfold comps. rewrite rooted_render by done.
  pose proof (comps_ok_no_slash _ _ Hok) as Hs. unfold render. destruct r.
  - rewrite Split_slash_head. unfold clean_comps. rewrite foldl_skip_empty.
    destruct cs as [|c cs]; [done|].
    rewrite (Split_Join (c :: cs) slash) by done. by apply clean_comps_fixed.
  - destruct cs as [|c cs]; [done|].
    rewrite (Split_Join (c :: cs) slash) by done. by apply clean_comps_fixed.
Qed.

Lemma Clean_idemp p : Clean (Clean p) = Clean p.
Proof.
  pose proof (comps_ok_comps p) as H. unfold Clean at 1.
  unfold Clean at 1 2. by rewrite rooted_render, comps_render.
Qed.
Lemma comps_Clean p : comps (Clean p) = comps p.
Proof. apply comps_render, comps_ok_comps. Qed.
Lemma rooted_Clean p : rooted (Clean p) = rooted p.
Proof. apply rooted_render, comps_ok_comps. Qed.

Lemma Split_app_slash a b : Split (a +:+ "/" +:+ b) slash = Split a slash ++ Split b slash.
Proof.
  induction a as [|x a IH]; [done|].
  change (String x a +:+ "/" +:+ b) with (String x (a +:+ "/" +:+ b)). cbn [Split].
  rewrite IH. destruct (Ascii.eqb x slash); [done|].
  pose proof (Split_not_nil a slash). by destruct (Split a slash).
Qed.
Lemma rooted_app a b : a <> "" -> rooted (a +:+ b) = rooted a.
Proof.
  destruct a as [|x a]; [done|]. intros _. unfold rooted.
  change (String x a +:+ b) with (String x (a +:+ b)). by rewrite !HasPrefix_cons, !HasPrefix_nil.
Qed.

(** The elements of [a/b] are those of [b] resolved on top of those of [a]. *)
Lemma comps_app a b :
  a <> "" ->
  comps (a +:+ "/" +:+ b) =
  reverse (foldl (comp_step (rooted a)) (reverse (comps a)) (Split b slash)).
Proof.
  intros Ha. unfold comps. rewrite rooted_app, Split_app_slash by done.
  unfold clean_comps. by rewrite foldl_app, reverse_involutive.
Qed.
Lemma comps_app_name a c : a <> "" -> name_ok c -> comps (a +:+ "/" +:+ c) = comps a ++ [c].
Proof.
  intros Ha Hc. rewrite comps_app by done. rewrite Split_no_char by (by destruct Hc as (_&_&_&?)).
  simpl. rewrite comp_step_name by done. by rewrite reverse_cons, reverse_involutive.
Qed.

Lemma Join_snoc l x sep : l <> [] -> Join (l ++ [x]) sep = Join l sep +:+ sep +:+ x.
Proof.
  induction l as [|y l IH]; [done|]. intros _. destruct l as [|z l]; [done|].
  change ((y :: z :: l) ++ [x])%list with (y :: ((z :: l) ++ [x])).
  rewrite Join_cons by done. rewrite IH by done. rewrite (Join_cons y (z :: l)) by done.
  by rewrite !str_app_assoc.
Qed.
Lemma render_snoc r cs c : cs <> [] -> render r (cs ++ [c]) = render r cs +:+ "/" +:+ c.
Proof.
  intros Hne. unfold render. rewrite Join_snoc by done.
  destruct r; [done|]. by destruct cs.
Qed.

Lemma Clean_nonempty p : Clean p <> "".
Proof.
  unfold Clean, render. destruct (rooted p); [done|].
  pose proof (comps_ok_comps p) as H. destruct (comps p) as [|c cs]; [done|].
  apply comps_ok_head in H as [H _]. destruct c; [done|]. by rewrite Join_cons_char.
Qed.

(** A directory whose entries are [root/name]: a clean path other than [/] and [.]. *)
Definition dir_ok (root : string) : Prop := Clean root = root ∧ comps root <> [].

Lemma dir_ok_nonempty root : dir_ok root -> root <> "".
Proof. intros [<- _]. apply Clean_nonempty. Qed.
Lemma comps_inj a b : Clean a = a -> Clean b = b -> rooted a = rooted b -> comps a = comps b -> a = b.
Proof. intros Ha Hb Hr Hc. rewrite <-Ha, <-Hb. unfold Clean. by rewrite Hr, Hc. Qed.

Lemma Join_entry root c :
  dir_ok root -> name_ok c -> filepath_Join [root; c] = root +:+ "/" +:+ c.
Proof.
  intros Hr Hc. pose proof (dir_ok_nonempty _ Hr) as Hne. destruct Hr as [Hr Hcs].
  cbn [filepath_Join]. destruct (String.eqb_spec root ""); [done|].
  change (Join [root; c] "/") with (root +:+ "/" +:+ c).
  unfold Clean. rewrite rooted_app, comps_app_name by done.
  rewrite render_snoc by done. f_equal. done.
Qed.
Lemma entry_dir_ok root c : dir_ok root -> name_ok c -> dir_ok (root +:+ "/" +:+ c).
Proof.
  intros Hr Hc. split.
  - rewrite <-(Join_entry root c) by done. cbn [filepath_Join].
    pose proof (dir_ok_nonempty _ Hr) as Hne. destruct (String.eqb_spec root ""); [done|].
    apply Clean_idemp.
  - rewrite comps_app_name by (done || by apply dir_ok_nonempty). by destruct (comps root).
Qed.
#[export] Hint Resolve entry_dir_ok dir_ok_nonempty : server.

(** ** Paths below a directory *)

Lemma Join_entry2 root b c :
  dir_ok root -> name_ok b -> name_ok c -> filepath_Join [root; b; c] = root +:+ "/" +:+ b +:+ "/" +:+ c.
Proof.
  intros Hr Hb Hc. pose proof (entry_dir_ok root b Hr Hb) as Hd. pose proof (entry_dir_ok _ c Hd Hc) as [He _].
  pose proof (dir_ok_nonempty _ Hr) as Hne. unfold filepath_Join.
  destruct (String.eqb_spec root ""); [done|]. rewrite !str_app_assoc in He. exact He.
Qed.

Lemma Split_render r cs :
  comps_ok r cs -> cs <> [] -> Split (render r cs) slash = (if r then [""] else []) ++ cs.
Proof.
  intros Hok Hne. pose proof (comps_ok_no_slash _ _ Hok) as Hs.
  unfold render. destruct r.
  - rewrite Split_slash_head. by rewrite (Split_Join cs slash).
  - destruct cs; [done|]. by rewrite (Split_Join _ slash).
Qed.
Lemma render_app r cs l : cs <> [] -> l <> [] -> render r (cs ++ l) = render r cs +:+ "/" +:+ Join l "/".
Proof.
  intros Hc. induction l as [|x l IH] using rev_ind; [done|]. intros _.
  rewrite app_assoc. rewrite render_snoc by (by destruct cs).
  destruct l as [|y l]; [by rewrite app_nil_r|].
  rewrite IH, Join_snoc by done. by rewrite !str_app_assoc.
Qed.
(** [abs] extends [root] textually exactly when its elements extend root's. *)
Lemma HasPrefix_comps root abs :
  dir_ok root -> Clean abs = abs -> rooted abs = rooted root ->
  HasPrefix abs (root +:+ "/") = true ↔ ∃ l, l <> [] ∧ comps abs = comps root ++ l.
Proof.
  intros [Hr Hne] Ha Hra. pose proof (comps_ok_comps root) as Okr.
  pose proof (comps_ok_comps abs) as Oka.
  assert (render (rooted root) (comps root) = root) as Er by done.
  assert (render (rooted abs) (comps abs) = abs) as Ea by done.
  rewrite HasPrefix_spec. split.
  - intros [rest E]. rewrite str_app_assoc in E. exists (Split rest slash).
    split; [apply Split_not_nil|]. pose proof (Split_app_slash root rest) as Hs.
    rewrite <-E in Hs. assert (comps abs <> []) as Hna.
    { intros Hnil. rewrite Hnil in Ea. apply (f_equal String.length) in E.
      pose proof (Clean_nonempty root) as Hn. rewrite Hr in Hn. destruct root; [done|].
      rewrite <-Ea, !str_length_app in E. simpl in E. destruct (rooted abs); simpl in E; lia. }
    rewrite <-Ea, <-Er, !Split_render, <-app_assoc in Hs by done. rewrite Hra in Hs.
    by apply app_inv_head in Hs.
  - intros (l & Hl & E). exists (Join l "/"). rewrite <-Ea, E, Hra, render_app, Er by done.
    by rewrite str_app_assoc.
Qed.
Lemma comps_ok_app_names r cs l c :
  comps_ok r (cs ++ l) -> last cs = Some c -> c <> ".." -> Forall name_ok l.
Proof.
  intros (n & names & E & Hn & _) Hl Hc.
  apply last_Some in Hl as [cs0 ->]. rewrite <-app_assoc in E. simpl in E.
  apply Forall_forall. intros x Hx.
  assert (Forall (λ y, y = "..") (replicate n "..")) as Hd by (by apply Forall_replicate).
  apply app_eq_inv in E as [(k & E1 & E2)|(k & E1 & E2)].
  - rewrite Forall_forall in Hn. apply Hn. rewrite E2, elem_of_app, elem_of_cons. auto.
  - destruct k as [|y k].
    + simpl in E2. subst names. rewrite Forall_forall in Hn. apply Hn, elem_of_cons. auto.
    + injection E2 as -> E2. rewrite E1, Forall_app in Hd. destruct Hd as [_ Hd].
      by apply Forall_inv in Hd.
Qed.
Lemma filepath_Split_app a b :
  no_char slash b = true -> filepath_Split (a +:+ "/" +:+ b) = (a +:+ "/", b).
Proof.
  intros Hb. assert (filepath_Split b = ("", b)) as Eb.
  { induction b as [|c b IH]; [done|]. cbn [filepath_Split]. simpl in Hb.
    apply andb_true_iff in Hb as [H1 H2]. rewrite IH by done.
    destruct (Ascii.eqb_spec c slash) as [->|]; [done|]. done. }
  induction a as [|x a IH].
  - change ("" +:+ "/" +:+ b) with (String "/" b). cbn [filepath_Split]. by rewrite Eb.
  - change (String x a +:+ "/" +:+ b) with (String x (a +:+ "/" +:+ b)). cbn [filepath_Split].
    rewrite IH. destruct (Ascii.eqb x slash); [done|].
    destruct (String.eqb_spec (a +:+ "/") "") as [E|]; [|done].
    apply (f_equal String.length) in E. rewrite str_length_app in E. simpl in E. lia.
Qed.
Lemma comps_ok_init r cs c : comps_ok r (cs ++ [c]) -> comps_ok r cs.
Proof.
  intros (n & names & E & Hn & Hr). destruct names as [|y names _] using rev_ind.
  - rewrite app_nil_r in E. destruct n as [|n]; [by destruct cs|].
    rewrite replicate_S_end in E. apply app_inj_tail in E as [-> _].
    exists n, []. rewrite app_nil_r. split_and!; try done. intros H. by specialize (Hr H).
  - rewrite app_assoc in E. apply app_inj_tail in E as [-> _]. apply Forall_app in Hn as [Hn _].
    by exists n, names.
Qed.
Lemma Dir_render r cs c :
  comps_ok r (cs ++ [c]) -> cs <> [] -> filepath_Dir (render r (cs ++ [c])) = render r cs.
Proof.
  intros Hok Hne. pose proof (comps_ok_no_slash _ _ Hok) as Hs. apply Forall_app in Hs as [_ Hs].
  apply Forall_inv in Hs. pose proof (comps_ok_init _ _ _ Hok) as Hcs.
  unfold filepath_Dir. rewrite render_snoc, filepath_Split_app by done. simpl.
  assert (render r cs <> "") as Hre.
  { pose proof (Clean_nonempty (render r cs)) as Hn. unfold Clean in Hn.
    by rewrite rooted_render, comps_render in Hn. }
  unfold Clean. change "/" with ("/" +:+ "") at 1. change "/" with ("/" +:+ "") at 2.
  rewrite rooted_app, comps_app by done. rewrite rooted_render, comps_render by done.
  change (render r (reverse (reverse cs)) = render r cs). by rewrite reverse_involutive.
Qed.
Lemma Dir_entry root n : dir_ok root -> name_ok n -> filepath_Dir (root +:+ "/" +:+ n) = root.
Proof.
  intros Hr Hn. pose proof (entry_dir_ok root n Hr Hn) as [He _].
  assert (comps (root +:+ "/" +:+ n) = comps root ++ [n]) as E by (apply comps_app_name; auto with server).
  rewrite <-He. unfold Clean. rewrite E, rooted_app by auto with server. rewrite Dir_render.
  - apply Hr.
  - rewrite <-E. rewrite <-(rooted_app root ("/" +:+ n)) by auto with server. apply comps_ok_comps.
  - apply Hr.
Qed.
#[global] Arguments filepath_Join : simpl never.
#[global] Arguments String.append : simpl never.
