(* ===== verification/Schema.v ===== *)
(** The SQLite schema of storage/db.go ([createTables]): one record per table
    row, the generated columns, and the database as the tables together. *)
From S2P Require Import Prelude GoStrings.

(** Table [devices]; [labels] is a flat JSON object of strings. *)
Record device_row := DeviceRow {
  d_cert : string;
  d_deleted : bool;
  d_created_at : Z;
  d_last_seen : Z;
  d_tag : string;
  d_labels : gmap string string;
  d_update_name : string;
  d_target_name : string;
  d_ostree_hash : string;
  d_apps : string;
  d_group_name_modified_at : Z
}.

(** [GENERATED ALWAYS AS (COALESCE(labels ->> '$.name', ''))], and the same for the group. *)
Definition device_label (k : string) (d : device_row) : string := default "" (d_labels d !! k).
Definition d_name (d : device_row) : string := device_label "name" d.
Definition d_group_name (d : device_row) : string := device_label "group" d.

Record user_row := UserRow {
  u_username : string;
  u_password : string;
  u_email : string;
  u_created_at : Z;
  u_deleted : bool;
  u_allowed_scopes : string;
  u_auth_provider_data : string
}.

Record token_row := TokenRow {
  t_user_id : Z;
  t_created_at : Z;
  t_expires_at : Z;
  t_description : string;
  t_scopes : string;
  t_value : string
}.

Record session_row := SessionRow {
  s_user_id : Z;
  s_remote_ip : string;
  s_created_at : Z;
  s_expires_at : Z;
  s_scopes : string
}.

Record update_row := UpdateRow {
  up_tag : string;
  up_uploaded_at : Z;
  up_uploaded_by : string
}.

(** Table [oauth2_device_flow], keyed by [device_code]. *)
Record oauth2_row := OAuth2Row {
  o_user_code : string;
  o_expires_at : Z;
  o_token_expires : Z;
  o_token_description : string;
  o_scopes : string;
  o_user_id : option Z;
  o_authorized : bool;
  o_denied : bool
}.

#[global] Instance device_row_eq_dec : EqDecision device_row.
Proof. solve_decision. Defined.
#[global] Instance user_row_eq_dec : EqDecision user_row.
Proof. solve_decision. Defined.
#[global] Instance token_row_eq_dec : EqDecision token_row.
Proof. solve_decision. Defined.
#[global] Instance session_row_eq_dec : EqDecision session_row.
Proof. solve_decision. Defined.
#[global] Instance update_row_eq_dec : EqDecision update_row.
Proof. solve_decision. Defined.
#[global] Instance oauth2_row_eq_dec : EqDecision oauth2_row.
Proof. solve_decision. Defined.

(** The tables.  [users_seq] and [tokens_seq] are the AUTOINCREMENT counters. *)
Record database := Database {
  devices : gmap string device_row;
  old_certs : gmap string Z;
  device_labels : gset string;
  users : gmap Z user_row;
  users_seq : Z;
  tokens : gmap Z token_row;
  tokens_seq : Z;
  sessions : gmap string session_row;
  updates : gmap string update_row;
  oauth2_device_flow : gmap string oauth2_row
}.
Definition empty_db : database := Database ∅ ∅ ∅ ∅ 0 ∅ 0 ∅ ∅ ∅.

Definition with_devices (t : gmap string device_row) (d : database) : database :=
  Database t (old_certs d) (device_labels d) (users d) (users_seq d) (tokens d) (tokens_seq d)
    (sessions d) (updates d) (oauth2_device_flow d).
Definition with_old_certs (t : gmap string Z) (d : database) : database :=
  Database (devices d) t (device_labels d) (users d) (users_seq d) (tokens d) (tokens_seq d)
    (sessions d) (updates d) (oauth2_device_flow d).
Definition with_device_labels (t : gset string) (d : database) : database :=
  Database (devices d) (old_certs d) t (users d) (users_seq d) (tokens d) (tokens_seq d)
    (sessions d) (updates d) (oauth2_device_flow d).
Definition with_users (t : gmap Z user_row) (n : Z) (d : database) : database :=
  Database (devices d) (old_certs d) (device_labels d) t n (tokens d) (tokens_seq d)
    (sessions d) (updates d) (oauth2_device_flow d).
Definition with_tokens (t : gmap Z token_row) (n : Z) (d : database) : database :=
  Database (devices d) (old_certs d) (device_labels d) (users d) (users_seq d) t n
    (sessions d) (updates d) (oauth2_device_flow d).
Definition with_sessions (t : gmap string session_row) (d : database) : database :=
  Database (devices d) (old_certs d) (device_labels d) (users d) (users_seq d) (tokens d)
    (tokens_seq d) t (updates d) (oauth2_device_flow d).
Definition with_updates (t : gmap string update_row) (d : database) : database :=
  Database (devices d) (old_certs d) (device_labels d) (users d) (users_seq d) (tokens d)
    (tokens_seq d) (sessions d) t (oauth2_device_flow d).
Definition with_oauth2 (t : gmap string oauth2_row) (d : database) : database :=
  Database (devices d) (old_certs d) (device_labels d) (users d) (users_seq d) (tokens d)
    (tokens_seq d) (sessions d) (updates d) t.

(** Rows of a string-keyed table in primary-key order ([WITHOUT ROWID]). *)
Definition rows {V} (t : gmap string V) : list (string * V) :=
  sort_by (λ a b, str_cmp a.1 b.1) (map_to_list t).
(** Rows of an integer-keyed table in rowid order. *)
Definition rows_z {V} (t : gmap Z V) : list (Z * V) :=
  sort_by (λ a b, a.1 - b.1) (map_to_list t).

Lemma elem_of_rows {V} (t : gmap string V) k v : (k, v) ∈ rows t ↔ t !! k = Some v.
Proof. unfold rows. rewrite sort_by_elem. apply elem_of_map_to_list. Qed.
Lemma elem_of_rows_z {V} (t : gmap Z V) k v : (k, v) ∈ rows_z t ↔ t !! k = Some v.
Proof. unfold rows_z. rewrite sort_by_elem. apply elem_of_map_to_list. Qed.

(** The keys of the rows that pass a test. *)
Lemma elem_of_filter_rows {V} (P : string * V -> bool) (t : gmap string V) k :
  k ∈ map fst (List.filter P (rows t)) ↔ ∃ v, t !! k = Some v ∧ P (k, v) = true.
Proof.
  rewrite <-elem_of_filter_keys, !list_elem_of_In, !List.in_map_iff.
  setoid_rewrite List.filter_In. setoid_rewrite <-list_elem_of_In. unfold rows. by setoid_rewrite sort_by_elem.
Qed.
Lemma rows_perm {V} (t : gmap string V) : rows t ≡ₚ map_to_list t.
Proof. apply sort_by_perm. Qed.
Lemma NoDup_filter_rows {V} (P : string * V -> bool) (t : gmap string V) :
  NoDup (map fst (List.filter P (rows t))).
Proof.
  assert (NoDup (map fst (rows t))) as Hn.
  { assert (map fst (rows t) ≡ₚ map fst (map_to_list t)) as -> by apply Permutation_map, rows_perm.
    apply NoDup_fst_map_to_list. }
  induction (rows t) as [|kv l IH]; simpl in *; [done|]. apply NoDup_cons in Hn as [Hk Hn].
  destruct (P kv); simpl; [|auto]. constructor; [|auto]. contradict Hk.
  apply list_elem_of_In, List.in_map_iff in Hk as (x & Hx & [Hin _]%List.filter_In).
  apply list_elem_of_In, List.in_map_iff. eauto.
Qed.
