(* ===== verification/World.v ===== *)
(** The state the server process works on, and the operating-system calls the
    storage layer makes on it: a file system keyed by cleaned path, the
    database, the wall clock, the random source, and a list of faults that
    makes any system call or SQL statement fail. *)
From S2P Require Import Prelude GoStrings Bytes GoPath Schema.

(** A file keeps its permission bits and its modification time (milliseconds). *)
Inductive node :=
  | File (content : string) (fmode : Z) (mtime : Z)
  | Dir.
#[global] Instance node_eq_dec : EqDecision node.
Proof. solve_decision. Defined.

Record world := World {
  fs : gmap string node;
  clock : Z;                      (* wall clock, milliseconds *)
  faults : list (option error);   (* outcome of the next calls; [] never fails *)
  db : database;
  rnd : nat -> string;            (* what rand.Text returns *)
  rnd_i : nat
}.

Definition with_fs (f : gmap string node) (w : world) : world :=
  World f (clock w) (faults w) (db w) (rnd w) (rnd_i w).
Definition with_clock (c : Z) (w : world) : world :=
  World (fs w) c (faults w) (db w) (rnd w) (rnd_i w).
Definition with_faults (l : list (option error)) (w : world) : world :=
  World (fs w) (clock w) l (db w) (rnd w) (rnd_i w).
Definition with_db (d : database) (w : world) : world :=
  World (fs w) (clock w) (faults w) d (rnd w) (rnd_i w).
Definition with_rnd_i (i : nat) (w : world) : world :=
  World (fs w) (clock w) (faults w) (db w) (rnd w) i.

Notation IO := (M world).

(** A call that the environment may make fail with no effect. *)
Definition syscall {A} (op : IO A) : IO A := λ w,
  match faults w with
  | Some e :: l => (Err e, with_faults l w)
  | None :: l => op (with_faults l w)
  | [] => op w
  end.

(** [time.Now().Unix()], [UnixMilli()], [time.Sleep]. *)
Definition time_now_ms : IO Z := gets clock.
Definition time_now_unix : IO Z := gets (λ w, clock w / 1000).
Definition time_sleep (ms : Z) : IO unit := modify (λ w, with_clock (clock w + ms) w).
(** [rand.Text()]. *)
Definition rand_text : IO string := λ w, (Ok (rnd w (rnd_i w)), with_rnd_i (S (rnd_i w)) w).

(** [rand.Read]: [n] bytes of the random source (a shorter draw of the model is
    completed with zeros, so that every sequence of [n] bytes is possible). *)
Definition rand_Read (n : nat) : IO string := λ w,
  (Ok (str_take n (rnd w (rnd_i w) +:+ le_bytes n 0)), with_rnd_i (S (rnd_i w)) w).

(** An SQL statement: atomic, and it can fail for reasons of its own. *)
Definition sql {A} (f : database -> result A * database) : IO A :=
  syscall (λ w, let '(r, d) := f (db w) in (r, with_db d w)).
Definition sql_query {A} (f : database -> result A) : IO A := sql (λ d, (f d, d)).
Definition sql_exec (f : database -> database) : IO unit := sql (λ d, (Ok tt, f d)).

(** A statement that reads [unixepoch('now')]. *)
Definition sql_now {A} (f : Z -> database -> result A * database) : IO A :=
  syscall (λ w, let '(r, d) := f (clock w / 1000) (db w) in (r, with_db d w)).

(** ** Directories *)

Definition is_dir (w : world) (p : string) : bool :=
  bool_decide (p = "/" \/ p = "." \/ fs w !! p = Some Dir).
Definition parent_ok (w : world) (p : string) : bool := is_dir w (filepath_Dir p).

(** The name of [key] inside directory [dir], when it is a direct entry of it. *)
Definition dir_prefix (dir : string) : string :=
  if String.eqb dir "/" then "/" else dir +:+ "/".
Definition entry_of (dir key : string) : option string :=
  if HasPrefix key (dir_prefix dir) then
    let n := TrimPrefix key (dir_prefix dir) in
    if bool_decide (name_ok n) then Some n else None
  else None.
(** Is [key] the path [dir] or below it? *)
Definition under (dir key : string) : bool :=
  String.eqb key dir || HasPrefix key (dir_prefix dir).

Fixpoint prefixes {A} (l : list A) : list (list A) :=
  match l with [] => [] | x :: l' => [x] :: (map (cons x) (prefixes l')) end.
(** Every ancestor of a path, outermost first, ending with the path itself. *)
Definition ancestors (p : string) : list string := map (render (rooted p)) (prefixes (comps p)).

Definition os_MkdirAll (p : string) : IO unit :=
  syscall (λ w,
    if existsb (λ a, match fs w !! a with Some (File _ _ _) => true | _ => false end) (ancestors p)
    then (Err ErrIO, w)
    else (Ok tt, with_fs (foldr (λ a m, <[a := Dir]> m) (fs w) (ancestors p)) w)).
Definition os_Mkdir (p : string) : IO unit :=
  syscall (λ w,
    match fs w !! p with
    | Some _ => (Err ErrExist, w)
    | None => if parent_ok w p then (Ok tt, with_fs (<[p := Dir]> (fs w)) w) else (Err ErrNotExist, w)
    end).

(** Names of the entries of a directory, in byte order. *)
Definition entries (w : world) (dir : string) : list string :=
  sort_strings (omap (entry_of dir) (map_to_list (fs w)).*1).
Definition os_ReadDir (p : string) : IO (list string) :=
  syscall (λ w,
    if is_dir w p then (Ok (entries w p), w)
    else match fs w !! p with Some _ => (Err ErrIO, w) | None => (Err ErrNotExist, w) end).

(** ** Files *)

Definition os_Stat (p : string) : IO node :=
  syscall (λ w, match fs w !! p with Some n => (Ok n, w) | None => (Err ErrNotExist, w) end).
Definition os_ReadFile (p : string) : IO string :=
  syscall (λ w,
    match fs w !! p with
    | Some (File c _ _) => (Ok c, w)
    | Some Dir => (Err ErrIO, w)
    | None => (Err ErrNotExist, w)
    end).

(** [os.OpenFile(p, O_CREATE|O_WRONLY|..., mode)]: [trunc] empties an existing
    file, [excl] refuses one. *)
Definition os_OpenFile_create (trunc excl : bool) (p : string) (mode : Z) : IO unit :=
  syscall (λ w,
    match fs w !! p with
    | Some Dir => (Err ErrIO, w)
    | Some (File c m t) =>
        if excl then (Err ErrExist, w)
        else if trunc then (Ok tt, with_fs (<[p := File "" m (clock w)]> (fs w)) w)
        else (Ok tt, w)
    | None =>
        if parent_ok w p then (Ok tt, with_fs (<[p := File "" mode (clock w)]> (fs w)) w)
        else (Err ErrNotExist, w)
    end).
(** Append to the file (a write through a descriptor at its end). *)
Definition fd_append (p s : string) : IO unit :=
  syscall (λ w,
    match fs w !! p with
    | Some (File c m _) => (Ok tt, with_fs (<[p := File (c +:+ s) m (clock w)]> (fs w)) w)
    | _ => (Err ErrIO, w)
    end).
(** Write at the start of the file, as a fresh descriptor does: what the file
    held beyond the bytes written stays. *)
Definition fd_overwrite (p s : string) : IO unit :=
  syscall (λ w,
    match fs w !! p with
    | Some (File c m _) =>
        (Ok tt, with_fs (<[p := File (s +:+ str_drop (String.length s) c) m (clock w)]> (fs w)) w)
    | _ => (Err ErrIO, w)
    end).
(** [fd.Sync], [fd.Close]: no effect on the contents, but they can fail. *)
Definition fd_sync : IO unit := syscall (mret tt).
Definition fd_close : IO unit := syscall (mret tt).
(** [os.WriteFile]. *)
Definition os_WriteFile (p data : string) (mode : Z) : IO unit :=
  os_OpenFile_create true false p mode;;
  written ← try (fd_overwrite p data);
  closed ← try fd_close;
  match written with Err e => fail e | Ok _ => lift closed end.

Definition os_Remove (p : string) : IO unit :=
  syscall (λ w,
    match fs w !! p with
    | None => (Err ErrNotExist, w)
    | Some Dir => if bool_decide (entries w p = []) then (Ok tt, with_fs (delete p (fs w)) w)
                  else (Err ErrIO, w)
    | Some (File _ _ _) => (Ok tt, with_fs (delete p (fs w)) w)
    end).
Definition os_RemoveAll (p : string) : IO unit :=
  syscall (λ w, (Ok tt, with_fs (filter (λ kv, under p kv.1 = false) (fs w)) w)).

(** [os.Rename]: a file replaces a file; a directory moves with everything
    below it, onto nothing or onto an empty directory. *)
Definition rekey (a b key : string) : string := b +:+ str_drop (String.length a) key.
Definition os_Rename (a b : string) : IO unit :=
  syscall (λ w,
    match fs w !! a, fs w !! b with
    | None, _ => (Err ErrNotExist, w)
    | Some (File c m t), Some Dir => (Err ErrExist, w)
    | Some (File c m t), _ =>
        if parent_ok w b then (Ok tt, with_fs (<[b := File c m t]> (delete a (fs w))) w)
        else (Err ErrNotExist, w)
    | Some Dir, Some (File _ _ _) => (Err ErrIO, w)
    | Some Dir, o =>
        if bool_decide (o = Some Dir) && negb (bool_decide (entries w b = [])) then (Err ErrExist, w)
        else if negb (parent_ok w b) then (Err ErrNotExist, w)
        else
          let moved := filter (λ kv, under a kv.1 = true) (fs w) in
          let kept := filter (λ kv, under a kv.1 = false) (fs w) in
          (Ok tt, with_fs (list_to_map ((λ kv, (rekey a b kv.1, kv.2)) <$> map_to_list moved) ∪ kept) w)
    end).
(** [os.Link]; linked files are never written in place, so a copy is a link. *)
Definition os_Link (a b : string) : IO unit :=
  syscall (λ w,
    match fs w !! a, fs w !! b with
    | Some (File c m t), None =>
        if parent_ok w b then (Ok tt, with_fs (<[b := File c m t]> (fs w)) w)
        else (Err ErrNotExist, w)
    | None, _ => (Err ErrNotExist, w)
    | _, _ => (Err ErrExist, w)
    end).

(** ** Theory *)

Lemma syscall_ok {A} (op : IO A) w : faults w = [] -> syscall op w = op w.
Proof. intros H. unfold syscall. by rewrite H. Qed.

(** A call does what its body does, on a world that differs in its faults
    only, or fails with no other effect. *)
Lemma syscall_cases {A} (op : IO A) w :
  (∃ l, syscall op w = op (with_faults l w)) \/
  (∃ e l, syscall op w = (Err e, with_faults l w)).
Proof.
  unfold syscall. destruct (faults w) as [|[e|] l] eqn:E; eauto.
  left. exists []. destruct w; simpl in *. by subst.
Qed.

Lemma syscall_inv {A} (op : IO A) w r w' :
  syscall op w = (r, w') ->
  (∃ l, op (with_faults l w) = (r, w')) \/ (∃ e l, r = Err e ∧ w' = with_faults l w).
Proof.
  intros H. destruct (syscall_cases op w) as [[l E]|(e & l & E)]; rewrite E in H.
  - eauto.
  - simplify_eq. eauto.
Qed.

Lemma fs_with_faults l w : fs (with_faults l w) = fs w. Proof. done. Qed.
Lemma db_with_faults l w : db (with_faults l w) = db w. Proof. done. Qed.
Lemma with_faults_id w : with_faults (faults w) w = w. Proof. by destruct w. Qed.
Lemma is_dir_with_faults l w p : is_dir (with_faults l w) p = is_dir w p. Proof. done. Qed.

(** The entries of a directory are the names its paths extend it by. *)
Lemma entry_of_spec dir key n :
  dir_ok dir -> entry_of dir key = Some n ↔ name_ok n ∧ key = dir +:+ "/" +:+ n.
Proof.
  intros Hd. assert (dir_prefix dir = dir +:+ "/") as Hp.
  { unfold dir_prefix. destruct (String.eqb_spec dir "/") as [->|]; [|done].
    by destruct Hd as [_ []]. }
  unfold entry_of, TrimPrefix. rewrite Hp. split.
  - destruct (HasPrefix key (dir +:+ "/")) eqn:E; [|done].
    case_bool_decide as Hn; [|done]. intros [= <-]. split; [done|].
    apply HasPrefix_spec in E as [r ->]. by rewrite str_drop_app, str_app_assoc.
  - intros [Hn ->]. rewrite <-str_app_assoc, HasPrefix_app, str_drop_app.
    by rewrite bool_decide_true.
Qed.
Lemma elem_of_entries w dir n :
  dir_ok dir -> n ∈ entries w dir ↔ name_ok n ∧ is_Some (fs w !! (dir +:+ "/" +:+ n)).
Proof.
  intros Hd. unfold entries, sort_strings. rewrite sort_by_elem, list_elem_of_omap. split.
  - intros (k & Hk & E). apply entry_of_spec in E as [Hn ->]; [|done]. split; [done|].
    apply list_elem_of_fmap in Hk as ([k v] & -> & Hk).
    apply elem_of_map_to_list in Hk. simpl. eauto.
  - intros [Hn [v Hv]]. exists (dir +:+ "/" +:+ n). split; [|by apply entry_of_spec].
    apply list_elem_of_fmap. exists (dir +:+ "/" +:+ n, v). by rewrite elem_of_map_to_list.
Qed.
Lemma NoDup_entries w dir : dir_ok dir -> NoDup (entries w dir).
Proof.
  intros Hd. unfold entries, sort_strings. rewrite sort_by_perm.
  pose proof (NoDup_fst_map_to_list (fs w)) as Hnd.
  induction (map_to_list (fs w)).*1 as [|k l IH]; simpl; [constructor|].
  apply NoDup_cons in Hnd as [Hk Hnd]. destruct (entry_of dir k) as [n|] eqn:E; [|auto].
  constructor; [|auto]. rewrite list_elem_of_omap. intros (k' & Hk' & E').
  apply entry_of_spec in E as [_ ->]; [|done]. by apply entry_of_spec in E' as [_ ->].
Qed.

Lemma under_refl p : under p p = true.
Proof. unfold under. by rewrite String.eqb_refl. Qed.
#[export] Hint Rewrite fs_with_faults db_with_faults is_dir_with_faults : server.
#[export] Hint Resolve under_refl : server.

(** Case analysis on a call in hypothesis [H]: its body ran, or a fault. *)
Ltac sys_inv H :=
  apply syscall_inv in H as [[? H]|(? & ? & ? & ?)]; [|by simplify_eq];
  repeat (simpl in H; case_match); simplify_eq; simpl.

(** System calls act on the file system (and consume faults) only. *)
Definition fs_only (w w' : world) : Prop :=
  clock w' = clock w ∧ db w' = db w ∧ rnd w' = rnd w ∧ rnd_i w' = rnd_i w ∧
  faults w' `suffix_of` faults w.
#[global] Instance fs_only_preorder : PreOrder fs_only.
Proof. split; [done|]. unfold fs_only. intros x y z (?&?&?&?&?) (?&?&?&?&?). split_and!; [congruence..|by etrans]. Qed.

Lemma keeps_syscall {A} (op : IO A) :
  (∀ w r w', op w = (r, w') -> fs_only w w') -> keeps fs_only (syscall op) any.
Proof.
  intros Hop w r w' H. split; [|by destruct r]. unfold syscall in H.
  destruct (faults w) as [|[e|] l] eqn:E; simplify_eq.
  - by eapply Hop.
  - unfold fs_only. rewrite E. split_and!; try done. by apply suffix_cons_r.
  - apply Hop in H. unfold fs_only in *. rewrite E. simpl in H. destruct H as (?&?&?&?&?).
    split_and!; try done. by apply suffix_cons_r.
Qed.
Ltac syscall_only := apply keeps_syscall; intros ???; cbv beta; intros Hop; repeat case_match; cbv zeta in Hop; simplify_eq; done.
Lemma fs_only_MkdirAll p : keeps fs_only (os_MkdirAll p) any. Proof. syscall_only. Qed.
Lemma fs_only_Mkdir p : keeps fs_only (os_Mkdir p) any. Proof. syscall_only. Qed.
Lemma fs_only_ReadDir p : keeps fs_only (os_ReadDir p) any. Proof. syscall_only. Qed.
Lemma fs_only_Stat p : keeps fs_only (os_Stat p) any. Proof. syscall_only. Qed.
Lemma fs_only_ReadFile p : keeps fs_only (os_ReadFile p) any. Proof. syscall_only. Qed.
Lemma fs_only_open t e p m : keeps fs_only (os_OpenFile_create t e p m) any. Proof. syscall_only. Qed.
Lemma fs_only_append p d : keeps fs_only (fd_append p d) any. Proof. syscall_only. Qed.
Lemma fs_only_overwrite p d : keeps fs_only (fd_overwrite p d) any. Proof. syscall_only. Qed.
Lemma fs_only_sync : keeps fs_only fd_sync any.
Proof. apply keeps_syscall. by intros ??? [= <- <-]. Qed.
Lemma fs_only_close : keeps fs_only fd_close any. Proof. apply fs_only_sync. Qed.
Lemma fs_only_Remove p : keeps fs_only (os_Remove p) any. Proof. syscall_only. Qed.
Lemma fs_only_RemoveAll p : keeps fs_only (os_RemoveAll p) any. Proof. syscall_only. Qed.
Lemma fs_only_Rename a b : keeps fs_only (os_Rename a b) any. Proof. syscall_only. Qed.
Lemma fs_only_Link a b : keeps fs_only (os_Link a b) any. Proof. syscall_only. Qed.
#[export] Hint Resolve fs_only_MkdirAll fs_only_Mkdir fs_only_ReadDir fs_only_Stat fs_only_ReadFile
  fs_only_open fs_only_append fs_only_overwrite fs_only_sync fs_only_close fs_only_Remove
  fs_only_RemoveAll fs_only_Rename fs_only_Link : keeps.

(** Statements act on the database only. *)
Definition db_only (w w' : world) : Prop :=
  clock w' = clock w ∧ fs w' = fs w ∧ rnd w' = rnd w ∧ rnd_i w' = rnd_i w ∧
  faults w' `suffix_of` faults w.
#[global] Instance db_only_preorder : PreOrder db_only.
Proof. split; [done|]. unfold db_only. intros x y z (?&?&?&?&?) (?&?&?&?&?). split_and!; [congruence..|by etrans]. Qed.
Lemma db_only_sql {A} (f : database -> result A * database) : keeps db_only (sql f) any.
Proof.
  intros w r w' H. split; [|by destruct r]. unfold sql, syscall in H.
  destruct (faults w) as [|[e|] l] eqn:E; simpl in H; [destruct (f (db w))| |destruct (f (db w))];
    simplify_eq; unfold db_only; simpl; rewrite ?E; split_and!; try done; by apply suffix_cons_r.
Qed.
(** A run without faults stays without faults. *)
Lemma suffix_no_faults w w' : faults w' `suffix_of` faults w -> faults w = [] -> faults w' = [].
Proof. intros H Hw. rewrite Hw in H. by apply suffix_nil_inv in H. Qed.
#[export] Hint Resolve db_only_sql : keeps.

(** A statement ran, or failed leaving everything but the faults alone. *)
Lemma sql_inv {A} (f : database -> result A * database) w r w' :
  sql f w = (r, w') ->
  (∃ l, w' = with_faults l (with_db (f (db w)).2 w) ∧ r = (f (db w)).1) \/
  (∃ e l, r = Err e ∧ w' = with_faults l w).
Proof.
  unfold sql. intros H. apply syscall_inv in H as [[l H]|(e & l & -> & ->)]; [|eauto].
  left. exists l. simpl in H. destruct (f (db w)) as [r0 d]. by simplify_eq.
Qed.
Lemma sql_now_inv {A} (f : Z -> database -> result A * database) w r w' :
  sql_now f w = (r, w') ->
  (∃ l, w' = with_faults l (with_db (f (clock w / 1000) (db w)).2 w) ∧ r = (f (clock w / 1000) (db w)).1) \/
  (∃ e l, r = Err e ∧ w' = with_faults l w).
Proof.
  unfold sql_now. intros H. apply syscall_inv in H as [[l H]|(e & l & -> & ->)]; [|eauto].
  left. exists l. simpl in H. destruct (f _ (db w)) as [r0 d]. by simplify_eq.
Qed.
Lemma sql_now_run {A} (f : Z -> database -> result A * database) w :
  faults w = [] -> sql_now f w = ((f (clock w / 1000) (db w)).1, with_db (f (clock w / 1000) (db w)).2 w).
Proof. intros H. unfold sql_now. rewrite syscall_ok by done. by destruct (f _ (db w)). Qed.
Lemma sql_run {A} (f : database -> result A * database) w :
  faults w = [] -> sql f w = ((f (db w)).1, with_db (f (db w)).2 w).
Proof. intros H. unfold sql. rewrite syscall_ok by done. by destruct (f (db w)). Qed.
Lemma sql_query_run {A} (f : database -> result A) w :
  faults w = [] -> sql_query f w = (f (db w), w).
Proof. intros H. unfold sql_query. rewrite sql_run by done. by destruct w. Qed.
Lemma sql_exec_run (f : database -> database) w :
  faults w = [] -> sql_exec f w = (Ok tt, with_db (f (db w)) w).
Proof. intros H. unfold sql_exec. by rewrite sql_run. Qed.

Lemma bind_query {A B} (f : database -> result A) (g : A -> IO B) w :
  faults w = [] -> (sql_query f ≫= g) w = match f (db w) with Ok a => g a w | Err e => (Err e, w) end.
Proof. intros H. unfold mbind, M_bind. rewrite sql_query_run by done. by destruct (f (db w)). Qed.
Lemma bind_try_query {A B} (f : database -> result A) (g : result A -> IO B) w :
  faults w = [] -> (try (sql_query f) ≫= g) w = g (f (db w)) w.
Proof. intros H. apply bind_try. by apply sql_query_run. Qed.
Lemma bind_exec {B} (f : database -> database) (g : unit -> IO B) w :
  faults w = [] -> (sql_exec f ≫= g) w = g tt (with_db (f (db w)) w).
Proof. intros H. apply bind_Ok. by apply sql_exec_run. Qed.

(** ** Directories created on the way to a path *)

Lemma elem_of_prefixes {A} (l q : list A) : q ∈ prefixes l ↔ q <> [] ∧ q `prefix_of` l.
Proof.
  revert q. induction l as [|x l IH]; intros q; simpl.
  { split; [set_solver|]. by intros [? ->%prefix_nil_inv]. }
  rewrite elem_of_cons, list_elem_of_fmap. split.
  - intros [->|(q' & -> & Hq)]; [split; [done|by exists l]|].
    apply IH in Hq as [_ Hq]. split; [done|]. by apply prefix_cons.
  - intros [Hq Hp]. destruct q as [|y q]; [done|].
    apply prefix_cons_inv_1 in Hp as Hy. subst y. apply prefix_cons_inv_2 in Hp.
    destruct q as [|z q]; [by left|]. right. exists (z :: q). split; [done|]. by apply IH.
Qed.
Lemma elem_of_ancestors p a :
  a ∈ ancestors p ↔ ∃ q, q <> [] ∧ q `prefix_of` comps p ∧ a = render (rooted p) q.
Proof.
  unfold ancestors. rewrite list_elem_of_fmap. split.
  - intros (q & -> & Hq). apply elem_of_prefixes in Hq as [? ?]. eauto.
  - intros (q & ? & ? & ->). exists q. by rewrite elem_of_prefixes.
Qed.
Lemma foldr_mkdir_lookup l (m : gmap string node) k :
  foldr (λ a m, <[a := Dir]> m) m l !! k = if decide (k ∈ l) then Some Dir else m !! k.
Proof.
  induction l as [|a l IH]; simpl; [done|]. destruct (decide (k = a)) as [->|Hk].
  - rewrite lookup_insert_eq, decide_True; [done|]. apply elem_of_cons. by left.
  - rewrite lookup_insert_ne, IH by done. repeat case_decide; set_solver.
Qed.
Lemma ancestors_self p : dir_ok p -> p ∈ ancestors p.
Proof. intros [Hc Hd]. apply elem_of_ancestors. exists (comps p). split_and!; [done|by exists []; rewrite app_nil_r|by rewrite <-Hc at 1]. Qed.

Lemma rand_Read_len n w s w' : rand_Read n w = (Ok s, w') -> len s = Z.of_nat n ∧ w' = with_rnd_i (S (rnd_i w)) w.
Proof.
  intros [= <- <-]. split; [|done]. unfold len. rewrite str_take_len; [done|]. rewrite str_length_app.
  pose proof (le_bytes_len n 0) as H. unfold len in H. lia.
Qed.

(** ** Computations that never panic, as long as no call is made to *)

Definition calm (w : world) : Prop := ∀ e, Some e ∈ faults w -> panics e = false.
Definition safe {A} (m : IO A) (Q : A -> Prop) : Prop :=
  ∀ w r w', calm w -> m w = (r, w') -> calm w' ∧ match r with Ok a => Q a | Err e => panics e = false end.

Lemma calm_no_faults w : faults w = [] -> calm w.
Proof. intros H e He. rewrite H in He. by apply elem_of_nil in He. Qed.
Lemma safe_ret {A} (a : A) (Q : A -> Prop) : Q a -> safe (mret a) Q.
Proof. by intros H w r w' Hw [= <- <-]. Qed.
Lemma safe_fail {A} e (Q : A -> Prop) : panics e = false -> safe (fail e) Q.
Proof. by intros H w r w' Hw [= <- <-]. Qed.
Lemma safe_lift {A} (r : result A) (Q : A -> Prop) :
  match r with Ok a => Q a | Err e => panics e = false end -> safe (lift r) Q.
Proof. by intros H w r' w' Hw [= <- <-]. Qed.
Lemma safe_bind {A B} (m : IO A) (f : A -> IO B) P Q :
  safe m P -> (∀ a, P a -> safe (f a) Q) -> safe (m ≫= f) Q.
Proof.
  intros Hm Hf w r w' Hw H. apply bind_inv in H as [(a & s1 & E & H)|(e & E & ->)].
  - apply Hm in E as [H1 Ha]; [|done]. by apply Hf in H.
  - by apply Hm in E.
Qed.
Lemma safe_try {A} (m : IO A) P (Q : result A -> Prop) :
  safe m P -> (∀ r, match r with Ok a => P a | Err e => panics e = false end -> Q r) -> safe (try m) Q.
Proof. intros Hm HQ w r w' Hw H. apply try_inv in H as (r0 & H & ->). apply Hm in H as [? ?]; auto. Qed.
Lemma safe_wrap {A} msg (m : IO A) Q : safe m Q -> safe (wrap msg m) Q.
Proof. intros Hm w r w' Hw H. apply map_err_inv in H as (r0 & H & ->). apply Hm in H as [? ?]; [|done]. by destruct r0. Qed.
Lemma safe_syscall {A} (op : IO A) (Q : A -> Prop) : safe op Q -> safe (syscall op) Q.
Proof.
  intros Hop w r w' Hw H. unfold syscall in H. destruct (faults w) as [|[e|] l] eqn:E.
  - by eapply Hop.
  - simplify_eq. split; [|apply Hw; rewrite E; by left]. intros e' He'. apply Hw. rewrite E. by right.
  - eapply Hop; [|done]. intros e' He'. apply Hw. rewrite E. by right.
Qed.
Lemma safe_ReadFile p : safe (os_ReadFile p) any.
Proof. apply safe_syscall. intros w r w' Hw H. repeat case_match; by simplify_eq. Qed.
