(* ===== verification/BaseFs.v ===== *)
(** storage/file.go: the layout of the data directory and the file operations
    every storage handle is built from ([baseFsHandle]). *)
From S2P Require Import Prelude GoStrings GoPath Schema World.

Definition AuditDir := "audit".
Definition AuthDir := "auth".
Definition BrandingDir := "branding".
Definition CertsDir := "certs".
Definition ConfigsDir := "configs".
Definition DbFile := "db.sqlite".
Definition DevicesDir := "devices".
Definition UpdatesDir := "updates".
Definition TufDir := "tuf".
Definition partialFileSuffix := "..part".
Definition rolloutJournalFile := "rollouts.journal".
Definition defaultDirAccess : Z := 488.   (* 0o750 *)
Definition defaultFileAccess : Z := 416.  (* 0o640 *)
Definition secureFileAccess : Z := 384.   (* 0o600 *)

(** ** FsConfig *)
Definition FsConfig_RootDir (c : string) : string := c.
Definition FsConfig_AuditDir (c : string) : string := filepath_Join [c; AuditDir].
Definition FsConfig_AuthDir (c : string) : string := filepath_Join [c; AuthDir].
Definition FsConfig_DbFile (c : string) : string := filepath_Join [c; DbFile].
Definition FsConfig_CertsDir (c : string) : string := filepath_Join [c; CertsDir].
Definition FsConfig_DevicesDir (c : string) : string := filepath_Join [c; DevicesDir].
Definition FsConfig_ConfigsDir (c : string) : string := filepath_Join [c; ConfigsDir].
Definition FsConfig_UpdatesDir (c : string) : string := filepath_Join [c; UpdatesDir].
Definition FsConfig_TufDir (c : string) : string := filepath_Join [c; TufDir].

(** ** baseFsHandle: each operation takes the handle's root directory *)

Definition mkdirs (root : string) (ignoreExists : bool) : IO unit :=
  if ignoreExists then os_MkdirAll root else os_Mkdir root.

Definition readFile (root name : string) (ignoreNotExist : bool) : IO string :=
  r ← try (os_ReadFile (filepath_Join [root; name]));
  match r with
  | Ok content => mret content
  | Err err => if ignoreNotExist && errors_Is err ErrNotExist then mret "" else fail err
  end.

(** [bufio.ScanLines]: lines without the newline and one trailing carriage
    return; a line of 64 KiB or more stops the scanner with an error. *)
Definition maxScanTokenSize : Z := 65536.
Definition drop_cr (l : string) : string := TrimSuffix l (str1 (byte 13)).
Fixpoint scan_tokens (raw : list string) : list (result string) :=
  match raw with
  | [] => []
  | [last] => if String.eqb last "" then []
              else if (maxScanTokenSize <=? len last)
                   then [Err (ErrMsg "bufio.Scanner: token too long")]
                   else [Ok (drop_cr last)]
  | l :: raw' => if (maxScanTokenSize <=? len l)
                 then [Err (ErrMsg "bufio.Scanner: token too long")]
                 else Ok (drop_cr l) :: scan_tokens raw'
  end.
Definition scan_lines (content : string) : list (result string) :=
  scan_tokens (Split content (byte 10)).

(** The sequence [readFileLines] yields, without the tailing mode. *)
Definition readFileLines (root name : string) (ignoreNotExist : bool) : IO (list (result string)) :=
  r ← try (os_ReadFile (filepath_Join [root; name]));
  match r with
  | Ok content => mret (scan_lines content)
  | Err err => if negb ignoreNotExist || negb (errors_Is err ErrNotExist) then mret [Err err] else mret []
  end.

Definition writeFile (root name content : string) (mode : Z) : IO unit :=
  let path := filepath_Join [root; name] in
  let partial := filepath_Join [root; name +:+ partialFileSuffix] in
  os_OpenFile_create true false partial mode;;
  r ← try (fd_append partial content);
  match r with
  | Err err => ignore fd_close;; fail err
  | Ok _ =>
      r ← try fd_sync;
      match r with
      | Err err => ignore fd_close;; fail err
      | Ok _ => fd_close;; os_Rename partial path
      end
  end.

Definition writeFileStream (root name src : string) (mode : Z) : IO unit :=
  let path := filepath_Join [root; name] in
  os_OpenFile_create true false path mode;;
  r ← try (fd_append path src);
  match r with
  | Err err => ignore fd_close;; fail err
  | Ok _ => fd_close
  end.

Definition appendFile (root name content : string) (mode : Z) : IO unit :=
  let path := filepath_Join [root; name] in
  os_OpenFile_create false false path mode;;
  r ← try (fd_append path content);
  match r with
  | Err err => ignore fd_close;; fail err
  | Ok _ => fd_close
  end.

Definition deleteFile (root name : string) (ignoreNotExist : bool) : IO unit :=
  r ← try (os_Remove (filepath_Join [root; name]));
  match r with
  | Err err => if ignoreNotExist && errors_Is err ErrNotExist then mret tt else fail err
  | Ok _ => mret tt
  end.

(** [entry.Info()] of every entry, then the filter and the optional sort. *)
Definition info_mtime (w : world) (root name : string) : Z :=
  match fs w !! filepath_Join [root; name] with Some (File _ _ t) => t | _ => 0 end.
Definition match_name (prefix name : string) : bool :=
  negb (HasSuffix name partialFileSuffix) && ((len prefix =? 0) || HasPrefix name prefix).
Definition matchFiles (root prefix : string) (sortByModTime : bool) : IO (list string) :=
  r ← try (os_ReadDir root);
  match r with
  | Err err => if errors_Is err ErrNotExist then mret [] else fail err
  | Ok names =>
      w ← get_state;
      let infos := List.filter (match_name prefix) names in
      mret (if sortByModTime
            then sort_by (λ a b, wrap64 (info_mtime w root a - info_mtime w root b)) infos
            else infos)
  end.

Definition rolloverFiles (root prefix : string) (max : nat) : IO unit :=
  names ← matchFiles root prefix true;
  forM (take (List.length names - max) names) (λ n, deleteFile root n false).

(** ** NewFs: the directories created at start-up *)
Definition NewFs (root : string) : IO unit :=
  wrap "unable to initialize file storage"
    (forM [FsConfig_AuditDir root; FsConfig_AuthDir root; FsConfig_CertsDir root;
           FsConfig_ConfigsDir root; FsConfig_DevicesDir root; FsConfig_UpdatesDir root]
       (λ d, mkdirs d true)).

(** ** Theory *)

(** The clean path of an entry. *)
Notation path_of root name := (root +:+ "/" +:+ name).

Lemma path_of_inj root a b : path_of root a = path_of root b -> a = b.
Proof. intros H%str_app_inv_head. by apply str_app_inv_head in H. Qed.
Lemma name_ok_partial name : name_ok name -> name_ok (name +:+ partialFileSuffix).
Proof.
  intros (H1 & _ & _ & Hs).
  assert (no_char "/" (name +:+ partialFileSuffix) = true) by (by rewrite no_char_app, Hs).
  assert (2 < String.length (name +:+ partialFileSuffix))%nat as Hl
    by (rewrite str_length_app; simpl; lia).
  split_and!; try done; intros E; rewrite E in Hl; simpl in Hl; lia.
Qed.
Lemma partial_ne name : name +:+ partialFileSuffix <> name.
Proof. intros H. apply (f_equal String.length) in H. rewrite str_length_app in H. simpl in H. lia. Qed.
#[export] Hint Resolve name_ok_partial partial_ne : server.

Section WriteFile.
Context (root name : string) (Hroot : dir_ok root) (Hname : name_ok name).
Notation path := (path_of root name).
Notation partial := (path_of root (name +:+ partialFileSuffix)).

Lemma join_path : filepath_Join [root; name] = path.
Proof. by apply Join_entry. Qed.
Lemma join_partial : filepath_Join [root; name +:+ partialFileSuffix] = partial.
Proof. apply Join_entry; auto with server. Qed.
Lemma partial_path_ne : partial <> path.
Proof. intros H%path_of_inj. by apply partial_ne in H. Qed.

(** The worlds that agree with [w] everywhere except on [keys]. *)
Definition agree_but (keys : list string) (w w' : world) : Prop :=
  ∀ k, k ∉ keys -> fs w' !! k = fs w !! k.
End WriteFile.

Lemma agree_refl keys w : agree_but keys w w.
Proof. by intros k _. Qed.
Lemma agree_trans keys w1 w2 w3 :
  agree_but keys w1 w2 -> agree_but keys w2 w3 -> agree_but keys w1 w3.
Proof. intros H1 H2 k Hk. rewrite H2, H1; done. Qed.
#[export] Hint Resolve agree_refl : server.

(** Effects of the single calls, whatever faults occur. *)
Lemma open_effect trunc excl p m w r w' :
  os_OpenFile_create trunc excl p m w = (r, w') -> agree_but [p] w w'.
Proof.
  unfold os_OpenFile_create. intros H k Hk. assert (k <> p) by set_solver.
  sys_inv H; by rewrite ?lookup_insert_ne.
Qed.
Lemma append_effect p s w r w' :
  fd_append p s w = (r, w') -> agree_but [p] w w'.
Proof.
  unfold fd_append. intros H k Hk. assert (k <> p) by set_solver.
  sys_inv H; by rewrite ?lookup_insert_ne.
Qed.
Lemma sync_effect w r w' : fd_sync w = (r, w') -> fs w' = fs w.
Proof.
  unfold fd_sync. intros H. apply syscall_inv in H as [[l H]|(e & l & -> & ->)]; [|done].
  by injection H as <- <-.
Qed.
Lemma close_effect w r w' : fd_close w = (r, w') -> fs w' = fs w.
Proof. apply sync_effect. Qed.

Lemma rename_effect a b w r w' :
  os_Rename a b w = (r, w') -> fs w !! a <> Some Dir ->
  match r with
  | Err _ => fs w' = fs w
  | Ok _ => ∃ n, fs w !! a = Some n ∧ fs w' = <[b := n]> (delete a (fs w))
  end.
Proof.
  unfold os_Rename. intros H Hf.
  apply syscall_inv in H as [[l H]|(e & l & -> & ->)]; [|done]. simpl in H.
  destruct (fs w !! a) as [[c m t|]|]; [|done|by repeat case_match; simplify_eq].
  repeat case_match; simplify_eq; simpl; eauto.
Qed.

(** A freshly truncated file, and what appending to it makes of it. *)
Lemma open_trunc_ok p m w w' :
  os_OpenFile_create true false p m w = (Ok tt, w') ->
  ∃ m' t, fs w' !! p = Some (File "" m' t).
Proof.
  unfold os_OpenFile_create. intros H. sys_inv H; rewrite lookup_insert_eq; eauto.
Qed.
Lemma append_ok p s w w' c m t :
  fd_append p s w = (Ok tt, w') -> fs w !! p = Some (File c m t) ->
  ∃ t', fs w' !! p = Some (File (c +:+ s) m t').
Proof.
  unfold fd_append. intros H E. sys_inv H. rewrite lookup_insert_eq. eauto.
Qed.

Lemma agree_fs_eq keys w w' : fs w' = fs w -> agree_but keys w w'.
Proof. intros H k _. by rewrite H. Qed.
Lemma agree_weaken k1 k2 w w' : agree_but k1 w w' -> k1 ⊆ k2 -> agree_but k2 w w'.
Proof. intros H Hs k Hk. apply H. set_solver. Qed.

(** [writeFile] is atomic at every fault: on success the file holds exactly the
    new content and the partial file is gone, on any error the file is what
    it was; nothing else but the partial file is touched. *)
Lemma writeFile_spec root name content m w r w' :
  dir_ok root -> name_ok name ->
  writeFile root name content m w = (r, w') ->
  agree_but [path_of root name; path_of root (name +:+ partialFileSuffix)] w w' ∧
  match r with
  | Ok _ => (∃ m' t, fs w' !! path_of root name = Some (File content m' t)) ∧
            fs w' !! path_of root (name +:+ partialFileSuffix) = None
  | Err _ => fs w' !! path_of root name = fs w !! path_of root name
  end.
Proof.
  intros Hr Hn H. unfold writeFile in H. rewrite (join_path root name Hr Hn), (join_partial root name Hr Hn) in H.
  pose proof (partial_path_ne root name) as Hne.
  set (p := path_of root name) in *. set (q := path_of root (name +:+ partialFileSuffix)) in *.
  assert (∀ w1, agree_but [q] w w1 ->
    agree_but [p; q] w w1 ∧ fs w1 !! p = fs w !! p) as Hq.
  { intros w1 H1. split; [eapply agree_weaken; [done|set_solver]|]. apply H1. set_solver. }
  minv H; [|by apply Hq, (open_effect _ _ _ _ _ _ _ E)].
  destruct v. pose proof (open_trunc_ok _ _ _ _ E) as (m1 & t1 & F1).
  apply open_effect in E. minv H. pose proof (append_effect _ _ _ _ _ E0) as G0.
  assert (agree_but [q] w st0) as A0 by (eapply agree_trans; done).
  destruct res as [[]|e].
  2: { minv H. minv H. apply close_effect in E1. apply Hq.
       eapply agree_trans; [done|by apply agree_fs_eq]. }
  destruct (append_ok _ _ _ _ _ _ _ E0 F1) as (t2 & F2). simpl in F2.
  minv H. apply sync_effect in E1.
  assert (agree_but [q] w st1) as A1 by (eapply agree_trans; [done|by apply agree_fs_eq]).
  destruct res as [[]|e].
  2: { minv H. minv H. apply close_effect in E2. apply Hq.
       eapply agree_trans; [done|by apply agree_fs_eq]. }
  minv H; apply close_effect in E2.
  2: { apply Hq. eapply agree_trans; [done|by apply agree_fs_eq]. }
  assert (agree_but [q] w st2) as A2 by (eapply agree_trans; [done|by apply agree_fs_eq]).
  rewrite <-E1, <-E2 in F2. apply rename_effect in H; [|by rewrite F2].
  destruct r as [[]|e]; [|apply Hq; eapply agree_trans; [done|by apply agree_fs_eq]].
  destruct H as (n & En & Ef). rewrite F2 in En. simplify_eq. split.
  - intros k Hk. rewrite Ef, lookup_insert_ne, lookup_delete_ne by set_solver. apply A2. set_solver.
  - rewrite Ef, lookup_insert_eq. split; [eauto|].
    by rewrite lookup_insert_ne, lookup_delete_eq by done.
Qed.

(** ** Rollover *)

Definition matching (w : world) (root prefix : string) : list string :=
  List.filter (match_name prefix) (entries w root).
Definition is_file (w : world) (p : string) : bool :=
  match fs w !! p with Some (File _ _ _) => true | _ => false end.
Definition by_mtime (w : world) (root : string) (a b : string) : Z :=
  wrap64 (info_mtime w root a - info_mtime w root b).
(** Modification times are milliseconds since 1970. *)
Definition mtimes_ok (w : world) : Prop :=
  ∀ k, match fs w !! k with Some (File _ _ t) => 0 <= t < 2 ^ 63 | _ => True end.

Lemma matchFiles_ok root prefix b w :
  faults w = [] -> is_dir w root = true ->
  matchFiles root prefix b w =
    (Ok (if b then sort_by (by_mtime w root) (matching w root prefix) else matching w root prefix), w).
Proof.
  intros Hf Hd. unfold matchFiles, os_ReadDir. mrun. rewrite syscall_ok by done.
  by rewrite Hd.
Qed.

Lemma info_mtime_range w root n : mtimes_ok w -> 0 <= info_mtime w root n < 2 ^ 63.
Proof.
  intros H. unfold info_mtime. specialize (H (filepath_Join [root; n])).
  repeat case_match; simplify_eq; lia.
Qed.
Lemma by_mtime_sub w root a b :
  mtimes_ok w -> by_mtime w root a b = info_mtime w root a - info_mtime w root b.
Proof.
  intros H. pose proof (info_mtime_range w root a H). pose proof (info_mtime_range w root b H).
  apply wrap64_small. unfold in_int64. lia.
Qed.
Lemma by_mtime_sorted w root l :
  mtimes_ok w ->
  StronglySorted (λ a b, info_mtime w root a <= info_mtime w root b) (sort_by (by_mtime w root) l).
Proof.
  intros H. apply Sorted_StronglySorted; [intros x y z; lia|].
  eapply Sorted_ind; [constructor| |apply (sort_by_sorted (by_mtime w root))].
  - intros a l' _ IH Hd. constructor; [done|].
    destruct Hd as [|b l'' Hb]; constructor. rewrite by_mtime_sub in Hb by done. lia.
  - intros a b. rewrite !by_mtime_sub by done. lia.
  - intros a b. rewrite !by_mtime_sub by done. lia.
Qed.
Lemma StronglySorted_take_drop {A} (R : A -> A -> Prop) n l a b :
  StronglySorted R l -> a ∈ take n l -> b ∈ drop n l -> R a b.
Proof.
  revert n. induction l as [|x l IH]; intros n Hs Ha Hb.
  { rewrite take_nil in Ha. set_solver. }
  destruct n; [set_solver|]. apply StronglySorted_inv in Hs as [Hs Hf]. simpl in *.
  apply elem_of_cons in Ha as [->|Ha]; [|by eapply IH].
  rewrite Forall_forall in Hf. apply Hf.
  rewrite <-(take_drop n l). apply elem_of_app. by right.
Qed.

Lemma deleteFile_ok root n b w :
  dir_ok root -> name_ok n -> faults w = [] -> is_file w (path_of root n) = true ->
  deleteFile root n b w = (Ok tt, with_fs (delete (path_of root n) (fs w)) w).
Proof.
  intros Hr Hn Hf Hi. unfold deleteFile, os_Remove. mrun. rewrite syscall_ok by done.
  rewrite (join_path root n Hr Hn). revert Hi. unfold is_file.
  by destruct (fs w !! path_of root n) as [[c m t|]|].
Qed.

Lemma deleteFiles_ok root l b w :
  dir_ok root -> Forall name_ok l -> NoDup l -> faults w = [] ->
  (∀ n, n ∈ l -> is_file w (path_of root n) = true) ->
  ∃ w', forM l (λ n, deleteFile root n b) w = (Ok tt, w') ∧ fs_only w w' ∧
    ∀ k, fs w' !! k = if decide (k ∈ (λ n, path_of root n) <$> l) then None else fs w !! k.
Proof.
  intros Hr. revert w. induction l as [|n l IH]; intros w Hn Hnd Hf Hi.
  { exists w. split; [done|]. split; [done|]. intros k. by rewrite decide_False by set_solver. }
  apply Forall_cons in Hn as [Hn Hl]. apply NoDup_cons in Hnd as [Hx Hnd].
  cbn [forM]. erewrite bind_Ok by (apply deleteFile_ok; try done; apply Hi; set_solver).
  destruct (IH (with_fs (delete (path_of root n) (fs w)) w)) as (w' & E & H0 & H); try done.
  { intros m Hm. unfold is_file. simpl. rewrite lookup_delete_ne.
    - apply Hi. set_solver.
    - intros ->%path_of_inj. done. }
  exists w'. split; [done|]. split; [by etrans; [|done]|]. intros k. rewrite H, fmap_cons. simpl.
  destruct (decide (k = path_of root n)) as [->|Hk].
  - rewrite lookup_delete_eq. case_decide as H1; case_decide as H2; try done.
    all: exfalso; apply H2, elem_of_cons; by left.
  - rewrite lookup_delete_ne by done.
    case_decide as H1; case_decide as H2; try done; rewrite elem_of_cons in H2; naive_solver.
Qed.

(** A rollover of the files of a prefix keeps the newest of them up to the maximum,
    removes the others (none of the removed is newer than one kept), and changes
    no other entry of the file system. *)
Theorem rolloverFiles_spec root prefix max w :
  dir_ok root -> faults w = [] -> is_dir w root = true -> mtimes_ok w ->
  (∀ n, n ∈ matching w root prefix -> is_file w (path_of root n) = true) ->
  ∃ removed kept w', rolloverFiles root prefix max w = (Ok tt, w') ∧
    removed ++ kept ≡ₚ matching w root prefix ∧
    List.length kept = Nat.min max (List.length (matching w root prefix)) ∧
    (∀ a b, a ∈ removed -> b ∈ kept -> info_mtime w root a <= info_mtime w root b) ∧
    ∀ k, fs w' !! k = if decide (k ∈ (λ n, path_of root n) <$> removed) then None else fs w !! k.
Proof.
  intros Hr Hf Hd Hm Hi. set (names := sort_by (by_mtime w root) (matching w root prefix)).
  assert (names ≡ₚ matching w root prefix) as Hp by apply sort_by_perm.
  assert (∀ n, n ∈ names -> n ∈ entries w root) as He.
  { intros n. rewrite Hp. unfold matching. intros Hn%list_elem_of_In.
    apply list_elem_of_In. by eapply filter_In. }
  destruct (deleteFiles_ok root (take (List.length names - max) names) false w) as (w' & E & _ & H); try done.
  - apply Forall_forall. intros n Hn%elem_of_take. destruct Hn as (i & Hn & _).
    apply list_elem_of_lookup_2 in Hn. apply He in Hn. by apply elem_of_entries in Hn as [? _].
  - apply (NoDup_app (take (List.length names - max) names) (drop (List.length names - max) names)).
    rewrite take_drop, Hp. unfold matching. apply NoDup_ListNoDup, List.NoDup_filter, NoDup_ListNoDup. by apply NoDup_entries.
  - intros n Hn%elem_of_take. destruct Hn as (i & Hn & _). apply Hi. rewrite <-Hp.
    by apply list_elem_of_lookup_2 in Hn.
  - exists (take (List.length names - max) names), (drop (List.length names - max) names), w'.
    split_and!; [| | | |done].
    + unfold rolloverFiles. by erewrite bind_Ok by by apply matchFiles_ok.
    + by rewrite take_drop.
    + rewrite length_drop, Hp. lia.
    + intros a b. apply (StronglySorted_take_drop (λ a b, info_mtime w root a <= info_mtime w root b)).
      by apply by_mtime_sorted.
Qed.

(** ** What the base operations leave alone *)
Lemma fs_only_mkdirs root b : keeps fs_only (mkdirs root b) any.
Proof. unfold mkdirs. keeps_auto. Qed.
Lemma fs_only_readFile root n b : keeps fs_only (readFile root n b) any.
Proof. unfold readFile. keeps_auto. Qed.
Lemma fs_only_readFileLines root n b : keeps fs_only (readFileLines root n b) any.
Proof. unfold readFileLines. keeps_auto. Qed.
Lemma fs_only_writeFile root n c m : keeps fs_only (writeFile root n c m) any.
Proof. unfold writeFile. keeps_auto. Qed.
Lemma fs_only_writeFileStream root n c m : keeps fs_only (writeFileStream root n c m) any.
Proof. unfold writeFileStream. keeps_auto. Qed.
Lemma fs_only_appendFile root n c m : keeps fs_only (appendFile root n c m) any.
Proof. unfold appendFile. keeps_auto. Qed.
Lemma fs_only_deleteFile root n b : keeps fs_only (deleteFile root n b) any.
Proof. unfold deleteFile. keeps_auto. Qed.
Lemma fs_only_matchFiles root p b : keeps fs_only (matchFiles root p b) any.
Proof. unfold matchFiles. keeps_auto. Qed.
#[export] Hint Resolve fs_only_mkdirs fs_only_readFile fs_only_readFileLines fs_only_writeFile
  fs_only_writeFileStream fs_only_appendFile fs_only_deleteFile fs_only_matchFiles : keeps.
Lemma fs_only_rolloverFiles root p n : keeps fs_only (rolloverFiles root p n) any.
Proof. unfold rolloverFiles. keeps_auto. Qed.
#[export] Hint Resolve fs_only_rolloverFiles : keeps.

(** ** Reading, appending: what a file holds afterwards *)

Lemma readFile_ok root n b w c m t :
  dir_ok root -> name_ok n -> faults w = [] -> fs w !! path_of root n = Some (File c m t) ->
  readFile root n b w = (Ok c, w).
Proof.
  intros Hr Hn Hf E. unfold readFile, os_ReadFile. mrun. rewrite syscall_ok by done.
  by rewrite (join_path root n Hr Hn), E.
Qed.
Lemma readFile_absent root n w :
  dir_ok root -> name_ok n -> faults w = [] -> fs w !! path_of root n = None ->
  readFile root n true w = (Ok "", w) ∧ readFile root n false w = (Err ErrNotExist, w).
Proof.
  intros Hr Hn Hf E. unfold readFile, os_ReadFile. mrun. rewrite syscall_ok by done.
  by rewrite (join_path root n Hr Hn), E.
Qed.

(** The contents of a file, the empty string when there is none. *)
Definition content_of (w : world) (p : string) : string :=
  match fs w !! p with Some (File c _ _) => c | _ => "" end.

Lemma appendFile_spec root n c m w r w' :
  dir_ok root -> name_ok n -> appendFile root n c m w = (r, w') ->
  agree_but [path_of root n] w w' ∧
  (r = Ok tt -> is_file w' (path_of root n) = true ∧
     content_of w' (path_of root n) = content_of w (path_of root n) +:+ c).
Proof.
  intros Hr Hn H. unfold appendFile in H. rewrite (join_path root n Hr Hn) in H. cbv zeta in H.
  set (p := path_of root n) in *.
  minv H; [|split; [by eapply open_effect|done]]. destruct v.
  pose proof (open_effect _ _ _ _ _ _ _ E) as A1.
  minv H. pose proof (append_effect _ _ _ _ _ E0) as A2.
  destruct res as [[]|e].
  - apply close_effect in H. split.
    { eapply agree_trans; [done|]. eapply agree_trans; [done|by apply agree_fs_eq]. }
    intros _. unfold is_file, content_of. rewrite H.
    unfold os_OpenFile_create in E. unfold fd_append in E0.
    sys_inv E; sys_inv E0; simpl in *; rewrite ?lookup_insert_eq in *; simplify_eq; done.
  - minv H. apply close_effect in E1. minv H. split; [|done].
    eapply agree_trans; [done|]. eapply agree_trans; [done|by apply agree_fs_eq].
Qed.

Lemma appendFile_ok root n c m w :
  dir_ok root -> name_ok n -> faults w = [] -> is_dir w root = true ->
  fs w !! path_of root n <> Some Dir ->
  ∃ w', appendFile root n c m w = (Ok tt, w').
Proof.
  intros Hr Hn Hf Hd Hnd. unfold appendFile, os_OpenFile_create, fd_append, fd_close.
  rewrite (join_path root n Hr Hn). mrun. rewrite syscall_ok by done. unfold parent_ok.
  rewrite Dir_entry, Hd by done.
  destruct (fs w !! path_of root n) as [[c0 m0 t0|]|] eqn:E; [|done|];
    rewrite syscall_ok by done; simpl; rewrite ?E, ?lookup_insert_eq; rewrite syscall_ok by done; eauto.
Qed.

(** ** Runs without faults *)

Lemma open_run p m w :
  faults w = [] -> parent_ok w p = true -> fs w !! p <> Some Dir ->
  ∃ m', os_OpenFile_create true false p m w = (Ok tt, with_fs (<[p := File "" m' (clock w)]> (fs w)) w).
Proof.
  intros Hf Hp Hn. unfold os_OpenFile_create. rewrite syscall_ok by done. rewrite Hp.
  destruct (fs w !! p) as [[c0 m0 t0|]|]; [|done|]; eauto.
Qed.
Lemma append_run p d w c m t :
  faults w = [] -> fs w !! p = Some (File c m t) ->
  fd_append p d w = (Ok tt, with_fs (<[p := File (c +:+ d) m (clock w)]> (fs w)) w).
Proof. intros Hf E. unfold fd_append. rewrite syscall_ok by done. by rewrite E. Qed.
Lemma sync_run w : faults w = [] -> fd_sync w = (Ok tt, w).
Proof. intros Hf. unfold fd_sync. by rewrite syscall_ok. Qed.
Lemma close_run w : faults w = [] -> fd_close w = (Ok tt, w).
Proof. apply sync_run. Qed.
Lemma rename_run a b w c m t :
  faults w = [] -> fs w !! a = Some (File c m t) -> fs w !! b <> Some Dir -> parent_ok w b = true ->
  os_Rename a b w = (Ok tt, with_fs (<[b := File c m t]> (delete a (fs w))) w).
Proof.
  intros Hf E Hn Hp. unfold os_Rename. rewrite syscall_ok by done. rewrite E, Hp.
  by destruct (fs w !! b) as [[]|].
Qed.
Lemma is_dir_insert w p n d :
  is_dir w d = true -> fs w !! p <> Some Dir -> is_dir (with_fs (<[p := n]> (fs w)) w) d = true.
Proof.
  unfold is_dir. rewrite !bool_decide_eq_true. intros [|[|E]] Hp; auto. right. right. simpl.
  rewrite lookup_insert_ne; [done|]. by intros ->.
Qed.

(** Without faults [writeFile] succeeds unless a directory is in the way. *)
Lemma writeFile_ok root n c m w :
  dir_ok root -> name_ok n -> faults w = [] -> is_dir w root = true ->
  fs w !! path_of root n <> Some Dir ->
  fs w !! path_of root (n +:+ partialFileSuffix) <> Some Dir ->
  ∃ w', writeFile root n c m w = (Ok tt, w').
Proof.
  intros Hr Hn Hf Hd Hnd Hnp. pose proof (partial_path_ne root n) as Hne.
  unfold writeFile. rewrite (join_path root n Hr Hn), (join_partial root n Hr Hn). cbv zeta.
  assert (∀ w k, is_dir w root = true -> name_ok k -> parent_ok w (path_of root k) = true) as Hpar.
  { intros w1 k Hw Hk. unfold parent_ok. by rewrite Dir_entry. }
  destruct (open_run (path_of root (n +:+ partialFileSuffix)) m w) as [m' E];
    [done|apply Hpar; auto with server|done|].
  rewrite (bind_Ok _ _ _ _ _ E).
  set (w1 := with_fs _ w) in *.
  assert (is_dir w1 root = true) as Hd1 by by apply is_dir_insert.
  assert (fs w1 !! path_of root (n +:+ partialFileSuffix) = Some (File "" m' (clock w))) as E1
    by (simpl; by rewrite lookup_insert_eq).
  rewrite (bind_try _ _ _ _ _ (append_run _ c w1 _ _ _ Hf E1)).
  set (w2 := with_fs _ w1).
  assert (is_dir w2 root = true) as Hd2 by (apply is_dir_insert; [done|by rewrite E1]).
  rewrite (bind_try _ _ _ _ _ (sync_run w2 Hf)), (bind_Ok _ _ _ _ _ (close_run w2 Hf)).
  erewrite rename_run; [eauto|done| | |by apply Hpar].
  - simpl. by rewrite lookup_insert_eq.
  - simpl. by rewrite !lookup_insert_ne.
Qed.

Lemma forM_filter {A S} (l : list A) (p : A -> bool) (f : A -> M S unit) s :
  forM l (λ x, if p x then f x else mret tt) s = forM (List.filter p l) f s.
Proof.
  revert s. induction l as [|x l IH]; intros s; [done|]. simpl.
  destruct (p x); simpl; [|apply IH]. unfold mbind, M_bind. destruct (f x s) as [[]]; [|done]. apply IH.
Qed.
Lemma deleteFile_ignore root n b w :
  is_Ok (deleteFile root n false w).1 = true -> deleteFile root n b w = deleteFile root n false w.
Proof.
  unfold deleteFile, mbind, M_bind, try. destruct (os_Remove _ w) as [[]]; [done|]. simpl. discriminate.
Qed.
Lemma NoDup_matching w root p : dir_ok root -> NoDup (matching w root p).
Proof.
  intros Hr. unfold matching. apply NoDup_ListNoDup, List.NoDup_filter, NoDup_ListNoDup.
  by apply NoDup_entries.
Qed.
Lemma elem_of_matching w root p n :
  dir_ok root ->
  n ∈ matching w root p ↔ match_name p n = true ∧ name_ok n ∧ is_Some (fs w !! path_of root n).
Proof.
  intros Hr. unfold matching. rewrite list_elem_of_In, filter_In, <-list_elem_of_In.
  rewrite elem_of_entries by done. tauto.
Qed.

(** ** Lines *)

Lemma scan_lines_cons b t :
  no_char (byte 10) b = true -> len b < maxScanTokenSize ->
  scan_lines (b +:+ str1 (byte 10) +:+ t) = Ok (drop_cr b) :: scan_lines t.
Proof.
  intros Hb Hl. unfold scan_lines. change (str1 (byte 10) +:+ t) with (String (byte 10) t).
  rewrite Split_app by done. pose proof (Split_not_nil t (byte 10)) as Hn.
  destruct (Split t (byte 10)) as [|l ls]; [done|]. cbn [scan_tokens].
  destruct (Z.leb_spec maxScanTokenSize (len b)); [lia|]. done.
Qed.

(** An injected failure that does not pretend that a file is missing. *)
Definition honest (w : world) : Prop :=
  Forall (λ o, match o with Some e => errors_Is e ErrNotExist = false | None => True end) (faults w).
Lemma honest_suffix w w' : faults w' `suffix_of` faults w -> honest w -> honest w'.
Proof. unfold honest. intros [l ->] [_ H]%Forall_app. done. Qed.
Lemma honest_no_faults w : faults w = [] -> honest w.
Proof. unfold honest. intros ->. constructor. Qed.
Lemma honest_fs_only w w' : fs_only w w' -> honest w -> honest w'.
Proof. intros (_&_&_&_&H). by apply honest_suffix. Qed.
Lemma honest_db_only w w' : db_only w w' -> honest w -> honest w'.
Proof. intros (_&_&_&_&H). by apply honest_suffix. Qed.

(** Reading a file: its content, or an error; the file system stays. *)
Lemma os_ReadFile_cases p w r w' :
  os_ReadFile p w = (r, w') ->
  fs w' = fs w ∧ fs_only w w' ∧
  match r with
  | Ok c => ∃ m t, fs w !! p = Some (File c m t)
  | Err e => honest w -> errors_Is e ErrNotExist = true -> fs w !! p = None
  end.
Proof.
  intros H. split; [|split].
  - unfold os_ReadFile in H. apply syscall_inv in H as [[l H]|(e & l & _ & ->)]; [|done].
    simpl in H. repeat case_match; by simplify_eq.
  - by apply fs_only_ReadFile in H as [H _].
  - unfold os_ReadFile, syscall in H. destruct (faults w) as [|[e|] l] eqn:E; simpl in H.
    + repeat case_match; simplify_eq; [by eauto|by intros _ ?|done].
    + simplify_eq. intros Hh He. unfold honest in Hh. rewrite E in Hh. apply Forall_inv in Hh. congruence.
    + repeat case_match; simplify_eq; [by eauto|by intros _ ?|done].
Qed.

(** Where lines come from: the content of the file, or a single error. *)
Lemma readFileLines_cases root n w r w' :
  dir_ok root -> name_ok n -> readFileLines root n true w = (r, w') ->
  fs w' = fs w ∧ fs_only w w' ∧
  ∃ lines, r = Ok lines ∧
    ((∃ c m t, fs w !! path_of root n = Some (File c m t) ∧ lines = scan_lines c) \/
     (∃ e, lines = [Err e]) \/ (lines = [] ∧ (honest w -> fs w !! path_of root n = None))).
Proof.
  intros Hr Hn H. unfold readFileLines in H. minv H. rewrite (join_path root n Hr Hn) in E.
  apply os_ReadFile_cases in E as (Hfs & Ho & E). destruct res as [c|e].
  - minv H. split; [done|]. split; [done|]. eexists. split; [done|]. left. destruct E as (m & t & E). eauto.
  - simpl in H. destruct (errors_Is e ErrNotExist) eqn:Ee; simpl in H; minv H; (split; [done|]; split; [done|]);
      eexists; (split; [done|]); right; eauto 10.
Qed.

(** Creating directories leaves every file alone. *)
Lemma MkdirAll_files p w r w' k c m t :
  os_MkdirAll p w = (r, w') -> fs w' !! k = Some (File c m t) ↔ fs w !! k = Some (File c m t).
Proof.
  unfold os_MkdirAll. intros H. apply syscall_inv in H as [[l H]|(e & l & _ & ->)]; [|done].
  simpl in H. destruct (existsb _ (ancestors p)) eqn:Ex; simplify_eq; [done|]. simpl.
  induction (ancestors p) as [|a as' IH]; [done|]. simpl in *. apply orb_false_iff in Ex as [Ea Ex].
  destruct (decide (a = k)) as [->|]; [|rewrite lookup_insert_ne by done; auto].
  rewrite lookup_insert_eq. split; [done|]. intros E. by rewrite E in Ea.
Qed.

(** The content of the file at a path. *)
Definition file_at (w : world) (k : string) : option string :=
  match fs w !! k with Some (File c _ _) => Some c | _ => None end.
Lemma file_at_fs w w' k : fs w' !! k = fs w !! k -> file_at w' k = file_at w k.
Proof. unfold file_at. by intros ->. Qed.
Lemma file_at_content w k : content_of w k = default "" (file_at w k).
Proof. unfold content_of, file_at. by destruct (fs w !! k) as [[]|]. Qed.
Lemma MkdirAll_file_at p w r w' k : os_MkdirAll p w = (r, w') -> file_at w' k = file_at w k.
Proof.
  intros H. pose proof (λ c m t, MkdirAll_files p w r w' k c m t H) as Hk. unfold file_at.
  destruct (fs w' !! k) as [[c m t|]|] eqn:E'; [by rewrite (proj1 (Hk c m t) eq_refl)| |];
    (destruct (fs w !! k) as [[c m t|]|] eqn:E; [|done..]); by pose proof (proj2 (Hk c m t) eq_refl).
Qed.

(** Creating [root/a/b] makes no directory of another entry of [root]. *)
Lemma MkdirAll_other_entry root a b n w r w' :
  dir_ok root -> name_ok a -> name_ok b -> name_ok n -> n <> a ->
  os_MkdirAll (root +:+ "/" +:+ a +:+ "/" +:+ b) w = (r, w') ->
  fs w' !! path_of root n = fs w !! path_of root n.
Proof.
  intros Hr Ha Hb Hn Hne H. unfold os_MkdirAll in H.
  apply syscall_inv in H as [[l H]|(e & l & _ & ->)]; [|done]. simpl in H.
  destruct (existsb _ _); simplify_eq; [done|]. simpl. clear l.
  assert (path_of root n ∉ ancestors (root +:+ "/" +:+ a +:+ "/" +:+ b)) as Hk.
  { intros (l & Hl & [q Hc] & Hk)%elem_of_ancestors.
    pose proof (entry_dir_ok root a Hr Ha) as Hd. pose proof (dir_ok_nonempty _ Hr). pose proof (dir_ok_nonempty _ Hd).
    assert (root +:+ "/" +:+ a +:+ "/" +:+ b = path_of (path_of root a) b) as Ep by by rewrite !str_app_assoc.
    pose proof (comps_ok_comps (path_of (path_of root a) b)) as Hok. rewrite Ep in Hc, Hk. rewrite Hc in Hok.
    assert (rooted (path_of (path_of root a) b) = rooted (path_of root n)) as Er by by rewrite !rooted_app.
    rewrite Er in Hok, Hk. rewrite !comps_app_name in Hc by done.
    assert (comps (path_of root n) = l) as El.
    { rewrite Hk. rewrite comps_render; [done|]. destruct q as [|q0 q _] using rev_ind; [by rewrite app_nil_r in Hok|].
      clear -Hok. revert Hok. induction (q ++ [q0]) as [|y ys IH] using rev_ind; [by rewrite app_nil_r|].
      rewrite app_assoc. intros H%comps_ok_init. auto. }
    rewrite comps_app_name in El by done. subst l.
    rewrite <-!app_assoc in Hc. apply app_inv_head in Hc. by simplify_eq/=. }
  by rewrite foldr_mkdir_lookup, decide_False.
Qed.

(** Appending, at any fault: the content is unchanged or extended. *)
Lemma appendFile_cases root n c m w r w' :
  dir_ok root -> name_ok n -> appendFile root n c m w = (r, w') -> fs w !! path_of root n <> Some Dir ->
  agree_but [path_of root n] w w' ∧ fs_only w w' ∧ fs w' !! path_of root n <> Some Dir ∧
  (content_of w' (path_of root n) = content_of w (path_of root n) +:+ c \/
   r <> Ok tt ∧ content_of w' (path_of root n) = content_of w (path_of root n)).
Proof.
  intros Hr Hn H Hd. pose proof (appendFile_spec _ _ _ _ _ _ _ Hr Hn H) as [Ha _].
  split; [done|]. split; [by apply fs_only_appendFile in H as [? _]|].
  unfold appendFile in H. rewrite (join_path root n Hr Hn) in H. cbv zeta in H.
  set (p := path_of root n) in *.
  assert (∀ w1 e, os_OpenFile_create false false p m w = (e, w1) ->
    fs w1 !! p <> Some Dir ∧ content_of w1 p = content_of w p ∧ (e = Ok tt -> is_file w1 p = true)) as Hopen.
  { intros w1 e. unfold os_OpenFile_create, content_of, is_file. intros H1.
    apply syscall_inv in H1 as [[l H1]|(e0 & l & -> & ->)]; [|simpl; by repeat case_match].
    simpl in H1. destruct (fs w !! p) as [[c0 m0 t0|]|] eqn:Es; [|done|destruct (parent_ok _ _)];
      simplify_eq; simpl; rewrite ?lookup_insert_eq, ?Es; done. }
  minv H; [|destruct (Hopen _ _ E) as (? & ? & _); split; [done|right; by split]].
  destruct v. destruct (Hopen _ _ E) as (H1 & H2 & H3). specialize (H3 eq_refl). minv H.
  assert (fs st0 !! p <> Some Dir ∧ content_of st0 p = if is_Ok res then content_of w p +:+ c else content_of w p) as [H4 H5].
  { unfold fd_append in E0. unfold content_of, is_file in *. destruct (fs st !! p) as [[c0 m0 t0|]|] eqn:Es; try done.
    apply syscall_inv in E0 as [[l E0]|(e0 & l & -> & ->)]; simpl in *; rewrite ?Es in *; simplify_eq;
      simpl; rewrite ?lookup_insert_eq, ?Es; done. }
  destruct res as [[]|e]; simpl in H5.
  - apply close_effect in H. unfold content_of. rewrite H. split; [done|by left].
  - minv H. apply close_effect in E1. minv H. unfold content_of. rewrite E1. split; [done|right; by split].
Qed.

(** After creating a directory it is there. *)
Lemma MkdirAll_is_dir p w w' : dir_ok p -> os_MkdirAll p w = (Ok tt, w') -> fs w' !! p = Some Dir.
Proof.
  intros Hp H. unfold os_MkdirAll in H. apply syscall_inv in H as [[l H]|(e & l & [=] & _)].
  simpl in H. destruct (existsb _ _); simplify_eq. simpl.
  by rewrite foldr_mkdir_lookup, decide_True by by apply ancestors_self.
Qed.

(** C23. A write is atomic whatever call fails: on success the file has exactly the
    new content and no partial file is left, on an error it has the content it
    had; no other file than the partial one is touched. *)
Theorem writeFile_atomic root name content m w r w' :
  dir_ok root -> name_ok name -> writeFile root name content m w = (r, w') ->
  file_at w' (path_of root name) = (if is_Ok r then Some content else file_at w (path_of root name)) ∧
  (is_Ok r = true -> fs w' !! path_of root (name +:+ partialFileSuffix) = None) ∧
  ∀ k, k <> path_of root name -> k <> path_of root (name +:+ partialFileSuffix) -> fs w' !! k = fs w !! k.
Proof.
  intros Hr Hn H. apply writeFile_spec in H as [Ha Hw]; [|done..]. split; [|split].
  - destruct r; simpl; [|by apply file_at_fs]. destruct Hw as [(m' & t & Hw) _]. unfold file_at. by rewrite Hw.
  - destruct r; [|done]. intros _. apply Hw.
  - intros k H1 H2. apply Ha. set_solver.
Qed.

(** ** The files of two worlds: equal but for those at some paths *)

Lemma file_at_same w w' k : (fs w !! k = None ∧ fs w' !! k = Some Dir) ∨ fs w' !! k = fs w !! k -> file_at w' k = file_at w k.
Proof. unfold file_at. intros [[-> ->]| ->]; done. Qed.
Definition files_but (keys : list string) (w w' : world) : Prop :=
  ∀ k, k ∉ keys -> file_at w' k = file_at w k.
Lemma files_but_refl keys w : files_but keys w w.
Proof. by intros k _. Qed.
Lemma files_but_trans k1 k2 w1 w2 w3 : files_but k1 w1 w2 -> files_but k2 w2 w3 -> files_but (k1 ++ k2) w1 w3.
Proof. intros H1 H2 k Hk. rewrite H2, H1; set_solver. Qed.
Lemma files_but_weaken k1 k2 w w' : files_but k1 w w' -> k1 ⊆ k2 -> files_but k2 w w'.
Proof. intros H Hs k Hk. apply H. set_solver. Qed.
Lemma files_but_fs keys w w' : fs w' = fs w -> files_but keys w w'.
Proof. intros H k _. unfold file_at. by rewrite H. Qed.
Lemma files_but_MkdirAll p w r w' : os_MkdirAll p w = (r, w') -> files_but [] w w'.
Proof. intros H k _. by eapply MkdirAll_file_at. Qed.
Lemma files_but_mkdirs p b w r w' : mkdirs p b w = (r, w') -> files_but [] w w'.
Proof.
  unfold mkdirs. intros H. destruct b; [by eapply files_but_MkdirAll|].
  unfold os_Mkdir in H. intros k _. apply file_at_same. apply syscall_inv in H as [[l H]|(e & l & -> & ->)]; [|by right].
  simpl in H. destruct (fs w !! p) eqn:Ep; [simplify_eq; by right|].
  destruct (parent_ok _ p); simplify_eq; [|by right]. simpl.
  destruct (decide (k = p)) as [->|]; [rewrite lookup_insert_eq, Ep; by left|rewrite lookup_insert_ne by done; by right].
Qed.
(** The two paths that writing a file touches. *)
Definition written_paths (root name : string) : list string :=
  [path_of root name; path_of root (name +:+ partialFileSuffix)].
Lemma writeFile_files root name content m w r w' :
  dir_ok root -> name_ok name -> writeFile root name content m w = (r, w') ->
  files_but (written_paths root name) w w' ∧
  file_at w' (path_of root name) = (if is_Ok r then Some content else file_at w (path_of root name)).
Proof.
  intros Hr Hn H. apply writeFile_spec in H as [Ha Hw]; [|done..]. split.
  - intros k Hk. by apply file_at_fs, Ha.
  - destruct r; simpl; [|by apply file_at_fs]. destruct Hw as [(m' & t & Hw) _]. unfold file_at. by rewrite Hw.
Qed.
Lemma readFile_at root n b w c :
  dir_ok root -> name_ok n -> faults w = [] -> file_at w (path_of root n) = Some c -> readFile root n b w = (Ok c, w).
Proof.
  intros Hr Hn Hf Hc. unfold file_at in Hc. destruct (fs w !! path_of root n) as [[c' m t|]|] eqn:E; simplify_eq.
  by eapply readFile_ok.
Qed.
Lemma readFile_content root n b w c w' :
  dir_ok root -> name_ok n -> readFile root n b w = (Ok c, w') ->
  fs w' = fs w ∧ (file_at w (path_of root n) = Some c ∨ (b = true ∧ c = "")).
Proof.
  intros Hr Hn H. unfold readFile in H. rewrite (join_path root n Hr Hn) in H. minv H.
  apply os_ReadFile_cases in E as (Hfs & _ & E). destruct res as [x|e].
  - minv H. destruct E as (m & t & E). unfold file_at. rewrite E. auto.
  - destruct b; simpl in H; [|by minv H]. destruct (errors_Is e ErrNotExist); minv H; auto.
Qed.

(** Paths are told apart by their components. *)
Ltac comps_of H :=
  apply (f_equal comps) in H; rewrite ?comps_app_name in H by auto with server.
