(* ===== verification/Tar.v ===== *)
(** storage/file_tar.go: unpacking an uploaded tarball below a directory, under
    limits on paths, sizes and counts ([tarFsHandle]). *)
From S2P Require Import Prelude GoStrings GoPath Schema World BaseFs.

Definition defaultUnpackedTarDiskSizeLimit : Z := 2 ^ 28.
Definition defaultUnpackedTarItemSizeLimit : Z := 2 ^ 25.
Definition defaultUnpackedTarDiskBlockSize : Z := 2 ^ 12.
Definition defaultUnpackedTarItemCountLimit : Z := 2 ^ 18.
Definition defaultUnpackedTarPathLenLimit : Z := 2 ^ 10.

Definition ErrTarUnpackExceedsLimitRawSize := ErrWrap "of total compressed disk size" ErrTarUnpackExceedsLimit.
Definition ErrTarUnpackExceedsLimitDiskSize := ErrWrap "of total decompressed disk size" ErrTarUnpackExceedsLimit.
Definition ErrTarUnpackExceedsLimitFileSize := ErrWrap "of single decompressed file size" ErrTarUnpackExceedsLimit.
Definition ErrTarUnpackExceedsLimitFileCount := ErrWrap "of total file count" ErrTarUnpackExceedsLimit.
Definition ErrTarUnpackExceedsLimitPathLength := ErrWrap "of single file path length" ErrTarUnpackExceedsLimit.

(** ** AbsPathNoEscape *)
Definition AbsPathNoEscape (root path : string) : result string :=
  let absPath := filepath_Join [root; path] in
  let isEscaping :=
    if len absPath <=? len root then negb (String.eqb root absPath)
    else if negb (String.eqb root "/") then negb (HasPrefix absPath (root +:+ "/"))
    else false in
  if isEscaping then Err (ErrMsg "directory escape attempt") else Ok absPath.

(** ** What package archive/tar hands out: the entries of a tarball, then the
    end of the archive; [Next] can fail and so can reading an entry's data. *)
Inductive typeflag := TypeReg | TypeDir | TypeOther.
#[global] Instance typeflag_eq_dec : EqDecision typeflag.
Proof. solve_decision. Defined.
Record TarHeader := { h_Name : string; h_Typeflag : typeflag; h_Size : Z }.
Record tar_item := { it_hdr : TarHeader; it_data : string; it_data_err : option error }.
(** A payload: the bytes of the stream, the error reading it ends in when it
    is cut short, and what a tar reader finds in it. *)
Record tarball := { tb_bytes : string; tb_read_err : option error; tb_items : list (result tar_item) }.

(** ** Configuration and events.  The callbacks of one upload share a captured
    state [St]. *)
Record tarUnpackEvents (St : Type) := {
  onUnpackStarted : option (IO unit);
  onTarHeaderSeen : option (St -> TarHeader -> result bool * St);
  onUnpackComplete : option (St -> IO unit);
  onTmpRenameError : option (error -> bool * option error);
  onTmpCleanupError : option (error -> IO unit)
}.
Arguments onUnpackStarted {St}. Arguments onTarHeaderSeen {St}. Arguments onUnpackComplete {St}.
Arguments onTmpRenameError {St}. Arguments onTmpCleanupError {St}.

Record tarUnpackConfig (St : Type) := {
  createDest : bool; replaceDest : bool; mergeDest : bool;
  dirAccess : Z; fileAccess : Z;
  tmpFile : string; tmpDir : string;
  maxItemSize : Z; maxDiskSize : Z; maxNumItems : Z; maxPathLen : Z; blockSize : Z;
  events : tarUnpackEvents St
}.
Arguments createDest {St}. Arguments replaceDest {St}. Arguments mergeDest {St}.
Arguments dirAccess {St}. Arguments fileAccess {St}. Arguments tmpFile {St}. Arguments tmpDir {St}.
Arguments maxItemSize {St}. Arguments maxDiskSize {St}. Arguments maxNumItems {St}.
Arguments maxPathLen {St}. Arguments blockSize {St}. Arguments events {St}.

Definition no_events (St : Type) : tarUnpackEvents St :=
  {| onUnpackStarted := None; onTarHeaderSeen := None; onUnpackComplete := None;
     onTmpRenameError := None; onTmpCleanupError := None |}.
Definition default_config (St : Type) : tarUnpackConfig St :=
  {| createDest := true; replaceDest := false; mergeDest := false;
     dirAccess := defaultDirAccess; fileAccess := defaultFileAccess;
     tmpFile := ""; tmpDir := "";
     maxItemSize := defaultUnpackedTarItemSizeLimit;
     maxDiskSize := defaultUnpackedTarDiskSizeLimit;
     maxNumItems := defaultUnpackedTarItemCountLimit;
     maxPathLen := defaultUnpackedTarPathLenLimit;
     blockSize := defaultUnpackedTarDiskBlockSize;
     events := no_events St |}.

Inductive TarUnpackOption (St : Type) :=
  | TarUnpackDirAccess (mode : Z) | TarUnpackFileAccess (mode : Z)
  | TarUnpackCreateDest (v : bool) | TarUnpackMergeDest (v : bool) | TarUnpackReplaceDest (v : bool)
  | TarUnpackUseTmpDir (v : string) | TarUnpackUseTmpFile (v : string)
  | TarUnpackMaxItemFileSize (v : Z) | TarUnpackMaxTotalDiskSize (v : Z)
  | TarUnpackOnEvents (v : tarUnpackEvents St).
Arguments TarUnpackDirAccess {St}. Arguments TarUnpackFileAccess {St}.
Arguments TarUnpackCreateDest {St}. Arguments TarUnpackMergeDest {St}.
Arguments TarUnpackReplaceDest {St}. Arguments TarUnpackUseTmpDir {St}.
Arguments TarUnpackUseTmpFile {St}. Arguments TarUnpackMaxItemFileSize {St}.
Arguments TarUnpackMaxTotalDiskSize {St}. Arguments TarUnpackOnEvents {St}.

Definition apply_option {St} (c : tarUnpackConfig St) (o : TarUnpackOption St) : tarUnpackConfig St :=
  let '(Build_tarUnpackConfig _ cd rd md da fa tf td mi mt mn mp bs ev) := c in
  match o with
  | TarUnpackDirAccess v => Build_tarUnpackConfig St cd rd md v fa tf td mi mt mn mp bs ev
  | TarUnpackFileAccess v => Build_tarUnpackConfig St cd rd md da v tf td mi mt mn mp bs ev
  | TarUnpackCreateDest v => Build_tarUnpackConfig St v rd md da fa tf td mi mt mn mp bs ev
  | TarUnpackMergeDest v => Build_tarUnpackConfig St cd rd v da fa tf td mi mt mn mp bs ev
  | TarUnpackReplaceDest v => Build_tarUnpackConfig St cd v md da fa tf td mi mt mn mp bs ev
  | TarUnpackUseTmpDir v => Build_tarUnpackConfig St cd rd md da fa tf v mi mt mn mp bs ev
  | TarUnpackUseTmpFile v => Build_tarUnpackConfig St cd rd md da fa v td mi mt mn mp bs ev
  | TarUnpackMaxItemFileSize v => Build_tarUnpackConfig St cd rd md da fa tf td v mt mn mp bs ev
  | TarUnpackMaxTotalDiskSize v => Build_tarUnpackConfig St cd rd md da fa tf td mi v mn mp bs ev
  | TarUnpackOnEvents v => Build_tarUnpackConfig St cd rd md da fa tf td mi mt mn mp bs v
  end.

(** ** _diskSizeLimiter: the closure's variables, and one call of it *)
Record limiter := { totalSize : Z; uniqueDirEntries : gset string }.
Definition new_limiter : limiter := {| totalSize := 0; uniqueDirEntries := ∅ |}.

Section Limiter.
Context {St : Type} (cfg : tarUnpackConfig St).

(** The loop that charges one block for each new path prefix. *)
Fixpoint charge_entries (fuel : nat) (base : string) (l : limiter) : result Z * limiter :=
  match fuel with
  | O => (Err (ErrMsg "out of fuel"), l)
  | S fuel' =>
      if bool_decide (base ∈ uniqueDirEntries l) then (Ok (totalSize l), l)
      else
        let l := {| totalSize := wrap64 (totalSize l + blockSize cfg);
                    uniqueDirEntries := {[base]} ∪ uniqueDirEntries l |} in
        if maxDiskSize cfg <? totalSize l then (Err ErrTarUnpackExceedsLimitDiskSize, l)
        else if maxNumItems cfg <? Z.of_nat (size (uniqueDirEntries l))
             then (Err ErrTarUnpackExceedsLimitFileCount, l)
        else
          let parent := filepath_Dir base in
          if (len parent =? 0) || String.eqb parent "." || String.eqb parent base
          then (Ok (totalSize l), l)
          else charge_entries fuel' parent l
  end.

Definition _diskSizeLimiter (path : string) (sz : Z) (l : limiter) : result Z * limiter :=
  let l := {| totalSize := wrap64 (totalSize l + sz); uniqueDirEntries := uniqueDirEntries l |} in
  if maxItemSize cfg <? sz then (Err ErrTarUnpackExceedsLimitFileSize, l)
  else if maxDiskSize cfg <? totalSize l then (Err ErrTarUnpackExceedsLimitDiskSize, l)
  else if maxPathLen cfg <? len path then (Err ErrTarUnpackExceedsLimitPathLength, l)
  else charge_entries (S (S (String.length path))) path l.

(** ** The unpacking loop.  [checkDeclaredSize] and [checkRealSize] are two
    limiters; the loop state keeps both with the callbacks' state. *)
Record unpack_state := { checkDeclaredSize : limiter; checkRealSize : limiter; captured : St }.

(** Run a limiter of the state. *)
Definition check_declared (path : string) (sz : Z) (u : unpack_state) : result Z * unpack_state :=
  let '(r, l) := _diskSizeLimiter path sz (checkDeclaredSize u) in
  (r, {| checkDeclaredSize := l; checkRealSize := checkRealSize u; captured := captured u |}).
Definition check_real (path : string) (sz : Z) (u : unpack_state) : result Z * unpack_state :=
  let '(r, l) := _diskSizeLimiter path sz (checkRealSize u) in
  (r, {| checkDeclaredSize := checkDeclaredSize u; checkRealSize := l; captured := captured u |}).

Definition _createDirForTarItem (destDirPath : string) (hdr : TarHeader) (u : unpack_state)
  : IO (result (string * string * Z) * unpack_state) :=
  match AbsPathNoEscape destDirPath (h_Name hdr) with
  | Err err => mret (Err err, u)
  | Ok absPath =>
  match filepath_Rel destDirPath absPath with
  | Err err => mret (Err err, u)
  | Ok relPath =>
  match check_declared relPath (h_Size hdr) u with
  | (Err err, u) => mret (Err err, u)
  | (Ok _, u) =>
  match check_real relPath 0 u with
  | (Err err, u) => mret (Err err, u)
  | (Ok diskSize, u) =>
      r ← try (os_MkdirAll (if bool_decide (h_Typeflag hdr = TypeDir) then absPath else filepath_Dir absPath));
      match r with
      | Err err => mret (Err err, u)
      | Ok _ => mret (Ok (absPath, relPath, diskSize), u)
      end
  end end end end.

(** [_copyAndCloseOut(file, &io.LimitedReader{R, N: limit})]: what is copied,
    and the outcome of the copy joined with that of the close. *)
Definition _copyAndCloseOut (p data : string) (data_err : option error) (limit : Z) : IO Z :=
  let copied := if limit <=? 0 then "" else str_take (Z.to_nat limit) data in
  r ← try (fd_overwrite p copied);
  let err := match r, data_err with
             | Err e, _ => Some e
             | Ok _, Some e => if limit <=? len data then None else Some e
             | Ok _, None => None
             end in
  c ← try fd_close;
  match err, c with
  | Some e, _ => fail e
  | None, Err e => fail e
  | None, Ok _ => mret (len copied)
  end.

Definition unpack_item (destDirPath : string) (it : tar_item) (u : unpack_state) : IO unpack_state :=
  let hdr := it_hdr it in
  '(skip, u) ← match onTarHeaderSeen (events cfg) with
               | None => mret (false, u)
               | Some f =>
                   let '(r, st) := f (captured u) hdr in
                   let u := {| checkDeclaredSize := checkDeclaredSize u;
                               checkRealSize := checkRealSize u; captured := st |} in
                   skip ← lift r; mret (skip, u)
               end;
  if (skip : bool) then mret u else
  match h_Typeflag hdr with
  | TypeDir =>
      '(r, u) ← _createDirForTarItem destDirPath hdr u;
      wrap "failed to unpack directory" (_ ← lift r; mret u)
  | TypeOther => fail (ErrMsg "failed to unpack file: unsupported file type")
  | TypeReg =>
      if String.eqb (h_Name hdr) "" then fail (ErrMsg "failed to unpack file with empty name") else
      '(r, u) ← _createDirForTarItem destDirPath hdr u;
      '(absFilePath, relFilePath, curDiskSize) ← wrap "failed to unpack file" (lift r);
      wrap "failed to unpack file" (os_OpenFile_create false false absFilePath (fileAccess cfg));;
      let limit := 1 + Z.min (maxItemSize cfg) (maxDiskSize cfg - curDiskSize) in
      wrap "failed to unpack file"
        (n ← _copyAndCloseOut absFilePath (it_data it) (it_data_err it) limit;
         let '(r, u) := check_real relFilePath n u in
         _ ← lift r; mret u)
  end.

Fixpoint unpack_items (destDirPath : string) (items : list (result tar_item)) (u : unpack_state)
  : IO unpack_state :=
  match items with
  | [] => mret u
  | Err err :: _ => fail (ErrWrap "failed to unpack tarball header" err)
  | Ok it :: items' => u ← unpack_item destDirPath it u; unpack_items destDirPath items' u
  end.

Definition _unpackTar (st0 : St) (src : tarball) (destDirPath : string) : IO unit :=
  match onUnpackStarted (events cfg) with None => mret tt | Some f => f end;;
  u ← unpack_items destDirPath (tb_items src)
        {| checkDeclaredSize := new_limiter; checkRealSize := new_limiter; captured := st0 |};
  match onUnpackComplete (events cfg) with None => mret tt | Some f => f (captured u) end.

(** ** The destination, the temporary file and the temporary directory *)

Definition _checkDestDir (destDir destDirPath : string) : IO unit :=
  r ← try (os_ReadDir destDirPath);
  match r with
  | Err err =>
      if negb (errors_Is err ErrNotExist) then fail (ErrWrap "failed to check if destination exists" err)
      else if createDest cfg then wrap "failed to create destination" (os_MkdirAll destDirPath)
      else mret tt
  | Ok [] => mret tt
  | Ok (_ :: _) =>
      if replaceDest cfg then
        r ← try (os_RemoveAll destDirPath);
        match r with
        | Err err => if negb (errors_Is err ErrNotExist) then fail (ErrWrap "failed to clean destination" err)
                     else wrap "failed to create destination" (os_MkdirAll destDirPath)
        | Ok _ => wrap "failed to create destination" (os_MkdirAll destDirPath)
        end
      else if negb (mergeDest cfg) then fail (ErrMsg "destination already exists and is not empty")
      else mret tt
  end.

(** [os.CopyFS(dst, os.DirFS(src))] onto a directory that does not exist yet. *)
Definition os_CopyFS (dst src : string) : IO unit :=
  syscall (λ w,
    let tree := filter (λ kv, under src kv.1 = true) (fs w) in
    let copied := list_to_map ((λ kv, (rekey src dst kv.1, kv.2)) <$> map_to_list tree) in
    (Ok tt, with_fs (copied ∪ fs w) w)).

Definition _handleTmpFile (root : string) (src : tarball) : IO tarball :=
  let tmpFilePath := filepath_Join [root; tmpDir cfg; tmpFile cfg] in
  let n := 1 + maxDiskSize cfg in
  wrap "failed to save tarball"
    (os_OpenFile_create false true tmpFilePath (fileAccess cfg);;
     copied ← _copyAndCloseOut tmpFilePath (tb_bytes src) (tb_read_err src) n;
     if n - copied <=? 0 then fail ErrTarUnpackExceedsLimitRawSize else mret tt);;
  wrap "failed to read tarball" (os_ReadFile tmpFilePath);;
  mret src.

Definition _handleTmpDir (root destDirPath : string) (unpacker : string -> IO unit) : IO unit :=
  let txDirPath := filepath_Join [root; tmpDir cfg] in
  let unpackDirPath := filepath_Join [txDirPath; "unpacked"] in
  let backupDirPath := filepath_Join [txDirPath; "backup"] in
  wrap "failed to create a temporary directory" (os_MkdirAll txDirPath);;
  r ← try
    (((if mergeDest cfg
       then wrap "failed to copy original directory files for merging" (os_CopyFS unpackDirPath destDirPath)
       else mret tt);;
      unpacker unpackDirPath;;
      r ← try (os_Rename destDirPath backupDirPath);
      match r with
      | Err err => if negb (errors_Is err ErrNotExist)
                   then fail (ErrWrap "failed to backup existing directory" err) else mret tt
      | Ok _ => mret tt
      end) ≫= λ _,
      (r ← try (os_Rename unpackDirPath destDirPath);
       match r with
       | Ok _ => mret (false, None)
       | Err err =>
           match onTmpRenameError (events cfg) with
           | Some f => mret (f err)
           | None => mret (false, Some (ErrWrap "failed to rename unpacked directory" err))
           end
       end));
  let '(isDestCorrupted, err) :=
    match r with Ok v => v | Err err => (false, Some err) end in
  (if isDestCorrupted then mret tt
   else
     c ← try (os_RemoveAll txDirPath);
     match c, onTmpCleanupError (events cfg) with
     | Err e, Some f => f e
     | _, _ => mret tt
     end);;
  match err with Some e => fail e | None => mret tt end.
End Limiter.

Definition unpackTar {St} (root : string) (st0 : St) (src : tarball) (destDir : string)
  (opts : list (TarUnpackOption St)) : IO unit :=
  let cfg := foldl apply_option (default_config St) opts in
  let destDirPath := filepath_Join [root; destDir] in
  _checkDestDir cfg destDir destDirPath;;
  let unpacker := λ destDirPath,
    src ← (if 0 <? len (tmpFile cfg) then _handleTmpFile cfg root src else mret src);
    _unpackTar cfg st0 src destDirPath in
  if 0 <? len (tmpDir cfg) then _handleTmpDir cfg root destDirPath unpacker
  else unpacker destDirPath.

(** ** Theory: paths *)

(** A clean root whose last element is a plain name, or the root directory. *)
Definition root_ok (root : string) : Prop :=
  Clean root = root ∧ (root = "/" \/ ∃ c, last (comps root) = Some c ∧ c <> "..").

Lemma root_ok_dir root : root_ok root -> root = "/" \/ dir_ok root.
Proof.
  intros [Hc [->|(c & Hl & _)]]; [by left|]. right. split; [done|]. by intros E; rewrite E in Hl.
Qed.
Lemma Join2 root path : root <> "" -> filepath_Join [root; path] = Clean (root +:+ "/" +:+ path).
Proof. intros H. unfold filepath_Join. by destruct (String.eqb_spec root ""). Qed.
Lemma rooted_Join2 root path :
  root <> "" -> rooted (filepath_Join [root; path]) = rooted root.
Proof. intros H. by rewrite Join2, rooted_Clean, rooted_app. Qed.
Lemma Clean_Join2 root path :
  root <> "" -> Clean (filepath_Join [root; path]) = filepath_Join [root; path].
Proof. intros H. by rewrite Join2, Clean_idemp. Qed.
Lemma names_below root abs l :
  root_ok root -> rooted abs = rooted root -> comps abs = comps root ++ l -> Forall name_ok l.
Proof.
  intros [Hc Hr] Hra E. pose proof (comps_ok_comps abs) as Hok. rewrite E, Hra in Hok.
  destruct Hr as [->|(c & Hl & Hd)]; [|by eapply comps_ok_app_names].
  destruct Hok as (n & names & E' & Hn & H0). rewrite (H0 eq_refl) in E'. simpl in E'. by subst.
Qed.
Lemma len_extends root abs :
  HasPrefix abs (root +:+ "/") = true -> len root < len abs.
Proof. rewrite HasPrefix_spec. intros [r ->]. unfold len. rewrite !str_length_app. simpl. lia. Qed.

Lemma AbsPathNoEscape_spec root path abs :
  root_ok root ->
  AbsPathNoEscape root path = Ok abs ↔
  abs = Clean (root +:+ "/" +:+ path) ∧
  ∃ names, Forall name_ok names ∧ comps abs = comps root ++ names.
Proof.
  intros Hroot. assert (root <> "") as Hne.
  { destruct Hroot as [<- _]. apply Clean_nonempty. }
  rewrite <-Join2 by done. unfold AbsPathNoEscape.
  set (a := filepath_Join [root; path]).
  assert (rooted a = rooted root) as Hra by by apply rooted_Join2.
  assert (Clean a = a) as Hca by by apply Clean_Join2.
  assert ((∃ names, Forall name_ok names ∧ comps a = comps root ++ names) ↔
          ∃ names, comps a = comps root ++ names) as Hnames.
  { split; [naive_solver|]. intros (l & E). exists l. split; [|done]. by eapply names_below. }
  apply root_ok_dir in Hroot as Hd.
  assert ((∃ names, comps a = comps root ++ names) ↔
    (if len a <=? len root then negb (String.eqb root a)
     else if negb (String.eqb root "/") then negb (HasPrefix a (root +:+ "/")) else false) = false) as Hiff.
  { destruct Hroot as [Hcr _]. assert (root = a -> comps a = comps root ++ []) as Heq.
    { intros <-. by rewrite app_nil_r. }
    assert (comps a = comps root -> root = a) as Hinj by (intros ?; by apply comps_inj).
    destruct (Z.leb_spec (len a) (len root)) as [Hl|Hl].
    - rewrite negb_false_iff, String.eqb_eq. split; [|by eauto]. intros ([|x l] & E).
      { rewrite app_nil_r in E. auto. }
      destruct Hd as [->|Hd].
      + change (comps "/" ++ x :: l) with (x :: l) in E.
        pose proof (comps_ok_comps a) as Hok. rewrite E in Hok. apply comps_ok_head in Hok as [Hx _].
        rewrite <-Hca in Hl. unfold Clean in Hl. rewrite Hra, E in Hl.
        change (len ("/" +:+ Join (x :: l) "/") <= 1) in Hl. unfold len in Hl.
        destruct x; [done|]. rewrite Join_cons_char, str_length_app in Hl. simpl in Hl. lia.
      + assert (HasPrefix a (root +:+ "/") = true) as Hp%len_extends; [|lia].
        apply HasPrefix_comps; try done. by exists (x :: l).
    - destruct (String.eqb_spec root "/") as [->|Hs]; simpl.
      { split; [done|]. intros _. by exists (comps a). }
      destruct Hd as [|Hd]; [done|].
      rewrite negb_false_iff, HasPrefix_comps by done. split; [|naive_solver].
      intros (l & E). exists l. split; [|done]. intros ->. rewrite app_nil_r in E.
      apply Hinj in E. rewrite <-E in Hl. lia. }
  rewrite <-Hnames in Hiff.
  destruct (if len a <=? len root then _ else _); split.
  - done.
  - intros [-> H]. by apply Hiff in H.
  - intros [= <-]. split; [done|]. by apply Hiff.
  - by intros [-> _].
Qed.

(** With [/] as the root nothing is ever rejected. *)
Lemma AbsPathNoEscape_top path : ∃ abs, AbsPathNoEscape "/" path = Ok abs.
Proof.
  exists (Clean ("/" +:+ "/" +:+ path)). apply AbsPathNoEscape_spec; [split; auto|].
  split; [done|]. set (p := "/" +:+ "/" +:+ path). rewrite comps_Clean.
  destruct (comps_ok_comps p) as (n & names & E & Hn & H0). exists names. split; [done|].
  by rewrite E, (H0 eq_refl).
Qed.

(** ** Theory: the size limiter *)
Section LimiterTheory.
Context {St : Type} (cfg : tarUnpackConfig St).

(** Limits far enough below the 64-bit range; the code's are at most 2^35. *)
Definition limits_ok : Prop :=
  0 <= maxItemSize cfg < 2 ^ 61 ∧ 0 <= maxDiskSize cfg < 2 ^ 61 ∧ 0 <= blockSize cfg < 2 ^ 61.

(** What a limiter that accepted [sum] bytes so far has recorded. *)
Definition lim_inv (sum : Z) (l : limiter) : Prop :=
  0 <= sum ∧ totalSize l = sum + blockSize cfg * Z.of_nat (size (uniqueDirEntries l)) ∧
  totalSize l <= maxDiskSize cfg ∧ (Z.of_nat (size (uniqueDirEntries l)) <= Z.max 0 (maxNumItems cfg)).

Lemma lim_inv_new : limits_ok -> lim_inv 0 new_limiter.
Proof.
  intros (? & ? & ?). unfold lim_inv.
  change (uniqueDirEntries new_limiter) with (∅ : gset string).
  change (totalSize new_limiter) with 0. rewrite size_empty. lia.
Qed.

Lemma charge_entries_inv fuel base sum l t l' :
  limits_ok -> lim_inv sum l -> charge_entries cfg fuel base l = (Ok t, l') ->
  lim_inv sum l' ∧ t = totalSize l' ∧ base ∈ uniqueDirEntries l' ∧
  uniqueDirEntries l ⊆ uniqueDirEntries l'.
Proof.
  intros Hc. revert base l. induction fuel as [|fuel IH]; intros base l Hl H; [done|].
  cbn [charge_entries] in H. case_bool_decide as Hb; [by simplify_eq|].
  destruct Hl as (H0 & Ht & Hd & Hn). pose proof Hc as (? & ? & ?).
  set (l1 := {| totalSize := _; uniqueDirEntries := {[base]} ∪ _ |}) in *.
  assert (totalSize l1 = totalSize l + blockSize cfg) as E1.
  { apply wrap64_small. unfold in_int64. lia. }
  assert (size (uniqueDirEntries l1) = S (size (uniqueDirEntries l))) as E2.
  { simpl. rewrite size_union by set_solver. by rewrite size_singleton. }
  destruct (Z.ltb_spec (maxDiskSize cfg) (totalSize l1)); [done|].
  destruct (Z.ltb_spec (maxNumItems cfg) (Z.of_nat (size (uniqueDirEntries l1)))); [done|].
  assert (lim_inv sum l1) as Hl1 by (unfold lim_inv; lia).
  destruct ((len (filepath_Dir base) =? 0) || String.eqb (filepath_Dir base) "." ||
            String.eqb (filepath_Dir base) base).
  { injection H as <- <-. split_and!; try done; simpl; set_solver. }
  apply IH in H; [|done]. destruct H as (? & ? & ? & Hs). split_and!; try done; simpl in Hs; set_solver.
Qed.

Lemma diskSizeLimiter_inv path sz sum l t l' :
  limits_ok -> 0 <= sz < 2 ^ 63 -> lim_inv sum l -> _diskSizeLimiter cfg path sz l = (Ok t, l') ->
  lim_inv (sum + sz) l' ∧ t = totalSize l' ∧ sz <= maxItemSize cfg ∧ len path <= maxPathLen cfg ∧
  path ∈ uniqueDirEntries l' ∧ uniqueDirEntries l ⊆ uniqueDirEntries l'.
Proof.
  intros Hc Hsz Hl. unfold _diskSizeLimiter.
  set (l1 := {| totalSize := _; uniqueDirEntries := uniqueDirEntries l |}).
  destruct (Z.ltb_spec (maxItemSize cfg) sz); [done|].
  assert (totalSize l1 = totalSize l + sz) as E1.
  { apply wrap64_small. unfold lim_inv, limits_ok, in_int64 in *. lia. }
  destruct (Z.ltb_spec (maxDiskSize cfg) (totalSize l1)); [done|].
  destruct (Z.ltb_spec (maxPathLen cfg) (len path)); [done|].
  intros Hch. apply (charge_entries_inv _ _ (sum + sz)) in Hch; [|done|].
  - destruct Hch as (? & ? & ? & ?). split_and!; done.
  - unfold lim_inv in *. simpl uniqueDirEntries. lia.
Qed.

(** The calls of one limiter, as long as they succeed. *)
Fixpoint run_limiter (calls : list (string * Z)) (l : limiter) : option limiter :=
  match calls with
  | [] => Some l
  | (path, sz) :: calls' =>
      match _diskSizeLimiter cfg path sz l with
      | (Ok _, l') => run_limiter calls' l'
      | (Err _, _) => None
      end
  end.
Definition sum_sizes (calls : list (string * Z)) : Z := foldr (λ c n, c.2 + n) 0 calls.

Lemma run_limiter_inv calls sum l l' :
  limits_ok -> Forall (λ c, 0 <= c.2 < 2 ^ 63) calls -> lim_inv sum l ->
  run_limiter calls l = Some l' ->
  lim_inv (sum + sum_sizes calls) l' ∧ uniqueDirEntries l ⊆ uniqueDirEntries l' ∧
  Forall (λ c, c.2 <= maxItemSize cfg ∧ len c.1 <= maxPathLen cfg ∧ c.1 ∈ uniqueDirEntries l') calls.
Proof.
  intros Hc Hs. revert sum l. induction Hs as [|[path sz] calls Hsz Hs IH]; intros sum l Hl H.
  { simpl in *. injection H as <-. rewrite Z.add_0_r. by split_and!. }
  simpl in *. destruct (_diskSizeLimiter cfg path sz l) as [[t|e] l1] eqn:E; [|done].
  apply (diskSizeLimiter_inv _ _ sum) in E; try done. destruct E as (E1 & _ & E2 & E3 & E4 & E5).
  apply (IH (sum + sz)) in H; [|done]. destruct H as (H1 & H2 & H3).
  rewrite <-Z.add_assoc in H1. split_and!; [done|set_solver|].
  constructor; [|done]. simpl. split_and!; [done|done|set_solver].
Qed.
End LimiterTheory.

(** Whatever entries a tarball lists, a limiter that accepts them all has seen
    at most the configured bytes (each new path charged a block), items, item
    size and path length; no 64-bit sum wraps on the way. *)
Theorem limiter_sound {St} (cfg : tarUnpackConfig St) calls l :
  limits_ok cfg -> Forall (λ c, 0 <= c.2 < 2 ^ 63) calls ->
  run_limiter cfg calls new_limiter = Some l ->
  sum_sizes calls + blockSize cfg * Z.of_nat (size (uniqueDirEntries l)) <= maxDiskSize cfg ∧
  Z.of_nat (size (uniqueDirEntries l)) <= Z.max 0 (maxNumItems cfg) ∧
  Forall (λ c, c.2 <= maxItemSize cfg ∧ len c.1 <= maxPathLen cfg ∧ c.1 ∈ uniqueDirEntries l) calls.
Proof.
  intros Hc Hs H. apply (run_limiter_inv cfg _ 0) in H; [|done|done|by apply lim_inv_new].
  destruct H as ((_ & H1 & H2 & H3) & _ & H4). split_and!; [lia|lia|done].
Qed.

(** ** Theory: the relative path, and termination of the limiter's loop *)

Lemma strip_common_app a b : strip_common a (a ++ b) = ([], b).
Proof. induction a as [|x a IH]; simpl; [by destruct b|]. by rewrite String.eqb_refl. Qed.
Lemma Rel_below root abs names :
  Clean root = root -> Clean abs = abs -> rooted abs = rooted root ->
  comps abs = comps root ++ names ->
  filepath_Rel root abs = Ok (render false names).
Proof.
  intros Hr Ha Hra E. unfold filepath_Rel. rewrite Hr, Ha.
  destruct (String.eqb_spec root abs) as [->|Hne].
  { destruct names as [|x l]; [done|]. apply (f_equal length) in E. rewrite length_app in E.
    simpl in E. lia. }
  rewrite Hra, Bool.eqb_reflx. simpl. rewrite E, strip_common_app. simpl.
  destruct names; [|done]. rewrite app_nil_r in E. destruct Hne. by apply comps_inj.
Qed.

Lemma names_comps_ok r names : Forall name_ok names -> comps_ok r names.
Proof. intros H. by exists O, names. Qed.
Lemma Dir_single c : name_ok c -> filepath_Dir c = ".".
Proof.
  intros (_ & _ & _ & H). unfold filepath_Dir.
  assert (filepath_Split c = ("", c)) as ->; [|done].
  induction c as [|x c IH]; [done|]. simpl in H. apply andb_true_iff in H as [H1 H2].
  cbn [filepath_Split]. rewrite IH by done. destruct (Ascii.eqb_spec x slash) as [->|]; done.
Qed.
Lemma charge_entries_fuel {St} (cfg : tarUnpackConfig St) fuel names l r l' :
  Forall name_ok names -> (length names < fuel)%nat ->
  charge_entries cfg fuel (render false names) l = (r, l') -> r <> Err (ErrMsg "out of fuel").
Proof.
  revert names l. induction fuel as [|fuel IH]; intros names l Hn Hf; [lia|].
  cbn [charge_entries]. case_bool_decide; [by intros [= <- <-]|].
  case_match; [by intros [= <- <-]|]. case_match; [by intros [= <- <-]|].
  destruct names as [|c names _] using rev_ind; [by intros [= <- <-]|].
  apply Forall_app in Hn as [Hn Hc%Forall_inv]. rewrite length_app in Hf. simpl in Hf.
  destruct names as [|y names].
  { change (render false ([] ++ [c])) with c. rewrite Dir_single by done. by intros [= <- <-]. }
  rewrite Dir_render; [|apply names_comps_ok, Forall_app; by rewrite Forall_singleton|done].
  case_match; [by intros [= <- <-]|]. apply IH; [done|]. simpl in *. lia.
Qed.

Lemma length_Join_names names sep : Forall name_ok names -> (length names <= S (String.length (Join names sep)))%nat.
Proof.
  induction 1 as [|c l Hc Hl IH]; [simpl; lia|].
  destruct l as [|y l]; [simpl; lia|]. rewrite Join_cons by done. rewrite !str_length_app.
  destruct Hc as (Hc & _). destruct c; [done|]. simpl in *. lia.
Qed.

(** The loop that charges directory entries ends within the fuel the model
    gives it, for every path the unpacker can pass: those relative to the
    destination of an accepted name. *)
Theorem diskSizeLimiter_terminates {St} (cfg : tarUnpackConfig St) root name abs rel sz l r l' :
  root_ok root -> AbsPathNoEscape root name = Ok abs -> filepath_Rel root abs = Ok rel ->
  _diskSizeLimiter cfg rel sz l = (r, l') -> r <> Err (ErrMsg "out of fuel").
Proof.
  intros Hr Ha Hrel. assert (root <> "") as Hne by (destruct Hr as [<- _]; apply Clean_nonempty).
  apply AbsPathNoEscape_spec in Ha as [-> (names & Hn & E)]; [|done].
  rewrite (Rel_below _ _ names) in Hrel; try done.
  2: apply Hr. 2: apply Clean_idemp. 2: by rewrite rooted_Clean, rooted_app.
  injection Hrel as <-. unfold _diskSizeLimiter.
  case_match; [by intros [= <- <-]|]. case_match; [by intros [= <- <-]|].
  case_match; [by intros [= <- <-]|]. apply charge_entries_fuel; [done|].
  pose proof (length_Join_names names "/" Hn). destruct names; simpl in *; lia.
Qed.

(** ** Theory: confinement *)


(** Only directories that were absent appear. *)
Definition grows_dirs (l : list string) (w w' : world) : Prop :=
  ∀ k, fs w' !! k = fs w !! k \/ (k ∈ l ∧ fs w !! k = None ∧ fs w' !! k = Some Dir).

Lemma MkdirAll_effect p w r w' : os_MkdirAll p w = (r, w') -> grows_dirs (ancestors p) w w'.
Proof.
  unfold os_MkdirAll. intros H k.
  apply syscall_inv in H as [[l H]|(e & l & -> & ->)]; [|by left]. simpl in H.
  destruct (existsb _ _) eqn:Ex; simplify_eq; [by left|]. simpl.
  rewrite foldr_mkdir_lookup. case_decide as Hk; [|by left].
  destruct (fs w !! k) as [[c m t|]|] eqn:E; [|by left|by right].
  assert (existsb (λ a, match fs w !! a with Some (File _ _ _) => true | _ => false end) (ancestors p) = true) as Ht.
  { apply existsb_exists. exists k. rewrite E. split; [by apply list_elem_of_In|done]. }
  congruence.
Qed.

Lemma under_below root q :
  root_ok root -> q <> [] -> under root (render (rooted root) (comps root ++ q)) = true.
Proof.
  intros Hr Hq. unfold under. apply orb_true_iff. right. unfold dir_prefix.
  destruct (String.eqb_spec root "/") as [->|Hs].
  { change (render (rooted "/") (comps "/" ++ q)) with ("/" +:+ Join q "/"). apply HasPrefix_app. }
  destruct (root_ok_dir _ Hr) as [|[Hc Hne]]; [done|].
  rewrite render_app by done. change (render (rooted root) (comps root)) with (Clean root).
  rewrite Hc, <-str_app_assoc. apply HasPrefix_app.
Qed.
Lemma ancestors_below root abs names a :
  root_ok root -> rooted abs = rooted root -> comps abs = comps root ++ names ->
  a ∈ ancestors abs -> under root a = true \/ a ∈ ancestors root.
Proof.
  intros Hr Hra E. rewrite !elem_of_ancestors, Hra, E. intros (q & Hq & Hp & ->).
  destruct (prefix_weak_total q (comps root) (comps root ++ names) Hp) as [H|[q' ->]].
  - by exists names.
  - right. eauto.
  - destruct q' as [|x q']; [|left; by apply under_below].
    rewrite app_nil_r in *. right. exists (comps root). by split_and!.
Qed.
Lemma ancestors_Dir abs a :
  Clean abs = abs -> a ∈ ancestors (filepath_Dir abs) -> a ∈ ancestors abs.
Proof.
  intros Ha. pose proof (comps_ok_comps abs) as Hok.
  destruct (comps abs) as [|c cs _] eqn:E using rev_ind.
  - rewrite <-Ha. unfold Clean, render. rewrite E.
    destruct (rooted abs); intros H; exact H.
  - destruct cs as [|x cs].
    + rewrite <-Ha at 1. unfold Clean. rewrite E. simpl app.
      assert (filepath_Dir (render (rooted abs) [c]) = if rooted abs then "/" else ".") as ->.
      { pose proof (comps_ok_no_slash _ _ Hok) as Hs. apply Forall_inv in Hs.
        destruct (rooted abs).
        - unfold filepath_Dir. change (render true [c]) with ("" +:+ "/" +:+ c).
          by rewrite filepath_Split_app.
        - destruct Hok as ([|[|n]] & names & En & Hn & _); simpl in En.
          + subst. apply Dir_single. by apply Forall_inv in Hn.
          + injection En as -> _. done.
          + injection En as -> En. done. }
      destruct (rooted abs); intros H; by apply elem_of_nil in H.
    + rewrite <-Ha at 1. unfold Clean. rewrite E, Dir_render by done.
      pose proof (comps_ok_init _ _ _ Hok) as Hok'.
      rewrite !elem_of_ancestors. intros (q & Hq & Hp & ->).
      rewrite comps_render, rooted_render in * by done. exists q. split_and!; [done| |done].
      rewrite E. by apply prefix_app_r.
Qed.

(** The path check accepts exactly the paths that stay below the root: what
    it returns is a clean path at or under the root, and what it refuses is a
    path that leaves the root. *)
Theorem AbsPathNoEscape_confines root path :
  root_ok root ->
  match AbsPathNoEscape root path with
  | Ok abs => abs = Clean (root +:+ "/" +:+ path) ∧ under root abs = true
  | Err _ => ~ ∃ names, Forall name_ok names ∧ comps (Clean (root +:+ "/" +:+ path)) = comps root ++ names
  end.
Proof.
  intros Hr. destruct (AbsPathNoEscape root path) as [abs|e] eqn:E.
  - apply AbsPathNoEscape_spec in E as [-> (names & Hn & E)]; [|done]. split; [done|].
    assert (root <> "") as Hne by (destruct (root_ok_dir _ Hr) as [->|]; [done|by apply dir_ok_nonempty]).
    rewrite <-Clean_idemp. unfold Clean at 1. rewrite E, rooted_Clean, rooted_app by done.
    destruct names as [|n names]; [|by apply under_below].
    rewrite app_nil_r. change (render (rooted root) (comps root)) with (Clean root). destruct Hr as [-> _]. apply under_refl.
  - intros (names & Hn & Hc).
    assert (AbsPathNoEscape root path = Ok (Clean (root +:+ "/" +:+ path))) as E'; [|congruence].
    apply AbsPathNoEscape_spec; [done|]. eauto.
Qed.

(** [w'] differs from [w] only below [root], and by directories created on the
    way to it. *)
Definition confined (root : string) (w w' : world) : Prop :=
  ∀ k, under root k = false ->
    fs w' !! k = fs w !! k \/ (k ∈ ancestors root ∧ fs w !! k = None ∧ fs w' !! k = Some Dir).

#[global] Instance confined_preorder root : PreOrder (confined root).
Proof.
  split; [intros w k _; by left|].
  intros w1 w2 w3 H1 H2 k Hk. destruct (H1 k Hk) as [E1|(? & E1 & E2)], (H2 k Hk) as [E3|(? & E3 & E4)].
  - left. congruence.
  - right. by rewrite <-E1.
  - right. by rewrite E3.
  - congruence.
Qed.
Lemma confined_fs root w w' : fs w' = fs w -> confined root w w'.
Proof. intros E k _. left. by rewrite E. Qed.
Lemma confined_agree root p w w' : under root p = true -> agree_but [p] w w' -> confined root w w'.
Proof. intros Hp H k Hk. left. apply H. intros ->%list_elem_of_singleton. congruence. Qed.
Lemma confined_grows root l w w' :
  (∀ a, a ∈ l -> under root a = true \/ a ∈ ancestors root) -> grows_dirs l w w' -> confined root w w'.
Proof.
  intros Hl H k Hk. destruct (H k) as [|(Hkl & ? & ?)]; [by left|].
  destruct (Hl k Hkl) as [|]; [congruence|by right].
Qed.
Lemma overwrite_effect p s w r w' : fd_overwrite p s w = (r, w') -> agree_but [p] w w'.
Proof.
  unfold fd_overwrite. intros H k Hk. assert (k <> p) by set_solver.
  sys_inv H; by rewrite ?lookup_insert_ne.
Qed.
Section Confinement.
Context {St : Type} (cfg : tarUnpackConfig St) (root : string) (Hroot : root_ok root).

Lemma escape_facts name abs :
  AbsPathNoEscape root name = Ok abs ->
  under root abs = true ∧
  (∀ a, a ∈ ancestors abs -> under root a = true \/ a ∈ ancestors root) ∧
  (∀ a, a ∈ ancestors (filepath_Dir abs) -> under root a = true \/ a ∈ ancestors root).
Proof.
  assert (root <> "") as Hne by (destruct Hroot as [<- _]; apply Clean_nonempty).
  intros [-> (names & Hn & E)]%AbsPathNoEscape_spec; [|done].
  set (abs := Clean (root +:+ "/" +:+ name)) in *.
  assert (rooted abs = rooted root) as Hra by (unfold abs; by rewrite rooted_Clean, rooted_app).
  assert (Clean abs = abs) as Hca by (unfold abs; by rewrite Clean_idemp).
  assert (∀ a, a ∈ ancestors abs -> under root a = true \/ a ∈ ancestors root) as Hanc.
  { intros a. by eapply ancestors_below. }
  split_and!; [|done|intros a Ha; by apply Hanc, ancestors_Dir].
  destruct names as [|x names].
  - rewrite app_nil_r in E. assert (abs = root) as ->; [|apply under_refl].
    apply comps_inj; try done. apply Hroot.
  - rewrite <-Hca. unfold Clean at 1. rewrite Hra, E. by apply under_below.
Qed.

Lemma keeps_MkdirAll p :
  (∀ a, a ∈ ancestors p -> under root a = true \/ a ∈ ancestors root) ->
  keeps (confined root) (os_MkdirAll p) any.
Proof. intros Hp w r w' H%MkdirAll_effect. split; [by eapply confined_grows|by destruct r]. Qed.
Lemma keeps_open t e p m : under root p = true -> keeps (confined root) (os_OpenFile_create t e p m) any.
Proof. intros Hp w r w' H%open_effect. split; [by eapply confined_agree|by destruct r]. Qed.
Lemma keeps_overwrite p d : under root p = true -> keeps (confined root) (fd_overwrite p d) any.
Proof. intros Hp w r w' H%overwrite_effect. split; [by eapply confined_agree|by destruct r]. Qed.
Lemma keeps_close : keeps (confined root) fd_close any.
Proof. intros w r w' H%close_effect. split; [by apply confined_fs|by destruct r]. Qed.
Hint Resolve keeps_open keeps_overwrite keeps_close : keeps.

Lemma keeps_copy p d de limit :
  under root p = true -> keeps (confined root) (_copyAndCloseOut p d de limit) any.
Proof. intros Hp. unfold _copyAndCloseOut. keeps_auto. Qed.
Hint Resolve keeps_copy : keeps.

Lemma keeps_createDir hdr u :
  keeps (confined root) (_createDirForTarItem cfg root hdr u)
    (λ v, match v with (Ok (abs, _, _), _) => under root abs = true | _ => True end).
Proof.
  unfold _createDirForTarItem.
  destruct (AbsPathNoEscape root (h_Name hdr)) as [abs|] eqn:Ea; [|by keeps_auto].
  destruct (escape_facts _ _ Ea) as (Hu & H1 & H2).
  keeps_auto; try done. apply keeps_MkdirAll. case_bool_decide; auto.
Qed.

Lemma keeps_unpack_item it u : keeps (confined root) (unpack_item cfg root it u) any.
Proof.
  unfold unpack_item. eapply (keeps_bind _ _ any); [by keeps_auto|].
  intros [skip u1] _. destruct skip; [by keeps_auto|].
  destruct (h_Typeflag (it_hdr it)); [destruct (String.eqb _ _)| |]; try by keeps_auto.
  - eapply keeps_bind; [apply keeps_createDir|]. intros [r u2] Hr.
    eapply (keeps_bind _ _ (λ v, under root v.1.1 = true)).
    { apply keeps_wrap, keeps_lift. by intros [[abs rel] d] ->. }
    intros [[abs rel] d] Hu. simpl in Hu. keeps_auto.
  - eapply keeps_bind; [apply keeps_createDir|]. intros [r u2] _. keeps_auto.
Qed.

Lemma keeps_unpack_items items u : keeps (confined root) (unpack_items cfg root items u) any.
Proof.
  revert u. induction items as [|[it|e] items IH]; intros u; simpl; [by keeps_auto| |by keeps_auto].
  eapply keeps_bind; [apply keeps_unpack_item|]. intros u' _. apply IH.
Qed.
End Confinement.

(** C8. Whatever names a tarball's entries have, and wherever a system call fails,
    unpacking touches nothing outside the destination directory: it only
    creates the directories leading to it that are missing. *)
Theorem unpackTar_confined {St} (cfg : tarUnpackConfig St) st0 src root w r w' :
  root_ok root -> onUnpackStarted (events cfg) = None -> onUnpackComplete (events cfg) = None ->
  _unpackTar cfg st0 src root w = (r, w') -> confined root w w'.
Proof.
  intros Hr H1 H2 H. eapply (keeps_bind (R := confined root) _ _ any any); [| |apply H].
  - rewrite H1. by apply keeps_ret.
  - intros a _. rewrite H2. eapply keeps_bind; [by apply keeps_unpack_items|].
    intros u _. by apply keeps_ret.
Qed.

(** ** Theory: what an accepted tarball can hold *)

Lemma str_take_length n s : String.length (str_take n s) = Nat.min n (String.length s).
Proof. revert s. induction n as [|n IH]; intros [|c s]; simpl; auto. Qed.
Lemma copy_value p d de limit :
  0 <= limit -> yields (_copyAndCloseOut p d de limit) (λ n, n = Z.min limit (len d)).
Proof.
  intros Hl. unfold _copyAndCloseOut. keeps_auto. unfold len.
  destruct (Z.leb_spec limit 0); [simpl; lia|]. rewrite str_take_length. lia.
Qed.

Section Bounded.
Context {St : Type} (cfg : tarUnpackConfig St) (root : string).
Context (Hlim : limits_ok cfg) (Hseen : onTarHeaderSeen (events cfg) = None).

Definition stored_bytes (it : tar_item) : Z :=
  match h_Typeflag (it_hdr it) with TypeReg => len (it_data it) | _ => 0 end.

Lemma check_real_inv path sz u sum t u' :
  0 <= sz < 2 ^ 63 -> lim_inv cfg sum (checkRealSize u) -> check_real cfg path sz u = (Ok t, u') ->
  lim_inv cfg (sum + sz) (checkRealSize u') ∧ t = totalSize (checkRealSize u') ∧ sz <= maxItemSize cfg ∧
  uniqueDirEntries (checkRealSize u) ⊆ uniqueDirEntries (checkRealSize u').
Proof.
  intros Hs Hu. unfold check_real. destruct (_diskSizeLimiter cfg path sz _) as [r l] eqn:E.
  intros [= -> <-]. apply (diskSizeLimiter_inv _ _ _ sum) in E; naive_solver.
Qed.
Lemma check_declared_real path sz u : checkRealSize (check_declared cfg path sz u).2 = checkRealSize u.
Proof. unfold check_declared. by destruct (_diskSizeLimiter cfg path sz _). Qed.

Lemma createDir_limits hdr u sum :
  lim_inv cfg sum (checkRealSize u) ->
  yields (_createDirForTarItem cfg root hdr u)
    (λ v, match v with
          | (Ok (_, _, d), u') => lim_inv cfg sum (checkRealSize u') ∧ d = totalSize (checkRealSize u')
          | _ => True
          end).
Proof.
  intros Hu. unfold _createDirForTarItem. repeat (case_match; [|by keeps_auto]).
  destruct (check_declared cfg a0 (h_Size hdr) u) as [[t|e] u1] eqn:E1; [|by keeps_auto].
  pose proof (check_declared_real a0 (h_Size hdr) u) as E1'. rewrite E1 in E1'. simpl in E1'.
  destruct (check_real cfg a0 0 u1) as [[t'|e] u2] eqn:E2; [|by keeps_auto].
  apply (check_real_inv _ _ _ sum) in E2; [|lia|by rewrite E1']. rewrite Z.add_0_r in E2.
  keeps_auto. naive_solver.
Qed.

Lemma unpack_item_limits it u sum :
  len (it_data it) < 2 ^ 63 -> lim_inv cfg sum (checkRealSize u) ->
  yields (unpack_item cfg root it u)
    (λ u', lim_inv cfg (sum + stored_bytes it) (checkRealSize u') ∧
           stored_bytes it <= Z.max 0 (maxItemSize cfg) ∧ h_Typeflag (it_hdr it) <> TypeOther).
Proof.
  intros Hd Hu. unfold unpack_item, stored_bytes. rewrite Hseen.
  eapply (keeps_bind _ _ (λ v, v = (false, u))); [by apply keeps_ret|]. intros ? ->. cbv iota beta.
  destruct (h_Typeflag (it_hdr it)) eqn:Et; [destruct (String.eqb _ _)| |]; [by keeps_auto| | |by keeps_auto].
  - eapply keeps_bind; [by apply createDir_limits|]. intros [[[[abs rel] d]|e] u2] H2; [|by keeps_auto].
    destruct H2 as [H2 ->].
    eapply (keeps_bind _ _ (λ v, v = (abs, rel, totalSize (checkRealSize u2)))).
    { apply keeps_wrap, keeps_lift. by intros a [= <-]. }
    intros ? ->. eapply (keeps_bind _ _ any); [by keeps_auto|]. intros _ _.
    pose proof Hlim as (? & ? & ?). pose proof H2 as (? & ? & ? & ?).
    eapply keeps_wrap, keeps_bind; [apply copy_value; lia|]. simpl. intros n ->.
    assert (0 <= len (it_data it)) by (unfold len; lia).
    destruct (check_real cfg rel _ u2) as [[t|e] u3] eqn:E3; [|by keeps_auto].
    apply (check_real_inv _ _ _ sum) in E3; [|lia|done]. destruct E3 as (E3 & _ & E4 & E5).
    eapply (keeps_bind _ _ any); [by keeps_auto|]. intros _ _. apply keeps_ret.
    apply subseteq_size in E5. pose proof E3 as (? & ? & ? & ?).
    assert (blockSize cfg * Z.of_nat (size (uniqueDirEntries (checkRealSize u2))) <=
            blockSize cfg * Z.of_nat (size (uniqueDirEntries (checkRealSize u3)))).
    { apply Z.mul_le_mono_nonneg_l; lia. }
    rewrite (Z.min_r _ (len (it_data it))) in * by lia. split_and!; [done|lia|done].
  - eapply keeps_bind; [by apply createDir_limits|]. intros [[[[abs rel] d]|e] u2] H2; [|by keeps_auto].
    destruct H2 as [H2 ->]. keeps_auto. rewrite Z.add_0_r. split_and!; [done|lia|done].
Qed.

Lemma unpack_items_limits items u sum :
  Forall (λ it, match it with Ok it => len (it_data it) < 2 ^ 63 | Err _ => True end) items ->
  lim_inv cfg sum (checkRealSize u) ->
  yields (unpack_items cfg root items u)
    (λ u', ∃ its, items = Ok <$> its ∧
       lim_inv cfg (sum + foldr (λ it n, stored_bytes it + n) 0 its) (checkRealSize u') ∧
       Forall (λ it, stored_bytes it <= Z.max 0 (maxItemSize cfg) ∧
                     h_Typeflag (it_hdr it) <> TypeOther) its).
Proof.
  intros Hd. revert u sum. induction Hd as [|[it|e] items Hit Hd IH]; intros u sum Hu; simpl.
  - apply keeps_ret. exists []. simpl. by rewrite Z.add_0_r.
  - eapply keeps_bind; [by apply unpack_item_limits|]. simpl. intros u1 (H1 & H2 & H3).
    eapply keeps_weaken; [by apply IH|]. simpl. intros u' (its & -> & H4 & H5).
    exists (it :: its). simpl. rewrite Z.add_assoc. split_and!; try done. by constructor.
  - by keeps_auto.
Qed.
End Bounded.

