(* ===== verification/Crypto.v ===== *)
(** What the program takes from Go's crypto and encoding packages: hexadecimal,
    and the digests and codecs as operations of type classes whose laws are the
    documented behaviour the code relies on. *)
From S2P Require Import Prelude GoStrings.

(** ** encoding/hex, [fmt "%x"] of a byte string *)
Definition hex_byte (c : ascii) : string :=
  let n := Z.of_nat (nat_of_ascii c) in
  String (digit_char (n / 16)) (String (digit_char (n mod 16)) "").
Fixpoint hex (s : string) : string :=
  match s with "" => "" | String c s' => hex_byte c +:+ hex s' end.

Lemma hex_hexdigit s : str_all is_hexdigit (hex s) = true.
Proof.
  induction s as [|c s IH]; [done|]. cbn [hex]. rewrite str_all_app, IH, andb_true_r.
  unfold hex_byte. cbn [str_all].
  assert (0 <= Z.of_nat (nat_of_ascii c) < 256) by (pose proof (nat_ascii_bounded c); lia).
  pose proof (Z.mod_pos_bound (Z.of_nat (nat_of_ascii c)) 16).
  rewrite !digit_char_hex; [done|lia|].
  split; [apply Z.div_pos; lia|apply Z.div_lt_upper_bound; lia].
Qed.
Lemma hex_length s : String.length (hex s) = (2 * String.length s)%nat.
Proof. induction s as [|c s IH]; [done|]. cbn [hex]. rewrite str_length_app, IH. simpl. lia. Qed.
Lemma hexdigit_no_char c s :
  is_hexdigit c = false -> str_all is_hexdigit s = true -> no_char c s = true.
Proof.
  intros Hc. apply str_all_impl. intros x Hx. apply negb_true_iff.
  destruct (Ascii.eqb_spec x c) as [->|]; congruence.
Qed.

(** ** Digests *)
Class Digest := {
  sha256 : string -> string;
  hmac_sha256 : string -> string -> string;  (* key, message *)
  hkdf_sha256 : string -> string -> string   (* secret, salt; 32 bytes of output *)
}.
(** The digest is 32 bytes. *)
Class DigestLaws `{Digest} := { sha256_length s : String.length (sha256 s) = 32%nat }.
Definition sha256_hex `{Digest} (s : string) : string := hex (sha256 s).

(** ** [time.Time.Format(time.RFC3339)] of a time in milliseconds, in the
    zone of the host and in UTC *)
Class TimeFormat := { rfc3339 : Z -> string; rfc3339_utc : Z -> string }.

(** ** encoding/json: the codec of one Go type *)
Class JSON (A : Type) := {
  json_Marshal : A -> string;
  json_Unmarshal : string -> result A
}.
(** A value survives encoding and decoding; compact encodings hold no newline
    and are never empty. *)
Class JSONLaws (A : Type) `{JSON A} := {
  json_roundtrip a : json_Unmarshal (json_Marshal a) = Ok a;
  json_no_newline a : no_char (byte 10) (json_Marshal a) = true;
  json_nonempty a : json_Marshal a <> ""
}.

(** ** Concrete instances, for evaluating the model on examples *)

(** A stand-in digest: the first 32 bytes of the zero-padded message. *)
Fixpoint zeros (n : nat) : string := match n with O => "" | S n' => String (byte 48) (zeros n') end.
Definition pad32 (s : string) : string := str_take 32 (s +:+ zeros 32).
Definition toy_digest : Digest := {| sha256 := pad32; hmac_sha256 k m := k +:+ m; hkdf_sha256 k s := k +:+ s |}.
Lemma toy_digest_laws : @DigestLaws toy_digest.
Proof.
  constructor. intros s. cbn [sha256 toy_digest]. unfold pad32.
  do 32 (destruct s as [|? s]; [done|]). done.
Qed.

(** A stand-in codec for any countable type: the bits of its code. *)
Fixpoint pos_bits (p : positive) : string :=
  match p with xH => "." | xO p' => String "0" (pos_bits p') | xI p' => String "1" (pos_bits p') end.
Fixpoint bits_pos (s : string) : option positive :=
  match s with
  | "." => Some xH
  | String "0" s' => xO <$> bits_pos s'
  | String "1" s' => xI <$> bits_pos s'
  | _ => None
  end.
Definition toy_json `{Countable A} : JSON A :=
  {| json_Marshal a := pos_bits (encode a);
     json_Unmarshal s := match bits_pos s ≫= decode with Some a => Ok a | None => Err (ErrMsg "invalid JSON") end |}.
Lemma bits_pos_bits p : bits_pos (pos_bits p) = Some p.
Proof. induction p as [p IH|p IH|]; simpl; by rewrite ?IH. Qed.
Lemma toy_json_laws `{Countable A} : @JSONLaws A toy_json.
Proof.
  constructor; intros a; simpl.
  - by rewrite bits_pos_bits; simpl; rewrite decode_encode.
  - induction (encode a); done.
  - by destruct (encode a).
Qed.

(** ** hash/fnv: [New128a] *)
Definition fnv_offset128 : Z := 144066263297769815596495629667062367629.
Definition fnv_prime128 : Z := 2 ^ 88 + 315.
Fixpoint fnv128a_loop (h : Z) (data : string) : Z :=
  match data with
  | "" => h
  | String c data' => fnv128a_loop ((Z.lxor h (Z.of_nat (nat_of_ascii c)) * fnv_prime128) mod 2 ^ 128) data'
  end.
(** The sum as [n] big-endian bytes. *)
Fixpoint be_bytes (n : nat) (z : Z) : string :=
  match n with
  | O => ""
  | S n' => be_bytes n' (z / 256) +:+ str1 (ascii_of_nat (Z.to_nat (z mod 256)))
  end.
Definition fnv128a (data : string) : string := be_bytes 16 (fnv128a_loop fnv_offset128 data).
Lemma be_bytes_length n z : String.length (be_bytes n z) = n.
Proof. revert z. induction n as [|n IH]; intros z; [done|]. cbn [be_bytes]. rewrite str_length_app, IH. simpl. lia. Qed.

(** ** crypto/x509 and encoding/pem: a certificate as the code reads it, and the
    PEM form of its raw bytes *)
Record Certificate := { Raw : string; NotAfter : Z; CommonName : string }.
Class CertCodec := {
  pem_cert : string -> string;                     (* pem.EncodeToMemory of a CERTIFICATE block *)
  pem_decode : string -> option (string * string); (* pem.Decode: the block's bytes, the rest *)
  ParseCertificate : string -> result Certificate
}.
