(* ===== verification/Models.v ===== *)
(** storage/models.go: the records exchanged with devices, the validators on
    their fields, and the status shown for an update event. *)
From S2P Require Import Prelude GoStrings Crypto.

Record DeviceEvent := {
  CorrelationId : string; Ecu : string; Success : option bool;
  ev_TargetName : string; ev_Version : string; Details : string
}.
Record DeviceEventType := { EventTypeId : string; EventTypeVersion : Z }.
Record DeviceUpdateEvent := {
  Id : string; DeviceTime : string; Event : DeviceEvent; EventType : DeviceEventType
}.
Record DeviceStatus := {
  st_Uuid : string; st_CorrelationId : string; st_TargetName : string; Status : string; st_DeviceTime : string
}.
Record ConfigFile := { cf_Value : string; Unencrypted : bool; OnChanged : list string }.
Notation ConfigFiles := (gmap string ConfigFile) (only parsing).
Record AuditFields := { af_CreatedAt : Z; af_CreatedBy : string; af_Reason : string; Auxiliary : string }.
Record AppliedConfigs := { ac_Files : gmap string ConfigFile; AppliedAt : Z; AuditTrail : list AuditFields }.
Record TargetTestResult := {
  tr_Name : string; tr_Status : string; LocalTs : Z; tr_Details : string; Metrics : list (string * Z)
}.
Record TargetTest := {
  tt_Uuid : string; tt_Name : string; tt_TargetName : string; tt_Status : string; CreatedOn : Z;
  CompletedOn : option Z; tt_Details : string; Artifacts : list string; Results : list TargetTestResult
}.

#[global] Instance TargetTestResult_eq_dec : EqDecision TargetTestResult.
Proof. solve_decision. Defined.
#[global] Program Instance TargetTestResult_countable : Countable TargetTestResult :=
  inj_countable' (λ r, (tr_Name r, tr_Status r, LocalTs r, tr_Details r, Metrics r))
    (λ '(n, s, l, d, m), {| tr_Name := n; tr_Status := s; LocalTs := l; tr_Details := d; Metrics := m |}) _.
Next Obligation. by intros []. Qed.
#[global] Instance TargetTest_eq_dec : EqDecision TargetTest.
Proof. solve_decision. Defined.
#[global] Program Instance TargetTest_countable : Countable TargetTest :=
  inj_countable' (λ t, (tt_Uuid t, tt_Name t, tt_TargetName t, tt_Status t, CreatedOn t, CompletedOn t, tt_Details t,
                        Artifacts t, Results t))
    (λ '(u, n, g, s, c, d, e, a, r), {| tt_Uuid := u; tt_Name := n; tt_TargetName := g; tt_Status := s; CreatedOn := c;
       CompletedOn := d; tt_Details := e; Artifacts := a; Results := r |}) _.
Next Obligation. by intros []. Qed.

Record AppService := {
  sv_Name : string; Hash : string; Health : string; ImageUri : string; Logs : string;
  sv_State : string; sv_Status : string
}.
Record AppState := { Uri : string; as_State : string; Services : list AppService }.
Record AppsStates := { as_DeviceTime : string; Ostree : string; as_Apps : gmap string AppState }.

(** ** Validators: the regular expressions as predicates *)

(** [^[a-zA-Z0-9_\-]+$] *)
Definition ValidCorrelationId (s : string) : bool :=
  non_empty s && str_all (λ c, is_alnum c || one_of "_-" c) s.
(** [^[A-Za-z0-9\-\_]{15,48}$] *)
Definition TestIdRegex (s : string) : bool :=
  (15 <=? len s) && (len s <=? 48) && str_all (λ c, is_alnum c || one_of "-_" c) s.
(** At most 200 characters: alphanumerics, underscore, space, [, . - : ;] and the two quotes. *)
Definition ValidConfigsReasonRegex (s : string) : bool :=
  (len s <=? 200) && str_all (λ c, is_alnum c || one_of "_ ,.-:;'" c || Ascii.eqb c (byte 34)) s.

(** ** DeviceUpdateEvent.ParseStatus *)

Definition evtIdToStatus (i : string) : option string :=
  if String.eqb i "MetadataUpdateCompleted" then Some "Metadata update completed"
  else if String.eqb i "EcuDownloadStarted" then Some "Download started"
  else if String.eqb i "EcuDownloadCompleted" then Some "Download completed"
  else if String.eqb i "EcuInstallationStarted" then Some "Installation started"
  else if String.eqb i "EcuInstallationApplied" then Some "Installation applied"
  else if String.eqb i "EcuInstallationCompleted" then Some "Installation completed"
  else if String.eqb i "CertRotationStarted" then Some "Certificate rotation started"
  else if String.eqb i "CertRotationCompleted" then Some "Certificate rotation completed"
  else None.
Definition has_result (i : string) : bool :=
  String.eqb i "EcuDownloadCompleted" || String.eqb i "EcuInstallationCompleted" ||
  String.eqb i "CertRotationCompleted" || String.eqb i "MetadataUpdateCompleted".
Definition ParseStatus (e : DeviceUpdateEvent) : DeviceStatus :=
  let i := EventTypeId (EventType e) in
  let status := match evtIdToStatus i with Some s => s | None => "Unknown event type: " +:+ i end in
  let status :=
    if String.eqb i "EcuInstallationApplied" then status +:+ "; awaiting update finalization"
    else if has_result i then
      match Success (Event e) with
      | Some ok => if negb ok then status +:+ "; failed" else status +:+ "; succeeded"
      | None => status +:+ "; unknown result"
      end
    else status in
  {| st_Uuid := ""; st_CorrelationId := CorrelationId (Event e); st_TargetName := ev_TargetName (Event e);
     Status := status; st_DeviceTime := DeviceTime e |}.

(** ** Theory *)

(** A reason the API accepts can be stored in a journal line: it has no line
    break of either kind and is short. *)
Lemma valid_reason_one_line s :
  ValidConfigsReasonRegex s = true ->
  no_char (byte 10) s = true ∧ no_char (byte 13) s = true ∧ len s <= 200.
Proof.
  unfold ValidConfigsReasonRegex. intros [Hl%Z.leb_le Hs]%andb_true_iff.
  split_and!; [| |done]; (eapply str_all_impl; [|exact Hs]); intros x Hx;
    apply negb_true_iff; apply Ascii.eqb_neq; intros ->; discriminate Hx.
Qed.
(** A correlation id that the API accepts names a file directly in the device's directory. *)
Lemma valid_correlation_no_slash s : ValidCorrelationId s = true -> no_char "/" s = true.
Proof.
  unfold ValidCorrelationId. intros [_ Hs]%andb_true_iff. eapply str_all_impl; [|exact Hs].
  intros x Hx. apply negb_true_iff, Ascii.eqb_neq. intros ->. discriminate Hx.
Qed.

(** The status of an event: its text starts with the description of its type;
    for the four completion events it ends in the outcome the device reported. *)
Theorem ParseStatus_spec e :
  let i := EventTypeId (EventType e) in
  let text := Status (ParseStatus e) in
  HasPrefix text (default ("Unknown event type: " +:+ i) (evtIdToStatus i)) = true ∧
  (has_result i = true ->
     (Success (Event e) = Some false ↔ HasSuffix text "; failed" = true) ∧
     (Success (Event e) = Some true ↔ HasSuffix text "; succeeded" = true)) ∧
  (has_result i = false -> String.eqb i "EcuInstallationApplied" = false ->
     text = default ("Unknown event type: " +:+ i) (evtIdToStatus i)).
Proof.
  intros i text. assert (text = Status (ParseStatus e)) as E by done. clearbody text. subst text.
  unfold ParseStatus. cbn [Status]. fold i.
  set (d := match evtIdToStatus i with Some s => s | None => _ end).
  assert (default ("Unknown event type: " +:+ i) (evtIdToStatus i) = d) as -> by done.
  split; [|split].
  - repeat case_match; rewrite ?HasPrefix_app; try done;
      rewrite <-(str_app_nil_r d) at 1; apply HasPrefix_app.
  - intros Hr. assert (String.eqb i "EcuInstallationApplied" = false) as ->.
    { destruct (String.eqb_spec i "EcuInstallationApplied") as [->|]; [discriminate Hr|done]. }
    rewrite Hr. subst d. unfold has_result in Hr.
    repeat (apply orb_true_iff in Hr as [Hr|Hr]); apply String.eqb_eq in Hr; rewrite Hr;
      destruct (Success (Event e)) as [[]|]; vm_compute; split; split; intros; congruence || discriminate.
  - intros -> ->. done.
Qed.
