(* ===== verification/Configs.v ===== *)
(** storage/file_configs.go: factory, group and device configurations, each a
    directory of content-addressed files with an append-only journal
    ([ConfigsFsHandle], [configsFsHandle]). *)
From S2P Require Import Prelude GoStrings GoPath Schema World BaseFs Crypto Tar.

Definition ConfigsFactoryDir := "factory".
Definition ConfigsGroupDir := "group".
Definition ConfigsDeviceDir := "device".
Definition ConfigsJournalFile := ".journal".
Definition ConfigSotaOverride := "z-50-fioctl.toml".
Definition ConfigHistoryLimit : Z := 10.

(** ConfigFileSet as the storage layer fills it: the parsed [Files] stay nil. *)
Record ConfigFileSet := {
  RawFiles : string; Reason : string; CreatedAt : Z; CreatedBy : string
}.
Record configJournalItem := {
  j_name : string; j_timestamp : Z; j_username : string; j_reason : string
}.

(** A Go slice expression [l[len(l)-n:]] when [len(l) > n], else [l]; a negative
    [n] panics. *)
Definition last_n {A} (n : Z) (l : list A) : result (list A) :=
  if n <? Z.of_nat (length l) then
    if n <? 0 then Err (ErrMsg "panic: slice bounds out of range")
    else Ok (drop (length l - Z.to_nat n) l)
  else Ok l.

Section WithDigest.
Context `{Digest}.

(** ** configsFsHandle, one class of configurations rooted at [root] *)

Definition journal_line (name : string) (ts : Z) (username reason : string) : string :=
  name +:+ ":" +:+ fmt_x ts +:+ ":" +:+ username +:+ ":" +:+ reason +:+ str1 (byte 10).

Definition writeConfig (root content username reason : string) : IO unit :=
  let name := sha256_hex content in
  wrap "failed to save config file" (writeFile root name content defaultFileAccess);;
  ts ← time_now_unix;
  let line := journal_line name ts username reason in
  r ← try (appendFile root ConfigsJournalFile line defaultFileAccess);
  match r with
  | Err err =>
      ignore (deleteFile root name true);;
      fail (ErrWrap "failed to write journal for config file" err)
  | Ok _ => mret tt
  end.

Definition readConfigFiles (root : string) (info : configJournalItem) (onlyHeader : bool) : IO ConfigFileSet :=
  raw ← (if negb onlyHeader
         then wrap "failed to read config file" (readFile root (j_name info) false)
         else mret "");
  mret {| RawFiles := raw; Reason := j_reason info; CreatedAt := j_timestamp info;
          CreatedBy := j_username info |}.

Definition parse_journal_line (line : string) : result configJournalItem :=
  match SplitN line ":" 4 with
  | [] | [_] => Err (ErrMsg "failed to parse journal item: wrong format")
  | name :: ts :: rest =>
      match ParseInt ts 16 with
      | None => Err (ErrMsg "failed to parse journal item: wrong format")
      | Some t =>
          let '(username, reason) := match rest with [u; r] => (u, r) | _ => ("", "") end in
          Ok {| j_name := name; j_timestamp := t; j_username := username; j_reason := reason |}
      end
  end.
Fixpoint parse_journal (lines : list (result string)) : result (list configJournalItem) :=
  match lines with
  | [] => Ok []
  | Err e :: _ => Err (ErrWrap "failed to read journal file" e)
  | Ok line :: lines' =>
      match parse_journal_line line with
      | Err e => Err e
      | Ok item => items ← parse_journal lines'; Ok (item :: items)
      end
  end.
Definition readJournal (root : string) : IO (list configJournalItem) :=
  lines ← readFileLines root ConfigsJournalFile true;
  lift (parse_journal lines).
Definition readJournalNames (root : string) : IO (list string) :=
  items ← readJournal root; mret (map j_name items).

Definition readHistory (root : string) (latest : Z) (withFiles : bool) : IO (list ConfigFileSet) :=
  journal ← readJournal root;
  if (length journal =? 0)%nat then mret [] else
  journal ← lift (last_n latest journal);
  mapM_M (λ info, readConfigFiles root info (negb withFiles)) (reverse journal).

Definition purgeHistory (root : string) (keepLatest : Z) : IO unit :=
  haveNames ← wrap "failed to read file list from file system" (matchFiles root "" false);
  if Z.of_nat (length haveNames) <=? keepLatest then mret tt else
  keepNames ← readJournalNames root;
  keepNames ← lift (last_n keepLatest keepNames);
  forM haveNames (λ name,
    if negb (String.eqb name ConfigsJournalFile) && negb (bool_decide (name ∈ keepNames))
    then deleteFile root name true else mret tt).

(** ** ConfigsFsHandle *)

Definition factoryLocalHandle (root : string) (forUpdate : bool) : IO string :=
  let h := filepath_Join [root; ConfigsFactoryDir] in
  (if forUpdate then wrap "unable to create file storage for factory config" (mkdirs h true) else mret tt);;
  mret h.
Definition groupLocalHandle (root name : string) (forUpdate : bool) : IO string :=
  let h := filepath_Join [root; ConfigsGroupDir; name] in
  (if forUpdate then wrap "unable to create file storage for group config" (mkdirs h true) else mret tt);;
  mret h.
Definition configs_deviceLocalHandle (root uuid : string) (forUpdate : bool) : IO string :=
  let h := filepath_Join [root; ConfigsDeviceDir; uuid] in
  (if forUpdate then wrap "unable to create file storage for device config" (mkdirs h true) else mret tt);;
  mret h.

Definition ReadFactoryConfigHistory (root : string) (latest : Z) (withFiles : bool) : IO (list ConfigFileSet) :=
  h ← factoryLocalHandle root false;
  wrap "unexpected error reading factory config history" (readHistory h latest withFiles).
Definition WriteFactoryConfig (root content username reason : string) : IO unit :=
  h ← factoryLocalHandle root true;
  wrap "unexpected error writing factory config" (writeConfig h content username reason).
Definition PurgeFactoryConfigHistory (root : string) (keepLatest : Z) : IO unit :=
  h ← factoryLocalHandle root true;
  wrap "unexpected error purging factory config history" (purgeHistory h keepLatest).

Definition ReadGroupNames (root : string) : IO (list string) :=
  let dir := filepath_Join [root; ConfigsGroupDir] in
  r ← try (os_ReadDir dir);
  match r with
  | Err err => if errors_Is err ErrNotExist then mret [] else fail err
  | Ok names =>
      w ← get_state;
      mret (List.filter (λ n, bool_decide (fs w !! filepath_Join [dir; n] = Some Dir)) names)
  end.
Definition ReadGroupConfigHistory (root name : string) (latest : Z) (withFiles : bool) : IO (list ConfigFileSet) :=
  h ← groupLocalHandle root name false;
  wrap "unexpected error reading group config history" (readHistory h latest withFiles).
Definition WriteGroupConfig (root name content username reason : string) : IO unit :=
  h ← groupLocalHandle root name true;
  wrap "unexpected error writing group config" (writeConfig h content username reason).
Definition PurgeGroupConfigHistory (root name : string) (keepLatest : Z) : IO unit :=
  h ← groupLocalHandle root name true;
  wrap "unexpected error purging group config history" (purgeHistory h keepLatest).

Definition ReadDeviceConfigHistory (root uuid : string) (latest : Z) (withFiles : bool) : IO (list ConfigFileSet) :=
  h ← configs_deviceLocalHandle root uuid false;
  wrap "unexpected error reading device config history" (readHistory h latest withFiles).
Definition WriteDeviceConfig (root uuid content username reason : string) : IO unit :=
  h ← configs_deviceLocalHandle root uuid true;
  wrap "unexpected error writing device config" (writeConfig h content username reason).
Definition PurgeDeviceConfigHistory (root uuid : string) (keepLatest : Z) : IO unit :=
  h ← configs_deviceLocalHandle root uuid true;
  wrap "unexpected error purging device config history" (purgeHistory h keepLatest).

(** The uploaded tarball replaces the whole configs directory. *)
Definition Configs_SaveUpload (root : string) (payload : tarball) (onCleanupFailure : error -> IO unit) : IO unit :=
  t ← rand_text;
  let txDir := ".configs-upload-" +:+ str_take 10 t in
  let '(parent, destDir) := filepath_Split root in
  unpackTar parent tt payload destDir
    [TarUnpackReplaceDest true; TarUnpackUseTmpFile "configs.tar"; TarUnpackUseTmpDir txDir;
     TarUnpackOnEvents
       {| onUnpackStarted := None; onTarHeaderSeen := None; onUnpackComplete := None;
          onTmpCleanupError := Some onCleanupFailure;
          onTmpRenameError := Some (λ _, (true, Some ErrConfigUploadBroken)) |}].
End WithDigest.

(** ** Theory: the journal's text *)

(** One entry of a configuration's history, as the API hands it in. *)
Record entry := Entry { e_content : string; e_user : string; e_reason : string; e_ts : Z }.

Section Theory.
Context `{HD : Digest, HDL : !DigestLaws}.

Definition entry_body (e : entry) : string :=
  sha256_hex (e_content e) +:+ ":" +:+ fmt_x (e_ts e) +:+ ":" +:+ e_user e +:+ ":" +:+ e_reason e.
Definition entry_item (e : entry) : configJournalItem :=
  {| j_name := sha256_hex (e_content e); j_timestamp := e_ts e;
     j_username := e_user e; j_reason := e_reason e |}.
Definition entry_set (e : entry) : ConfigFileSet :=
  {| RawFiles := e_content e; Reason := e_reason e; CreatedAt := e_ts e; CreatedBy := e_user e |}.

(** What the callers guarantee: no separator in the user name, no line break
    in either text, a line within the scanner's limit. *)
Definition entry_ok (e : entry) : Prop :=
  no_char ":" (e_user e) = true ∧ no_char (byte 10) (e_user e) = true ∧
  no_char (byte 10) (e_reason e) = true ∧ no_char (byte 13) (e_reason e) = true ∧
  in_int64 (e_ts e) ∧ len (entry_body e) < maxScanTokenSize.

Lemma sha_no_char c s : is_hexdigit c = false -> no_char c (sha256_hex s) = true.
Proof. intros Hc. eapply hexdigit_no_char; [done|apply hex_hexdigit]. Qed.
Lemma sha_length s : String.length (sha256_hex s) = 64%nat.
Proof. unfold sha256_hex. by rewrite hex_length, sha256_length. Qed.
Lemma sha_name_ok s : name_ok (sha256_hex s).
Proof.
  pose proof (sha_length s) as Hl. split_and!; try (intros E; rewrite E in Hl; discriminate Hl).
  by apply sha_no_char.
Qed.
Lemma journal_name_ok : name_ok ConfigsJournalFile.
Proof. vm_compute. intuition discriminate. Qed.
Lemma sha_not_journal s : sha256_hex s <> ConfigsJournalFile.
Proof. intros E. pose proof (sha_length s) as Hl. rewrite E in Hl. discriminate Hl. Qed.
Lemma sha_not_partial s : HasSuffix (sha256_hex s) partialFileSuffix = false.
Proof.
  apply not_true_is_false. rewrite HasSuffix_spec. intros [r E].
  pose proof (sha_no_char "." s eq_refl) as Hd. rewrite E, no_char_app in Hd.
  apply andb_true_iff in Hd as [_ Hd]. discriminate Hd.
Qed.

Lemma entry_line e : journal_line (sha256_hex (e_content e)) (e_ts e) (e_user e) (e_reason e) =
                     entry_body e +:+ str1 (byte 10).
Proof. unfold journal_line, entry_body. by rewrite !str_app_assoc. Qed.

(** A journal line parses back to the item that was written. *)
Lemma parse_entry e : entry_ok e -> parse_journal_line (entry_body e) = Ok (entry_item e).
Proof.
  intros (Hu & _ & _ & _ & Ht & _). unfold parse_journal_line, entry_body.
  rewrite (SplitN_app _ ":" _ 2) by by apply sha_no_char.
  rewrite (SplitN_app _ ":" _ 1) by (apply format_int_no_char; [lia|done]).
  rewrite (SplitN_app _ ":" _ 0) by done. cbn [SplitN].
  unfold fmt_x. rewrite ParseInt_format by (lia || done). done.
Qed.

Lemma entry_body_line e :
  entry_ok e -> no_char (byte 10) (entry_body e) = true ∧ drop_cr (entry_body e) = entry_body e.
Proof.
  intros (_ & Hu & Hr & Hcr & _ & _). split.
  - unfold entry_body. rewrite !no_char_app, sha_no_char, Hu, Hr by done.
    unfold fmt_x. rewrite format_int_no_char by (lia || done). done.
  - unfold drop_cr, TrimSuffix. destruct (cut_suffix (entry_body e) (str1 (byte 13))) as [r|] eqn:E; [|done].
    apply cut_suffix_spec in E. exfalso. revert E. unfold entry_body. rewrite <-!str_app_assoc.
    rewrite (str_app_assoc _ ":" (e_reason e)). apply last_char_app; [done|].
    rewrite no_char_app, Hcr. done.
Qed.

Definition concat_lines (h : list entry) : string :=
  foldr (λ e s, entry_body e +:+ str1 (byte 10) +:+ s) "" h.
Lemma concat_lines_app h e :
  concat_lines (h ++ [e]) = concat_lines h +:+ entry_body e +:+ str1 (byte 10).
Proof.
  unfold concat_lines. induction h as [|x h IH]; simpl; [by rewrite str_app_nil_r|].
  rewrite IH. by rewrite !str_app_assoc.
Qed.

Lemma scan_concat h :
  Forall entry_ok h -> scan_lines (concat_lines h) = (λ e, Ok (entry_body e)) <$> h.
Proof.
  induction 1 as [|e h He Hh IH]; [done|]. simpl. rewrite scan_lines_cons, IH.
  - by destruct (entry_body_line e He) as [_ ->].
  - by apply entry_body_line.
  - apply He.
Qed.

(** Printing a history and reading the journal back are inverse. *)
Lemma parse_concat h :
  Forall entry_ok h -> parse_journal (scan_lines (concat_lines h)) = Ok (entry_item <$> h).
Proof.
  intros Hh. rewrite scan_concat by done. induction Hh as [|e h He Hh IH]; [done|].
  rewrite !fmap_cons. cbn [parse_journal]. by rewrite parse_entry, IH.
Qed.

(** ** The history of one class of configurations, abstractly: every entry
    ever written, and how many of the latest still have their file. *)
Record repr (root : string) (h : list entry) (k : nat) (w : world) : Prop := {
  r_root : dir_ok root;
  r_dir : is_dir w root = true;
  r_files n : name_ok n -> fs w !! path_of root n <> Some Dir;
  r_entries : Forall entry_ok h;
  r_journal : content_of w (path_of root ConfigsJournalFile) = concat_lines h;
  r_kept e : e ∈ drop (length h - k) h ->
    is_file w (path_of root (sha256_hex (e_content e))) = true ∧
    content_of w (path_of root (sha256_hex (e_content e))) = e_content e
}.
Definition collision_free (l : list string) : Prop :=
  ∀ a b, a ∈ l -> b ∈ l -> sha256_hex a = sha256_hex b -> a = b.

Lemma is_dir_agree keys root w w' :
  dir_ok root -> (∀ k, k ∈ keys -> ∃ n, k = path_of root n) -> agree_but keys w w' ->
  is_dir w root = true -> is_dir w' root = true.
Proof.
  intros Hr Hk Ha. unfold is_dir. rewrite !bool_decide_eq_true. intros [|[|E]]; auto.
  right. right. rewrite Ha; [done|]. intros Hin. destruct (Hk _ Hin) as [n En].
  apply (f_equal String.length) in En. rewrite !str_length_app in En. simpl in En. lia.
Qed.

Lemma readJournal_repr root h k w :
  repr root h k w -> faults w = [] -> readJournal root w = (Ok (entry_item <$> h), w).
Proof.
  intros [Hr _ Hf Hh Hj _] Hn. specialize (Hf _ journal_name_ok).
  unfold readJournal, readFileLines, os_ReadFile, content_of in *. mrun. rewrite syscall_ok by done.
  rewrite (join_path root _ Hr journal_name_ok).
  destruct (fs w !! path_of root ConfigsJournalFile) as [[c m t|]|]; [| done |];
    rewrite <-?Hj; simpl; [by rewrite Hj, parse_concat|].
  by rewrite <-(parse_concat h), <-Hj.
Qed.

Definition latest_of (n : nat) (h : list entry) : list entry := drop (length h - n) h.
Lemma last_n_latest {A} (f : entry -> A) (n : nat) h :
  last_n (Z.of_nat n) (f <$> h) = Ok (f <$> latest_of n h).
Proof.
  unfold last_n, latest_of. rewrite length_fmap, Nat2Z.id.
  destruct (Z.ltb_spec (Z.of_nat n) (Z.of_nat (length h))).
  - destruct (Z.ltb_spec (Z.of_nat n) 0); [lia|]. by rewrite <-fmap_drop.
  - replace (length h - n)%nat with O by lia. done.
Qed.
Lemma latest_of_mono n m h e : (n <= m)%nat -> e ∈ latest_of n h -> e ∈ latest_of m h.
Proof.
  intros Hnm. unfold latest_of. intros He.
  replace (drop (length h - n) h) with (drop (length h - n - (length h - m)) (drop (length h - m) h)) in He.
  - rewrite <-(take_drop (length h - n - (length h - m)) (drop (length h - m) h)).
    apply elem_of_app. by right.
  - rewrite drop_drop. f_equal. lia.
Qed.
Lemma latest_of_snoc k h e : latest_of (S k) (h ++ [e]) = latest_of k h ++ [e].
Proof.
  unfold latest_of. rewrite length_app. simpl.
  replace (length h + 1 - S k)%nat with (length h - k)%nat by lia.
  rewrite drop_app_le by lia. done.
Qed.

(** Reading returns the latest entries, newest first. *)
Lemma readHistory_repr root h k n w :
  repr root h k w -> faults w = [] -> (n <= k \/ length h <= k)%nat ->
  readHistory root (Z.of_nat n) true w = (Ok (entry_set <$> reverse (latest_of n h)), w).
Proof.
  intros Hrep Hn Hk. unfold readHistory.
  rewrite (bind_Ok _ _ _ _ _ (readJournal_repr _ _ _ _ Hrep Hn)). rewrite length_fmap.
  destruct (Nat.eqb_spec (length h) 0) as [E|E].
  { apply nil_length_inv in E. subst. done. }
  rewrite last_n_latest. unfold lift at 1. rewrite (bind_Ok (λ s, _) _ _ (entry_item <$> latest_of n h) w) by done.
  rewrite <-fmap_reverse.
  assert (∀ e, e ∈ reverse (latest_of n h) -> e ∈ latest_of k h) as Hsub.
  { intros e. rewrite elem_of_reverse. intros He. destruct Hk as [Hk|Hk]; [by eapply latest_of_mono|].
    unfold latest_of in *. replace (length h - k)%nat with O by lia. simpl.
    rewrite <-(take_drop (length h - n) h). apply elem_of_app. by right. }
  induction (reverse (latest_of n h)) as [|e l IH]; [done|].
  rewrite !fmap_cons. cbn [mapM_M].
  assert (readConfigFiles root (entry_item e) false w = (Ok (entry_set e), w)) as E1.
  { destruct (r_kept _ _ _ _ Hrep e) as [Hf Hc]; [apply Hsub; set_solver|].
    unfold readConfigFiles, is_file, content_of in *. simpl.
    destruct (fs w !! _) as [[c m t|]|] eqn:Ef; [|done..].
    erewrite bind_Ok; [|apply wrap_Ok; eapply readFile_ok; try done; [apply Hrep|apply sha_name_ok]].
    subst c. done. }
  rewrite (bind_Ok _ _ _ _ _ E1). erewrite bind_Ok; [|apply IH; set_solver]. done.
Qed.

Lemma sha_partial_ne a b : sha256_hex a <> sha256_hex b +:+ partialFileSuffix.
Proof.
  intros E. pose proof (sha_not_partial a) as Hp. rewrite E, HasSuffix_app in Hp. discriminate Hp.
Qed.
Lemma journal_partial_ne b : ConfigsJournalFile <> sha256_hex b +:+ partialFileSuffix.
Proof.
  intros E. apply (f_equal String.length) in E. rewrite str_length_app, sha_length in E. discriminate E.
Qed.

(** Writing a configuration appends it to the history, at any fault that
    still lets the call succeed. *)
Lemma writeConfig_repr root h k w c u r w' :
  let e := Entry c u r (clock w / 1000) in
  repr root h k w -> entry_ok e -> collision_free (c :: (e_content <$> h)) ->
  writeConfig root c u r w = (Ok tt, w') -> repr root (h ++ [e]) (S k) w'.
Proof.
  intros e Hrep He Hcf H. pose proof Hrep as [Hr Hd Hf Hh Hj Hk].
  unfold writeConfig in H. minv H. minv E. destruct v, res; [|done]. destruct a.
  pose proof (fs_only_writeFile _ _ _ _ _ _ _ E) as [(Hclk & _) _].
  apply writeFile_spec in E as [A1 [(m1 & t1 & F1) F1p]]; [|done|apply sha_name_ok].
  unfold time_now_unix in H. minv H. cbv zeta in H. minv H.
  destruct res as [[]|]; [|by minv H; minv H]. minv H. rename st0 into w'.
  rewrite Hclk in E.
  change (journal_line _ _ _ _) with
    (journal_line (sha256_hex (e_content e)) (e_ts e) (e_user e) (e_reason e)) in E.
  rewrite entry_line in E.
  apply appendFile_spec in E as [A2 HJ]; [|done|apply journal_name_ok].
  destruct (HJ eq_refl) as [HJf HJc].
  set (ps := path_of root (sha256_hex c)) in *.
  set (pp := path_of root (sha256_hex c +:+ partialFileSuffix)) in *.
  set (pj := path_of root ConfigsJournalFile) in *.
  assert (ps <> pj) as N1 by (intros ?%path_of_inj; by eapply sha_not_journal).
  assert (pj <> pp) as N2 by (intros ?%path_of_inj; by eapply journal_partial_ne).
  assert (fs st !! pj = fs w !! pj) as Ej by (apply A1; set_solver).
  assert (∀ q, q <> pj -> fs w' !! q = fs st !! q) as A2' by (intros q Hq; apply A2; set_solver).
  assert (∀ q, q <> pj -> q <> ps -> q <> pp -> fs w' !! q = fs w !! q) as A.
  { intros q ???. rewrite A2' by done. apply A1. set_solver. }
  constructor; auto.
  - eapply (is_dir_agree [ps; pp; pj]); [done| |intros q Hq; apply A; set_solver|done].
    intros q Hq. rewrite !elem_of_cons in Hq. destruct Hq as [->|[->|[->|Hq]]]; [eauto..|set_solver].
  - intros n Hn. destruct (decide (path_of root n = pj)) as [->|]; [|].
    { unfold is_file in HJf. by destruct (fs w' !! pj) as [[]|]. }
    rewrite A2' by done. destruct (decide (path_of root n = ps)) as [->|]; [by rewrite F1|].
    destruct (decide (path_of root n = pp)) as [->|]; [by rewrite F1p|].
    rewrite A1 by set_solver. by apply Hf.
  - apply Forall_app. split; [done|]. by constructor.
  - fold pj. rewrite HJc. unfold content_of in *. rewrite Ej. fold pj in Hj. rewrite Hj. by rewrite concat_lines_app.
  - intros e' He'. change (e' ∈ latest_of (S k) (h ++ [e])) in He'. rewrite latest_of_snoc in He'.
    assert (fs w' !! ps = Some (File c m1 t1)) as Eps by (rewrite A2' by done; done).
    apply elem_of_app in He' as [He'| ->%list_elem_of_singleton].
    2: { unfold is_file, content_of. simpl. fold ps. by rewrite Eps. }
    specialize (Hk e' He').
    destruct (decide (sha256_hex (e_content e') = sha256_hex c)) as [Esha|Nsha].
    + apply Hcf in Esha; [|right; apply list_elem_of_fmap; exists e'; split; [done|]|by left].
      2: { unfold latest_of in He'. rewrite <-(take_drop (length h - k) h). apply elem_of_app. by right. }
      rewrite Esha. fold ps. unfold is_file, content_of. by rewrite Eps.
    + unfold is_file, content_of in *. rewrite A; [done|..]; intros ?%path_of_inj.
      * by eapply sha_not_journal.
      * done.
      * by eapply sha_partial_ne.
Qed.

Lemma writeConfig_run root h k w c u r :
  repr root h k w -> faults w = [] ->
  ∃ w', writeConfig root c u r w = (Ok tt, w') ∧ faults w' = [].
Proof.
  intros [Hr Hd Hf Hh Hj Hk] Hn. pose proof (sha_name_ok c) as Hs.
  enough (∃ w', writeConfig root c u r w = (Ok tt, w')) as [w' E].
  { exists w'. split; [done|]. assert (keeps fs_only (writeConfig root c u r) any) as Hk'.
    { unfold writeConfig. keeps_auto. unfold time_now_unix. keeps_auto. }
    apply Hk' in E as [(_&_&_&_&E) _]. by apply suffix_no_faults in E. }
  destruct (writeFile_ok root (sha256_hex c) c defaultFileAccess w) as [w1 E1];
    [done|done|done|done|by apply Hf|apply Hf; auto with server|].
  pose proof (fs_only_writeFile _ _ _ _ _ _ _ E1) as [(_&_&_&_&Hn1%suffix_no_faults) _]; [|done].
  pose proof E1 as E1'. apply writeFile_spec in E1' as [A1 [(m1 & t1 & F1) F1p]]; [|done|done].
  destruct (appendFile_ok root ConfigsJournalFile
    (journal_line (sha256_hex c) (clock w1 / 1000) u r) defaultFileAccess w1) as [w2 E2].
  - done.
  - apply journal_name_ok.
  - auto.
  - eapply is_dir_agree; [done| |done|done]. intros q Hq. rewrite !elem_of_cons in Hq.
    destruct Hq as [->|[->|Hq]]; [eauto..|set_solver].
  - rewrite A1; [apply Hf, journal_name_ok|]. rewrite !elem_of_cons.
    intros [?%path_of_inj|[?%path_of_inj|Hq]]; [by eapply sha_not_journal|by eapply journal_partial_ne|set_solver].
  - exists w2. unfold writeConfig. cbv zeta. erewrite bind_Ok by by apply wrap_Ok.
    unfold time_now_unix. rewrite (bind_Ok (gets _) _ _ _ _ eq_refl). by rewrite (bind_try _ _ _ _ _ E2).
Qed.

Lemma latest_of_min a b h e : e ∈ latest_of (Nat.min a b) h -> e ∈ latest_of a h ∧ e ∈ latest_of b h.
Proof. split; eapply latest_of_mono; [|done| |done]; lia. Qed.

(** Purging keeps the history and the files of the latest entries, and
    leaves no other file behind once there are more than [n]. *)
Lemma purgeHistory_repr root h k n w :
  repr root h k w -> faults w = [] ->
  ∃ w', purgeHistory root (Z.of_nat n) w = (Ok tt, w') ∧ faults w' = [] ∧ clock w' = clock w ∧
    repr root h (Nat.min k n) w' ∧
    ((length (matching w root "") <= n)%nat ∧ w' = w \/
     ∀ m, m ∈ matching w' root "" -> m = ConfigsJournalFile \/ m ∈ (λ e, sha256_hex (e_content e)) <$> latest_of n h).
Proof.
  intros Hrep Hn. pose proof Hrep as [Hr Hd Hf Hh Hj Hk]. unfold purgeHistory.
  erewrite bind_Ok by by apply wrap_Ok, matchFiles_ok. cbv iota.
  destruct (Z.leb_spec (Z.of_nat (length (matching w root ""))) (Z.of_nat n)).
  { exists w. split_and!; try done; [|left; split; [lia|done]]. constructor; try done.
    intros e He. apply Hk. by apply (latest_of_min k n) in He as [He _]. }
  unfold readJournalNames. rewrite bind_assoc.
  rewrite (bind_Ok _ _ _ _ _ (readJournal_repr _ _ _ _ Hrep Hn)).
  rewrite (bind_Ok (mret _) _ _ _ _ eq_refl).
  change (map j_name (entry_item <$> h)) with (j_name <$> (entry_item <$> h)).
  rewrite <-list_fmap_compose, last_n_latest.
  rewrite (bind_Ok (lift _) _ _ _ _ eq_refl), forM_filter.
  set (keep := (j_name ∘ entry_item) <$> latest_of n h).
  set (del := List.filter _ _).
  assert (∀ m, m ∈ del ↔ m ∈ matching w root "" ∧ m <> ConfigsJournalFile ∧ m ∉ keep) as Hdel.
  { intros m. unfold del. rewrite list_elem_of_In, filter_In, <-list_elem_of_In, andb_true_iff, !negb_true_iff.
    rewrite String.eqb_neq, bool_decide_eq_false. done. }
  assert (∀ m, m ∈ matching w root "" -> is_file w (path_of root m) = true) as Hfile.
  { intros m (_ & Hm & v & Hv)%elem_of_matching; [|done]. specialize (Hf m Hm).
    unfold is_file. rewrite Hv in *. by destruct v. }
  destruct (deleteFiles_ok root del true w) as (w' & E & (Hc & _ & _ & _ & Hn') & Hfs); try done.
  { apply Forall_forall. intros m (Hm & _)%Hdel. by apply elem_of_matching in Hm as (_ & ? & _). }
  { unfold del. apply NoDup_ListNoDup, List.NoDup_filter, NoDup_ListNoDup. by apply NoDup_matching. }
  { intros m (Hm & _)%Hdel. by apply Hfile. }
  assert (∀ m, m ∉ del -> fs w' !! path_of root m = fs w !! path_of root m) as Hkeep.
  { intros m Hm. rewrite Hfs. rewrite decide_False; [done|].
    rewrite list_elem_of_fmap. by intros (m' & ->%path_of_inj & ?). }
  apply suffix_no_faults in Hn'; [|done]. exists w'. split_and!; auto.
  - constructor; try done.
    + unfold is_dir in *. apply bool_decide_eq_true in Hd. apply bool_decide_eq_true.
      destruct Hd as [|[|Hd]]; auto. right. right. rewrite Hfs, decide_False; [done|].
      rewrite list_elem_of_fmap. intros (m & Em & _). apply (f_equal String.length) in Em.
      rewrite !str_length_app in Em. simpl in Em. lia.
    + intros m Hm. rewrite Hfs. case_decide; [done|by apply Hf].
    + unfold content_of. rewrite Hkeep; [done|]. rewrite Hdel. naive_solver.
    + intros e He. change (e ∈ latest_of (Nat.min k n) h) in He. apply latest_of_min in He as [He1 He2].
      specialize (Hk e He1). unfold is_file, content_of in *. rewrite Hkeep; [done|]. rewrite Hdel.
      intros (_ & _ & Hx). apply Hx. apply list_elem_of_fmap. by exists e.
  - right. intros m (Hp & Hm & Hs)%elem_of_matching; [|done]. destruct (decide (m ∈ del)) as [Hin|Hin].
    { rewrite Hfs, decide_True in Hs by (apply list_elem_of_fmap; eauto). by destruct Hs. }
    destruct (decide (m = ConfigsJournalFile)) as [|Hne]; [by left|]. right.
    destruct (decide (m ∈ keep)) as [Hkp|Hkp]; [done|]. exfalso. apply Hin, Hdel.
    rewrite elem_of_matching by done. rewrite <-Hkeep by done. by split_and!.
Qed.

Lemma repr_empty root w :
  dir_ok root -> is_dir w root = true -> (∀ n, fs w !! path_of root n = None) -> repr root [] 0 w.
Proof.
  intros Hr Hd He. constructor; try done.
  - intros n _. by rewrite He.
  - unfold content_of. by rewrite He.
  - intros e Hin. simpl in Hin. set_solver.
Qed.

(** The operations on one class of configurations, and what they do to the
    abstract history. *)
Inductive config_op :=
  | OpWrite (content username reason : string)
  | OpPurge (keepLatest : nat)
  | OpRead (latest : nat).
Definition run_op (root : string) (op : config_op) : IO (list ConfigFileSet) :=
  match op with
  | OpWrite c u r => writeConfig root c u r;; mret []
  | OpPurge n => purgeHistory root (Z.of_nat n);; mret []
  | OpRead n => readHistory root (Z.of_nat n) true
  end.
Definition spec_step (ts : Z) (op : config_op) (s : list entry * nat)
  : list ConfigFileSet * (list entry * nat) :=
  let '(h, k) := s in
  match op with
  | OpWrite c u r => ([], (h ++ [Entry c u r ts], S k))
  | OpPurge n => ([], (h, Nat.min k n))
  | OpRead n => (entry_set <$> reverse (latest_of n h), (h, k))
  end.
Definition op_ok (ts : Z) (op : config_op) (s : list entry * nat) : Prop :=
  match op with
  | OpWrite c u r => entry_ok (Entry c u r ts)
  | OpPurge _ => True
  | OpRead n => (n <= s.2 \/ length s.1 <= s.2)%nat
  end.
Fixpoint spec_run (ts : Z) (ops : list config_op) (s : list entry * nat)
  : list (list ConfigFileSet) * (list entry * nat) :=
  match ops with
  | [] => ([], s)
  | op :: ops' =>
      let '(out, s1) := spec_step ts op s in
      let '(outs, s2) := spec_run ts ops' s1 in (out :: outs, s2)
  end.
Fixpoint ops_ok (ts : Z) (ops : list config_op) (s : list entry * nat) : Prop :=
  match ops with
  | [] => True
  | op :: ops' => op_ok ts op s ∧ ops_ok ts ops' (spec_step ts op s).2
  end.
Definition written (ops : list config_op) : list string :=
  omap (λ op, match op with OpWrite c _ _ => Some c | _ => None end) ops.

Lemma run_op_refines root ts op h k w :
  repr root h k w -> faults w = [] -> clock w / 1000 = ts -> op_ok ts op (h, k) ->
  collision_free (written [op] ++ (e_content <$> h)) ->
  ∃ w', run_op root op w = (Ok (spec_step ts op (h, k)).1, w') ∧ faults w' = [] ∧
    clock w' / 1000 = ts ∧
    repr root (spec_step ts op (h, k)).2.1 (spec_step ts op (h, k)).2.2 w'.
Proof.
  intros Hrep Hn Hts Hop Hcf. destruct op as [c u r|n|n]; simpl in *.
  - destruct (writeConfig_run root h k w c u r Hrep Hn) as (w' & E & Hn'). exists w'.
    assert (clock w' = clock w) as Hc.
    { assert (keeps fs_only (writeConfig root c u r) any) as Hk.
      { unfold writeConfig, time_now_unix. keeps_auto. }
      by apply Hk in E as [(? & _) _]. }
    rewrite (bind_Ok _ _ _ _ _ E), Hc. split_and!; try done.
    subst ts. by eapply writeConfig_repr.
  - destruct (purgeHistory_repr root h k n w Hrep Hn) as (w' & E & Hn' & Hc & Hr' & _).
    exists w'. rewrite (bind_Ok _ _ _ _ _ E), Hc. by split_and!.
  - exists w. by rewrite (readHistory_repr root h k n w).
Qed.
Lemma collision_free_sub l l' : collision_free l' -> (∀ a, a ∈ l -> a ∈ l') -> collision_free l.
Proof. intros H Hs a b Ha Hb. apply H; auto. Qed.

(** C6. Refinement: any sequence of writes, purges and reads on a configuration
    class returns what the abstract history returns. *)
Theorem config_history_refines root ts ops h k w :
  repr root h k w -> faults w = [] -> clock w / 1000 = ts -> ops_ok ts ops (h, k) ->
  collision_free (written ops ++ (e_content <$> h)) ->
  ∃ w', mapM_M (run_op root) ops w = (Ok (spec_run ts ops (h, k)).1, w') ∧
    repr root (spec_run ts ops (h, k)).2.1 (spec_run ts ops (h, k)).2.2 w'.
Proof.
  revert h k w. induction ops as [|op ops IH]; intros h k w Hrep Hn Hts Hok Hcf.
  { by exists w. }
  destruct Hok as [Hop Hok]. cbn [mapM_M spec_run].
  destruct (run_op_refines root ts op h k w) as (w1 & E1 & Hn1 & Hts1 & Hrep1); try done.
  { eapply collision_free_sub; [done|]. intros a. unfold written. simpl.
    destruct op; simpl; set_solver. }
  rewrite (bind_Ok _ _ _ _ _ E1). destruct (spec_step ts op (h, k)) as [out [h1 k1]] eqn:Es.
  simpl in *. destruct (IH h1 k1 w1) as (w2 & E2 & Hrep2); try done.
  { eapply collision_free_sub; [done|]. intros a. unfold written.
    destruct op; simpl in *; simplify_eq; rewrite ?fmap_app; simpl; set_solver. }
  rewrite (bind_Ok _ _ _ _ _ E2). destruct (spec_run ts ops (h1, k1)) as [outs s2].
  exists w2. done.
Qed.

End Theory.

(** ** A concrete run *)
Definition demo_root : string := "/data/configs/factory".
Definition demo_world : world :=
  World {[ "/data" := Dir; "/data/configs" := Dir; "/data/configs/factory" := Dir ]} 1000 []
    empty_db (λ _, "ABCDEFGHIJKLMNOP") 0.
Definition demo_write (user : string) : IO unit :=
  writeConfig (H := toy_digest) demo_root "{}" user "reason".
(** The state after one write, and after a second write of the same content
    whose journal append fails (the sixth and seventh calls of the write). *)
Definition demo_after_write : world := (demo_write "ann" demo_world).2.
Definition demo_after_failure : world :=
  (demo_write "bob" (with_faults [None; None; None; None; None; None; Some ErrIO] demo_after_write)).2.

(** The clean-up of a failed journal append removes the content-addressed
    file although an older history entry with the same content still refers
    to it: the history that could be read before cannot be read after. *)
Theorem failed_rewrite_breaks_history :
  (readHistory demo_root 10 true demo_after_write).1 =
    Ok [{| RawFiles := "{}"; Reason := "reason"; CreatedAt := 1; CreatedBy := "ann" |}] ∧
  (demo_write "bob" (with_faults [None; None; None; None; None; None; Some ErrIO] demo_after_write)).1 =
    Err (ErrWrap "failed to write journal for config file" ErrIO) ∧
  (readHistory demo_root 10 true demo_after_failure).1 =
    Err (ErrWrap "failed to read config file" ErrNotExist).
Proof. split_and!; vm_compute; reflexivity. Qed.

Definition demo_ops : list config_op := [OpWrite "{}" "ann" "first"; OpWrite "[]" "bob" "a:b"; OpPurge 1; OpRead 1].
Lemma config_history_refines_witness :
  ∃ w', mapM_M (run_op (HD := toy_digest) demo_root) demo_ops demo_world =
    (Ok [[]; []; []; [{| RawFiles := "[]"; Reason := "a:b"; CreatedAt := 1; CreatedBy := "bob" |}]], w').
Proof.
  destruct (config_history_refines (HD := toy_digest) (HDL := toy_digest_laws) demo_root 1 demo_ops [] 0 demo_world)
    as (w' & E & _).
  - apply (repr_empty (HDL := toy_digest_laws)).
    + split; [reflexivity|vm_compute; discriminate].
    + reflexivity.
    + intros n. assert (∀ a b c d e, a <> e -> b <> e -> c <> e ->
        ({[ a := d; b := d; c := d ]} : gmap string node) !! e = None) as H.
      { intros a b c d e ???. rewrite !lookup_insert_ne by done. by rewrite lookup_singleton_ne. }
      apply (H "/data" "/data/configs" "/data/configs/factory"); intros E; apply (f_equal String.length) in E; rewrite str_length_app in E; discriminate E.
  - reflexivity.
  - reflexivity.
  - vm_compute. intuition (try discriminate; lia).
  - intros a b Ha Hb. change (a ∈ ["{}"; "[]"]) in Ha. change (b ∈ ["{}"; "[]"]) in Hb.
    rewrite !elem_of_cons, elem_of_nil in Ha, Hb.
    destruct Ha as [->|[->|[]]], Hb as [->|[->|[]]]; vm_compute; intros; (reflexivity || discriminate).
  - exists w'. exact E.
Defined.
