(* ===== verification/Updates.v ===== *)
(** storage/file_updates.go: uploaded updates, one directory per update with a
    sub-directory per category, and the journal of pending rollouts. *)
From stdpp Require Import list_numbers.
From S2P Require Import Prelude GoStrings GoPath Schema World BaseFs Crypto Tar.
Open Scope Z_scope.

Definition UpdatesTufDir := "tuf".
Definition UpdatesOstreeDir := "ostree_repo".
Definition UpdatesAppsDir := "apps".
Definition UpdatesRolloutsDir := "rollouts".
Definition UpdatesLogsDir := "logs".
Definition TufRootFile := "root.json".
Definition TufTimestampFile := "timestamp.json".
Definition TufSnapshotFile := "snapshot.json".
Definition TufTargetsFile := "targets.json".
Definition LogRolloutsFile := "rollouts.log".
Definition maxUpdateTarballItemFileSize : Z := 2 ^ 31.
Definition maxUpdateTarballTotalDiskSize : Z := 2 ^ 35.

(** ** updatesFsHandleWrap *)

Definition Updates_Delete (root update : string) : IO unit :=
  r ← try (os_RemoveAll (filepath_Join [root; update]));
  match r with
  | Err err => if errors_Is err ErrNotExist then mret tt
               else fail (ErrWrap "error deleting file storage for update" err)
  | Ok _ => mret tt
  end.

(** What [checkUpdateTargets] decodes of targets.json: the tags of each target. *)
Record targets_file := { target_tags : list (string * list string) }.

(** The booleans captured by the callbacks of one upload. *)
Record upload_seen := { sawTuf : bool; sawOstree : bool; sawApps : bool }.

Section Upload.
Context `{JSON targets_file}.

Definition checkUpdateTargets (targetsPath tag : string) : IO unit :=
  r ← try (os_ReadFile targetsPath);
  match r with
  | Err err => if errors_Is err ErrNotExist
               then fail (ErrMsg "missing required targets.json file in tuf directory")
               else fail (ErrWrap "error reading targets.json" err)
  | Ok content =>
      match json_Unmarshal content with
      | Err err => fail (ErrWrap "error parsing targets.json" err)
      | Ok targets =>
          if existsb (λ t, bool_decide (tag ∈ t.2)) (target_tags targets) then mret tt
          else fail (ErrMsg "no target with tag found in targets.json")
      end
  end.

Definition upload_header_seen (s : upload_seen) (hdr : TarHeader) : result bool * upload_seen :=
  (Ok false,
   {| sawApps := sawApps s || HasPrefix (h_Name hdr) (UpdatesAppsDir +:+ "/");
      sawOstree := sawOstree s || HasPrefix (h_Name hdr) (UpdatesOstreeDir +:+ "/");
      sawTuf := sawTuf s || HasPrefix (h_Name hdr) (UpdatesTufDir +:+ "/") |}).

(** [fmt.Errorf("%w: %v", ErrInvalidUpdate, err)]: the cause is kept as text only. *)
Definition invalid_update {A} (m : IO A) : IO A := map_err (λ _, ErrWrap "cause" ErrInvalidUpdate) m.

Definition upload_complete (root txDir tag : string) (tufCreateFunc : option (string -> IO unit))
  (s : upload_seen) : IO unit :=
  if negb (sawOstree s) && negb (sawApps s)
  then fail (ErrWrap "must contain ostree_repo and/or apps directory" ErrInvalidUpdate) else
  (if negb (sawTuf s) then
     match tufCreateFunc with
     | None => fail (ErrWrap "missing required tuf directory" ErrInvalidUpdate)
     | Some f => invalid_update (f (filepath_Join [root; txDir; "unpacked"]))
     end
   else mret tt);;
  invalid_update (checkUpdateTargets (filepath_Join [root; txDir; "unpacked/tuf/targets.json"]) tag).

Definition Updates_SaveUpload (root tag update : string) (payload : tarball)
  (tufCreateFunc : option (string -> IO unit)) (onCleanupFailure : error -> IO unit) : IO unit :=
  t ← rand_text;
  let txDir := ".update-upload-" +:+ str_take 10 t in
  let '(parent, destDir) := filepath_Split root in
  let destDir := filepath_Join [destDir; update] in
  unpackTar parent {| sawTuf := false; sawOstree := false; sawApps := false |} payload destDir
    [TarUnpackReplaceDest true; TarUnpackUseTmpFile "update.tar"; TarUnpackUseTmpDir txDir;
     TarUnpackMaxItemFileSize maxUpdateTarballItemFileSize;
     TarUnpackMaxTotalDiskSize maxUpdateTarballTotalDiskSize;
     TarUnpackOnEvents
       {| onUnpackStarted := None;
          onTarHeaderSeen := Some upload_header_seen;
          onUnpackComplete := Some (upload_complete parent txDir tag tufCreateFunc);
          onTmpCleanupError := Some onCleanupFailure;
          onTmpRenameError := None |}].
End Upload.

(** ** UpdatesFsHandle: the files of one category of an update *)

Definition upd_localHandle (root category update : string) (forUpdate : bool) : IO string :=
  let h := filepath_Join [root; update; category] in
  (if forUpdate then wrap "unable to create file storage for update" (mkdirs h true) else mret tt);;
  mret h.
Definition Updates_FilePath (root category update name : string) : string :=
  filepath_Join [root; update; category; name].
Definition Updates_ReadFile (root category update name : string) : IO string :=
  h ← upd_localHandle root category update false;
  wrap "error reading file for update" (readFile h name false).

Fixpoint pad_left (n : nat) (s : string) : string :=
  match n with O => s | S n' => String "0" (pad_left n' s) end.
(** [fmt.Sprintf("%013s", s)] for a single-byte text. *)
Definition pad13 (s : string) : string := pad_left (13 - String.length s) s.
Definition root_meta_cmp (a b : string) : Z :=
  let aIsRoot := HasSuffix a ".root.json" in
  let bIsRoot := HasSuffix b ".root.json" in
  if aIsRoot && bIsRoot then str_cmp (pad13 b) (pad13 a)
  else if aIsRoot then -1
  else if bIsRoot then 1
  else 1.
Definition LatestRootMetaName (root category update : string) : IO string :=
  h ← upd_localHandle root category update false;
  files ← wrap "error find latest root metadata" (matchFiles h "" false);
  match sort_by root_meta_cmp files with
  | [] => fail (ErrMsg "no metadata files found for update")
  | f :: _ => mret f
  end.

Definition TailFileLines (root category update name : string) : IO (list (result string)) :=
  h ← upd_localHandle root category update false; readFileLines h name false.
Definition Updates_WriteFile (root category update name content : string) : IO unit :=
  h ← upd_localHandle root category update true;
  wrap "error writing file for update" (writeFile h name content defaultFileAccess).
Definition Updates_AppendFile (root category update name content : string) : IO unit :=
  h ← upd_localHandle root category update true;
  wrap "error appending file for update" (appendFile h name content defaultFileAccess).

(** ** RolloutsFsHandle *)

Definition Rollouts_ListFiles (root update : string) : IO (list string) :=
  h ← upd_localHandle root UpdatesRolloutsDir update false; matchFiles h "" true.
Definition AppendJournal (root content : string) : IO unit :=
  appendFile root (rolloutJournalFile +:+ partialFileSuffix) content defaultFileAccess.
Definition RolloverJournal (root : string) : IO unit :=
  let from := filepath_Join [root; rolloutJournalFile +:+ partialFileSuffix] in
  let to := filepath_Join [root; rolloutJournalFile] in
  r ← try (os_Rename from to);
  match r with
  | Err err => if errors_Is err ErrNotExist then mret tt else fail err
  | Ok _ => mret tt
  end.
Definition ReadJournal (root : string) : IO (list (result string)) :=
  readFileLines root rolloutJournalFile true.

(** ** Theory: the latest root metadata *)

Definition is_root_meta (n : string) : bool := HasSuffix n ".root.json".

(** The metadata file of version [n]. *)
Definition root_meta (n : Z) : string := Itoa n +:+ ".root.json".

Lemma root_meta_cmp_lt a b :
  root_meta_cmp a b < 0 ↔ is_root_meta a = true ∧
    (is_root_meta b = false \/ str_cmp (pad13 b) (pad13 a) < 0).
Proof.
  unfold root_meta_cmp, is_root_meta.
  destruct (HasSuffix a ".root.json"), (HasSuffix b ".root.json"); simpl; naive_solver lia.
Qed.
Lemma root_meta_cmp_irrefl a : ~ root_meta_cmp a a < 0.
Proof.
  rewrite root_meta_cmp_lt. intros [H [|H']]; [congruence|].
  pose proof (str_cmp_antisym (pad13 a) (pad13 a)). lia.
Qed.
Lemma root_meta_cmp_trans a b c :
  root_meta_cmp a b < 0 -> root_meta_cmp b c < 0 -> root_meta_cmp a c < 0.
Proof.
  rewrite !root_meta_cmp_lt. intros [Ha Hab] [Hb Hbc]. split; [done|].
  destruct Hab as [|Hab]; [congruence|]. destruct Hbc as [|Hbc]; [by left|]. right.
  by eapply str_cmp_trans.
Qed.

Definition versions : list Z := seqZ 1 998.
Lemma root_meta_adjacent :
  forallb (λ v, str_cmp (pad13 (root_meta v)) (pad13 (root_meta (v + 1))) <? 0) versions = true.
Proof. vm_compute. reflexivity. Qed.
Lemma root_meta_order v n :
  1 <= v -> v + Z.of_nat (S n) <= 999 ->
  str_cmp (pad13 (root_meta v)) (pad13 (root_meta (v + Z.of_nat (S n)))) < 0.
Proof.
  intros Hv. assert (∀ u, 1 <= u <= 998 -> str_cmp (pad13 (root_meta u)) (pad13 (root_meta (u + 1))) < 0) as Hadj.
  { intros u Hu. pose proof root_meta_adjacent as H. rewrite forallb_forall in H.
    apply Z.ltb_lt, H. apply list_elem_of_In, elem_of_seqZ. lia. }
  induction n as [|n IH]; intros Hn.
  - apply Hadj. lia.
  - eapply str_cmp_trans; [apply IH; lia|].
    replace (v + Z.of_nat (S (S n))) with (v + Z.of_nat (S n) + 1) by lia. apply Hadj. lia.
Qed.

(** Among up to 999 versions of the root metadata, next to any other files,
    [LatestRootMetaName] picks the highest: versions compare as numbers. *)
Theorem LatestRootMetaName_max root category update h w n w' :
  h = filepath_Join [root; update; category] -> dir_ok h -> faults w = [] -> is_dir w h = true ->
  (∀ m, m ∈ matching w h "" -> is_root_meta m = true -> ∃ v, 1 <= v <= 999 ∧ m = root_meta v) ->
  LatestRootMetaName root category update w = (Ok n, w') ->
  n ∈ matching w h "" ∧
  ∀ v, 1 <= v <= 999 -> root_meta v ∈ matching w h "" -> ∃ v', n = root_meta v' ∧ v <= v' <= 999.
Proof.
  intros -> Hh Hf Hd Hall H. set (h := filepath_Join _) in *.
  unfold LatestRootMetaName in H. minv H. unfold upd_localHandle in E. minv E. minv E0. minv E.
  fold h in H. minv H. minv E. rewrite matchFiles_ok in E by done. simplify_eq.
  destruct (sort_by _ _) as [|f l] eqn:Es; [by minv H|]. minv H.
  apply sort_by_head in Es as [Hin Hmax]; [|apply root_meta_cmp_irrefl|apply root_meta_cmp_trans].
  split; [done|]. intros v Hv Hm. assert (is_root_meta (root_meta v) = true) as Hr by apply HasSuffix_app. specialize (Hmax _ Hm). rewrite root_meta_cmp_lt in Hmax.
  destruct (is_root_meta f) eqn:Ef; [|naive_solver].
  destruct (Hall _ Hin Ef) as (v' & Hv' & ->). exists v'. split; [done|].
  split; [|lia]. destruct (Z.le_gt_cases v v') as [|Hlt]; [done|]. exfalso. apply Hmax. split; [done|]. right.
  replace v with (v' + Z.of_nat (S (Z.to_nat (v - v' - 1)))) by lia. apply root_meta_order; lia.
Qed.
