(* ===== verification/Ostree.v ===== *)
(** storage/ostree/ostree.go: reading a file out of an OSTree repository, with
    the parsers of its serialized objects (GVariant containers), and the
    abstract repository they decode. *)
From S2P Require Import Prelude GoStrings Bytes GoPath Schema World BaseFs Crypto.

(** compress/flate: the whole stream, decompressed. *)
Class Flate := { inflate : string -> result string }.

(** ** Object names *)

Definition objectPath (repo hash ext : string) : result string :=
  a ← slice hash 0 2;
  b ← slice hash 2 (len hash);
  mret (filepath_Join [repo; "objects"; a; b +:+ ext]).
Definition isValidObjectHash (hash : string) : bool :=
  (len hash =? 64) && str_all (λ c, is_digit c || in_range 97 102 c) hash.

(** ** GVariant framing *)

Definition gvariantOffsetSize (n : Z) : Z := if n <=? 255 then 1 else if n <=? 65535 then 2 else 4.
Definition readLE (data : string) (pos size : Z) : result Z :=
  if size =? 1 then index data pos
  else
    rest ← slice data pos (len data);
    if size =? 2 then LittleEndian_Uint16 rest else LittleEndian_Uint32 rest.

Definition rootDirtreeHash (data : string) : result string :=
  let n := len data in
  let offSize := gvariantOffsetSize n in
  if n <? 6 * offSize + 8 + 32 then Err (ErrMsg "commit object too small") else
  let framingBase := n - 6 * offSize in
  oBody ← readLE data (framingBase + offSize) offSize;
  if framingBase <=? oBody then Err (ErrMsg "commit body offset out of range") else
  let tsStart := Z.land (oBody + 7) (Z.lnot 7) in
  let dirtreeStart := tsStart + 8 in
  if framingBase <? dirtreeStart + 32 then Err (ErrMsg "commit dirtree region overruns framing table") else
  h ← slice data dirtreeStart (dirtreeStart + 32);
  mret (hex h).

(** The loop of [lookupGVArray], from element [i] on; [k] elements are left. *)
Fixpoint gv_loop (data name : string) (offSize lastElemEnd : Z) (k : nat) (i prev : Z) : result string :=
  match k with
  | O => mret ""
  | S k' =>
      e ← readLE data (lastElemEnd + i * offSize) offSize;
      if (e <=? prev) || (lastElemEnd <? e) then mret "" else
      elem ← slice data prev e;
      match Cut elem (byte 0) with
      | None => mret ""
      | Some (s, rest) =>
          if String.eqb s name then
            let hashStart := len s + 1 in
            if len elem <? hashStart + 32 then mret ""
            else h ← slice elem hashStart (hashStart + 32); mret (hex h)
          else gv_loop data name offSize lastElemEnd k' (i + 1) e
      end
  end.
(** The empty text when the name is not found. *)
Definition lookupGVArray (data name : string) : result string :=
  let n := len data in
  if n =? 0 then mret "" else
  let offSize := gvariantOffsetSize n in
  lastElemEnd ← readLE data (n - offSize) offSize;
  if n - offSize <? lastElemEnd then mret "" else
  let numElems := (n - lastElemEnd) / offSize in
  gv_loop data name offSize lastElemEnd (Z.to_nat numElems) 0 0.

(** The file's hash and the sub-directory's, at most one of them non-empty. *)
Definition lookupDirtree (data name : string) : result (string * string) :=
  let n := len data in
  if n =? 0 then Err (ErrMsg "empty dirtree object") else
  let offSize := gvariantOffsetSize n in
  if n <? offSize then Err (ErrMsg "dirtree too small") else
  filesEnd ← readLE data (n - offSize) offSize;
  if n - offSize <? filesEnd then Err (ErrMsg "dirtree files-end offset out of range") else
  files ← slice data 0 filesEnd;
  fh ← lookupGVArray files name;
  if negb (String.eqb fh "") then mret (fh, "") else
  dirs ← slice data filesEnd (n - offSize);
  dh ← lookupGVArray dirs name;
  if negb (String.eqb dh "") then mret ("", dh) else mret ("", "").

(** ** Reading files *)

(** [strings.Trim(s, "/")]. *)
Fixpoint trim_slashes_left (s : string) : string :=
  match s with String "/" s' => trim_slashes_left s' | _ => s end.
Fixpoint trim_slashes_right (s : string) : string :=
  match s with
  | "" => ""
  | String c s' =>
      match trim_slashes_right s' with
      | "" => if Ascii.eqb c "/" then "" else str1 c
      | r => String c r
      end
  end.
Definition trim_slashes (s : string) : string := trim_slashes_right (trim_slashes_left s).

Section Repo.
Context `{Flate} (repo : string).

(** [fmt.Errorf("...%s: %w", hash[:8], err)]. *)
Definition named {A} (msg hash : string) (m : IO A) : IO A :=
  r ← try m;
  match r with
  | Ok a => mret a
  | Err e => short ← lift (slice hash 0 8); fail (ErrWrap (msg +:+ " " +:+ short) e)
  end.

Fixpoint ReadRef_loop (bases : list string) (ref : string) : IO string :=
  match bases with
  | [] => fail (ErrMsg "ref not found")
  | base :: bases' =>
      r ← try (os_ReadFile (filepath_Join [repo; "refs"; base; ref]));
      match r with
      | Ok data =>
          let hash := TrimSpace data in
          if isValidObjectHash hash then mret hash
          else fail (ErrMsg "ref does not contain a valid object hash")
      | Err _ => ReadRef_loop bases' ref
      end
  end.
Definition ReadRef (ref : string) : IO string := ReadRef_loop ["heads"; "remotes"] ref.

Definition readContentObject (fileHash : string) : IO string :=
  p ← lift (objectPath repo fileHash ".file");
  r ← try (os_ReadFile p);
  match r with
  | Ok data => mret data
  | Err _ =>
      p ← lift (objectPath repo fileHash ".filez");
      raw ← named "reading file object" fileHash (os_ReadFile p);
      if len raw <? 8 then named "filez object too small" fileHash (fail (ErrMsg "size")) else
      h ← lift (slice raw 0 4);
      headerSize ← lift (BigEndian_Uint32 h);
      let contentStart := 8 + headerSize in
      if (headerSize =? 0) || (len raw <? contentStart)
      then named "filez object has invalid header size" fileHash (fail (ErrMsg "size")) else
      z ← lift (slice raw contentStart (len raw));
      named "decompressing file object" fileHash (lift (inflate z))
  end.

Definition readDirtree (dirtreeHash : string) : IO string :=
  p ← lift (objectPath repo dirtreeHash ".dirtree");
  named "reading dirtree" dirtreeHash (os_ReadFile p).
(** Follow the parents of the file, from the directory [dirtreeHash] on. *)
Fixpoint walk_dirs (dirtreeHash : string) (parents : list string) : IO string :=
  match parents with
  | [] => mret dirtreeHash
  | part :: parents' =>
      dirtreeData ← readDirtree dirtreeHash;
      r ← wrap "parsing dirtree" (lift (lookupDirtree dirtreeData part));
      if String.eqb r.2 "" then fail (ErrMsg "directory not found") else walk_dirs r.2 parents'
  end.
(** The last step: the file itself, in its directory. *)
Definition read_entry (filename dirtreeHash : string) : IO string :=
  dirtreeData ← readDirtree dirtreeHash;
  r ← wrap "parsing dirtree" (lift (lookupDirtree dirtreeData filename));
  if String.eqb r.1 "" then fail (ErrMsg "file not found") else readContentObject r.1.
Definition Repo_ReadFile (ref filePath : string) : IO string :=
  commitHash ← ReadRef ref;
  p ← lift (objectPath repo commitHash ".commit");
  commitData ← wrap "reading commit object" (os_ReadFile p);
  dirtreeHash ← wrap "parsing commit" (lift (rootDirtreeHash commitData));
  let parts := Split (trim_slashes filePath) "/" in
  dirtreeHash ← walk_dirs dirtreeHash (removelast parts);
  read_entry (List.last parts "") dirtreeHash.

(** [filepath.WalkDir], collecting the files' paths relative to the root; the
    children of a directory are visited in the order of their names.  The
    model stops at depth [fuel]. *)
Fixpoint walk_tree (fuel : nat) (path rel : string) (n : node) : IO (list string) :=
  match n with
  | File _ _ _ => mret [rel]
  | Dir =>
      names ← os_ReadDir path;
      match fuel with
      | O => fail (ErrMsg "out of fuel")
      | S fuel' =>
          l ← mapM_M (λ name,
                child ← gets (λ w, default Dir (fs w !! filepath_Join [path; name]));
                walk_tree fuel' (filepath_Join [path; name]) (if String.eqb rel "." then name else rel +:+ "/" +:+ name) child) names;
          mret (List.concat l)
      end
  end.
Definition ListHeads (fuel : nat) : IO (list string) :=
  let headsDir := filepath_Join [repo; "refs"; "heads"] in
  r ← try (n ← os_Stat headsDir; walk_tree fuel headsDir "." n);
  match r with
  | Ok refs => mret refs
  | Err err => if errors_Is err ErrNotExist then mret [] else fail (ErrWrap "listing refs/heads" err)
  end.
End Repo.

(** ** The format: how OSTree serializes a directory *)

(** An element of a GVariant array [a(say)] or [a(sayay)]: the name, the first
    checksum, and whatever follows it in the element. *)
Record gv_elem := GvElem { ge_name : string; ge_hash : string; ge_rest : string }.
Definition elem_ok (e : gv_elem) : Prop := no_char (byte 0) (ge_name e) = true ∧ len (ge_hash e) = 32.
Definition elem_bytes (e : gv_elem) : string :=
  ge_name e +:+ String (byte 0) (ge_hash e +:+ ge_rest e).
Fixpoint gv_body (l : list gv_elem) : string :=
  match l with [] => "" | e :: l' => elem_bytes e +:+ gv_body l' end.
(** The framing table: where each element ends, counted from [p]. *)
Fixpoint gv_ends (off : nat) (p : Z) (l : list gv_elem) : string :=
  match l with
  | [] => ""
  | e :: l' => le_bytes off (p + len (elem_bytes e)) +:+ gv_ends off (p + len (elem_bytes e)) l'
  end.
Definition gv_array (l : list gv_elem) (data : string) : Prop :=
  Forall elem_ok l ∧ len data < 2 ^ 32 ∧
  match l with
  | [] => data = ""
  | _ => ∃ off, gvariantOffsetSize (len data) = Z.of_nat off ∧ data = gv_body l +:+ gv_ends off 0 l
  end.
Definition gv_find (l : list gv_elem) (name : string) : option gv_elem :=
  List.find (λ e, String.eqb (ge_name e) name) l.
Definition found (o : option gv_elem) : string := from_option (λ e, hex (ge_hash e)) "" o.

(** A dirtree object: the files, the sub-directories, and where the files end. *)
Definition dirtree_object (files dirs : list gv_elem) (data : string) : Prop :=
  ∃ fdata ddata off, gv_array files fdata ∧ gv_array dirs ddata ∧
    gvariantOffsetSize (len data) = Z.of_nat off ∧ len data < 2 ^ 32 ∧
    data = fdata +:+ ddata +:+ le_bytes off (len fdata).
(** A commit object: everything up to the end of the body text, padding to a
    multiple of eight, the time stamp, the checksum of the root directory, and
    the rest with the six framing offsets, the second of which is the end of
    the body. *)
Definition commit_object (root data : string) : Prop :=
  ∃ pre pad ts rest f0 frames off,
    data = pre +:+ pad +:+ ts +:+ root +:+ rest +:+ f0 +:+ le_bytes off (len pre) +:+ frames ∧
    len ts = 8 ∧ len root = 32 ∧ len f0 = Z.of_nat off ∧ len frames = 4 * Z.of_nat off ∧
    (len pre + len pad) mod 8 = 0 ∧ len pad < 8 ∧
    gvariantOffsetSize (len data) = Z.of_nat off ∧ len data < 2 ^ 32.

(** ** Theory: parsing what was serialized *)

Lemma offset_size_fits n off :
  0 <= n < 2 ^ 32 -> gvariantOffsetSize n = Z.of_nat off ->
  (off = 1%nat \/ off = 2%nat \/ off = 4%nat) ∧ n < 256 ^ Z.of_nat off.
Proof.
  unfold gvariantOffsetSize. intros Hn. destruct (Z.leb_spec n 255); [|destruct (Z.leb_spec n 65535)]; intros E.
  - assert (off = 1%nat) as -> by lia. split; [auto|]. change (256 ^ Z.of_nat 1) with 256. lia.
  - assert (off = 2%nat) as -> by lia. split; [auto|]. change (256 ^ Z.of_nat 2) with 65536. lia.
  - assert (off = 4%nat) as -> by lia. split; [auto|]. change (256 ^ Z.of_nat 4) with (2 ^ 32). lia.
Qed.
Lemma readLE_at data a z c off i :
  data = a +:+ le_bytes off z +:+ c -> i = len a -> (off = 1%nat \/ off = 2%nat \/ off = 4%nat) ->
  0 <= z < 256 ^ Z.of_nat off -> readLE data i (Z.of_nat off) = Ok z.
Proof.
  intros -> -> Ho Hz. pose proof (le_bytes_len off z) as Hl. unfold readLE.
  assert (slice (a +:+ le_bytes off z +:+ c) (len a) (len (a +:+ le_bytes off z +:+ c)) = Ok (le_bytes off z +:+ c)) as Hs.
  { apply (slice_at _ _ a (le_bytes off z +:+ c) ""); try done; rewrite ?len_app, ?str_app_nil_r; done. }
  assert (∀ n, n = off -> le_uint n (le_bytes off z +:+ c) = Ok z) as Hu.
  { intros n ->. unfold le_uint. rewrite len_app, Hl, (proj2 (Z.ltb_ge _ _)) by (pose proof (len_nonneg c); lia).
    f_equal. rewrite <-(le_value_bytes off z) at 2 by done. f_equal.
    replace off with (String.length (le_bytes off z)) at 1 by (unfold len in Hl; lia). apply str_take_app_exact. }
  destruct Ho as [ -> | [ -> | -> ]]; cbn [Z.of_nat Pos.of_succ_nat Z.eqb Pos.eqb].
  - simpl. unfold index. rewrite (slice_at _ (le_bytes 1 z) a (le_bytes 1 z) c) by (rewrite ?Hl; done).
    pose proof (le_value_bytes 1 z Hz) as Hv. cbn [le_bytes le_value] in *. f_equal. lia.
  - simpl Z.eqb. cbv iota. rewrite Hs. cbn [mbind result_bind]. by apply Hu.
  - simpl Z.eqb. cbv iota. rewrite Hs. cbn [mbind result_bind]. by apply Hu.
Qed.

Lemma gv_body_app a b : gv_body (a ++ b) = gv_body a +:+ gv_body b.
Proof. induction a as [|e a IH]; simpl; [done|]. by rewrite IH, str_app_assoc. Qed.
Lemma gv_ends_app off p a b : gv_ends off p (a ++ b) = gv_ends off p a +:+ gv_ends off (p + len (gv_body a)) b.
Proof.
  revert p. induction a as [|e a IH]; intros p; simpl; [by rewrite Z.add_0_r|].
  rewrite IH, str_app_assoc, len_app. do 3 f_equal. lia.
Qed.
Lemma gv_ends_len off p l : len (gv_ends off p l) = Z.of_nat off * Z.of_nat (List.length l).
Proof. revert p. induction l as [|e l IH]; intros p; cbn [gv_ends List.length]; [by rewrite Z.mul_0_r|]. rewrite len_app, IH, le_bytes_len. lia. Qed.
Lemma elem_bytes_len e : len (elem_bytes e) = len (ge_name e) + 1 + len (ge_hash e) + len (ge_rest e).
Proof. unfold elem_bytes. rewrite len_app, len_cons, len_app. lia. Qed.

Section Array.
Context (off : nat) (l : list gv_elem) (data : string).
Hypothesis Hok : Forall elem_ok l.
Hypothesis Hoff : off = 1%nat \/ off = 2%nat \/ off = 4%nat.
Hypothesis Hlen : len data < 256 ^ Z.of_nat off.
Hypothesis Hdata : data = gv_body l +:+ gv_ends off 0 l.

(** The end of an element, where the loop reads it. *)
Lemma gv_end_at l1 e l2 :
  l = l1 ++ e :: l2 ->
  readLE data (len (gv_body l) + Z.of_nat (List.length l1) * Z.of_nat off) (Z.of_nat off) = Ok (len (gv_body l1) + len (elem_bytes e)).
Proof.
  intros E. eapply (readLE_at _ (gv_body l +:+ gv_ends off 0 l1)).
  - rewrite Hdata. rewrite E at 2. rewrite gv_ends_app. cbn [gv_ends]. rewrite !str_app_assoc. done.
  - rewrite len_app, gv_ends_len. lia.
  - done.
  - pose proof (len_nonneg (gv_body l1)). pose proof (len_nonneg (elem_bytes e)).
    enough (len (gv_body l1) + len (elem_bytes e) <= len data) by lia.
    rewrite Hdata, E, gv_body_app, !len_app. cbn [gv_body]. rewrite len_app.
    pose proof (len_nonneg (gv_body l2)). pose proof (len_nonneg (gv_ends off 0 (l1 ++ e :: l2))). lia.
Qed.

Lemma gv_loop_spec name l1 l2 :
  l = l1 ++ l2 ->
  gv_loop data name (Z.of_nat off) (len (gv_body l)) (List.length l2) (Z.of_nat (List.length l1)) (len (gv_body l1)) =
  Ok (found (gv_find l2 name)).
Proof.
  revert l1. induction l2 as [|e l2 IH]; intros l1 E; [done|]. cbn [gv_loop List.length].
  rewrite (gv_end_at l1 e l2 E). cbn [mbind result_bind].
  assert (elem_ok e) as [Hn Hh] by (rewrite E in Hok; apply Forall_app in Hok as [_ H]; by apply Forall_cons in H as [? _]).
  pose proof (elem_bytes_len e) as He. pose proof (len_nonneg (ge_name e)). pose proof (len_nonneg (ge_rest e)).
  assert (len (gv_body l) = len (gv_body l1) + len (elem_bytes e) + len (gv_body l2)) as Hb.
  { rewrite E, gv_body_app, len_app. cbn [gv_body]. rewrite len_app. lia. }
  pose proof (len_nonneg (gv_body l2)).
  rewrite (proj2 (Z.leb_gt _ _)), (proj2 (Z.ltb_ge _ _)) by lia. cbn [orb].
  rewrite (slice_at data (elem_bytes e) (gv_body l1) (elem_bytes e) (gv_body l2 +:+ gv_ends off 0 l)); try done.
  2: { rewrite Hdata. rewrite E at 1. rewrite gv_body_app, !str_app_assoc. cbn [gv_body]. by rewrite !str_app_assoc. }
  cbn [mbind result_bind]. unfold elem_bytes at 1. rewrite Cut_app by done. unfold gv_find. cbn [List.find].
  destruct (String.eqb_spec (ge_name e) name) as [Heq|Hne].
  - rewrite (proj2 (Z.ltb_ge _ _)) by lia.
    rewrite (slice_at _ (ge_hash e) (ge_name e +:+ str1 (byte 0)) (ge_hash e) (ge_rest e)); try done.
    + unfold elem_bytes. by rewrite !str_app_assoc.
    + by rewrite len_app.
    + rewrite len_app. change (len (str1 (byte 0))) with 1. lia.
  - replace (Z.of_nat (List.length l1) + 1) with (Z.of_nat (List.length (l1 ++ [e]))) by (rewrite length_app; simpl; lia).
    replace (len (gv_body l1) + len (elem_bytes e)) with (len (gv_body (l1 ++ [e]))).
    + apply IH. by rewrite E, <-app_assoc.
    + rewrite gv_body_app, len_app. cbn [gv_body]. rewrite len_app. change (len "") with 0. lia.
Qed.
End Array.

(** Looking a name up in a serialized array finds the first element with it. *)
Lemma lookupGVArray_spec l data name :
  gv_array l data -> lookupGVArray data name = Ok (found (gv_find l name)).
Proof.
  intros (Hok & Hlen & H). destruct l as [|e l].
  { by subst. }
  destruct H as (off & Ho & Hd). pose proof (len_nonneg data) as H0.
  destruct (offset_size_fits _ _ (conj H0 Hlen) Ho) as [Hoff Hfit]. unfold lookupGVArray.
  assert (len data = len (gv_body (e :: l)) + Z.of_nat off * Z.of_nat (List.length (e :: l))) as Hl.
  { rewrite Hd at 1. by rewrite len_app, gv_ends_len. }
  pose proof (len_nonneg (gv_body (e :: l))) as Hb. assert (0 < Z.of_nat off) by lia.
  rewrite (proj2 (Z.eqb_neq _ _)) by (cbn [List.length] in Hl; lia). rewrite Ho.
  destruct (exists_last (l := e :: l)) as (l1 & x & E); [done|].
  assert (len (gv_body (e :: l)) = len (gv_body l1) + len (elem_bytes x)) as Hlast.
  { rewrite E, gv_body_app, len_app. cbn [gv_body]. by rewrite str_app_nil_r. }
  assert (readLE data (len data - Z.of_nat off) (Z.of_nat off) = Ok (len (gv_body (e :: l)))) as ->.
  { rewrite Hlast, <-(gv_end_at off (e :: l) data Hoff Hfit Hd l1 x [] E). f_equal.
    rewrite Hl, E, length_app. simpl. lia. }
  cbn [mbind result_bind].
  rewrite (proj2 (Z.ltb_ge _ _)) by (cbn [List.length] in Hl; lia).
  replace ((len data - len (gv_body (e :: l))) / Z.of_nat off) with (Z.of_nat (List.length (e :: l))).
  - rewrite Nat2Z.id. by apply (gv_loop_spec off (e :: l) data Hok Hoff Hfit Hd name [] (e :: l)).
  - rewrite Hl. rewrite Z.add_simpl_l, Z.mul_comm, Z.div_mul; lia.
Qed.

Lemma found_nonempty o : Forall elem_ok (option_list o) -> (found o = "" ↔ o = None).
Proof.
  destruct o as [e|]; simpl; [|done]. intros [[_ Hh] _]%Forall_cons. split; [|done]. intros H.
  apply (f_equal String.length) in H. rewrite hex_length in H. unfold len in Hh. simpl in H. lia.
Qed.
Lemma gv_find_ok l data name : gv_array l data -> Forall elem_ok (option_list (gv_find l name)).
Proof.
  intros [Hl _]. unfold gv_find. destruct (List.find _ l) as [e|] eqn:E; [|constructor].
  apply find_some in E as [Hin _]. constructor; [|constructor]. rewrite Forall_forall in Hl. apply Hl. by apply list_elem_of_In.
Qed.
Lemma lookupDirtree_spec files dirs data name :
  dirtree_object files dirs data ->
  lookupDirtree data name = Ok (match gv_find files name with
                                | Some e => (hex (ge_hash e), "")
                                | None => ("", found (gv_find dirs name))
                                end).
Proof.
  intros (fdata & ddata & off & Hf & Hd & Ho & Hlen & E). unfold lookupDirtree.
  destruct (offset_size_fits _ _ (conj (len_nonneg data) Hlen) Ho) as [Hoff Hfit].
  assert (len data = len fdata + len ddata + Z.of_nat off) as Hl by (rewrite E at 1; rewrite !len_app, le_bytes_len; lia).
  pose proof (len_nonneg fdata). pose proof (len_nonneg ddata).
  rewrite (proj2 (Z.eqb_neq _ _)) by lia. rewrite Ho, (proj2 (Z.ltb_ge _ _)) by lia.
  rewrite (readLE_at data (fdata +:+ ddata) (len fdata) "" off); [|by rewrite str_app_nil_r, str_app_assoc|rewrite len_app; lia|done|lia].
  cbn [mbind result_bind]. rewrite (proj2 (Z.ltb_ge _ _)) by lia.
  assert (slice data 0 (len fdata) = Ok fdata) as ->.
  { by eapply (slice_at data fdata "" fdata (ddata +:+ le_bytes off (len fdata))); [exact E|..]. }
  cbn [mbind result_bind].
  rewrite (lookupGVArray_spec _ _ name Hf). cbn [mbind result_bind].
  pose proof (found_nonempty _ (gv_find_ok _ _ name Hf)) as Hnf.
  pose proof (found_nonempty _ (gv_find_ok _ _ name Hd)) as Hnd.
  destruct (gv_find files name) as [e|]; simpl.
  - destruct (String.eqb_spec (hex (ge_hash e)) "") as [Hz|]; [|done]. apply Hnf in Hz. done.
  - rewrite (slice_at data ddata fdata ddata (le_bytes off (len fdata))); try done; [|lia]. cbn [mbind result_bind].
    rewrite (lookupGVArray_spec _ _ name Hd). cbn [mbind result_bind].
    by destruct (String.eqb_spec (found (gv_find dirs name)) "") as [->|].
Qed.

(** Rounding up to a multiple of eight, as the bit operations do it. *)
Lemma align8 n : 0 <= n -> Z.land (n + 7) (Z.lnot 7) = 8 * ((n + 7) / 8).
Proof.
  intros H. change 7 with (Z.ones 3) at 2. rewrite <-Z.ldiff_land, Z.ldiff_ones_r by lia.
  rewrite Z.shiftr_div_pow2, Z.shiftl_mul_pow2 by lia. change (2 ^ 3) with 8. lia.
Qed.
Lemma align8_pad n k : 0 <= n -> 0 <= k < 8 -> (n + k) mod 8 = 0 -> 8 * ((n + 7) / 8) = n + k.
Proof.
  intros Hn Hk Hm. pose proof (Z.div_mod (n + k) 8). pose proof (Z.div_mod (n + 7) 8).
  pose proof (Z.mod_pos_bound (n + 7) 8). lia.
Qed.
Lemma rootDirtreeHash_spec root data : commit_object root data -> rootDirtreeHash data = Ok (hex root).
Proof.
  intros (pre & pad & ts & rest & f0 & frames & off & E & Hts & Hroot & Hf0 & Hfr & Hmod & Hpad & Ho & Hlen).
  destruct (offset_size_fits _ _ (conj (len_nonneg data) Hlen) Ho) as [Hoff Hfit]. unfold rootDirtreeHash.
  assert (len data = len pre + len pad + 40 + len rest + 6 * Z.of_nat off) as Hl.
  { rewrite E. rewrite !len_app, le_bytes_len. lia. }
  pose proof (len_nonneg pre). pose proof (len_nonneg pad). pose proof (len_nonneg rest).
  rewrite Ho, (proj2 (Z.ltb_ge _ _)) by lia.
  rewrite (readLE_at data (pre +:+ pad +:+ ts +:+ root +:+ rest +:+ f0) (len pre) frames off);
    [|by rewrite E, !str_app_assoc|rewrite !len_app; lia|done|lia].
  cbn [mbind result_bind]. rewrite (proj2 (Z.leb_gt _ _)) by lia.
  rewrite align8, (align8_pad _ (len pad)) by (try done; lia).
  rewrite (proj2 (Z.ltb_ge _ _)) by lia.
  rewrite (slice_at data root (pre +:+ pad +:+ ts) root (rest +:+ f0 +:+ le_bytes off (len pre) +:+ frames)); try done.
  - by rewrite E, !str_app_assoc.
  - rewrite !len_app. lia.
  - rewrite !len_app. lia.
Qed.

(** ** Theory: no input makes the parsers read out of bounds *)

Lemma offset_size_pos n : 0 <= n -> 1 <= gvariantOffsetSize n ∧ (1 <= n -> gvariantOffsetSize n <= n).
Proof. unfold gvariantOffsetSize. intros. repeat case_match; bool_to_prop; lia. Qed.
Lemma readLE_safe data pos n :
  0 <= pos -> pos + gvariantOffsetSize n <= len data ->
  ∃ v, readLE data pos (gvariantOffsetSize n) = Ok v ∧ 0 <= v.
Proof.
  intros Hp Hle. unfold readLE.
  assert (∀ k rest, Z.of_nat k <= len rest -> ∃ v, le_uint k rest = Ok v ∧ 0 <= v) as Hu.
  { intros k rest Hk. unfold le_uint. rewrite (proj2 (Z.ltb_ge _ _)) by lia. eexists. split; [done|]. apply le_value_range. }
  unfold gvariantOffsetSize in *. destruct (n <=? 255); [|destruct (n <=? 65535)]; cbn [Z.eqb Pos.eqb] in *.
  - unfold index. destruct (slice data pos (pos + 1)) as [s|e] eqn:E; apply slice_spec in E; [|lia].
    destruct s as [|c s]; [unfold len in E; simpl in E; lia|]. eexists. split; [done|]. apply byte_val_range.
  - destruct (slice_from data pos) as (rest & -> & Hr); [lia|]. apply Hu. lia.
  - destruct (slice_from data pos) as (rest & -> & Hr); [lia|]. apply Hu. lia.
Qed.
Ltac read_ok v Hv := match goal with |- context [readLE ?d ?p (gvariantOffsetSize ?n)] =>
  destruct (readLE_safe d p n) as (v & -> & Hv); [| |cbn [mbind result_bind]] end.

Lemma gv_loop_safe data name n lastElemEnd k i prev :
  0 <= lastElemEnd -> 0 <= prev -> 0 <= i -> 0 <= n ->
  lastElemEnd + (i + Z.of_nat k) * gvariantOffsetSize n <= len data ->
  no_panic (gv_loop data name (gvariantOffsetSize n) lastElemEnd k i prev).
Proof.
  intros Hl Hp Hi Hn. destruct (offset_size_pos n Hn) as [Hs _]. revert i prev Hp Hi.
  induction k as [|k IH]; intros i prev Hp Hi Hb; [done|]. cbn [gv_loop].
  read_ok e He; [nia|nia|].
  destruct ((e <=? prev) || (lastElemEnd <? e)) eqn:Ee; [done|]. bool_to_prop.
  apply no_panic_bind; [apply slice_no_panic; nia|]. intros elem _.
  destruct (Cut elem (byte 0)) as [[s rest]|]; [|done]. case_match.
  - case_match; [done|]. bool_to_prop. apply no_panic_bind; [|done].
    apply slice_no_panic; pose proof (len_nonneg s); lia.
  - apply IH; nia.
Qed.
Lemma lookupGVArray_safe data name : no_panic (lookupGVArray data name).
Proof.
  unfold lookupGVArray. pose proof (len_nonneg data) as H0. destruct (Z.eqb_spec (len data) 0); [done|].
  destruct (offset_size_pos (len data) H0) as [H1 H2].
  read_ok v Hv; [lia|lia|]. case_match; [done|]. bool_to_prop. apply gv_loop_safe; try lia.
  set (s := gvariantOffsetSize (len data)) in *. pose proof (Z.mul_div_le (len data - v) s).
  assert (0 <= (len data - v) / s) by (apply Z.div_pos; lia). rewrite Z2Nat.id by done. nia.
Qed.
Lemma lookupDirtree_safe data name : no_panic (lookupDirtree data name).
Proof.
  unfold lookupDirtree. pose proof (len_nonneg data) as H0. destruct (Z.eqb_spec (len data) 0); [done|].
  destruct (offset_size_pos (len data) H0) as [H1 H2]. case_match; [done|]. bool_to_prop.
  read_ok v Hv; [lia|lia|]. case_match; [done|]. bool_to_prop.
  apply no_panic_bind; [apply slice_no_panic; lia|]. intros files _.
  apply no_panic_bind; [apply lookupGVArray_safe|]. intros fh _. case_match; [done|].
  apply no_panic_bind; [apply slice_no_panic; lia|]. intros dirs _.
  apply no_panic_bind; [apply lookupGVArray_safe|]. intros dh _. by case_match.
Qed.
Lemma rootDirtreeHash_safe data : no_panic (rootDirtreeHash data).
Proof.
  unfold rootDirtreeHash. pose proof (len_nonneg data) as H0.
  destruct (offset_size_pos (len data) H0) as [H1 H2]. case_match; [done|]. bool_to_prop.
  read_ok v Hv; [nia|nia|]. case_match; [done|]. bool_to_prop. rewrite align8 by lia. case_match; [done|]. bool_to_prop.
  apply no_panic_bind; [|done]. pose proof (Z.div_pos (v + 7) 8). apply slice_no_panic; lia.
Qed.

(** ** The abstract repository, and that [ReadFile] reads it *)

Section Repository.
Context `{Flate} (repo : string) (w : world).

(** An object's data, a directory, the checksum a ref names. *)
Definition object_at (hash ext data : string) : Prop :=
  ∃ p, objectPath repo hash ext = Ok p ∧ file_at w p = Some data.
Definition dir_at (hash : string) (files dirs : list gv_elem) : Prop :=
  ∃ data, object_at hash ".dirtree" data ∧ dirtree_object files dirs data.
Definition ref_at (ref hash : string) : Prop :=
  isValidObjectHash hash = true ∧
  ∃ txt, TrimSpace txt = hash ∧
    match file_at w (filepath_Join [repo; "refs"; "heads"; ref]) with
    | Some t => t = txt
    | None => file_at w (filepath_Join [repo; "refs"; "remotes"; ref]) = Some txt
    end.
(** The root directory of a ref's commit. *)
Definition root_at (ref root : string) : Prop :=
  ∃ commit raw data, ref_at ref commit ∧ object_at commit ".commit" data ∧ commit_object raw data ∧ root = hex raw.
(** Following a path from a directory: the checksum of the file, if there is one. *)
Inductive resolves : string -> list string -> option string -> Prop :=
  | resolves_file h files dirs n :
      dir_at h files dirs -> resolves h [n] ((λ e, hex (ge_hash e)) <$> gv_find files n)
  | resolves_dir h files dirs n m parts e o :
      dir_at h files dirs -> gv_find files n = None -> gv_find dirs n = Some e ->
      resolves (hex (ge_hash e)) (m :: parts) o -> resolves h (n :: m :: parts) o
  | resolves_none h files dirs n m parts :
      dir_at h files dirs -> gv_find files n <> None \/ gv_find dirs n = None ->
      resolves h (n :: m :: parts) None.
(** The content of a file, stored plainly or compressed behind a header. *)
Definition content_at (hash content : string) : Prop :=
  object_at hash ".file" content \/
  (∃ p, objectPath repo hash ".file" = Ok p ∧ file_at w p = None) ∧
  ∃ pad header z, object_at hash ".filez" (be_bytes 4 (len header) +:+ pad +:+ header +:+ z) ∧
    len pad = 4 ∧ 0 < len header < 2 ^ 32 ∧ inflate z = Ok content.

Hypothesis Hw : faults w = [].

Lemma ReadFile_at p data : file_at w p = Some data -> os_ReadFile p w = (Ok data, w).
Proof.
  unfold os_ReadFile, file_at. rewrite syscall_ok by done. destruct (fs w !! p) as [[c m t|]|]; intros; by simplify_eq.
Qed.
Lemma ReadFile_none p : file_at w p = None -> ∃ e, os_ReadFile p w = (Err e, w).
Proof.
  unfold os_ReadFile, file_at. rewrite syscall_ok by done. destruct (fs w !! p) as [[c m t|]|]; intros; simplify_eq; eauto.
Qed.
Lemma named_Ok {A} msg h (m : IO A) a w' : m w = (Ok a, w') -> named msg h m w = (Ok a, w').
Proof. intros E. unfold named. by erewrite bind_try by done. Qed.

Lemma ReadRef_at ref hash : ref_at ref hash -> ReadRef repo ref w = (Ok hash, w).
Proof.
  intros (Hv & txt & <- & Hf). unfold ReadRef. cbn [ReadRef_loop].
  destruct (file_at w _) as [t|] eqn:E.
  - subst. erewrite bind_try by (by apply ReadFile_at). cbv beta iota zeta. by rewrite Hv.
  - destruct (ReadFile_none _ E) as [e Ee]. erewrite bind_try by done. cbn [ReadRef_loop].
    erewrite bind_try by (by apply ReadFile_at). cbv beta iota zeta. by rewrite Hv.
Qed.
Lemma readDirtree_at h data : object_at h ".dirtree" data -> readDirtree repo h w = (Ok data, w).
Proof.
  intros (p & Hp & Hf). unfold readDirtree. rewrite Hp. erewrite bind_Ok by done.
  apply named_Ok. by apply ReadFile_at.
Qed.
Lemma be_value_app a b acc : be_value_acc acc (a +:+ b) = be_value_acc (be_value_acc acc a) b.
Proof. revert acc. induction a as [|c a IH]; intros acc; simpl; auto. Qed.
Lemma be_value_bytes n z : 0 <= z < 256 ^ Z.of_nat n -> be_value_acc 0 (be_bytes n z) = z.
Proof.
  revert z. induction n as [|n IH]; intros z Hz; [simpl in *; lia|]. cbn [be_bytes].
  rewrite Nat2Z.inj_succ, Z.pow_succ_r in Hz by lia. rewrite be_value_app.
  rewrite IH by (split; [apply Z.div_pos; lia|apply Z.div_lt_upper_bound; lia]). cbn [be_value_acc].
  unfold byte_val. pose proof (Z.mod_pos_bound z 256). rewrite nat_ascii_embedding by lia.
  rewrite Z2Nat.id by lia. pose proof (Z.div_mod z 256). lia.
Qed.
Lemma readContentObject_at h c : content_at h c -> readContentObject repo h w = (Ok c, w).
Proof.
  unfold readContentObject. intros [(p & Hp & Hf)|((p & Hp & Hf) & pad & header & z & (p' & Hp' & Hf') & Hpad & Hh & Hz)];
    rewrite Hp; erewrite bind_Ok by done.
  { by erewrite bind_try by (by apply ReadFile_at). }
  destruct (ReadFile_none _ Hf) as [e Ee]. erewrite bind_try by done.
  rewrite Hp'. erewrite bind_Ok by done. erewrite bind_Ok by (apply named_Ok; by apply ReadFile_at).
  set (size := be_bytes 4 (len header)) in *.
  assert (len size = 4) as Hs by (unfold len; subst size; by rewrite be_bytes_length).
  pose proof (len_nonneg z). set (raw := size +:+ pad +:+ header +:+ z).
  assert (len raw = 8 + len header + len z) as Hl by (subst raw; rewrite !len_app; lia).
  rewrite (proj2 (Z.ltb_ge _ _)) by lia.
  rewrite (slice_at raw size "" size (pad +:+ header +:+ z)) by done. erewrite bind_Ok by done.
  assert (BigEndian_Uint32 size = Ok (len header)) as ->.
  { unfold BigEndian_Uint32. rewrite Hs. cbn [Z.ltb Z.compare Pos.compare Pos.compare_cont].
    rewrite str_take_all by (unfold len in Hs; lia). f_equal. apply be_value_bytes. change (256 ^ Z.of_nat 4) with (2 ^ 32). lia. }
  erewrite bind_Ok by done. rewrite (proj2 (Z.eqb_neq _ _)), (proj2 (Z.ltb_ge _ _)) by lia. cbn [orb].
  assert (slice raw (8 + len header) (len raw) = Ok z) as ->.
  { apply (slice_at raw z (size +:+ pad +:+ header) z ""); rewrite ?str_app_nil_r, ?str_app_assoc; try done; rewrite !len_app; lia. }
  erewrite bind_Ok by done. apply named_Ok. by rewrite Hz.
Qed.

Lemma lookup_entry h files dirs n :
  dir_at h files dirs ->
  ∃ data, readDirtree repo h w = (Ok data, w) ∧
    lookupDirtree data n = Ok (match gv_find files n with
                               | Some e => (hex (ge_hash e), "") | None => ("", found (gv_find dirs n)) end) ∧
    (gv_find files n = None ∨ found (gv_find files n) <> "") ∧ (gv_find dirs n = None ∨ found (gv_find dirs n) <> "").
Proof.
  intros (data & Hobj & Hd). exists data. split; [by apply readDirtree_at|]. split; [by apply lookupDirtree_spec|].
  destruct Hd as (fd & dd & off & Hf & Hdd & _).
  pose proof (found_nonempty _ (gv_find_ok _ _ n Hf)) as H1. pose proof (found_nonempty _ (gv_find_ok _ _ n Hdd)) as H2.
  destruct (gv_find files n), (gv_find dirs n); naive_solver.
Qed.

Lemma walk_read_at h parts o :
  resolves h parts o ->
  ∃ e, (walk_dirs repo h (removelast parts) ≫= read_entry repo (List.last parts "")) w =
    match o with
    | Some fh => readContentObject repo fh w
    | None => (Err e, w)
    end ∧ panics e = false.
Proof.
  induction 1 as [h files dirs n Hd|h files dirs n m parts e o Hd Hnf Hsub Hres IH|h files dirs n m parts Hd Hno].
  - exists (ErrMsg "file not found"). split; [|done]. cbn [removelast List.last walk_dirs].
    erewrite bind_Ok by done. unfold read_entry.
    destruct (lookup_entry h files dirs n Hd) as (data & Hr & Hl & Hf & _).
    erewrite bind_Ok by done. rewrite Hl. erewrite bind_Ok by (by apply wrap_Ok).
    destruct (gv_find files n) as [e|]; simpl; [|done].
    destruct (String.eqb_spec (hex (ge_hash e)) "") as [Hz|]; [|done]. destruct Hf as [|[]]; done.
  - destruct IH as (err & IH & Hp). exists err. split; [|done]. rewrite <-IH.
    cbn [removelast]. change (walk_dirs repo h (n :: ?l)) with (walk_dirs repo h (n :: l)).
    change (List.last (n :: m :: parts) "") with (List.last (m :: parts) "").
    cbn [walk_dirs]. destruct (lookup_entry h files dirs n Hd) as (data & Hr & Hl & _ & Hs).
    rewrite bind_assoc. erewrite bind_Ok by done. rewrite Hnf in Hl.
    rewrite Hl, bind_assoc. erewrite bind_Ok by (by apply wrap_Ok). rewrite Hsub in *. simpl.
    destruct (String.eqb_spec (hex (ge_hash e)) "") as [Hz|]; [|done]. destruct Hs as [|[]]; done.
  - exists (ErrMsg "directory not found"). split; [|done].
    cbn [removelast walk_dirs]. destruct (lookup_entry h files dirs n Hd) as (data & Hr & Hl & _ & _).
    rewrite bind_assoc. erewrite bind_Ok by done. rewrite Hl, bind_assoc. erewrite bind_Ok by (by apply wrap_Ok).
    destruct (gv_find files n) as [e|]; [done|]. destruct Hno as [|Hno]; [done|]. by rewrite Hno.
Qed.

(** C17. [ReadFile] returns the content of exactly the file that the repository has
    under the path, and an error when it has none. *)
Theorem ReadFile_spec ref filePath root o :
  root_at ref root -> resolves root (Split (trim_slashes filePath) "/") o ->
  match o with
  | Some fh => ∀ c, content_at fh c -> Repo_ReadFile repo ref filePath w = (Ok c, w)
  | None => ∃ e, Repo_ReadFile repo ref filePath w = (Err e, w) ∧ panics e = false
  end.
Proof.
  intros (commit & raw & data & Href & (p & Hp & Hf) & Hc & ->) Hres.
  destruct (walk_read_at _ _ _ Hres) as (e & Hrun & He).
  assert (Repo_ReadFile repo ref filePath w = match o with
          | Some fh => readContentObject repo fh w | None => (Err e, w) end) as E.
  { unfold Repo_ReadFile. erewrite bind_Ok by (by apply ReadRef_at). rewrite Hp. erewrite bind_Ok by done.
    erewrite bind_Ok by (apply wrap_Ok; by apply ReadFile_at). rewrite (rootDirtreeHash_spec _ _ Hc).
    erewrite bind_Ok by (by apply wrap_Ok). done. }
  rewrite E. destruct o as [fh|]; [|eauto]. intros c. apply readContentObject_at.
Qed.
End Repository.

(** ** No repository, however damaged, makes [ReadFile] panic *)

Lemma hex_len s : len (hex s) = 2 * len s.
Proof. unfold len. rewrite hex_length. lia. Qed.
Definition hash_or_empty (s : string) : Prop := s = "" \/ len s = 64.
Lemma hex_slice data a h : slice data a (a + 32) = Ok h -> len (hex h) = 64.
Proof. intros H. apply slice_spec in H. rewrite hex_len. lia. Qed.
Lemma gv_loop_hash data name off last k i prev h :
  gv_loop data name off last k i prev = Ok h -> hash_or_empty h.
Proof.
  revert i prev. induction k as [|k IH]; intros i prev; cbn [gv_loop]; [by intros [= <-]; left|].
  destruct (readLE _ _ _) as [e|]; [|done]. cbn [mbind result_bind]. case_match; [by intros [= <-]; left|].
  destruct (slice _ _ _) as [elem|]; [|done]. cbn [mbind result_bind].
  destruct (Cut _ _) as [[s rest]|]; [|by intros [= <-]; left]. case_match; [|apply IH].
  case_match; [by intros [= <-]; left|]. destruct (slice elem _ _) as [x|] eqn:E; [|done].
  intros [= <-]. right. by eapply hex_slice.
Qed.
Lemma lookupGVArray_hash data name h : lookupGVArray data name = Ok h -> hash_or_empty h.
Proof.
  unfold lookupGVArray. case_match; [by intros [= <-]; left|]. destruct (readLE _ _ _) as [e|]; [|done].
  cbn [mbind result_bind]. case_match; [by intros [= <-]; left|]. apply gv_loop_hash.
Qed.
Lemma lookupDirtree_hash data name r : lookupDirtree data name = Ok r -> hash_or_empty r.1 ∧ hash_or_empty r.2.
Proof.
  unfold lookupDirtree. do 2 (case_match; [done|]). destruct (readLE _ _ _) as [e|]; [|done].
  cbn [mbind result_bind]. case_match; [done|]. destruct (slice data 0 e) as [fs|]; [|done]. cbn [mbind result_bind].
  destruct (lookupGVArray fs name) as [fh|] eqn:Ef; [|done]. apply lookupGVArray_hash in Ef. cbn [mbind result_bind].
  case_match; [intros [= <-]; split; [done|by left]|].
  destruct (slice data e _) as [ds|]; [|done]. cbn [mbind result_bind].
  destruct (lookupGVArray ds name) as [dh|] eqn:Ed; [|done]. apply lookupGVArray_hash in Ed. cbn [mbind result_bind].
  case_match; intros [= <-]; split; try done; by left.
Qed.
Lemma rootDirtreeHash_hash data h : rootDirtreeHash data = Ok h -> len h = 64.
Proof.
  unfold rootDirtreeHash. case_match; [done|]. destruct (readLE _ _ _) as [e|]; [|done]. cbn [mbind result_bind].
  do 2 (case_match; [done|]). destruct (slice _ _ _) as [x|] eqn:E; [|done]. intros [= <-]. by eapply hex_slice.
Qed.
Lemma no_panic_match {A} (r : result A) (Q : A -> Prop) :
  no_panic r -> (∀ a, r = Ok a -> Q a) -> match r with Ok a => Q a | Err e => panics e = false end.
Proof. destruct r; simpl; auto. Qed.

Section Safe.
Context `{Flate} (repo : string).
Hypothesis inflate_calm : ∀ z, no_panic (inflate z).

Lemma objectPath_safe hash ext : len hash = 64 -> no_panic (objectPath repo hash ext).
Proof.
  intros Hh. apply no_panic_bind; [apply slice_no_panic; lia|]. intros a _.
  apply no_panic_bind; [apply slice_no_panic; lia|]. done.
Qed.
Lemma safe_named {A} msg hash (m : IO A) Q : len hash = 64 -> safe m Q -> safe (named msg hash m) Q.
Proof.
  intros Hh Hm. unfold named. eapply safe_bind; [by eapply safe_try; [done|]; intros r Hr; exact Hr|].
  intros [a|e] Hr; [by apply safe_ret|]. eapply (safe_bind _ _ any).
  - apply safe_lift. apply no_panic_match; [apply slice_no_panic; lia|done].
  - intros s _. by apply safe_fail.
Qed.
Lemma safe_ReadRef ref : safe (ReadRef repo ref) (λ h, len h = 64).
Proof.
  unfold ReadRef. generalize ["heads"; "remotes"]. intros l. induction l as [|b l IH]; cbn [ReadRef_loop]; [by apply safe_fail|].
  eapply safe_bind; [by eapply (safe_try _ any any); [apply safe_ReadFile|]|]. intros [data|e] _; [|done]. cbv zeta.
  destruct (isValidObjectHash _) eqn:E; [|by apply safe_fail]. apply safe_ret.
  unfold isValidObjectHash in E. bool_to_prop. done.
Qed.
Lemma safe_readDirtree h : len h = 64 -> safe (readDirtree repo h) any.
Proof.
  intros Hh. eapply (safe_bind _ _ any).
  - apply safe_lift. by apply no_panic_match; [apply objectPath_safe|].
  - intros p _. apply safe_named; [done|]. apply safe_ReadFile.
Qed.
Lemma safe_lookup data name : safe (wrap "parsing dirtree" (lift (lookupDirtree data name))) (λ r, hash_or_empty r.1 ∧ hash_or_empty r.2).
Proof.
  apply safe_wrap, safe_lift. apply no_panic_match; [apply lookupDirtree_safe|]. intros a. apply lookupDirtree_hash.
Qed.
Lemma safe_walk_dirs h parts : len h = 64 -> safe (walk_dirs repo h parts) (λ h, len h = 64).
Proof.
  revert h. induction parts as [|p parts IH]; intros h Hh; [by apply safe_ret|]. cbn [walk_dirs].
  eapply safe_bind; [by apply safe_readDirtree|]. intros data _.
  eapply safe_bind; [apply safe_lookup|]. intros r [_ [Hr|Hr]].
  - rewrite Hr. by apply safe_fail.
  - destruct (String.eqb_spec r.2 ""); [by apply safe_fail|]. by apply IH.
Qed.
Lemma safe_readContentObject h : len h = 64 -> safe (readContentObject repo h) any.
Proof.
  intros Hh. unfold readContentObject.
  eapply (safe_bind _ _ any); [apply safe_lift; by apply no_panic_match; [apply objectPath_safe|]|]. intros p _.
  eapply (safe_bind _ _ any); [by eapply (safe_try _ any); [apply safe_ReadFile|]|]. intros [data|e] _; [by apply safe_ret|].
  eapply (safe_bind _ _ any); [apply safe_lift; by apply no_panic_match; [apply objectPath_safe|]|]. intros p' _.
  eapply (safe_bind _ _ any); [by apply safe_named; [|apply safe_ReadFile]|]. intros raw _.
  destruct (Z.ltb_spec (len raw) 8); [by apply safe_named; [|apply safe_fail]|].
  eapply (safe_bind _ _ (λ h, len h = 4)).
  { apply safe_lift. apply no_panic_match; [apply slice_no_panic; lia|]. intros a Ha. apply slice_spec in Ha. lia. }
  intros s Hs. eapply (safe_bind _ _ (λ n, 0 <= n)).
  { apply safe_lift. unfold BigEndian_Uint32. rewrite Hs. simpl. by apply be_value_acc_nonneg. }
  intros n Hn. cbv zeta. destruct ((n =? 0) || (len raw <? 8 + n)) eqn:E; [by apply safe_named; [|apply safe_fail]|]. bool_to_prop.
  eapply (safe_bind _ _ any); [apply safe_lift; apply no_panic_match; [apply slice_no_panic; lia|done]|]. intros z _.
  apply safe_named; [done|]. apply safe_lift. by apply no_panic_match.
Qed.

(** C29. Whatever bytes the uploaded objects hold, and whatever call fails, reading
    a file out of the repository ends in a content or an error: every index
    and slice of the parsers is in bounds. *)
Theorem ReadFile_never_panics ref filePath w r w' :
  calm w -> Repo_ReadFile repo ref filePath w = (r, w') -> no_panic r.
Proof.
  intros Hw E. assert (safe (Repo_ReadFile repo ref filePath) any) as Hs; [|apply Hs in E as [_ E]; [|done]; by destruct r].
  unfold Repo_ReadFile. eapply safe_bind; [apply safe_ReadRef|]. intros h Hh.
  eapply (safe_bind _ _ any); [apply safe_lift; by apply no_panic_match; [apply objectPath_safe|]|]. intros p _.
  eapply (safe_bind _ _ any); [apply safe_wrap, safe_ReadFile|]. intros data _.
  eapply safe_bind; [apply safe_wrap, safe_lift, (no_panic_match _ (λ h, len h = 64)); [apply rootDirtreeHash_safe|apply rootDirtreeHash_hash]|].
  intros root Hroot. eapply safe_bind; [by apply safe_walk_dirs|]. intros d Hd.
  unfold read_entry. eapply (safe_bind _ _ any); [by apply safe_readDirtree|]. intros dd _.
  eapply safe_bind; [apply safe_lookup|]. intros res [Hr _].
  destruct (String.eqb_spec res.1 ""); [by apply safe_fail|]. destruct Hr; [done|]. by apply safe_readContentObject.
Qed.
End Safe.
