(* ===== verification/Tuf.v ===== *)
(** storage/tuf: the TUF metadata documents (tuf_data.go), the online ed25519
    signers (tuf_crypto.go) and the imported offline signers (tuf_import.go). *)
From S2P Require Import Prelude GoStrings Bytes GoPath Schema World Crypto.

(** ** tuf_data.go *)

Notation RoleName := string (only parsing).
Definition RoleRoot : RoleName := "root".
Definition RoleTargets : RoleName := "targets".
Definition RoleSnapshot : RoleName := "snapshot".
Definition RoleTimestamp : RoleName := "timestamp".
Definition TufType (r : RoleName) : string :=
  if String.eqb r RoleRoot then "Root"
  else if String.eqb r RoleTargets then "Targets"
  else if String.eqb r RoleSnapshot then "Snapshot"
  else if String.eqb r RoleTimestamp then "Timestamp"
  else r.
Definition SigEd25519 := "ed25519".
Definition SigRsaPssSha256 := "rsassa-pss-sha256".

(** Times are milliseconds since the epoch. *)
Record SignedCommon := { sc_Type : string; Expires : Z; Version : Z }.
Record Signature := { KeyID : string; Method : string; sig_Signature : string }.
Record AtsKeyVal := { Public : string; Private : string }.
Record AtsKey := { KeyType : string; KeyValue : AtsKeyVal }.
Record RootRole := { KeyIDs : list string; Threshold : Z }.
Record RootMeta := {
  rm_Common : SignedCommon; ConsistentSnapshot : bool;
  Keys : gmap string AtsKey; Roles : gmap string RootRole
}.
Record AtsTufRoot := { root_Signatures : list Signature; root_Signed : RootMeta }.
(** [Hashes] maps an algorithm to the digest's bytes. *)
Record TargetFileMeta := { Length : Z; tf_Hashes : gmap string string; Custom : string }.
Record TargetsMeta := { tm_Common : SignedCommon; Targets : gmap string TargetFileMeta }.
Record AtsTufTargets := { targets_Signatures : list Signature; targets_Signed : TargetsMeta }.
Record MetaItem := { mi_Version : Z; mi_Length : Z; mi_Hashes : gmap string string }.
(** SnapshotMeta and TimestampMeta have the same fields. *)
Record MetaMeta := { mm_Common : SignedCommon; Meta : gmap string MetaItem }.
Notation SnapshotMeta := MetaMeta (only parsing).
Notation TimestampMeta := MetaMeta (only parsing).
Record AtsTufMeta := { meta_Signatures : list Signature; meta_Signed : MetaMeta }.
Notation AtsTufSnapshot := AtsTufMeta (only parsing).
Notation AtsTufTimestamp := AtsTufMeta (only parsing).

(** What [GetLatestTargetVersion] decodes of a target's custom metadata. *)
Record version_custom := { vc_Version : string }.
(** The loop over a map is order-independent here: the maximum. *)
Definition latest_target_step `{JSON version_custom} (acc : Z) (target : TargetFileMeta) : Z :=
  match json_Unmarshal (Custom target) with
  | Err _ => acc
  | Ok custom => match Atoi (vc_Version custom) with Some n => if acc <? n then n else acc | None => acc end
  end.
Definition GetLatestTargetVersion `{JSON version_custom} (t : AtsTufTargets) : Z :=
  foldl latest_target_step 0 (map snd (map_to_list (Targets (targets_Signed t)))).

(** ** Packages crypto/ed25519, crypto/x509, crypto/rsa and the canonical JSON encoder *)

(** A private key is its seed followed by its public key. *)
Class Ed25519 := {
  ed_public : string -> string;                   (* of a seed *)
  ed_sign : string -> string -> string;           (* private key, message *)
  ed_verify : string -> string -> string -> bool; (* public key, message, signature *)
  pkix_ed25519 : string -> result string          (* x509.MarshalPKIXPublicKey *)
}.
Class Ed25519Laws `{Ed25519} := {
  ed_public_length seed : len (ed_public seed) = 32;
  ed_correct seed msg : len seed = 32 -> ed_verify (ed_public seed) msg (ed_sign (seed +:+ ed_public seed) msg) = true
}.
Class Rsa := {
  ParsePKCS1PrivateKey : string -> result string;
  pkix_rsa : string -> result string;                         (* of the private key's public part *)
  rsa_sign_pss : string -> string -> string -> result string  (* random draw, private key, digest *)
}.
(** cjson.EncodeCanonical of one Go type. *)
Class Canonical (A : Type) := { cjson_Encode : A -> result string }.
(** Canonical JSON is JSON: what was encoded decodes to the same value. *)
Class CanonicalLaws (A : Type) `{JSON A, Canonical A} := {
  cjson_decodes a s : cjson_Encode a = Ok s -> json_Unmarshal s = Ok a
}.

(** encoding/hex: [DecodeString] (and the fact that upper case is accepted). *)
Definition hex_digit_value (c : ascii) : option Z :=
  match char_digit c with Some d => if d <? 16 then Some d else None | None => None end.
Fixpoint hex_DecodeString (s : string) : result string :=
  match s with
  | "" => Ok ""
  | String a (String b s') =>
      match hex_digit_value a, hex_digit_value b with
      | Some x, Some y =>
          rest ← hex_DecodeString s';
          mret (String (ascii_of_nat (Z.to_nat (16 * x + y))) rest)
      | _, _ => Err (ErrMsg "encoding/hex: invalid byte")
      end
  | _ => Err (ErrMsg "encoding/hex: odd length hex string")
  end.

(** ** tuf_crypto.go *)

Definition tufKeyTypeEd25519 := "ED25519".
Record Signer := { sg_Id : string; keyType : string; private : string; public : string }.

Section Signers.
Context `{Digest, Ed25519}.

Definition NewKeyFromSeed (seed : string) : string := seed +:+ ed_public seed.
Definition private_Seed (priv : string) : string := str_take 32 priv.
Definition private_Public (priv : string) : string := str_drop 32 priv.

Definition tufKeyID (pub : string) : result string :=
  match pkix_ed25519 pub with
  | Err e => Err (ErrWrap "unable to marshal public key" e)
  | Ok der => Ok (sha256_hex der)
  end.
(** ed25519.GenerateKey: the seed is 32 random bytes. *)
Definition NewSigner : IO Signer :=
  seed ← rand_Read 32;
  let priv := NewKeyFromSeed seed in
  let pub := private_Public priv in
  i ← lift (tufKeyID pub);
  mret {| sg_Id := i; keyType := tufKeyTypeEd25519; private := priv; public := pub |}.
Definition ed25519_private (seed : string) : result string :=
  if len seed =? 32 then Ok (NewKeyFromSeed seed)
  else if len seed =? 64 then Ok seed
  else Err (ErrMsg "invalid ed25519 private key size").
Definition SignerFromAtsKey (key : AtsKey) : result Signer :=
  if negb (String.eqb (KeyType key) tufKeyTypeEd25519) then Err (ErrMsg "unsupported TUF key type") else
  if String.eqb (Private (KeyValue key)) "" then Err (ErrMsg "TUF key is missing private material") else
  match hex_DecodeString (Private (KeyValue key)) with
  | Err e => Err (ErrWrap "invalid ed25519 private key encoding" e)
  | Ok seed =>
      priv ← ed25519_private seed;
      let pub := private_Public priv in
      i ← tufKeyID pub;
      mret {| sg_Id := i; keyType := tufKeyTypeEd25519; private := priv; public := pub |}
  end.
Definition PrivateAtsKey (s : Signer) : AtsKey :=
  {| KeyType := keyType s; KeyValue := {| Private := hex (private_Seed (private s)); Public := hex (public s) |} |}.
Definition PublicAtsKey (s : Signer) : AtsKey :=
  {| KeyType := keyType s; KeyValue := {| Private := ""; Public := hex (public s) |} |}.
Definition Signer_Sign {A} `{Canonical A} (s : Signer) (signed : A) : result Signature :=
  match cjson_Encode signed with
  | Err e => Err (ErrWrap "unable to marshal canonical JSON" e)
  | Ok msg => Ok {| KeyID := sg_Id s; Method := SigEd25519; sig_Signature := ed_sign (private s) msg |}
  end.
Definition MarshalMeta {A} `{Canonical A} (v : A) (version : Z) : result (string * MetaItem) :=
  match cjson_Encode v with
  | Err e => Err e
  | Ok b => Ok (b, {| mi_Version := version; mi_Length := len b; mi_Hashes := {["sha256" := sha256 b]} |})
  end.

(** ** tuf_import.go *)

Definition tufKeyTypeRSA := "RSA".
(** [crypto.Signer] and its options: an ed25519 key that signs the message, or
    an RSA key that signs its SHA-256 digest. *)
Inductive import_key := ImportEd25519 (priv : string) | ImportRSA (priv : string).
Record ImportSigner := { is_Id : string; is_method : string; is_signer : import_key }.

Context `{Rsa, CertCodec}.
Definition rsaKeyID (priv : string) : result string :=
  match pkix_rsa priv with
  | Err e => Err (ErrWrap "unable to marshal public key" e)
  | Ok der => Ok (sha256_hex der)
  end.
Definition ImportSignerFromAtsKey (key : AtsKey) : result ImportSigner :=
  if String.eqb (Private (KeyValue key)) "" then Err (ErrMsg "TUF key is missing private material") else
  if String.eqb (KeyType key) tufKeyTypeEd25519 then
    match hex_DecodeString (Private (KeyValue key)) with
    | Err e => Err (ErrWrap "invalid ed25519 private key encoding" e)
    | Ok seed =>
        priv ← ed25519_private seed;
        i ← tufKeyID (private_Public priv);
        mret {| is_Id := i; is_method := SigEd25519; is_signer := ImportEd25519 priv |}
    end
  else if String.eqb (KeyType key) tufKeyTypeRSA then
    match pem_decode (Private (KeyValue key)) with
    | None => Err (ErrMsg "unable to decode RSA private key PEM")
    | Some (block, _) =>
        match ParsePKCS1PrivateKey block with
        | Err e => Err (ErrWrap "unable to parse RSA private key" e)
        | Ok priv =>
            i ← rsaKeyID priv;
            mret {| is_Id := i; is_method := SigRsaPssSha256; is_signer := ImportRSA priv |}
        end
    end
  else Err (ErrMsg "unsupported TUF key type").
Definition ImportSigner_Sign {A} `{Canonical A} (s : ImportSigner) (signed : A) : IO Signature :=
  msg ← wrap "unable to marshal canonical JSON" (lift (cjson_Encode signed));
  sg ← match is_signer s with
       | ImportEd25519 priv => mret (ed_sign priv msg)
       | ImportRSA priv => draw ← rand_Read 32; wrap "unable to sign metadata" (lift (rsa_sign_pss draw priv (sha256 msg)))
       end;
  mret {| KeyID := is_Id s; Method := is_method s; sig_Signature := sg |}.
End Signers.

(** ** Theory *)

Lemma str_drop_all_len a b : len a = 32 -> str_drop 32 (a +:+ b) = b.
Proof. intros Ha. replace 32%nat with (String.length a) by (unfold len in Ha; lia). apply str_drop_app. Qed.
Lemma str_take_all_len a b : len a = 32 -> str_take 32 (a +:+ b) = a.
Proof. intros Ha. replace 32%nat with (String.length a) by (unfold len in Ha; lia). apply str_take_app_exact. Qed.

Lemma hex_digit_value_char d : 0 <= d < 16 -> hex_digit_value (digit_char d) = Some d.
Proof.
  intros H. unfold hex_digit_value. rewrite char_digit_char by lia. by rewrite (proj2 (Z.ltb_lt _ _)) by lia.
Qed.
(** Decoding what was encoded. *)
Lemma hex_DecodeString_hex s : hex_DecodeString (hex s) = Ok s.
Proof.
  induction s as [|c s IH]; [done|]. cbn [hex]. unfold hex_byte.
  set (n := Z.of_nat (nat_of_ascii c)). assert (0 <= n < 256) by (subst n; pose proof (nat_ascii_bounded c); lia).
  change (String ?a (str1 ?b) +:+ hex s) with (String a (String b (hex s))). cbn [hex_DecodeString].
  rewrite !hex_digit_value_char by (first [apply Z.mod_pos_bound; lia|split; [apply Z.div_pos; lia|apply Z.div_lt_upper_bound; lia]]).
  rewrite IH. cbn [mbind result_bind]. rewrite <-Z.div_mod by lia. subst n. by rewrite Nat2Z.id, ascii_nat_embedding.
Qed.

Section SignerTheory.
Context `{Digest, Ed25519, !Ed25519Laws}.

(** A usable online signer: an ed25519 key with the identifier of its public part. *)
Definition signer_ok (s : Signer) : Prop :=
  keyType s = tufKeyTypeEd25519 ∧ tufKeyID (public s) = Ok (sg_Id s) ∧
  ∃ seed, len seed = 32 ∧ private s = NewKeyFromSeed seed ∧ public s = ed_public seed.

Lemma NewSigner_ok w s w' : NewSigner w = (Ok s, w') -> signer_ok s.
Proof.
  unfold NewSigner. intros E. minv E. minv E. minv E. destruct (rand_Read_len 32 w v st) as [Hl _]; [done|].
  unfold signer_ok. cbn [keyType public sg_Id private]. unfold private_Public, NewKeyFromSeed in *.
  rewrite str_drop_all_len in * by done. minv E1. eauto 10.
Qed.
(** Storing a signer's key and reading it back gives the signer. *)
Lemma SignerFromAtsKey_Private s : signer_ok s -> SignerFromAtsKey (PrivateAtsKey s) = Ok s.
Proof.
  destruct s as [i k priv pub]. intros (Hk & Hi & seed & Hl & Hp & Hpub). cbn [sg_Id keyType private public] in *. subst.
  unfold SignerFromAtsKey, PrivateAtsKey. cbn [KeyType KeyValue Private keyType private public].
  unfold private_Seed, NewKeyFromSeed, private_Public. rewrite str_take_all_len by done.
  change (String.eqb tufKeyTypeEd25519 tufKeyTypeEd25519) with true. cbn [negb].
  destruct (String.eqb_spec (hex seed) "") as [Hz|_].
  { apply (f_equal String.length) in Hz. rewrite hex_length in Hz. unfold len in Hl. simpl in Hz. lia. }
  rewrite hex_DecodeString_hex. unfold ed25519_private. rewrite Hl. cbn [Z.eqb Pos.eqb mbind result_bind].
  unfold NewKeyFromSeed. rewrite str_drop_all_len by done. by rewrite Hi.
Qed.
Lemma Signer_Sign_verifies {A} `{Canonical A} s (v : A) sg msg :
  signer_ok s -> cjson_Encode v = Ok msg -> Signer_Sign s v = Ok sg ->
  KeyID sg = sg_Id s ∧ Method sg = SigEd25519 ∧ ed_verify (public s) msg (sig_Signature sg) = true.
Proof.
  intros (_ & _ & seed & Hl & Hp & Hpub) Hm. unfold Signer_Sign. rewrite Hm. intros [= <-].
  cbn [KeyID Method sig_Signature]. rewrite Hp, Hpub. split_and!; [done..|]. by apply ed_correct.
Qed.
End SignerTheory.
