(* ===== verification/FsHandles.v ===== *)
(** The storage handles over the base file operations: per-device files
    (storage/file_devices.go), certificates (storage/file_certs.go), the
    authentication settings (storage/file_auth_config.go), audit logs
    (storage/file_audit.go) and branding (storage/file_branding.go). *)
From S2P Require Import Prelude GoStrings GoPath Schema World BaseFs Crypto.

(** ** DevicesFsHandle *)
Definition ConfigAppliedFile := "config-applied".
Definition AktomlFile := "aktoml".
Definition HwInfoFile := "hardware-info".
Definition NetInfoFile := "network-info".
Definition EventsPrefix := "events".
Definition StatesPrefix := "apps-states".
Definition TestsPrefix := "tests".
Definition TestArtifactsPrefix := "test-artifacts".

Definition dev_localHandle (root uuid : string) (forUpdate : bool) : IO string :=
  let h := filepath_Join [root; uuid] in
  (if forUpdate then wrap "unable to create file storage for device" (mkdirs h true) else mret tt);;
  mret h.
Definition Devices_Delete (root uuid : string) : IO unit :=
  h ← dev_localHandle root uuid false;
  r ← try (os_RemoveAll h);
  match r with
  | Err err => if errors_Is err ErrNotExist then mret tt
               else fail (ErrWrap "error deleting file storage for device" err)
  | Ok _ => mret tt
  end.
Definition Devices_ReadFileStream (root uuid name : string) : IO string :=
  h ← dev_localHandle root uuid false; os_ReadFile (filepath_Join [h; name]).
Definition Devices_ReadFile (root uuid name : string) : IO string :=
  h ← dev_localHandle root uuid false;
  wrap "unexpected error reading file" (readFile h name true).
Definition Devices_WriteFile (root uuid name content : string) : IO unit :=
  h ← dev_localHandle root uuid true;
  wrap "error writing file" (writeFile h name content defaultFileAccess).
Definition Devices_WriteFileStream (root uuid name src : string) : IO unit :=
  h ← dev_localHandle root uuid true;
  wrap "error writing file stream" (writeFileStream h name src 420).
Definition Devices_AppendFile (root uuid name content : string) : IO unit :=
  h ← dev_localHandle root uuid true;
  wrap "error writing file" (appendFile h name content defaultFileAccess).
Definition Devices_ListFiles (root uuid prefix : string) (sortByModTime : bool) : IO (list string) :=
  h ← dev_localHandle root uuid false;
  wrap "error listing files" (matchFiles h prefix sortByModTime).
Definition Devices_RolloverFiles (root uuid prefix : string) (max : nat) : IO unit :=
  h ← dev_localHandle root uuid true;
  wrap "error rolling over files" (rolloverFiles h prefix max).

(** ** CertsFsHandle *)
Definition CertsCasPemFile := "cas.pem".
Definition CertsTlsCsrFile := "tls.csr".
Definition CertsTlsKeyFile := "tls.key".
Definition CertsTlsPemFile := "tls.crt".
Definition CertsRootKeyFile := "root.key".
Definition CertsRootPemFile := "root.crt".
Definition CertsDeviceCaKeyFile := "device-ca.key".
Definition CertsDeviceCaPemFile := "device-ca.crt".

Definition Certs_FilePath (root name : string) : string := filepath_Join [root; name].
Definition Certs_ReadFile (root name : string) : IO string :=
  wrap "error reading file" (readFile root name false).
Definition Certs_WriteFile (root name content : string) : IO unit :=
  let fileAccess := if HasSuffix name ".key" then secureFileAccess else defaultFileAccess in
  wrap "error writing file" (writeFile root name content fileAccess).
Definition assertClean (root : string) (names : list string) : IO unit :=
  forM names (λ name,
    r ← try (os_Stat (filepath_Join [root; name]));
    match r with
    | Ok _ => fail (ErrWrap "a certificate file already exists" ErrExist)
    | Err err => if negb (errors_Is err ErrNotExist)
                 then fail (ErrWrap "failed to check if a certificate file exists" err) else mret tt
    end).
Definition AssertCleanTls (root : string) : IO unit :=
  assertClean root [CertsTlsCsrFile; CertsTlsKeyFile; CertsTlsPemFile].
Definition AssertCleanPki (root : string) : IO unit :=
  assertClean root [CertsTlsCsrFile; CertsTlsKeyFile; CertsTlsPemFile; CertsRootKeyFile;
    CertsRootPemFile; CertsDeviceCaKeyFile; CertsDeviceCaPemFile; CertsCasPemFile].

(** ** AuthFsHandle *)
Definition AuthConfigFile := "auth-config.json".
Definition HmacFile := "hmac.secret".

Record RateLimitConfig := {
  AttemptsPerSecond : Z; AttemptsBlockDurationSec : Z; BadAuthLimit : Z; BadAuthBlockDurationSec : Z
}.
Record AuthConfig := {
  AuthType : string; SessionTimeoutHours : Z; MaxTokenLifetimeDays : Z;
  NewUserDefaultScopes : list string; RateLimits : RateLimitConfig; AuthRawConfig : string
}.

(** [secret] stands for the 64 random bytes. *)
Definition InitHmacSecret (root secret : string) : IO unit :=
  r ← try (readFile root HmacFile false);
  match r with
  | Ok _ => fail (ErrMsg "hmac secret exists")
  | Err _ => wrap "storing HMAC secret" (writeFile root HmacFile secret secureFileAccess)
  end.
Definition GetHmacSecret (root : string) : IO string := readFile root HmacFile false.

Section AuthConfigIO.
Context `{JSON AuthConfig}.
Definition GetAuthConfig (root : string) : IO AuthConfig :=
  contents ← readFile root AuthConfigFile false;
  match json_Unmarshal contents with
  | Err err => fail (ErrWrap "unable to unmarshall auth config" err)
  | Ok cfg =>
      mret (if SessionTimeoutHours cfg =? 0
            then {| AuthType := AuthType cfg; SessionTimeoutHours := 48;
                    MaxTokenLifetimeDays := MaxTokenLifetimeDays cfg;
                    NewUserDefaultScopes := NewUserDefaultScopes cfg;
                    RateLimits := RateLimits cfg; AuthRawConfig := AuthRawConfig cfg |}
            else cfg)
  end.
Definition SaveAuthConfig (root : string) (cfg : AuthConfig) : IO unit :=
  wrap "storing auth config" (writeFile root AuthConfigFile (json_Marshal cfg) defaultFileAccess).
End AuthConfigIO.

(** ** AuditLogsFsHandle: failures are logged and dropped *)
Definition audit_file (userid : Z) : string := "users-" +:+ Itoa userid.
Definition AppendEvent `{TimeFormat} (root : string) (userid : Z) (event : string) : IO unit :=
  now ← time_now_ms;
  let msg := rfc3339 now +:+ ": " +:+ event +:+ str1 (byte 10) in
  ignore (appendFile root (audit_file userid) msg defaultFileAccess).
Definition ReadEvents (root : string) (userid : Z) : IO string :=
  wrap "reading audit log" (readFile root (audit_file userid) false).

(** ** Branding *)
Definition FsConfig_BrandingDir (c : string) : string := filepath_Join [c; BrandingDir].
Definition BrandingConfigFile := "branding.json".
(** An absent file is not an error: [None] stands for the nil slice. *)
Definition ReadBrandingConfig (c : string) : IO (option string) :=
  r ← try (os_ReadFile (filepath_Join [FsConfig_BrandingDir c; BrandingConfigFile]));
  match r with
  | Ok data => mret (Some data)
  | Err err => if errors_Is err ErrNotExist then mret None else fail err
  end.

(** ** Theory *)

Lemma fs_only_AppendEvent `{TimeFormat} root uid ev : keeps fs_only (AppendEvent root uid ev) any.
Proof. unfold AppendEvent, time_now_ms. keeps_auto. Qed.
Lemma AppendEvent_ok `{TimeFormat} root uid ev w : ∃ w', AppendEvent root uid ev w = (Ok tt, w') ∧ fs_only w w'.
Proof.
  destruct (AppendEvent root uid ev w) as [r w'] eqn:E. exists w'.
  assert (r = Ok tt) as ->.
  { unfold AppendEvent, time_now_ms in E. minv E. by minv E. }
  split; [done|]. by apply fs_only_AppendEvent in E as [? _].
Qed.
#[export] Hint Resolve fs_only_AppendEvent : keeps.
