(* ===== verification/TufFs.v ===== *)
(** storage/file_tuf.go and storage/file_tuf_import.go: the TUF keys and
    metadata kept on disk, their initialization, and the migration from another
    setup. *)
From S2P Require Import Prelude GoStrings Bytes GoPath Schema World BaseFs Crypto Tar Updates FsHandles Tuf.

(** What json.MarshalIndent produces decodes like any JSON. *)
Class JSONIndent (A : Type) := { json_MarshalIndent : A -> string }.
Class JSONIndentLaws (A : Type) `{JSON A, JSONIndent A} := {
  json_indent_roundtrip a : json_Unmarshal (json_MarshalIndent a) = Ok a
}.
(** golang.org/x/crypto/hkdf and AES-256-GCM. *)
Class KeyEncryption := {
  hkdf_read : string -> string -> string -> string;            (* secret, salt, info: the first 32 bytes *)
  gcm_Seal : string -> string -> string -> string;             (* key, nonce, plaintext *)
  gcm_Open : string -> string -> string -> result string       (* key, nonce, ciphertext *)
}.
Class KeyEncryptionLaws `{KeyEncryption} := {
  hkdf_read_length s t i : len (hkdf_read s t i) = 32;
  gcm_open_seal k n p : gcm_Open k n (gcm_Seal k n p) = Ok p
}.

Definition tufKeysDir := "keys".
Definition tufDefaultDir := "default".
Definition rootJsonSuffix := ".root.json".
Definition hkdfKeyEncSalt := "tuf-key-encryption-v1".
Definition tufRoles : list RoleName := [RoleRoot; RoleTargets; RoleSnapshot; RoleTimestamp].

(** The handle: its directories, the validity periods (milliseconds), and the
    signers that LoadTuf has loaded. *)
Record TufFsHandle := {
  tuf_root : string; tuf_auth : string; tuf_updates : string;
  RootExpiration : Z; TimestampExpiration : Z; TargetsExpiration : Z;
  signers : gmap string Signer
}.
Definition hour_ms : Z := 3600 * 1000.
Definition tuf_init (root auth updates : string) : TufFsHandle :=
  {| tuf_root := root; tuf_auth := auth; tuf_updates := updates;
     RootExpiration := 20 * 365 * 24 * hour_ms; TimestampExpiration := 7 * 24 * hour_ms;
     TargetsExpiration := 90 * 24 * hour_ms; signers := ∅ |}.
(** [clock.Now().UTC().Add(d).Truncate(time.Second)]. *)
Definition expires_in (d : Z) : IO Z := gets (λ w, (clock w + d) / 1000 * 1000).

(** ** Key files *)

Section KeyFiles.
Context `{KeyEncryption, JSON AtsKey, Digest, Ed25519}.

Definition deriveKeyEncryptionKey (hmacSecret : string) (role : RoleName) : string :=
  hkdf_read hmacSecret hkdfKeyEncSalt role.
(** aes.NewCipher accepts keys of three sizes. *)
Definition aes_NewCipher (key : string) : result unit :=
  if (len key =? 16) || (len key =? 24) || (len key =? 32) then Ok tt else Err (ErrMsg "crypto/aes: invalid key size").
Definition gcm_NonceSize : Z := 12.
Definition encryptBytes (key plaintext : string) : IO string :=
  _ ← lift (aes_NewCipher key);
  nonce ← rand_Read 12;
  mret (nonce +:+ gcm_Seal key nonce plaintext).
Definition decryptBytes (key data : string) : result string :=
  _ ← aes_NewCipher key;
  if len data <? gcm_NonceSize then Err (ErrMsg "ciphertext too short") else
  gcm_Open key (str_take 12 data) (str_drop 12 data).

Definition keysDir (h : TufFsHandle) : string := filepath_Join [tuf_root h; tufKeysDir].
Definition keyPath (h : TufFsHandle) (role : RoleName) : string := filepath_Join [keysDir h; role +:+ ".key"].
Definition writeKey (h : TufFsHandle) (hmacSecret : string) (role : RoleName) (signer : Signer) : IO unit :=
  let plaintext := json_Marshal (PrivateAtsKey signer) in
  let encKey := deriveKeyEncryptionKey hmacSecret role in
  ciphertext ← wrap "unable to encrypt key" (encryptBytes encKey plaintext);
  wrap "unable to store key" (writeFile (keysDir h) (role +:+ ".key") ciphertext secureFileAccess).
Definition readKey (h : TufFsHandle) (hmacSecret : string) (role : RoleName) : IO Signer :=
  ciphertext ← wrap "unable to read key" (readFile (keysDir h) (role +:+ ".key") false);
  let encKey := deriveKeyEncryptionKey hmacSecret role in
  plaintext ← wrap "unable to decrypt key" (lift (decryptBytes encKey ciphertext));
  key ← wrap "unable to parse key" (lift (json_Unmarshal plaintext));
  lift (SignerFromAtsKey key).
End KeyFiles.

(** ** Root metadata *)

Definition rootVersion (name : string) : Z := default 0 (Atoi (TrimSuffix name rootJsonSuffix)).
Definition root_name (version : Z) : string := Itoa version +:+ rootJsonSuffix.
Definition rootMetaNames (h : TufFsHandle) : IO (list string) :=
  r ← try (os_ReadDir (tuf_root h));
  match r with
  | Err err => if errors_Is err ErrNotExist then mret []
               else fail (ErrWrap "unable to list TUF directory" err)
  | Ok entries =>
      files ← gets (λ w, List.filter (λ n, negb (is_dir w (filepath_Join [tuf_root h; n])) &&
                                           HasSuffix n rootJsonSuffix) entries);
      mret (sort_by (λ a b, wrap64 (rootVersion a - rootVersion b)) files)
  end.
Definition isInitialized (h : TufFsHandle) : IO bool :=
  r ← try (os_Stat (keyPath h RoleRoot));
  match r with
  | Err _ => mret false
  | Ok _ => r ← try (rootMetaNames h); mret (match r with Ok (_ :: _) => true | _ => false end)
  end.
Definition ReadRoot (h : TufFsHandle) (version : Z) : IO string :=
  name ← (if version <=? 0 then
            names ← rootMetaNames h;
            match names with
            | [] => fail (ErrWrap "no root metadata found" ErrNotExist)
            | _ => mret (List.last names "")
            end
          else mret (root_name version));
  wrap "unable to read root metadata" (readFile (tuf_root h) name false).
(** TufFsHandle.ReadDefaultMeta, for the directory of the handle. *)
Definition ReadDefaultMeta (root name : string) : IO string :=
  if HasSuffix name rootJsonSuffix then readFile root name false
  else readFile (filepath_Join [root; tufDefaultDir]) name false.
(** TufFsHandle.ReadTufMeta, for the directory of the updates. *)
Definition ReadTufMeta {A} `{JSON A} (updates update name : string) : IO A :=
  content ← Updates_ReadFile updates UpdatesTufDir update name;
  wrap "unable to parse metadata of update" (lift (json_Unmarshal content)).
Definition WriteTimestamp (h : TufFsHandle) (update ts : string) : IO unit :=
  Updates_WriteFile (tuf_updates h) UpdatesTufDir update TufTimestampFile ts.

(** Write one file after the other, stopping at the first failure. *)
Definition write_metas (dir msg : string) (targets snapshot timestamp : string) : IO unit :=
  forM [(TufTargetsFile, targets); (TufSnapshotFile, snapshot); (TufTimestampFile, timestamp)]
    (λ pair, wrap msg (writeFile dir pair.1 pair.2 defaultFileAccess)).
Definition WriteMeta (h : TufFsHandle) (tufDir targets snapshot timestamp : string) : IO unit :=
  wrap "unable to create TUF directory" (mkdirs tufDir true);;
  names ← wrap "unable to list root metadata" (rootMetaNames h);
  forM names (λ name,
    wrap "unable to link into update directory"
      (os_Link (filepath_Join [tuf_root h; name]) (filepath_Join [tufDir; name])));;
  write_metas tufDir "unable to write" targets snapshot timestamp.

Section TufFs.
Context `{KeyEncryption, JSON AtsKey, Digest, Ed25519, JSON AtsTufRoot, JSONIndent AtsTufRoot}.
Context `{Canonical RootMeta, Canonical TargetsMeta, Canonical MetaMeta, Canonical AtsTufTargets, Canonical AtsTufMeta}.

Definition GetRoots (h : TufFsHandle) : IO (list AtsTufRoot) :=
  names ← rootMetaNames h;
  mapM_M (λ name,
    content ← wrap "unable to read root metadata" (readFile (tuf_root h) name false);
    wrap "unable to parse root metadata" (lift (json_Unmarshal content))) names.
Definition writeRoot (h : TufFsHandle) (root : AtsTufRoot) : IO unit :=
  let data := json_MarshalIndent root in
  wrap "unable to create TUF directory" (mkdirs (tuf_root h) true);;
  wrap "unable to write root metadata"
    (writeFile (tuf_root h) (root_name (Version (rm_Common (root_Signed root)))) data defaultFileAccess).

Definition Enabled (h : TufFsHandle) : bool := (0 <? Z.of_nat (size (signers h))).
Definition Sign {A} `{Canonical A} (h : TufFsHandle) (role : RoleName) (v : A) : result Signature :=
  if negb (Enabled h) then Err (ErrMsg "TUF signing not available: call LoadTuf first") else
  match signers h !! role with
  | None => Err (ErrMsg "no signer loaded for TUF role")
  | Some signer => Signer_Sign signer v
  end.

(** The three documents of an update (or of no update): the targets, a snapshot
    that refers to them, and a timestamp that refers to the snapshot, each
    signed with its role's key and encoded. *)
Definition sign_with {A} `{Canonical A} (sgs : gmap string Signer) (role : RoleName) (v : A) : result Signature :=
  match sgs !! role with
  | None => Err (ErrPanic "nil pointer dereference")
  | Some s => Signer_Sign s v
  end.
Definition writeDefaultMeta (h : TufFsHandle) (sgs : gmap string Signer) (expires : Z) : IO unit :=
  let signed := {| tm_Common := {| sc_Type := TufType RoleTargets; Version := 1; Expires := expires |}; Targets := ∅ |} in
  sig ← wrap "unable to sign default targets metadata" (lift (sign_with sgs RoleTargets signed));
  t ← wrap "unable to marshal default targets metadata"
        (lift (MarshalMeta {| targets_Signatures := [sig]; targets_Signed := signed |} 1));
  let ss := {| mm_Common := {| sc_Type := TufType RoleSnapshot; Version := 1; Expires := expires |};
               Meta := {[TufTargetsFile := t.2]} |} in
  sig ← wrap "unable to sign default snapshot metadata" (lift (sign_with sgs RoleSnapshot ss));
  s ← wrap "unable to marshal default snapshot metadata"
        (lift (MarshalMeta {| meta_Signatures := [sig]; meta_Signed := ss |} 1));
  let ts := {| mm_Common := {| sc_Type := TufType RoleTimestamp; Version := 1 * 1000; Expires := expires |};
               Meta := {[TufSnapshotFile := s.2]} |} in
  sig ← wrap "unable to sign default timestamp metadata" (lift (sign_with sgs RoleTimestamp ts));
  z ← wrap "unable to marshal default timestamp metadata"
        (lift (MarshalMeta {| meta_Signatures := [sig]; meta_Signed := ts |} (1 * 1000)));
  let dir := filepath_Join [tuf_root h; tufDefaultDir] in
  wrap "unable to create default TUF directory" (mkdirs dir true);;
  write_metas dir "unable to write default metadata" t.1 s.1 z.1.

(** A fresh signer for each role, its key stored. *)
Fixpoint generate_signers (h : TufFsHandle) (hmacSecret : string) (roles : list RoleName) (sgs : gmap string Signer)
  : IO (gmap string Signer) :=
  match roles with
  | [] => mret sgs
  | role :: roles' =>
      signer ← wrap "unable to generate key" NewSigner;
      writeKey h hmacSecret role signer;;
      generate_signers h hmacSecret roles' (<[role := signer]> sgs)
  end.
(** The keys and roles that name the signers. *)
Definition root_keys (sgs : gmap string Signer) : gmap string AtsKey :=
  foldl (λ m role, match sgs !! role with Some s => <[sg_Id s := PublicAtsKey s]> m | None => m end) ∅ tufRoles.
Definition root_roles (sgs : gmap string Signer) : gmap string RootRole :=
  foldl (λ m role, match sgs !! role with
                   | Some s => <[role := {| KeyIDs := [sg_Id s]; Threshold := 1 |}]> m | None => m end) ∅ tufRoles.
Definition new_root (sgs : gmap string Signer) (version expires : Z) : RootMeta :=
  {| rm_Common := {| sc_Type := TufType RoleRoot; Expires := expires; Version := version |};
     ConsistentSnapshot := false; Keys := root_keys sgs; Roles := root_roles sgs |}.

Definition read_secret (h : TufFsHandle) (hint : string) : IO string :=
  hmacSecret ← wrap ("unable to read HMAC secret" +:+ hint) (GetHmacSecret (tuf_auth h));
  if len hmacSecret =? 0 then fail (ErrMsg "HMAC secret is empty") else mret hmacSecret.
Definition InitTuf (h : TufFsHandle) : IO unit :=
  init ← isInitialized h;
  if init : bool then fail ErrTufAlreadyInitialized else
  hmacSecret ← read_secret h " (run auth-init first)";
  wrap "unable to create TUF keys directory" (os_MkdirAll (keysDir h));;
  sgs ← generate_signers h hmacSecret tufRoles ∅;
  expires ← expires_in (RootExpiration h);
  let signed := new_root sgs 1 expires in
  sig ← wrap "unable to sign root metadata" (lift (sign_with sgs RoleRoot signed));
  writeRoot h {| root_Signatures := [sig]; root_Signed := signed |};;
  writeDefaultMeta h sgs expires.

(** The handle with the signers loaded. *)
Fixpoint read_signers (h : TufFsHandle) (hmacSecret : string) (roles : list RoleName) (sgs : gmap string Signer)
  : IO (gmap string Signer) :=
  match roles with
  | [] => mret sgs
  | role :: roles' =>
      signer ← readKey h hmacSecret role;
      read_signers h hmacSecret roles' (<[role := signer]> sgs)
  end.
Definition with_signers (sgs : gmap string Signer) (h : TufFsHandle) : TufFsHandle :=
  {| tuf_root := tuf_root h; tuf_auth := tuf_auth h; tuf_updates := tuf_updates h;
     RootExpiration := RootExpiration h; TimestampExpiration := TimestampExpiration h;
     TargetsExpiration := TargetsExpiration h; signers := sgs |}.
Definition LoadTuf (h : TufFsHandle) : IO TufFsHandle :=
  init ← isInitialized h;
  if negb init then fail ErrTufNotInitialized else
  hmacSecret ← read_secret h "";
  sgs ← read_signers h hmacSecret tufRoles ∅;
  mret (with_signers sgs h).

(** ** file_tuf_import.go *)

Record importedRoot := { raw : string; imp_root : AtsTufRoot }.
Definition imp_version (i : importedRoot) : Z := Version (rm_Common (root_Signed (imp_root i))).

Context `{Rsa, CertCodec}.

Fixpoint findFirstRootSigner (keyIDs : list string) (candidateKeys : list AtsKey) : result ImportSigner :=
  match candidateKeys with
  | [] => Err (ErrMsg "unable to find root key signer")
  | key :: rest =>
      match ImportSignerFromAtsKey key with
      | Err _ => findFirstRootSigner keyIDs rest
      | Ok signer => if bool_decide (is_Id signer ∈ keyIDs) then Ok signer else findFirstRootSigner keyIDs rest
      end
  end.
(** Is every version from [idx + 1] on there? *)
Fixpoint versions_complete (idx : Z) (roots : list importedRoot) : bool :=
  match roots with
  | [] => true
  | r :: roots' => (idx + 1 =? imp_version r) && versions_complete (idx + 1) roots'
  end.
Definition importTuf (h : TufFsHandle) (roots : list importedRoot) (candidateKeys : list AtsKey) : IO unit :=
  hmacSecret ← read_secret h " (run auth-init first)";
  let roots := sort_by (λ a b, wrap64 (imp_version a - imp_version b)) roots in
  match last roots with
  | None => fail (ErrPanic "index out of range")
  | Some base =>
      if negb (versions_complete 0 roots) then fail (ErrMsg "missing root.json version") else
      let roles := Roles (root_Signed (imp_root base)) in
      let rootThresh := from_option Threshold 0 (roles !! RoleRoot) in
      if 1 <? rootThresh then fail (ErrMsg "the signature threshold for the root role must be 1") else
      match roles !! RoleRoot with
      | None => fail (ErrMsg "imported root.json has no root role")
      | Some oldRootRole =>
          oldSigner ← lift (findFirstRootSigner (KeyIDs oldRootRole) candidateKeys);
          wrap "unable to create TUF keys directory" (os_MkdirAll (keysDir h));;
          sgs ← generate_signers h hmacSecret tufRoles ∅;
          expires ← expires_in (RootExpiration h);
          let signed := new_root sgs (wrap64 (imp_version base + 1)) expires in
          newSigned ← wrap "unable to sign new root metadata" (lift (sign_with sgs RoleRoot signed));
          oldSigned ← wrap "unable to sign new root metadata with imported key" (ImportSigner_Sign oldSigner signed);
          wrap "unable to create TUF directory" (mkdirs (tuf_root h) true);;
          forM roots (λ imp, wrap "unable to write root metadata"
            (writeFile (tuf_root h) (root_name (imp_version imp)) (raw imp) defaultFileAccess));;
          writeRoot h {| root_Signatures := [newSigned; oldSigned]; root_Signed := signed |};;
          writeDefaultMeta h sgs expires
      end
  end.
Definition parse_root (data : string) : result importedRoot :=
  match json_Unmarshal data with
  | Err e => Err (ErrWrap "unable to parse root metadata" e)
  | Ok root =>
      if Z.of_nat (size (Roles (root_Signed root))) =? 0 then Err (ErrMsg "provided metadata does not look like a TUF root.json")
      else Ok {| raw := data; imp_root := root |}
  end.
Definition ImportTuf (h : TufFsHandle) (rootJSONs : list string) (candidateKeys : list AtsKey) : IO unit :=
  init ← isInitialized h;
  if init : bool then fail ErrTufAlreadyInitialized else
  if Z.of_nat (length rootJSONs) =? 0 then fail (ErrMsg "no root metadata was provided to import") else
  roots ← mapM_M (λ data, lift (parse_root data)) rootJSONs;
  importTuf h roots candidateKeys.
End TufFs.
