(* ===== verification/GatewayStorage.v ===== *)
(** storage/gateway: what the device-facing server does to a device's row and
    files: check-ins, events, application states, configurations, test
    results and the rotation of client certificates. *)
From S2P Require Import Prelude GoStrings GoPath Schema World BaseFs Crypto Models Tar Configs Updates FsHandles Tuf TufFs.

(** [FsHandle] and [Storage]: the data directory and the limits [NewStorage] sets. *)
Record GwStorage := { gw_root : string; maxEvents : nat; maxStates : nat }.
Definition NewGwStorage (root : string) : GwStorage := {| gw_root := root; maxEvents := 20; maxStates := 10 |}.

Record Device := mkDevice {
  Uuid : string; Apps : string; dv_Deleted : bool; GroupName : string; LastSeen : Z;
  OstreeHash : string; Cert : string; TargetName : string; Tag : string; UpdateName : string;
  groupNameModifiedAt : Z
}.

Section GatewayStorage.
Context `{Digest, TimeFormat, CertCodec, JSON DeviceUpdateEvent, JSON DeviceStatus,
          JSON AppliedConfigs, JSON (option (gmap string ConfigFile)), JSON TargetTest} (s : GwStorage).

Definition devices_root := FsConfig_DevicesDir (gw_root s).
Definition updates_root := FsConfig_UpdatesDir (gw_root s).
Definition configs_root := FsConfig_ConfigsDir (gw_root s).

(** ** Statements *)

Definition stmtDeviceCheckIn_run (uuid targetName tag ostreeHash apps : string) (lastSeen : Z) : IO unit :=
  sql_exec (λ d, with_devices (alter (λ r,
    DeviceRow (d_cert r) (d_deleted r) (d_created_at r) lastSeen tag (d_labels r) (d_update_name r)
      targetName ostreeHash apps (d_group_name_modified_at r)) uuid (devices d)) d).
Definition stmtDeviceCreate_run (uuid cert : string) (createdAt lastSeen : Z) : IO unit :=
  sql (λ d, match devices d !! uuid with
            | Some _ => (Err ErrDbConstraintUnique, d)
            | None => (Ok tt, with_devices (<[uuid := DeviceRow cert false createdAt lastSeen "" ∅ "" "" "" "" 0]>
                                              (devices d)) d)
            end).
Definition device_of (uuid : string) (r : device_row) : Device :=
  mkDevice uuid (d_apps r) (d_deleted r) (d_group_name r) (d_last_seen r) (d_ostree_hash r) (d_cert r)
    (d_target_name r) (d_tag r) (d_update_name r) (d_group_name_modified_at r).
Definition stmtDeviceGet_run (uuid : string) : IO Device :=
  sql_query (λ d, match devices d !! uuid with
                  | Some r => Ok (device_of uuid r)
                  | None => Err ErrNoRows
                  end).

(** The transaction: its statements work on a private copy of the database
    until the commit; leaving early rolls it back. *)
Definition insert_old_cert (currentHash nextHash : string) (expires : Z) (d : database) : result database :=
  let hash := match old_certs d !! nextHash with None => currentHash | Some _ => nextHash end in
  match old_certs d !! hash with
  | Some _ => Err ErrDbConstraintUnique
  | None => if negb (len hash =? 16) then Err (ErrMsg "CHECK constraint failed")
            else Ok (with_old_certs (<[hash := expires]> (old_certs d)) d)
  end.
Definition update_cert (uuid nextCert : string) (d : database) : database :=
  with_devices (alter (λ r,
    DeviceRow nextCert (d_deleted r) (d_created_at r) (d_last_seen r) (d_tag r) (d_labels r) (d_update_name r)
      (d_target_name r) (d_ostree_hash r) (d_apps r) (d_group_name_modified_at r)) uuid (devices d)) d.
Definition stmtDeviceRotateCert_run (uuid nextCert currentHash nextHash : string) (expires : Z) : IO unit :=
  syscall (mret tt);;
  d ← gets db;
  d1 ← syscall (lift (insert_old_cert currentHash nextHash expires d));
  d2 ← syscall (mret (update_cert uuid nextCert d1));
  sql_exec (λ _, d2).

(** ** Operations on a device *)

Definition GW_DeviceGet (uuid : string) : IO (option Device) :=
  r ← try (stmtDeviceGet_run uuid);
  match r with
  | Err e => if errors_Is e ErrNoRows then mret None else fail e
  | Ok d => mret (Some d)
  end.
Definition DeviceCreate (uuid cert : string) : IO Device :=
  now ← time_now_unix;
  stmtDeviceCreate_run uuid cert now now;;
  mret (mkDevice uuid "" false "" now "" cert "" "" "" 0).

(** Returns the in-memory device as it is left, with the outcome. *)
Definition CheckIn (d : Device) (targetName tag ostreeHash apps : string) : IO (Device * option error) :=
  now ← time_now_unix;
  if String.eqb apps (Apps d) && String.eqb ostreeHash (OstreeHash d) && String.eqb tag (Tag d) &&
     String.eqb targetName (TargetName d) && (wrap64 (now - LastSeen d) <? 60)
  then mret (d, None)
  else
    let d := mkDevice (Uuid d) apps (dv_Deleted d) (GroupName d) now ostreeHash (Cert d) targetName tag
               (UpdateName d) (groupNameModifiedAt d) in
    r ← try (stmtDeviceCheckIn_run (Uuid d) targetName tag ostreeHash apps now);
    mret (d, match r with Ok _ => None | Err e => Some e end).

Definition PutFile (d : Device) (name content : string) : IO unit :=
  Devices_WriteFile devices_root (Uuid d) name content.

Fixpoint process_events (d : Device) (corrId : string) (events : list DeviceUpdateEvent) : IO unit :=
  match events with
  | [] => Devices_RolloverFiles devices_root (Uuid d) EventsPrefix (maxEvents s)
  | evt :: events' =>
      let corrId' := CorrelationId (Event evt) in
      (if negb (String.eqb corrId "") && negb (String.eqb corrId corrId') then time_sleep 4 else mret tt);;
      Devices_AppendFile devices_root (Uuid d) (EventsPrefix +:+ "-" +:+ corrId')
        (json_Marshal evt +:+ str1 (byte 10));;
      (if (0 <? len (UpdateName d)) && (0 <? len (Tag d)) then
         let st := ParseStatus evt in
         let st := {| st_Uuid := Uuid d; st_CorrelationId := st_CorrelationId st;
                      st_TargetName := st_TargetName st; Status := Status st;
                      st_DeviceTime := st_DeviceTime st |} in
         Updates_AppendFile updates_root UpdatesLogsDir (UpdateName d) LogRolloutsFile
           (json_Marshal st +:+ str1 (byte 10))
       else mret tt);;
      process_events d corrId' events'
  end.
Definition ProcessEvents (d : Device) (events : list DeviceUpdateEvent) : IO unit :=
  process_events d "" events.

Definition RotateCert (d : Device) (current next : Certificate) : IO (Device * option error) :=
  now ← time_now_unix;
  let nextPEM := pem_cert (Raw next) in
  let expires := if NotAfter current <? now then now else NotAfter current in
  let currentHash := fnv128a (Raw current) in
  let nextHash := fnv128a (Raw next) in
  err1 ← try (stmtDeviceRotateCert_run (Uuid d) nextPEM currentHash nextHash expires);
  now_ms ← time_now_ms;
  let corrId := "certs-" +:+ Itoa (now_ms / 1000) in
  let event := {| Id := corrId; DeviceTime := rfc3339_utc now_ms;
                  Event := {| CorrelationId := corrId; Ecu := ""; Success := Some (is_Ok err1);
                              ev_TargetName := TargetName d; ev_Version := ""; Details := "" |};
                  EventType := {| EventTypeId := "CertRotationCompleted"; EventTypeVersion := 1 |} |} in
  ignore (ProcessEvents d [event]);;
  mret (match err1 with
        | Ok _ => (mkDevice (Uuid d) (Apps d) (dv_Deleted d) (GroupName d) (LastSeen d) (OstreeHash d) nextPEM
                     (TargetName d) (Tag d) (UpdateName d) (groupNameModifiedAt d), None)
        | Err e => (d, Some e)
        end).

Definition SaveAppsStates (d : Device) (content : string) : IO unit :=
  time_sleep 4;;
  now ← time_now_ms;
  Devices_WriteFile devices_root (Uuid d) (StatesPrefix +:+ "-" +:+ Itoa now) content;;
  Devices_RolloverFiles devices_root (Uuid d) StatesPrefix (maxStates s).
Definition GetAppsFilePath (d : Device) (file : string) : string :=
  Updates_FilePath updates_root UpdatesAppsDir (UpdateName d) file.
Definition SaveAppliedConfigs (d : Device) (cfg : AppliedConfigs) : IO unit :=
  Devices_WriteFile devices_root (Uuid d) ConfigAppliedFile (json_Marshal cfg).
Definition GetOstreeFilePath (d : Device) (file : string) : string :=
  Updates_FilePath updates_root UpdatesOstreeDir (UpdateName d) file.
Definition GetTufMeta (d : Device) (file : string) : IO string :=
  if len (UpdateName d) =? 0 then ReadDefaultMeta (FsConfig_TufDir (gw_root s)) file
  else Updates_ReadFile updates_root UpdatesTufDir (UpdateName d) file.

(** The newest configuration of one class, and the running timestamp. *)
Definition loadConfig (history : list ConfigFileSet) (timestamp : Z) : option ConfigFileSet * Z :=
  match history with
  | [] => (None, timestamp)
  | cfg :: _ => (Some cfg, if timestamp <? CreatedAt cfg then CreatedAt cfg else timestamp)
  end.
(** Factory, group and device configuration, and their latest modification time. *)
Definition GetConfigs (d : Device) : IO (option ConfigFileSet * option ConfigFileSet * option ConfigFileSet * Z) :=
  h0 ← ReadFactoryConfigHistory configs_root 1 true;
  let '(c0, t) := loadConfig h0 (groupNameModifiedAt d) in
  '(c1, t) ← (if 0 <? len (GroupName d)
              then h1 ← ReadGroupConfigHistory configs_root (GroupName d) 1 true; mret (loadConfig h1 t)
              else mret (None, t));
  h2 ← ReadDeviceConfigHistory configs_root (Uuid d) 1 true;
  let '(c2, t) := loadConfig h2 t in
  mret (c0, c1, c2, t).
(** A Go map, where [None] is the nil map ([null] in JSON). *)
Definition GetDeviceConfig (d : Device) : IO (option (gmap string ConfigFile)) :=
  history ← ReadDeviceConfigHistory configs_root (Uuid d) 1 true;
  match history with
  | [] => mret (Some ∅)
  | cfg :: _ => lift (json_Unmarshal (RawFiles cfg))
  end.
Definition SaveDeviceConfig (d : Device) (reason rawFiles : string) : IO unit :=
  WriteDeviceConfig configs_root (Uuid d) rawFiles "device" reason;;
  ignore (PurgeDeviceConfigHistory configs_root (Uuid d) ConfigHistoryLimit).

(** ** Test results (storage_fiotest.go) *)

Definition TestCreate (d : Device) (targetName testName testId : string) : IO unit :=
  now ← time_now_unix;
  let t := {| tt_Uuid := testId; tt_Name := testName; tt_TargetName := targetName; tt_Status := "RUNNING";
              CreatedOn := now; CompletedOn := None; tt_Details := ""; Artifacts := []; Results := [] |} in
  Devices_WriteFile devices_root (Uuid d) (TestsPrefix +:+ testId) (json_Marshal t).
Definition result_status_ok (r : TargetTestResult) : bool :=
  String.eqb (tr_Status r) "PASSED" || String.eqb (tr_Status r) "FAILED" || String.eqb (tr_Status r) "SKIPPED".
Definition TestComplete (d : Device) (testId status details : string) (results : list TargetTestResult) : IO unit :=
  if negb (String.eqb status "PASSED") && negb (String.eqb status "FAILED")
  then fail (ErrMsg "invalid test status") else
  bytes ← wrap "error reading test data" (Devices_ReadFile devices_root (Uuid d) (TestsPrefix +:+ testId));
  t ← wrap "error unmarshalling test data" (lift (json_Unmarshal bytes : result TargetTest));
  if negb (forallb result_status_ok results) then fail (ErrMsg "invalid test-result status") else
  now ← time_now_unix;
  let t := {| tt_Uuid := tt_Uuid t; tt_Name := tt_Name t; tt_TargetName := tt_TargetName t;
              tt_Status := status; CreatedOn := CreatedOn t; CompletedOn := Some now;
              tt_Details := details; Artifacts := Artifacts t; Results := results |} in
  wrap "failed to save completed test data"
    (Devices_WriteFile devices_root (Uuid d) (TestsPrefix +:+ testId) (json_Marshal t)).
Definition TestStoreArtifact (d : Device) (testId path body : string) : IO unit :=
  r ← try (Devices_ReadFile devices_root (Uuid d) (TestsPrefix +:+ testId));
  match r with
  | Err _ | Ok "" => fail (ErrMsg "test does not exist")
  | Ok _ =>
      let name := TestArtifactsPrefix +:+ "-" +:+ testId +:+ "_" +:+ path in
      _ ← wrap "invalid artifact path" (lift (AbsPathNoEscape "/" path));
      Devices_WriteFileStream devices_root (Uuid d) name body
  end.
End GatewayStorage.

(** ** Theory: check-ins *)
Section CheckInTheory.
(** A check-in with unchanged fields within a minute of the last one leaves
    the database alone; any other one stores the reported fields and the
    time, in the row and in memory, and no other column or row. *)
Theorem CheckIn_spec d targetName tag hash apps w row :
  faults w = [] -> devices (db w) !! Uuid d = Some row -> in_int64 (clock w / 1000 - LastSeen d) ->
  let now := clock w / 1000 in
  let same := apps = Apps d ∧ hash = OstreeHash d ∧ tag = Tag d ∧ targetName = TargetName d ∧ now - LastSeen d < 60 in
  (same -> CheckIn d targetName tag hash apps w = (Ok (d, None), w)) ∧
  (~ same -> ∃ d' w', CheckIn d targetName tag hash apps w = (Ok (d', None), w') ∧
     LastSeen d' = now ∧ Tag d' = tag ∧ TargetName d' = targetName ∧ OstreeHash d' = hash ∧ Apps d' = apps ∧
     Cert d' = Cert d ∧ GroupName d' = GroupName d ∧ UpdateName d' = UpdateName d ∧
     devices (db w') = <[Uuid d := DeviceRow (d_cert row) (d_deleted row) (d_created_at row) now tag (d_labels row)
        (d_update_name row) targetName hash apps (d_group_name_modified_at row)]> (devices (db w))).
Proof.
  intros Hf Hrow Hr now same. unfold CheckIn, time_now_unix.
  rewrite (bind_Ok (gets _) _ _ _ _ eq_refl). fold now. rewrite wrap64_small by done.
  assert ((String.eqb apps (Apps d) && String.eqb hash (OstreeHash d) && String.eqb tag (Tag d) &&
           String.eqb targetName (TargetName d) && (now - LastSeen d <? 60)) = true ↔ same) as Hs.
  { rewrite !andb_true_iff, !String.eqb_eq, Z.ltb_lt. unfold same. tauto. }
  split.
  - intros ->%Hs. done.
  - intros Hn. destruct (_ && _); [tauto|]. cbv zeta. unfold stmtDeviceCheckIn_run.
    erewrite bind_try by by apply sql_exec_run. do 2 eexists. split; [done|]. split_and!; try done.
    simpl. apply map_eq. intros k. destruct (decide (k = Uuid d)) as [->|Hk].
    + by rewrite lookup_alter_eq, Hrow, lookup_insert_eq.
    + by rewrite lookup_alter_ne, lookup_insert_ne.
Qed.
End CheckInTheory.

(** ** Theory: certificate rotation *)
Section Rotation.
Context {CC : CertCodec}.

Lemma rotate_inv uuid pem cur next exp w r w' :
  stmtDeviceRotateCert_run uuid pem cur next exp w = (r, w') ->
  match r with
  | Err _ => db w' = db w
  | Ok _ => old_certs (db w) !! next = None ∧ old_certs (db w) !! cur = None ∧
            db w' = update_cert uuid pem (with_old_certs (<[cur := exp]> (old_certs (db w))) (db w))
  end.
Proof.
  unfold stmtDeviceRotateCert_run. intros H.
  assert (∀ {A} (m : result A) w r w', syscall (lift m) w = (r, w') ->
    db w' = db w ∧ (∀ a, r = Ok a -> m = Ok a)) as Hsys.
  { intros A m w0 r0 w0' [(l & [= <- <-])|(e & l & -> & ->)]%syscall_inv; done. }
  minv H; [|by apply (Hsys unit (Ok tt)) in E as [-> _]].
  apply (Hsys unit (Ok tt)) in E as [E0 _]. minv H.
  minv H; [|apply Hsys in E as [-> _]; done]. apply Hsys in E as [E1 Hi]. specialize (Hi _ eq_refl).
  minv H; [|apply (Hsys database (Ok _)) in E as [-> _]; congruence].
  apply (Hsys database (Ok _)) in E as [E2 Hd]. specialize (Hd _ eq_refl). simplify_eq.
  unfold sql_exec in H. apply sql_inv in H as [(l & -> & ->)|(e & l & -> & ->)]; simpl; [|congruence].
  rewrite E0 in Hi. unfold insert_old_cert in Hi.
  destruct (old_certs (db w) !! next) as [x|] eqn:En; [by rewrite En in Hi|].
  destruct (old_certs (db w) !! cur) eqn:Ec; [done|]. destruct (negb _); [done|].
  split_and!; try done. congruence.
Qed.

(** Rotations of any devices, in any order and with any failures. *)
Record rotation := { ro_uuid : string; ro_current : Certificate; ro_next : Certificate; ro_expires : Z }.
Definition rotate (x : rotation) : IO unit :=
  ignore (stmtDeviceRotateCert_run (ro_uuid x) (pem_cert (Raw (ro_next x)))
    (fnv128a (Raw (ro_current x))) (fnv128a (Raw (ro_next x))) (ro_expires x)).

Definition retired (raw : string) (w : world) : Prop := is_Some (old_certs (db w) !! fnv128a raw).
Definition in_use (raw : string) (w : world) : Prop :=
  ∃ uuid row, devices (db w) !! uuid = Some row ∧ d_cert row = pem_cert raw.
Definition stays_retired (raw : string) (w w' : world) : Prop :=
  retired raw w -> retired raw w' ∧ (~ in_use raw w -> ~ in_use raw w').
#[local] Instance stays_retired_preorder raw : PreOrder (stays_retired raw).
Proof. split; unfold stays_retired; [by intros x|]. intros x y z H1 H2 Hx. naive_solver. Qed.

(** A certificate that some device was rotated away from is retired for
    good: as long as its hash is recorded, no sequence of rotations makes it
    the certificate of any device again. *)
Theorem retired_cert_never_returns raw xs w r w' :
  (∀ a b, pem_cert a = pem_cert b -> a = b) ->
  forM xs rotate w = (r, w') ->
  retired raw w -> ~ in_use raw w -> retired raw w' ∧ ~ in_use raw w'.
Proof.
  intros Hpem H Hret Hnot. enough (stays_retired raw w w') as Hs by (destruct (Hs Hret); auto).
  eapply (keeps_forM (R := stays_retired raw)); [|exact H]. clear -Hpem. intros x _ w r w' H.
  split; [|by destruct r]. unfold rotate in H. minv H. apply rotate_inv in H.
  destruct res as [[]|e]; [|intros Hr; unfold retired, in_use in *; rewrite H; done].
  destruct H as (Hn & Hc & Hdb). intros Hr. unfold retired, in_use in *. rewrite Hdb. simpl. split.
  - destruct (decide (fnv128a (Raw (ro_current x)) = fnv128a raw)) as [->|Hne].
    + by rewrite lookup_insert_eq.
    + by rewrite lookup_insert_ne.
  - intros Hnot (uuid & row & Hrow & Hcert). apply Hnot.
    destruct (decide (uuid = ro_uuid x)) as [->|Hne].
    + rewrite lookup_alter_eq in Hrow. apply fmap_Some in Hrow as (row0 & Hrow0 & ->). simpl in Hcert.
      apply Hpem in Hcert. rewrite <-Hcert, Hn in Hr. by destruct Hr.
    + rewrite lookup_alter_ne in Hrow by done. by exists uuid, row.
Qed.

(** One rotation retires the certificate it replaces, or changes nothing. *)
Theorem rotate_retires uuid cur next exp w r w' :
  stmtDeviceRotateCert_run uuid (pem_cert (Raw next)) (fnv128a (Raw cur)) (fnv128a (Raw next)) exp w = (r, w') ->
  match r with
  | Ok _ => ~ retired (Raw next) w ∧ ~ retired (Raw cur) w ∧ retired (Raw cur) w' ∧
            (∀ row, devices (db w) !! uuid = Some row ->
               ∃ row', devices (db w') !! uuid = Some row' ∧ d_cert row' = pem_cert (Raw next)) ∧
            (∀ u, u <> uuid -> devices (db w') !! u = devices (db w) !! u)
  | Err _ => db w' = db w
  end.
Proof.
  intros H%rotate_inv. destruct r as [u|e]; [|done]. destruct H as (Hn & Hc & Hdb).
  unfold retired. rewrite Hdb. simpl. rewrite Hn, Hc. split_and!.
  - by intros [].
  - by intros [].
  - by rewrite lookup_insert_eq.
  - intros row Hrow. rewrite lookup_alter_eq, Hrow. simpl. eauto.
  - intros v Hv. by rewrite lookup_alter_ne.
Qed.
End Rotation.

(** ** Theory: the artifact path check *)

(** The check of an artifact's path against the root directory never rejects,
    and the file it is then written to can be any file of any other device. *)
Theorem artifact_path_escapes root uuid victim file testId :
  dir_ok root -> name_ok uuid -> name_ok victim -> name_ok file -> no_char "/" testId = true ->
  let path := "/../../" +:+ victim +:+ "/" +:+ file in
  is_Ok (AbsPathNoEscape "/" path) = true ∧
  filepath_Join [filepath_Join [root; uuid]; TestArtifactsPrefix +:+ "-" +:+ testId +:+ "_" +:+ path] =
  root +:+ "/" +:+ victim +:+ "/" +:+ file.
Proof.
  intros Hr Hu Hv Hf Ht path. split.
  { by destruct (AbsPathNoEscape_top path) as [abs ->]. }
  set (a := TestArtifactsPrefix +:+ "-" +:+ testId +:+ "_").
  assert (name_ok a) as Ha.
  { unfold a. split_and!; try discriminate. rewrite !no_char_app, Ht. done. }
  rewrite (Join_entry root uuid) by done. set (dir := root +:+ "/" +:+ uuid).
  assert (dir_ok dir) as Hd by by apply entry_dir_ok.
  rewrite Join2 by auto with server.
  replace (TestArtifactsPrefix +:+ "-" +:+ testId +:+ "_" +:+ path)
    with (a +:+ "/" +:+ "../../" +:+ victim +:+ "/" +:+ file) by (unfold a, path; by rewrite !str_app_assoc).
  assert (dir_ok (root +:+ "/" +:+ victim +:+ "/" +:+ file)) as Hout.
  { pose proof (entry_dir_ok (root +:+ "/" +:+ victim) file) as H. rewrite !str_app_assoc in H.
    apply H; [by apply entry_dir_ok|done]. }
  apply comps_inj; [apply Clean_idemp|apply Hout| |].
  - rewrite rooted_Clean. unfold dir. rewrite !str_app_assoc, !(rooted_app root) by auto with server. done.
  - rewrite comps_Clean, comps_app by auto with server.
    rewrite Split_app_slash, (Split_no_char a) by apply Ha.
    change ("../../" +:+ victim +:+ "/" +:+ file) with (".." +:+ "/" +:+ ".." +:+ "/" +:+ victim +:+ "/" +:+ file).
    rewrite !Split_app_slash, (Split_no_char victim), (Split_no_char file) by (apply Hv || apply Hf).
    change (Split ".." slash) with [".."]. cbn [foldl app].
    rewrite (comp_step_name _ _ a), (comp_step_name _ _ victim), (comp_step_name _ _ file) by done.
    unfold dir. rewrite (comps_app_name root uuid) by auto with server.
    assert (comps (root +:+ "/" +:+ victim +:+ "/" +:+ file) = comps root ++ [victim; file]) as ->.
    { pose proof (comps_app_name (root +:+ "/" +:+ victim) file) as H. rewrite !str_app_assoc in H.
      rewrite H by (done || (apply dir_ok_nonempty; by apply entry_dir_ok)).
      rewrite comps_app_name by auto with server. by rewrite <-app_assoc. }
    rewrite comp_step_pop by apply Ha. rewrite reverse_app. change (reverse [uuid]) with [uuid]. cbn [app].
    rewrite comp_step_pop by apply Hu. rewrite !reverse_cons, reverse_involutive. by rewrite <-app_assoc.
Qed.
