(* ===== verification/ApiStorage.v ===== *)
(** storage/api/api_storage.go, api_storage_fiotest.go and api_storage_pki.go:
    what the operator-facing API does to devices, updates and rollouts. *)
From S2P Require Import Prelude GoStrings GoPath Schema World BaseFs Crypto Models Tar Configs Updates FsHandles Tuf TufFs.

Notation Labels := (gmap string string) (only parsing).

Inductive OrderBy :=
  | OrderByDeviceLastSeenDsc | OrderByDeviceLastSeenAsc | OrderByDeviceCreatedDsc | OrderByDeviceCreatedAsc
  | OrderByDeviceNameAsc | OrderByDeviceNameDesc | OrderByDeviceUuidAsc | OrderByDeviceUuidDesc.
(** The text of a query parameter; the empty one selects the default. *)
Definition orderBy_of (t : string) : option OrderBy :=
  if String.eqb t "" then Some OrderByDeviceLastSeenDsc
  else if String.eqb t "last-seen-desc" then Some OrderByDeviceLastSeenDsc
  else if String.eqb t "last-seen-asc" then Some OrderByDeviceLastSeenAsc
  else if String.eqb t "created-at-desc" then Some OrderByDeviceCreatedDsc
  else if String.eqb t "created-at-asc" then Some OrderByDeviceCreatedAsc
  else if String.eqb t "name-asc" then Some OrderByDeviceNameAsc
  else if String.eqb t "name-desc" then Some OrderByDeviceNameDesc
  else if String.eqb t "uuid-asc" then Some OrderByDeviceUuidAsc
  else if String.eqb t "uuid-desc" then Some OrderByDeviceUuidDesc
  else None.
(** [orderByDeviceMap]: the ORDER BY clauses as comparisons of rows. *)
Definition order_cmp (o : OrderBy) (a b : string * device_row) : Z :=
  let by_name (c : Z) (u : Z) :=
    let ea := String.eqb (d_name a.2) "" in let eb := String.eqb (d_name b.2) "" in
    if negb (Bool.eqb ea eb) then (if ea then 1 else -1)
    else if negb (c =? 0) then c else u in
  match o with
  | OrderByDeviceLastSeenDsc => d_last_seen b.2 - d_last_seen a.2
  | OrderByDeviceLastSeenAsc => d_last_seen a.2 - d_last_seen b.2
  | OrderByDeviceCreatedDsc => d_created_at b.2 - d_created_at a.2
  | OrderByDeviceCreatedAsc => d_created_at a.2 - d_created_at b.2
  | OrderByDeviceNameAsc => by_name (str_cmp (d_name a.2) (d_name b.2)) (str_cmp a.1 b.1)
  | OrderByDeviceNameDesc => by_name (str_cmp (d_name b.2) (d_name a.2)) (str_cmp b.1 a.1)
  | OrderByDeviceUuidAsc => str_cmp a.1 b.1
  | OrderByDeviceUuidDesc => str_cmp b.1 a.1
  end.

Record DeviceListOpts := { lo_OrderBy : string; Limit : Z; Offset : Z }.
Record DeviceListItem := {
  li_Uuid : string; li_CreatedAt : Z; li_LastSeen : Z; li_Target : string; li_Tag : string; li_Labels : gmap string string
}.
Record ApiDevice := {
  ad_item : DeviceListItem; ad_Apps : list string; ad_OstreeHash : string; ad_Cert : string;
  ad_UpdateName : string; Aktoml : string; HwInfo : string; NetInfo : string; ad_Status : option DeviceStatus
}.
Record Rollout := {
  ro_CreatedAt : Z; Uuids : list string; Groups : list string; Effect : list string; Commit : bool
}.
#[global] Instance Rollout_eq_dec : EqDecision Rollout.
Proof. solve_decision. Defined.
#[global] Program Instance Rollout_countable : Countable Rollout :=
  inj_countable' (λ r, (ro_CreatedAt r, Uuids r, Groups r, Effect r, Commit r))
                 (λ '(c, u, g, e, b), {| ro_CreatedAt := c; Uuids := u; Groups := g; Effect := e; Commit := b |}) _.
Next Obligation. by intros []. Qed.
Record Update := {
  u_Tag : string; u_Name : string; UploadedAt : Z; UploadedBy : string; DeviceCount : Z
}.

(** ** Statements *)

Definition active (d : database) : list (string * device_row) :=
  List.filter (λ kv, negb (d_deleted kv.2)) (rows (devices d)).

Definition apiDeviceGet_run (uuid : string) : IO device_row :=
  sql_query (λ d, match devices d !! uuid with
                  | Some r => if d_deleted r then Err ErrNoRows else Ok r
                  | None => Err ErrNoRows
                  end).
(** [LIMIT ? OFFSET ?]: a negative limit is no limit, a negative offset is 0. *)
Definition page {A} (limit offset : Z) (l : list A) : list A :=
  let l := drop (Z.to_nat offset) l in if limit <? 0 then l else take (Z.to_nat limit) l.
Definition item_of (kv : string * device_row) : DeviceListItem :=
  {| li_Uuid := kv.1; li_CreatedAt := d_created_at kv.2; li_LastSeen := d_last_seen kv.2;
     li_Target := d_target_name kv.2; li_Tag := d_tag kv.2; li_Labels := d_labels kv.2 |}.
Definition stmtDeviceList_run (o : OrderBy) (limit offset : Z) : IO (list DeviceListItem) :=
  sql_query (λ d, Ok (map item_of (page limit offset (sort_by (order_cmp o) (active d))))).
Definition stmtDeviceCount_run : IO Z := sql_query (λ d, Ok (Z.of_nat (length (active d)))).
Definition maxDeniedDevices : Z := 10000.
Definition stmtDeniedDeviceList_run : IO (list string) :=
  sql_query (λ d, Ok (take (Z.to_nat maxDeniedDevices)
                        (map fst (List.filter (λ kv, d_deleted kv.2) (rows (devices d)))))).
Definition with_deleted (b : bool) (r : device_row) : device_row :=
  DeviceRow (d_cert r) b (d_created_at r) (d_last_seen r) (d_tag r) (d_labels r) (d_update_name r)
    (d_target_name r) (d_ostree_hash r) (d_apps r) (d_group_name_modified_at r).
Definition stmtUndenyDevice_run (uuid : string) : IO bool :=
  sql (λ d, match devices d !! uuid with
            | Some r => if d_deleted r then (Ok true, with_devices (<[uuid := with_deleted false r]> (devices d)) d)
                        else (Ok false, d)
            | None => (Ok false, d)
            end).

(** Updating labels fires the two triggers: the label names are recorded, and
    a changed group name is stamped. *)
Definition with_labels (now : Z) (l : gmap string string) (r : device_row) : device_row :=
  DeviceRow (d_cert r) (d_deleted r) (d_created_at r) (d_last_seen r) (d_tag r) l (d_update_name r)
    (d_target_name r) (d_ostree_hash r) (d_apps r)
    (if String.eqb (default "" (l !! "group")) (d_group_name r) then d_group_name_modified_at r else now).
(** [jsonb_patch]: a null removes the key. *)
Definition patch_labels (patch : gmap string (option string)) (l : gmap string string) : gmap string string :=
  merge (λ o p, match p with None => o | Some v => v end) l patch.
(** The partial unique index on [name]. *)
Definition names_uniqueb (t : gmap string device_row) : bool :=
  let names := List.filter non_empty (map (λ kv, d_name kv.2) (map_to_list t)) in
  bool_decide (NoDup names).
Definition stmtDeviceSetLabels_run (labels : gmap string (option string)) (uuids : list string) : IO unit :=
  sql_now (λ now d,
    let touched k := bool_decide (k ∈ uuids) in
    let t := map_imap (λ k r, Some (if touched k then with_labels now (patch_labels labels (d_labels r)) r else r))
               (devices d) in
    if negb (names_uniqueb t) then (Err ErrDbConstraintUnique, d)
    else
      let names := flat_map (λ kv, if touched kv.1 && negb (bool_decide (patch_labels labels (d_labels kv.2) = d_labels kv.2))
                                   then map fst (map_to_list (patch_labels labels (d_labels kv.2))) else [])
                     (map_to_list (devices d)) in
      (Ok tt, with_device_labels (list_to_set names ∪ device_labels d) (with_devices t d))).
Definition stmtDeviceGetLabels_run : IO (list string) :=
  sql_query (λ d, Ok (sort_strings (elements (device_labels d)))).
Definition stmtDeviceGetGroups_run : IO (list string) :=
  sql_query (λ d, Ok (remove_dups (List.filter non_empty (map (λ kv, d_group_name kv.2) (rows (devices d)))))).

Definition with_update_name (u : string) (r : device_row) : device_row :=
  DeviceRow (d_cert r) (d_deleted r) (d_created_at r) (d_last_seen r) (d_tag r) (d_labels r) u
    (d_target_name r) (d_ostree_hash r) (d_apps r) (d_group_name_modified_at r).
Definition update_selects (tag : string) (uuids groups : list string) (kv : string * device_row) : bool :=
  String.eqb (d_tag kv.2) tag &&
  (bool_decide (kv.1 ∈ uuids) || bool_decide (d_group_name kv.2 ∈ groups)).
Definition stmtDeviceSetUpdate_run (tag updateName : string) (uuids groups : list string) : IO (list string) :=
  sql (λ d, (Ok (map fst (List.filter (update_selects tag uuids groups) (rows (devices d)))),
             with_devices (map_imap (λ k r, Some (if update_selects tag uuids groups (k, r)
                                                   then with_update_name updateName r else r)) (devices d)) d)).
Definition stmtOldCertDeleteExpired_run (before : Z) : IO unit :=
  sql_exec (λ d, with_old_certs (filter (λ kv, ~ kv.2 <= before) (old_certs d)) d).
Definition stmtDeviceDelete_run (uuid : string) : IO unit :=
  sql_now (λ now d, (Ok tt, with_devices (alter (λ r, with_deleted true (with_labels now ∅ r)) uuid (devices d)) d)).
Definition stmtDevicePut_run (uuid cert : string) (labels : gmap string string) : IO unit :=
  sql_now (λ now d,
    match devices d !! uuid with
    | Some _ => (Err ErrDbConstraintUnique, d)
    | None =>
        let t := <[uuid := DeviceRow cert false now 0 "" labels "" "" "" "" 0]> (devices d) in
        if names_uniqueb t then (Ok tt, with_devices t d) else (Err ErrDbConstraintUnique, d)
    end).
Definition stmtUpdateInsert_run (tag name uploadedBy : string) : IO unit :=
  sql_now (λ now d,
    match updates d !! name with
    | Some _ => (Err ErrDbConstraintUnique, d)
    | None => (Ok tt, with_updates (<[name := UpdateRow tag now uploadedBy]> (updates d)) d)
    end).
(** Active devices with the update's tag and name assigned. *)
Definition assigned (d : database) (tag name : string) : list (string * device_row) :=
  List.filter (λ kv, String.eqb (d_tag kv.2) tag && String.eqb (d_update_name kv.2) name && negb (d_deleted kv.2))
    (rows (devices d)).
Definition update_cmp (a b : Update) : Z :=
  let c := str_cmp (u_Tag a) (u_Tag b) in
  if negb (c =? 0) then c
  else if negb (UploadedAt a =? UploadedAt b) then UploadedAt a - UploadedAt b
  else str_cmp (u_Name a) (u_Name b).
Definition stmtUpdateList_run (tag : string) : IO (list Update) :=
  sql_query (λ d, Ok (sort_by update_cmp
    (map (λ kv, {| u_Tag := up_tag kv.2; u_Name := kv.1; UploadedAt := up_uploaded_at kv.2;
                   UploadedBy := up_uploaded_by kv.2;
                   DeviceCount := Z.of_nat (length (assigned d (up_tag kv.2) kv.1)) |})
       (List.filter (λ kv, String.eqb tag "" || String.eqb (up_tag kv.2) tag) (rows (updates d)))))).
(** The trigger [prevent_delete_update_in_use] aborts the statement. *)
Definition stmtUpdateDelete_run (name : string) : IO bool :=
  sql (λ d, match updates d !! name with
            | None => (Ok false, d)
            | Some u => if bool_decide (assigned d (up_tag u) name = [])
                        then (Ok true, with_updates (delete name (updates d)) d)
                        else (Err ErrUpdateInUse, d)
            end).
Definition stmtUpdateGet_run (name : string) : IO Update :=
  sql_query (λ d, match updates d !! name with
                  | Some u => Ok {| u_Tag := up_tag u; u_Name := name; UploadedAt := up_uploaded_at u;
                                    UploadedBy := up_uploaded_by u; DeviceCount := 0 |}
                  | None => Err ErrNoRows
                  end).

Section ApiStorage.
Context `{Digest, JSON DeviceUpdateEvent, JSON AppliedConfigs, JSON AppsStates, JSON Rollout, JSON TargetTest}.
Context {json_object : Type} `{JSON json_object}.
(** The data directory of the file storage. *)
Variable root : string.
Notation devices_dir := (FsConfig_DevicesDir root).
Notation updates_dir := (FsConfig_UpdatesDir root).
Notation configs_dir := (FsConfig_ConfigsDir root).
Notation certs_dir := (FsConfig_CertsDir root).

(** ** Devices *)

(** [errors.Join]: an error when either part is. *)
Definition Device_Delete (uuid : string) : IO unit :=
  err1 ← try (stmtDeviceDelete_run uuid);
  err2 ← try (Devices_Delete devices_dir uuid);
  match err1, err2 with
  | Err e, _ => fail e
  | Ok _, Err e => fail e
  | Ok _, Ok _ => mret tt
  end.
Definition Device_Updates (uuid : string) : IO (list string) :=
  names ← Devices_ListFiles devices_dir uuid EventsPrefix true;
  mret (reverse (map (str_drop (String.length EventsPrefix + 1)) names)).
Definition unmarshal_events (lines : list string) : result (list DeviceUpdateEvent) :=
  foldr (λ line r, if len line =? 0 then r
                   else match json_Unmarshal line with
                        | Err e => Err (ErrWrap "unexpected error unmarshalling event json" e)
                        | Ok evt => evts ← r; Ok (evt :: evts)
                        end) (Ok []) lines.
Definition Device_Events (uuid updateId : string) : IO (list DeviceUpdateEvent) :=
  content ← Devices_ReadFile devices_dir uuid (EventsPrefix +:+ "-" +:+ updateId);
  lift (unmarshal_events (Split content (byte 10))).
Definition Device_AppsStates (uuid : string) : IO (list AppsStates) :=
  names ← Devices_ListFiles devices_dir uuid StatesPrefix true;
  states ← mapM_M (λ name,
    content ← Devices_ReadFile devices_dir uuid name;
    wrap "unexpected error unmarshalling apps states json" (lift (json_Unmarshal content))) names;
  mret (reverse states).
Definition DeleteExpiredCerts (before : Z) : IO unit := stmtOldCertDeleteExpired_run before.
Definition DevicesList (opts : DeviceListOpts) : IO (list DeviceListItem * Z) :=
  match orderBy_of (lo_OrderBy opts) with
  | None => fail (ErrMsg "invalid order by arg")
  | Some o =>
      total ← stmtDeviceCount_run;
      devices ← stmtDeviceList_run o (Limit opts) (Offset opts);
      mret (devices, total)
  end.
Definition DeniedDevicesList : IO (list string) := stmtDeniedDeviceList_run.
Definition UndenyDevice (uuid : string) : IO bool := stmtUndenyDevice_run uuid.

Definition clearingEventTypes : list string :=
  ["EcuInstallationCompleted"; "CertRotationCompleted"; "MetadataUpdateCompleted"].
Definition last_line (content : string) : string := default "" (last (Split content (byte 10))).
(** The status worth showing: none after a successful completion. *)
Definition status_of_event (evt : DeviceUpdateEvent) : option DeviceStatus :=
  if negb (bool_decide (EventTypeId (EventType evt) ∈ clearingEventTypes)) ||
     negb (bool_decide (Success (Event evt) = Some true))
  then Some (ParseStatus evt) else None.
Definition ApiDeviceGet (uuid : string) : IO (option ApiDevice) :=
  r ← try (apiDeviceGet_run uuid);
  match r with
  | Err e => if errors_Is e ErrNoRows then mret None else fail e
  | Ok row =>
      let apps := List.filter non_empty (map TrimSpace (Split (d_apps row) ",")) in
      aktoml ← Devices_ReadFile devices_dir uuid AktomlFile;
      hwinfo ← Devices_ReadFile devices_dir uuid HwInfoFile;
      netinfo ← Devices_ReadFile devices_dir uuid NetInfoFile;
      eventFiles ← Devices_ListFiles devices_dir uuid EventsPrefix true;
      status ← match last eventFiles with
               | None => mret None
               | Some f =>
                   content ← Devices_ReadFile devices_dir uuid f;
                   evt ← wrap "unexpected error unmarshalling event json"
                           (lift (json_Unmarshal (last_line (TrimSpace content))));
                   mret (status_of_event evt)
               end;
      mret (Some {| ad_item := item_of (uuid, row); ad_Apps := apps; ad_OstreeHash := d_ostree_hash row;
                    ad_Cert := d_cert row; ad_UpdateName := d_update_name row; Aktoml := aktoml;
                    HwInfo := hwinfo; NetInfo := netinfo; ad_Status := status |})
  end.
Definition ReadAppliedConfigs (uuid : string) : IO (option AppliedConfigs) :=
  raw ← Devices_ReadFile devices_dir uuid ConfigAppliedFile;
  if String.eqb raw "" then mret None
  else a ← wrap "failed to parse applied config" (lift (json_Unmarshal raw)); mret (Some a).
Definition ApiDeviceCreate (uuid cert : string) (labels : gmap string string) : IO unit :=
  stmtDevicePut_run uuid cert labels.
Fixpoint insert_sorted (name : string) (l : list string) : list string :=
  match l with
  | [] => [name]
  | x :: l' => if str_cmp x name <? 0 then x :: insert_sorted name l'
               else if String.eqb x name then l else name :: l
  end.
Definition GetKnownDeviceGroupNames : IO (list string) :=
  dbNames ← stmtDeviceGetGroups_run;
  fsNames ← ReadGroupNames configs_dir;
  mret (foldl (λ acc name, insert_sorted name acc) fsNames dbNames).
Definition GetKnownDeviceLabelNames : IO (list string) := stmtDeviceGetLabels_run.
Definition PatchDeviceLabels (labels : gmap string (option string)) (uuids : list string) : IO unit :=
  stmtDeviceSetLabels_run labels uuids.

(** ** Updates *)

Definition ListUpdates (tag : string) : IO (list Update) := stmtUpdateList_run tag.
Definition DeleteUpdate (name : string) : IO unit :=
  existed ← stmtUpdateDelete_run name;
  if negb existed then fail ErrNotExist else Updates_Delete updates_dir name.
Definition GetUpdate (name : string) : IO (option Update) :=
  r ← try (stmtUpdateGet_run name);
  match r with
  | Err e => if errors_Is e ErrNoRows then mret None else fail e
  | Ok u => mret (Some u)
  end.
Definition GetUpdateTufMetadataFile (updateName file : string) : IO json_object :=
  metaStr ← Updates_ReadFile updates_dir UpdatesTufDir updateName file;
  wrap "failed to unmarshal" (lift (json_Unmarshal metaStr)).
Definition GetUpdateTufMetadata (updateName : string) : IO (gmap string json_object) :=
  latestRoot ← LatestRootMetaName updates_dir UpdatesTufDir updateName;
  metas ← mapM_M (λ x,
    m ← GetUpdateTufMetadataFile updateName x;
    mret (if String.eqb x latestRoot then TufRootFile else x, m))
    [TufTargetsFile; TufSnapshotFile; TufTimestampFile; latestRoot];
  mret (foldl (λ acc kv, <[kv.1 := kv.2]> acc) ∅ metas).
(** [tufCreate] generates the TUF metadata of the unpacked update; [None]
    when TUF is not enabled. *)
Definition CreateUpdate `{JSON targets_file} (tufCreate : option (string -> IO unit))
  (tag updateName uploadedBy : string) (payload : tarball) : IO unit :=
  existing ← GetUpdate updateName;
  match existing with
  | Some _ => fail ErrDbConstraintUnique
  | None =>
      Updates_SaveUpload updates_dir tag updateName payload tufCreate (λ _, mret tt);;
      stmtUpdateInsert_run tag updateName uploadedBy;;
      ignore (Updates_AppendFile updates_dir UpdatesLogsDir updateName LogRolloutsFile "")
  end.

(** ** Rollouts *)

Definition ListRollouts (updateName : string) : IO (list string) := Rollouts_ListFiles updates_dir updateName.
Definition GetRollout (updateName rolloutName : string) : IO Rollout :=
  content ← Updates_ReadFile updates_dir UpdatesRolloutsDir updateName rolloutName;
  lift (json_Unmarshal content).
Definition SaveRollout (updateName rolloutName : string) (rollout : Rollout) : IO unit :=
  Updates_WriteFile updates_dir UpdatesRolloutsDir updateName rolloutName (json_Marshal rollout).
Definition rollout_line (tag updateName rolloutName : string) : string :=
  tag +:+ "|" +:+ updateName +:+ "|" +:+ rolloutName.
Definition CreateRollout (tag updateName rolloutName : string) (rollout : Rollout) : IO unit :=
  AppendJournal updates_dir (rollout_line tag updateName rolloutName +:+ str1 (byte 10));;
  Updates_WriteFile updates_dir UpdatesRolloutsDir updateName rolloutName (json_Marshal rollout).
Definition SetUpdateName (tag updateName : string) (uuids groups : list string) : IO (list string) :=
  stmtDeviceSetUpdate_run tag updateName uuids groups.
Definition CommitRollout (tag updateName rolloutName : string) (rollout : Rollout) : IO unit :=
  effect ← SetUpdateName tag updateName (Uuids rollout) (Groups rollout);
  SaveRollout updateName rolloutName
    {| ro_CreatedAt := ro_CreatedAt rollout; Uuids := Uuids rollout; Groups := Groups rollout;
       Effect := effect; Commit := true |}.
(** The entries yielded up to the first error, and that error. *)
Fixpoint parse_rollout_journal (lines : list (result string)) : list (string * string * string) * option error :=
  match lines with
  | [] => ([], None)
  | Err e :: _ => ([], Some e)
  | Ok log :: lines' =>
      match Split log "|" with
      | [tag; updateName; rolloutName] =>
          let '(l, e) := parse_rollout_journal lines' in ((tag, updateName, rolloutName) :: l, e)
      | _ => ([], Some (ErrMsg "corrupted journal file line"))
      end
  end.
Definition ReadRolloutJournal : IO (list (string * string * string) * option error) :=
  lines ← ReadJournal updates_dir; mret (parse_rollout_journal lines).
Definition RolloverRolloutJournal : IO unit := RolloverJournal updates_dir.
Definition TailRolloutsLog (updateName : string) : IO (list (result string)) :=
  TailFileLines updates_dir UpdatesLogsDir updateName LogRolloutsFile.

(** ** Configurations *)

Definition SaveFactoryConfig (content username reason : string) : IO unit :=
  WriteFactoryConfig configs_dir content username reason;;
  ignore (PurgeFactoryConfigHistory configs_dir ConfigHistoryLimit).
Definition SaveGroupConfig (name content username reason : string) : IO unit :=
  WriteGroupConfig configs_dir name content username reason;;
  ignore (PurgeGroupConfigHistory configs_dir name ConfigHistoryLimit).
Definition ApiSaveDeviceConfig (uuid content username reason : string) : IO unit :=
  WriteDeviceConfig configs_dir uuid content username reason;;
  ignore (PurgeDeviceConfigHistory configs_dir uuid ConfigHistoryLimit).
Definition UploadConfigs (payload : tarball) : IO unit :=
  Configs_SaveUpload configs_dir payload (λ _, mret tt).

(** ** Test results (api_storage_fiotest.go) *)

Definition GetTests (uuid : string) : IO (list TargetTest) :=
  r ← try (Devices_ListFiles devices_dir uuid TestsPrefix true);
  match r with
  | Err err => if errors_Is err ErrNotExist then mret [] else fail err
  | Ok files =>
      mapM_M (λ file, testData ← Devices_ReadFile devices_dir uuid file;
                      wrap "unexpected error unmarshalling" (lift (json_Unmarshal testData))) files
  end.
Definition GetTest (uuid testId : string) : IO (option TargetTest) :=
  r ← try (Devices_ReadFile devices_dir uuid (TestsPrefix +:+ testId));
  match r with
  | Err err => if errors_Is err ErrNotExist then mret None else fail (ErrWrap "error reading test" err)
  | Ok bytes =>
      test ← wrap "error unmarshalling test" (lift (json_Unmarshal bytes : result TargetTest));
      let prefix := TestArtifactsPrefix +:+ "-" +:+ testId +:+ "_" in
      files ← wrap "error listing artifacts" (Devices_ListFiles devices_dir uuid prefix true);
      mret (Some {| tt_Uuid := tt_Uuid test; tt_Name := tt_Name test; tt_TargetName := tt_TargetName test;
                    tt_Status := tt_Status test; CreatedOn := CreatedOn test; CompletedOn := CompletedOn test;
                    tt_Details := tt_Details test; Artifacts := map (str_drop (String.length prefix)) files;
                    Results := Results test |})
  end.
Definition GetTestArtifact (uuid testId name : string) : IO string :=
  Devices_ReadFileStream devices_dir uuid (TestArtifactsPrefix +:+ "-" +:+ testId +:+ "_" +:+ name).

(** ** Certificates (api_storage_pki.go) *)

Definition ReadCert (certName : string) : IO string :=
  if negb (bool_decide (certName ∈ [CertsCasPemFile; CertsDeviceCaPemFile; CertsRootPemFile; CertsTlsPemFile]))
  then mret ""
  else
    r ← try (Certs_ReadFile certs_dir certName);
    match r with
    | Err err => if errors_Is err ErrNotExist then mret "" else fail err
    | Ok buf => mret buf
    end.
End ApiStorage.
