(* ===== verification/ApiTuf.v ===== *)
(** storage/api/api_storage_tuf.go and the upload probes of
    api_storage_update.go: the TUF metadata of an update that is uploaded
    without any, and the refresh of the timestamps. *)
From S2P Require Import Prelude GoStrings Bytes GoPath Schema World BaseFs Crypto Models Tar Configs Updates Ostree FsHandles Tuf TufFs ApiStorage.

Record TargetOptions := {
  AppVersion : Z; HardwareId : string; to_Name : string; OstreeHash : string; to_Tag : string;
  to_Apps : gmap string string; BaseUrl : string
}.
Record generatedTargetCustom := {
  gc_Name : string; gc_Version : string; gc_HardwareIds : list string; gc_Tags : list string;
  TargetFormat : string; DockerComposeApps : gmap string string; (* composeAppURI.URI *)
  gc_CreatedAt : string
}.

(** [strings.Trim(s, cutset)]. *)
Fixpoint trim_set_left (cs s : string) : string :=
  match s with String c s' => if one_of cs c then trim_set_left cs s' else s | "" => "" end.
Fixpoint trim_set_right (cs s : string) : string :=
  match s with
  | "" => ""
  | String c s' =>
      match trim_set_right cs s' with
      | "" => if one_of cs c then "" else str1 c
      | r => String c r
      end
  end.
Definition trim_quotes (s : string) : string :=
  let quotes := String (byte 34) "'" in trim_set_right quotes (trim_set_left quotes s).

(** ** Probing an upload *)

Fixpoint parse_key_lines (key : string) (lines : list string) : string :=
  match lines with
  | [] => ""
  | line :: lines' =>
      match Cut line "=" with
      | Some (k, v) => if String.eqb (TrimSpace k) key then trim_quotes (TrimSpace v) else parse_key_lines key lines'
      | None => parse_key_lines key lines'
      end
  end.
Definition parseKeyValue (content key : string) : string := parse_key_lines key (Split content (byte 10)).
Definition isDir (path : string) : IO bool :=
  r ← try (os_Stat path); mret (match r with Ok Dir => true | _ => false end).

Definition with_apps (apps : gmap string string) (o : TargetOptions) : TargetOptions :=
  {| AppVersion := AppVersion o; HardwareId := HardwareId o; to_Name := to_Name o; OstreeHash := OstreeHash o;
     to_Tag := to_Tag o; to_Apps := apps; BaseUrl := BaseUrl o |}.
(** The entries that are directories, and the first entry of each. *)
Fixpoint probe_app_dirs (appsDir : string) (entries : list string) (apps : gmap string string) : IO (gmap string string) :=
  match entries with
  | [] => mret apps
  | e :: entries' =>
      d ← gets (λ w, is_dir w (filepath_Join [appsDir; e]));
      if negb d then probe_app_dirs appsDir entries' apps else
      sub ← os_ReadDir (filepath_Join [appsDir; e]);
      probe_app_dirs appsDir entries' (match sub with item :: _ => <[e := item]> apps | [] => apps end)
  end.
Definition probeApps (appsDir : string) (opts : TargetOptions) : IO TargetOptions :=
  entries ← os_ReadDir appsDir;
  apps ← probe_app_dirs appsDir entries ∅;
  mret (with_apps apps opts).

Section Probe.
Context `{Flate} (depth : nat).

Definition detectArch (repo ref : string) : IO string :=
  r ← try (Repo_ReadFile repo ref "/lib/ld-linux-aarch64.so.1");
  mret (if is_Ok r then "arm64-linux" else "amd64-linux").
Definition probeOstree (repo : string) (opts : TargetOptions) : IO TargetOptions :=
  heads ← ListHeads repo depth;
  match heads with
  | [] => fail (ErrMsg "no refs found under refs/heads")
  | ref :: _ =>
      hash ← ReadRef repo ref;
      r ← try (Repo_ReadFile repo ref "/usr/lib/os-release");
      let version := match r with
        | Ok data =>
            let v := parseKeyValue data "IMAGE_VERSION" in
            if String.eqb v "" then AppVersion opts
            else match Atoi v with Some n => n | None => AppVersion opts end
        | Err _ => AppVersion opts
        end in
      r ← try (Repo_ReadFile repo ref "/usr/lib/sota/conf.d/40-hardware-id.toml");
      let hw := match r with Ok data => parseKeyValue data "primary_ecu_hardware_id" | Err _ => HardwareId opts end in
      hw ← (if String.eqb hw "" then detectArch repo ref else mret hw);
      mret {| AppVersion := version; HardwareId := hw; to_Name := ref; OstreeHash := hash;
              to_Tag := to_Tag opts; to_Apps := to_Apps opts; BaseUrl := BaseUrl opts |}
  end.
End Probe.

(** ** Generating the metadata *)

Section ApiTuf.
Context `{Digest, Ed25519, TimeFormat, JSON AtsTufTargets, JSON AtsTufMeta, JSON version_custom, JSON generatedTargetCustom}.
Context `{Canonical TargetsMeta, Canonical MetaMeta, Canonical AtsTufTargets, Canonical AtsTufMeta}.
Variable h : TufFsHandle.

(** One update: the highest of the two versions seen so far. *)
Definition latest_versions_step (acc : Z * Z) (targets : AtsTufTargets) : Z * Z :=
  let v := Version (tm_Common (targets_Signed targets)) in
  let latest := GetLatestTargetVersion targets in
  (if acc.1 <? v then v else acc.1, if acc.2 <? latest then latest else acc.2).
Fixpoint latest_versions_loop (updates : list Update) (acc : Z * Z) : IO (Z * Z) :=
  match updates with
  | [] => mret acc
  | u :: updates' =>
      r ← try (ReadTufMeta (tuf_updates h) (u_Name u) TufTargetsFile);
      latest_versions_loop updates' (match r with Ok targets => latest_versions_step acc targets | Err _ => acc end)
  end.
Definition getLatestVersions : IO (Z * Z) :=
  updates ← ListUpdates "";
  latest_versions_loop updates (1, 0).

Definition target_custom_of (opts : TargetOptions) (tgtVer : Z) (now : Z) : generatedTargetCustom :=
  {| gc_Name := to_Name opts; gc_Version := Itoa tgtVer; gc_HardwareIds := [HardwareId opts]; gc_Tags := [to_Tag opts];
     TargetFormat := "OSTREE";
     DockerComposeApps := map_imap (λ app hash,
       Some (BaseUrl opts +:+ "/composeapphack/" +:+ app +:+ "@sha256:" +:+ hash)) (to_Apps opts);
     gc_CreatedAt := rfc3339_utc now |}.
Definition GenerateTufMeta (tufDir : string) (opts : TargetOptions) : IO unit :=
  v ← wrap "unable to determine latest target versions" getLatestVersions;
  let tufVer := v.1 in
  let tgtVer := if negb (AppVersion opts =? 0) then AppVersion opts else wrap64 (v.2 + 1) in
  now ← time_now_ms;
  let customJSON := json_Marshal (target_custom_of opts tgtVer now) in
  ostreeHash ← wrap "invalid ostree hash" (lift (hex_DecodeString (OstreeHash opts)));
  expires ← expires_in (TargetsExpiration h);
  let version := wrap64 (tufVer + 1) in
  let targets := {|
    tm_Common := {| sc_Type := TufType RoleTargets; Version := version; Expires := expires |};
    Targets := {[to_Name opts +:+ "-" +:+ Itoa tgtVer :=
                 {| Length := 0; tf_Hashes := {["sha256" := ostreeHash]}; Custom := customJSON |}]} |} in
  sig ← wrap "unable to sign targets metadata" (lift (Sign h RoleTargets targets));
  t ← wrap "unable to marshal targets metadata"
        (lift (MarshalMeta {| targets_Signatures := [sig]; targets_Signed := targets |} version));
  let ss := {| mm_Common := {| sc_Type := TufType RoleSnapshot; Version := version; Expires := expires |};
               Meta := {[TufTargetsFile := t.2]} |} in
  sig ← wrap "unable to sign snapshot metadata" (lift (Sign h RoleSnapshot ss));
  s ← wrap "unable to marshal snapshot metadata"
        (lift (MarshalMeta {| meta_Signatures := [sig]; meta_Signed := ss |} version));
  let tsVersion := wrap64 (version * 1000) in
  tsExpires ← expires_in (TimestampExpiration h);
  let ts := {| mm_Common := {| sc_Type := TufType RoleTimestamp; Version := tsVersion; Expires := tsExpires |};
               Meta := {[TufSnapshotFile := s.2]} |} in
  sig ← wrap "unable to sign timestamp metadata" (lift (Sign h RoleTimestamp ts));
  z ← wrap "unable to marshal timestamp metadata"
        (lift (MarshalMeta {| meta_Signatures := [sig]; meta_Signed := ts |} tsVersion));
  wrap "unable to write targets metadata" (WriteMeta h tufDir t.1 s.1 z.1).

(** What the caller gives overrides what was probed. *)
Definition override (opts overrides : TargetOptions) : TargetOptions :=
  {| to_Name := if String.eqb (to_Name overrides) "" then to_Name opts else to_Name overrides;
     AppVersion := if AppVersion overrides =? 0 then AppVersion opts else AppVersion overrides;
     HardwareId := if String.eqb (HardwareId overrides) "" then HardwareId opts else HardwareId overrides;
     OstreeHash := if String.eqb (OstreeHash overrides) "" then OstreeHash opts else OstreeHash overrides;
     to_Apps := if Z.of_nat (size (to_Apps overrides)) =? 0 then to_Apps opts else to_Apps overrides;
     to_Tag := to_Tag opts; BaseUrl := BaseUrl opts |}.
Definition generateUpdateTuf `{Flate} (depth : nat) (updateDir tag : string) (overrides : TargetOptions) : IO unit :=
  let opts := {| AppVersion := 0; HardwareId := ""; to_Name := ""; OstreeHash := ""; to_Tag := tag; to_Apps := ∅;
                 BaseUrl := BaseUrl overrides |} in
  let ostreeDir := filepath_Join [updateDir; UpdatesOstreeDir] in
  d ← isDir ostreeDir;
  opts ← (if d : bool then wrap "unable to probe ostree repo" (probeOstree depth ostreeDir opts) else mret opts);
  let appsDir := filepath_Join [updateDir; "apps/apps"] in
  d ← isDir appsDir;
  opts ← (if d : bool then wrap "unable to probe apps" (probeApps appsDir opts) else mret opts);
  let opts := override opts overrides in
  if String.eqb (OstreeHash opts) "" then fail (ErrMsg "unable to determine ostree hash from upload") else
  let opts := {| AppVersion := AppVersion opts; HardwareId := HardwareId opts;
                 to_Name := if len (to_Name opts) =? 0 then "default" else to_Name opts;
                 OstreeHash := OstreeHash opts; to_Tag := to_Tag opts; to_Apps := to_Apps opts; BaseUrl := BaseUrl opts |} in
  if len (HardwareId opts) =? 0 then fail (ErrMsg "unable to determine hardware id from upload") else
  GenerateTufMeta (filepath_Join [updateDir; "tuf"]) opts.

(** The generator that CreateUpdate hands to the upload. *)
Definition tuf_create `{Flate} (depth : nat) (tag : string) (opts : TargetOptions) : option (string -> IO unit) :=
  if Enabled h then Some (λ updateDir, generateUpdateTuf depth updateDir tag opts) else None.

(** ** Refreshing the timestamps *)

Definition with_expires (e : Z) (m : MetaMeta) : MetaMeta :=
  {| mm_Common := {| sc_Type := sc_Type (mm_Common m); Expires := e; Version := Version (mm_Common m) |}; Meta := Meta m |}.
Definition refreshTufTimestamp (update : Update) : IO unit :=
  ts ← wrap "unable to read timestamp metadata" (ReadTufMeta (tuf_updates h) (u_Name update) TufTimestampFile);
  cutoff ← gets (λ w, clock w + 24 * hour_ms);
  if cutoff <? Expires (mm_Common (meta_Signed ts)) then mret tt else
  expires ← expires_in (TimestampExpiration h);
  let signed := with_expires expires (meta_Signed ts) in
  sig ← wrap "unable to sign timestamp metadata" (lift (Sign h RoleTimestamp signed));
  WriteTimestamp h (u_Name update) (json_Marshal {| meta_Signatures := [sig]; meta_Signed := signed |}).
Definition RefreshTufTimestamps : IO unit :=
  updates ← ListUpdates "";
  forM updates (λ u, ignore (refreshTufTimestamp u)).
(** GetTufRoot *)
Definition GetTufRoot (version : Z) : IO string := ReadRoot h version.
End ApiTuf.
