(* ===== verification/TufSpec.v ===== *)
(** What the TUF metadata promises to a device: a verifier of the chain
    root - timestamp - snapshot - targets, as a client runs it, and that every
    set of documents the server generates or refreshes passes it. *)
From stdpp Require Import fin_maps.
From S2P Require Import Prelude GoStrings Bytes GoPath Schema World BaseFs Crypto Models Tar Configs Updates Ostree FsHandles Tuf TufFs ApiStorage ApiTuf.

(** ** The verifier *)

Section Client.
Context `{Digest, Ed25519, JSON AtsTufTargets, JSON AtsTufMeta, Canonical TargetsMeta, Canonical MetaMeta}.

(** Is the signature by a key that the root lists for the role? *)
Definition sig_valid (root : RootMeta) (role : RoleName) (msg : string) (s : Signature) : bool :=
  match Roles root !! role, Keys root !! KeyID s with
  | Some rr, Some key =>
      bool_decide (KeyID s ∈ KeyIDs rr) && String.eqb (KeyType key) tufKeyTypeEd25519 &&
      match hex_DecodeString (Public (KeyValue key)) with
      | Ok pub => ed_verify pub msg (sig_Signature s)
      | Err _ => false
      end
  | _, _ => false
  end.
(** Do enough different keys of the role sign the document? *)
Definition signed_by {A} `{Canonical A} (root : RootMeta) (role : RoleName) (c : SignedCommon) (signed : A)
  (sigs : list Signature) : bool :=
  match cjson_Encode signed, Roles root !! role with
  | Ok msg, Some rr =>
      String.eqb (sc_Type c) (TufType role) && (0 <? Threshold rr) &&
      (Threshold rr <=? Z.of_nat (length (remove_dups (map KeyID (List.filter (sig_valid root role msg) sigs)))))
  | _, _ => false
  end.
(** Is the file the one the item refers to? *)
Definition item_matches (item : option MetaItem) (file : string) (version : Z) : bool :=
  match item with
  | Some i => (mi_Length i =? len file) && bool_decide (mi_Hashes i !! "sha256" = Some (sha256 file)) &&
              (mi_Version i =? version)
  | None => false
  end.
Record verified := { v_timestamp : AtsTufMeta; v_snapshot : AtsTufMeta; v_targets : AtsTufTargets }.
Definition verify_chain (root : RootMeta) (timestamp snapshot targets : option string) : option verified :=
  match timestamp, snapshot, targets with
  | Some tsf, Some ssf, Some tgf =>
      match json_Unmarshal tsf, json_Unmarshal ssf, json_Unmarshal tgf with
      | Ok ts, Ok ss, Ok tg =>
          let tsm := meta_Signed ts in
          let ssm := meta_Signed ss in
          let tgm := targets_Signed tg in
          if signed_by root RoleTimestamp (mm_Common tsm) tsm (meta_Signatures ts) &&
             item_matches (Meta tsm !! TufSnapshotFile) ssf (Version (mm_Common ssm)) &&
             signed_by root RoleSnapshot (mm_Common ssm) ssm (meta_Signatures ss) &&
             item_matches (Meta ssm !! TufTargetsFile) tgf (Version (tm_Common tgm)) &&
             signed_by root RoleTargets (tm_Common tgm) tgm (targets_Signatures tg)
          then Some {| v_timestamp := ts; v_snapshot := ss; v_targets := tg |} else None
      | _, _, _ => None
      end
  | _, _, _ => None
  end.
End Client.

(** The root lists each role with the one key of the server's signer for it. *)
Definition trusts `{Digest, Ed25519} (root : RootMeta) (sgs : gmap string Signer) : Prop :=
  ∀ role, role ∈ tufRoles -> ∃ s, sgs !! role = Some s ∧ signer_ok s ∧
    Roles root !! role = Some {| KeyIDs := [sg_Id s]; Threshold := 1 |} ∧ Keys root !! sg_Id s = Some (PublicAtsKey s).

(** The metadata files of a directory. *)
Definition meta_at (w : world) (dir name : string) : option string := file_at w (path_of dir name).
Definition metadata_names : list string := [TufTargetsFile; TufSnapshotFile; TufTimestampFile].

(** ** Theory: signing *)

Section Signing.
Context `{Digest, Ed25519, !Ed25519Laws}.

(** One signature by the role's key is enough, whatever others come with it. *)
Lemma trusted_signature_in {A} `{Canonical A} root sgs role s (v : A) c sg sigs :
  trusts root sgs -> role ∈ tufRoles -> sgs !! role = Some s -> sc_Type c = TufType role ->
  Signer_Sign s v = Ok sg -> sg ∈ sigs -> signed_by root role c v sigs = true.
Proof.
  intros Ht Hr Hs Hc Hsg Hin. destruct (Ht role Hr) as (s' & Hs' & Hok & Hroles & Hkeys).
  rewrite Hs in Hs'. injection Hs' as <-.
  assert (∃ msg, cjson_Encode v = Ok msg) as [msg Hmsg].
  { unfold Signer_Sign in Hsg. destruct (cjson_Encode v); [eauto|done]. }
  destruct (Signer_Sign_verifies s v sg msg Hok Hmsg Hsg) as (Hid & _ & Hv).
  unfold signed_by. rewrite Hmsg, Hroles, Hc, String.eqb_refl. cbn [Threshold Z.ltb Z.compare andb].
  assert (sig_valid root role msg sg = true) as Hvalid.
  { unfold sig_valid. rewrite Hroles, Hid, Hkeys. cbn [KeyIDs PublicAtsKey KeyType KeyValue Public].
    rewrite bool_decide_true by by apply list_elem_of_singleton. destruct Hok as (Hk & _ & _).
    rewrite Hk, String.eqb_refl, hex_DecodeString_hex. done. }
  assert (KeyID sg ∈ remove_dups (map KeyID (List.filter (sig_valid root role msg) sigs))) as Hm.
  { apply elem_of_remove_dups, list_elem_of_fmap. exists sg. split; [done|].
    apply list_elem_of_In, List.filter_In. split; [by apply list_elem_of_In|done]. }
  apply Z.leb_le. destruct (remove_dups _); [by apply elem_of_nil in Hm|]. cbn [length]. lia.
Qed.
Lemma trusted_signature {A} `{Canonical A} root sgs role s (v : A) c sg :
  trusts root sgs -> role ∈ tufRoles -> sgs !! role = Some s -> sc_Type c = TufType role ->
  Signer_Sign s v = Ok sg -> signed_by root role c v [sg] = true.
Proof. intros. eapply trusted_signature_in; try done. by left. Qed.
Lemma Sign_signer {A} `{Canonical A} h role (v : A) sg :
  Sign h role v = Ok sg -> ∃ s, signers h !! role = Some s ∧ Signer_Sign s v = Ok sg.
Proof. unfold Sign. case_match; [done|]. destruct (signers h !! role); [eauto|done]. Qed.
Lemma sign_with_signer {A} `{Canonical A} sgs role (v : A) sg :
  sign_with sgs role v = Ok sg -> ∃ s, sgs !! role = Some s ∧ Signer_Sign s v = Ok sg.
Proof. unfold sign_with. destruct (sgs !! role); [eauto|done]. Qed.
Lemma MarshalMeta_item {A} `{Canonical A} (v : A) version r :
  MarshalMeta v version = Ok r -> cjson_Encode v = Ok r.1 ∧ item_matches (Some r.2) r.1 version = true.
Proof.
  unfold MarshalMeta. destruct (cjson_Encode v) as [b|]; [|done]. intros [= <-]. split; [done|].
  unfold item_matches. cbn [mi_Length mi_Hashes mi_Version fst snd].
  by rewrite !Z.eqb_refl, lookup_singleton_eq, bool_decide_true.
Qed.

Context `{JSON AtsTufTargets, JSON AtsTufMeta, Canonical TargetsMeta, Canonical MetaMeta}.
Context `{Canonical AtsTufTargets, Canonical AtsTufMeta, !CanonicalLaws AtsTufTargets, !CanonicalLaws AtsTufMeta}.

(** Three documents built as the server builds them pass the verifier. *)
Lemma chain_of_documents root sgs tg ss ts sgT sgS sgZ s1 s2 s3 t s z :
  trusts root sgs ->
  sgs !! RoleTargets = Some s1 -> Signer_Sign s1 tg = Ok sgT -> sc_Type (tm_Common tg) = TufType RoleTargets ->
  MarshalMeta {| targets_Signatures := [sgT]; targets_Signed := tg |} (Version (tm_Common tg)) = Ok t ->
  sgs !! RoleSnapshot = Some s2 -> Signer_Sign s2 ss = Ok sgS -> sc_Type (mm_Common ss) = TufType RoleSnapshot ->
  Meta ss = {[TufTargetsFile := t.2]} ->
  MarshalMeta {| meta_Signatures := [sgS]; meta_Signed := ss |} (Version (mm_Common ss)) = Ok s ->
  sgs !! RoleTimestamp = Some s3 -> Signer_Sign s3 ts = Ok sgZ -> sc_Type (mm_Common ts) = TufType RoleTimestamp ->
  Meta ts = {[TufSnapshotFile := s.2]} ->
  MarshalMeta {| meta_Signatures := [sgZ]; meta_Signed := ts |} (Version (mm_Common ts)) = Ok z ->
  verify_chain root (Some z.1) (Some s.1) (Some t.1) = Some
    {| v_timestamp := {| meta_Signatures := [sgZ]; meta_Signed := ts |};
       v_snapshot := {| meta_Signatures := [sgS]; meta_Signed := ss |};
       v_targets := {| targets_Signatures := [sgT]; targets_Signed := tg |} |}.
Proof.
  intros Ht Hs1 HT HcT Hm1 Hs2 HS HcS HmS Hm2 Hs3 HZ HcZ HmZ Hm3.
  apply MarshalMeta_item in Hm1 as [E1 I1]. apply MarshalMeta_item in Hm2 as [E2 I2]. apply MarshalMeta_item in Hm3 as [E3 _].
  unfold verify_chain. rewrite (cjson_decodes _ _ E1), (cjson_decodes _ _ E2), (cjson_decodes _ _ E3).
  cbn [meta_Signed targets_Signed meta_Signatures targets_Signatures].
  rewrite HmS, HmZ, !lookup_singleton_eq, I1, I2.
  rewrite (trusted_signature root sgs RoleTargets s1 tg), (trusted_signature root sgs RoleSnapshot s2 ss),
    (trusted_signature root sgs RoleTimestamp s3 ts); try done; unfold tufRoles; set_solver.
Qed.
End Signing.

(** ** Theory: writing the three files *)

Lemma metadata_name_ok n : n ∈ metadata_names -> name_ok n.
Proof. unfold metadata_names. intros H. repeat (apply elem_of_cons in H as [->|H]; [vm_compute; by split_and!|]). by apply elem_of_nil in H. Qed.
Definition metadata_paths (dir : string) : list string := concat (map (written_paths dir) metadata_names).

Lemma write_metas_files dir msg t s z w w' :
  dir_ok dir -> write_metas dir msg t s z w = (Ok tt, w') ->
  files_but (metadata_paths dir) w w' ∧
  meta_at w' dir TufTargetsFile = Some t ∧ meta_at w' dir TufSnapshotFile = Some s ∧ meta_at w' dir TufTimestampFile = Some z.
Proof.
  intros Hd E. unfold write_metas in E. cbn [forM fst snd] in E.
  minv E. minv E0. destruct res; simplify_eq. apply writeFile_files in E0 as [A1 B1]; [|done|by apply metadata_name_ok; set_solver].
  minv E. minv E0. destruct res; simplify_eq. apply writeFile_files in E0 as [A2 B2]; [|done|by apply metadata_name_ok; set_solver].
  minv E. minv E0. destruct res; simplify_eq. apply writeFile_files in E0 as [A3 B3]; [|done|by apply metadata_name_ok; set_solver].
  minv E. cbn [is_Ok] in *. unfold meta_at.
  assert (∀ a b, a ∈ metadata_names -> b ∈ metadata_names -> a <> b -> path_of dir a ∉ written_paths dir b) as Hne.
  { intros x y Ha Hb Hab. unfold written_paths. rewrite !elem_of_cons, elem_of_nil.
    intros [H|[H|[]]]; apply path_of_inj in H; [done|]. revert Ha Hb H. clear.
    unfold metadata_names. rewrite !elem_of_cons, !elem_of_nil. intros [->|[->|[->|[]]]] [->|[->|[->|[]]]]; intros E; vm_compute in E; discriminate E. }
  split_and!.
  - eapply files_but_weaken; [eapply files_but_trans; [|eapply files_but_trans]; eassumption|].
    unfold metadata_paths, metadata_names. simpl. set_solver.
  - rewrite (A3 (path_of dir TufTargetsFile)), (A2 (path_of dir TufTargetsFile)); [done|apply Hne; [..|discriminate]; set_solver..].
  - rewrite (A3 (path_of dir TufSnapshotFile)); [done|apply Hne; [..|discriminate]; set_solver].
  - done.
Qed.
Lemma metadata_paths_names dir k : k ∈ metadata_paths dir -> ∃ n, k = path_of dir n ∧ name_ok n ∧ HasSuffix n rootJsonSuffix = false.
Proof.
  unfold metadata_paths, metadata_names, written_paths. cbn [map concat app]. rewrite !elem_of_cons, elem_of_nil.
  intros H. repeat (destruct H as [->|H]; [eexists; (split; [reflexivity|]); split; [vm_compute; by split_and!|done]|]). done.
Qed.
Lemma path_of_dir_inj a b n m :
  dir_ok a -> dir_ok b -> name_ok n -> name_ok m -> path_of a n = path_of b m -> a = b ∧ n = m.
Proof.
  intros Ha Hb Hn Hm E. assert (a = b) as -> by (rewrite <-(Dir_entry a n), <-(Dir_entry b m), E by done; done).
  split; [done|]. by eapply path_of_inj.
Qed.

(** ** Generated metadata *)

Section Generate.
Context `{Digest, Ed25519, !Ed25519Laws, TimeFormat}.
Context `{JSON AtsTufTargets, JSON AtsTufMeta, JSON version_custom, JSON generatedTargetCustom}.
Context `{Canonical TargetsMeta, Canonical MetaMeta, Canonical AtsTufTargets, Canonical AtsTufMeta}.
Context `{!CanonicalLaws AtsTufTargets, !CanonicalLaws AtsTufMeta}.
Variable h : TufFsHandle.

(** The documents generated from the versions [v] at the time of [w]. *)
Definition generated_targets (opts : TargetOptions) (v : Z * Z) (hash : string) (now : Z) : TargetsMeta :=
  let tgtVer := if negb (AppVersion opts =? 0) then AppVersion opts else wrap64 (v.2 + 1) in
  {| tm_Common := {| sc_Type := TufType RoleTargets; Version := wrap64 (v.1 + 1);
                     Expires := (now + TargetsExpiration h) / 1000 * 1000 |};
     Targets := {[to_Name opts +:+ "-" +:+ Itoa tgtVer :=
                  {| Length := 0; tf_Hashes := {["sha256" := hash]};
                     Custom := json_Marshal (target_custom_of opts tgtVer now) |}]} |}.

Lemma WriteMeta_files tufDir t s z w w' :
  dir_ok tufDir -> WriteMeta h tufDir t s z w = (Ok tt, w') ->
  meta_at w' tufDir TufTargetsFile = Some t ∧ meta_at w' tufDir TufSnapshotFile = Some s ∧
  meta_at w' tufDir TufTimestampFile = Some z.
Proof.
  intros Hd E. unfold WriteMeta in E. minv E. minv E. minv E.
  destruct v1. by apply write_metas_files in E as [_ E].
Qed.

Lemma generate_run root tufDir opts w w' :
  trusts root (signers h) -> dir_ok tufDir -> GenerateTufMeta h tufDir opts w = (Ok tt, w') ->
  ∃ v hash w1 chain, getLatestVersions h w = (Ok v, w1) ∧ hex_DecodeString (OstreeHash opts) = Ok hash ∧
    verify_chain root (meta_at w' tufDir TufTimestampFile) (meta_at w' tufDir TufSnapshotFile)
      (meta_at w' tufDir TufTargetsFile) = Some chain ∧
    targets_Signed (v_targets chain) = generated_targets opts v hash (clock w1) ∧
    Version (mm_Common (meta_Signed (v_snapshot chain))) = wrap64 (v.1 + 1) ∧
    Version (mm_Common (meta_Signed (v_timestamp chain))) = wrap64 (wrap64 (v.1 + 1) * 1000) ∧
    Expires (mm_Common (meta_Signed (v_timestamp chain))) = (clock w1 + TimestampExpiration h) / 1000 * 1000.
Proof.
  intros Ht Hd E. unfold GenerateTufMeta in E.
  apply bind_wrap_Ok in E as (v & w1 & Ev & E). apply bind_gets_inv in E.
  apply bind_wrap_lift_Ok in E as (hash & Eh & E). apply bind_gets_inv in E.
  apply bind_wrap_lift_Ok in E as (sgT & [s1 [Hs1 HT]]%Sign_signer & E). apply bind_wrap_lift_Ok in E as (t & Et & E).
  apply bind_wrap_lift_Ok in E as (sgS & [s2 [Hs2 HS]]%Sign_signer & E). apply bind_wrap_lift_Ok in E as (s & Es & E).
  apply bind_gets_inv in E.
  apply bind_wrap_lift_Ok in E as (sgZ & [s3 [Hs3 HZ]]%Sign_signer & E). apply bind_wrap_lift_Ok in E as (z & Ez & E).
  apply wrap_Ok_inv, WriteMeta_files in E as (-> & -> & ->); [|done].
  exists v, hash, w1. eexists. split; [done|]. split; [done|]. split; [by eapply chain_of_documents|].
  cbn [v_targets v_snapshot v_timestamp targets_Signed meta_Signed mm_Common Version Expires]. done.
Qed.


(** ** Versions *)

(** The metadata an update has, as the server reads it. *)
Definition targets_of (w : world) (name : string) (T : AtsTufTargets) : Prop :=
  ReadTufMeta (tuf_updates h) name TufTargetsFile w = (Ok T, w).
Lemma ReadTufMeta_run {A} `{JSON A} updates name f w :
  faults w = [] -> ∃ r : result A, ReadTufMeta updates name f w = (r, w).
Proof.
  intros Hf. unfold ReadTufMeta, Updates_ReadFile, upd_localHandle, readFile, os_ReadFile. mrun.
  rewrite syscall_ok by done. repeat case_match; simplify_eq; eauto.
Qed.
Lemma latest_versions_loop_run l acc w :
  faults w = [] ->
  ∃ v, latest_versions_loop h l acc w = (Ok v, w) ∧ acc.1 <= v.1 ∧ acc.2 <= v.2 ∧
    (∀ u T, u ∈ l -> targets_of w (u_Name u) T ->
       Version (tm_Common (targets_Signed T)) <= v.1 ∧ GetLatestTargetVersion T <= v.2) ∧
    ∀ B, acc.1 < B -> acc.2 < B ->
      (∀ u T, u ∈ l -> targets_of w (u_Name u) T ->
         Version (tm_Common (targets_Signed T)) < B ∧ GetLatestTargetVersion T < B) -> v.1 < B ∧ v.2 < B.
Proof.
  intros Hf. revert acc. induction l as [|u l IH]; intros acc; cbn [latest_versions_loop].
  { exists acc. split_and!; try done. intros u T Hu. by apply elem_of_nil in Hu. }
  destruct (ReadTufMeta_run (A := AtsTufTargets) (tuf_updates h) (u_Name u) TufTargetsFile w Hf) as [r Er].
  set (acc' := match r with Ok T => latest_versions_step acc T | Err _ => acc end).
  destruct (IH acc') as (v & Ev & Hv1 & Hv2 & Hv & HB). exists v. erewrite bind_try by done. split; [exact Ev|].
  assert (acc.1 <= acc'.1 ∧ acc.2 <= acc'.2 ∧
    ∀ T, r = Ok T -> acc' = (acc.1 `max` Version (tm_Common (targets_Signed T)), acc.2 `max` GetLatestTargetVersion T)) as (Ha1 & Ha2 & Hmax).
  { subst acc'. destruct r as [T|e]; [|done]. unfold latest_versions_step. cbn [fst snd].
    destruct (Z.ltb_spec acc.1 (Version (tm_Common (targets_Signed T)))), (Z.ltb_spec acc.2 (GetLatestTargetVersion T));
      (split_and!; [lia|lia|intros T' [= <-]; f_equal; lia]). }
  split; [lia|]. split; [lia|]. split.
  - intros u' T [->|Hu]%elem_of_cons HT; [|by eapply Hv]. unfold targets_of in HT. rewrite Er in HT. injection HT as ->.
    rewrite (Hmax T eq_refl) in Hv1, Hv2. simpl in *. lia.
  - intros B HB1 HB2 HT. apply HB; [..|intros u' T Hu; apply HT; by right].
    + destruct r as [T|e]; [|done]. rewrite (Hmax T eq_refl). simpl. destruct (HT u T); [by left|done|lia].
    + destruct r as [T|e]; [|done]. rewrite (Hmax T eq_refl). simpl. destruct (HT u T); [by left|done|lia].
Qed.
Lemma ListUpdates_all w :
  faults w = [] ->
  ∃ l, ListUpdates "" w = (Ok l, w) ∧ ∀ name, is_Some (updates (db w) !! name) ↔ ∃ item, item ∈ l ∧ u_Name item = name.
Proof.
  intros Hf. unfold ListUpdates, stmtUpdateList_run. rewrite sql_query_run by done. eexists. split; [done|].
  intros name. split.
  - intros [up Hu]. exists {| u_Tag := up_tag up; u_Name := name; UploadedAt := up_uploaded_at up; UploadedBy := up_uploaded_by up;
      DeviceCount := Z.of_nat (length (assigned (db w) (up_tag up) name)) |}. split; [|reflexivity]. rewrite sort_by_elem. apply list_elem_of_In, List.in_map_iff.
    exists (name, up). split; [reflexivity|]. apply List.filter_In. by rewrite <-list_elem_of_In, elem_of_rows.
  - intros (item & Hi & <-). rewrite sort_by_elem in Hi. apply list_elem_of_In, List.in_map_iff in Hi as ([n u] & <- & Hi).
    apply List.filter_In in Hi as [Hi _]. rewrite <-list_elem_of_In, elem_of_rows in Hi. simpl. eauto.
Qed.
(** Is every version below [B]? *)
Definition versions_below (w : world) (B : Z) : Prop :=
  ∀ name T, is_Some (updates (db w) !! name) -> targets_of w name T ->
    Version (tm_Common (targets_Signed T)) < B ∧ GetLatestTargetVersion T < B.
Lemma getLatestVersions_bound w v w1 :
  faults w = [] -> getLatestVersions h w = (Ok v, w1) ->
  w1 = w ∧ 1 <= v.1 ∧ 0 <= v.2 ∧
  (∀ name T, is_Some (updates (db w) !! name) -> targets_of w name T ->
     Version (tm_Common (targets_Signed T)) <= v.1 ∧ GetLatestTargetVersion T <= v.2) ∧
  ∀ B, 1 < B -> versions_below w B -> v.1 < B ∧ v.2 < B.
Proof.
  intros Hf E. unfold getLatestVersions in E. destruct (ListUpdates_all w Hf) as (l & El & Hl).
  rewrite (bind_Ok _ _ _ _ _ El) in E. destruct (latest_versions_loop_run l (1, 0) w Hf) as (v' & Ev & Hv1 & Hv2 & Hv & HB).
  rewrite Ev in E. simplify_eq. split_and!; try done.
  - intros name T Hu HT. apply Hl in Hu as (item & Hi & <-). by eapply Hv.
  - intros B H1B Hbelow. apply HB; simpl; [lia|lia|]. intros u T Hu HT. apply (Hbelow (u_Name u)); [|done]. apply Hl. eauto.
Qed.

(** C27. Metadata generated for a new update supersedes that of every other update:
    its version is higher than all of theirs, and so is the version of its
    target unless the operator gave one of his own; the timestamp leaves room
    for a thousand refreshes below the next version. *)
Theorem generated_versions_increase root tufDir opts w w' :
  trusts root (signers h) -> dir_ok tufDir -> faults w = [] -> versions_below w (2 ^ 53) ->
  GenerateTufMeta h tufDir opts w = (Ok tt, w') ->
  ∃ chain target, verify_chain root (meta_at w' tufDir TufTimestampFile) (meta_at w' tufDir TufSnapshotFile)
      (meta_at w' tufDir TufTargetsFile) = Some chain ∧
    let version := Version (tm_Common (targets_Signed (v_targets chain))) in
    2 <= version ∧ Version (mm_Common (meta_Signed (v_timestamp chain))) = version * 1000 ∧
    dom (Targets (targets_Signed (v_targets chain))) = {[to_Name opts +:+ "-" +:+ Itoa target]} ∧
    ∀ name T, is_Some (updates (db w) !! name) -> targets_of w name T ->
      Version (tm_Common (targets_Signed T)) < version ∧ (AppVersion opts = 0 -> GetLatestTargetVersion T < target).
Proof.
  intros Ht Hd Hf Hsmall E.
  destruct (generate_run _ _ _ _ _ Ht Hd E) as (v & hash & w1 & chain & Ev & _ & Ec & Etg & _ & Ets & _).
  destruct (getLatestVersions_bound _ _ _ Hf Ev) as (-> & Hv1 & Hv2 & Hv & HB).
  destruct (HB (2 ^ 53)) as [HB1 HB2]; [lia|done|].
  exists chain. eexists. split; [done|]. rewrite Etg, Ets. cbn [generated_targets tm_Common Version Targets].
  rewrite (wrap64_small (v.1 + 1)) by (unfold in_int64; lia). rewrite (wrap64_small ((v.1 + 1) * 1000)) by (unfold in_int64; lia).
  split; [lia|]. split; [done|]. split; [by rewrite dom_singleton_L|].
  intros name T Hu HT. destruct (Hv name T Hu HT). split; [lia|]. intros Ha. rewrite Ha. simpl.
  rewrite wrap64_small by (unfold in_int64; lia). lia.
Qed.
End Generate.
