(* ===== verification/TufLife.v ===== *)
(** What keeps the TUF metadata alive: the refresh of the timestamps before
    they expire. *)
From S2P Require Import Prelude GoStrings Bytes GoPath Schema World BaseFs Crypto Models Tar Configs Updates Ostree FsHandles Tuf TufFs ApiStorage ApiTuf TufSpec.

(** ** Directories that exist *)

Definition dir_exists (w : world) (d : string) : Prop := ∀ a, a ∈ ancestors d -> fs w !! a = Some Dir.

Lemma dir_exists_is_dir w d : dir_ok d -> dir_exists w d -> is_dir w d = true.
Proof. intros Hd H. apply bool_decide_true. right. right. by apply H, ancestors_self. Qed.
Lemma mkdirs_exists d w : faults w = [] -> dir_exists w d -> mkdirs d true w = (Ok tt, w).
Proof.
  intros Hf Hd. unfold mkdirs, os_MkdirAll. rewrite syscall_ok by done.
  assert (existsb (λ a, match fs w !! a with Some (File _ _ _) => true | _ => false end) (ancestors d) = false) as ->.
  { apply not_true_iff_false. rewrite existsb_exists. intros (a & Ha & E). apply list_elem_of_In in Ha. by rewrite (Hd a Ha) in E. }
  assert (foldr (λ a m, <[a := Dir]> m) (fs w) (ancestors d) = fs w) as ->.
  { apply map_eq. intros k. rewrite foldr_mkdir_lookup. case_decide as Hk; [by rewrite (Hd k Hk)|done]. }
  by destruct w.
Qed.
(** No more components than the directory has. *)
Lemma ancestors_comps d a : dir_ok d -> a ∈ ancestors d -> (length (comps a) <= length (comps d))%nat.
Proof.
  intros [Hc Hne] Ha. apply elem_of_ancestors in Ha as (q & Hq & [k Hk] & ->).
  rewrite comps_render; [rewrite Hk, length_app; lia|].
  pose proof (comps_ok_comps d) as Hok. rewrite Hk in Hok. clear Hk. revert Hok. induction k as [|x k IH] using rev_ind.
  { by rewrite app_nil_r. }
  intros Hok. apply IH. rewrite app_assoc in Hok. by eapply comps_ok_init.
Qed.

Section Refresh.
Context `{Digest, Ed25519, !Ed25519Laws, TimeFormat}.
Context `{JSON AtsTufTargets, JSON AtsTufMeta, !JSONLaws AtsTufMeta}.
Context `{Canonical TargetsMeta, Canonical MetaMeta}.
Variable h : TufFsHandle.
Hypothesis updates_ok : dir_ok (tuf_updates h).

(** The directory of an update's metadata. *)
Definition tuf_dir (name : string) : string := path_of (path_of (tuf_updates h) name) UpdatesTufDir.
Definition timestamp_of (w : world) (name : string) (ts : AtsTufMeta) : Prop :=
  ∃ f, meta_at w (tuf_dir name) TufTimestampFile = Some f ∧ json_Unmarshal f = Ok ts.
Definition expiry (ts : AtsTufMeta) : Z := Expires (mm_Common (meta_Signed ts)).

Lemma tuf_name_ok : name_ok UpdatesTufDir. Proof. vm_compute. by split_and!. Qed.
Lemma timestamp_name_ok : name_ok TufTimestampFile. Proof. vm_compute. by split_and!. Qed.
Hint Resolve tuf_name_ok timestamp_name_ok : server.
Lemma tuf_dir_ok name : name_ok name -> dir_ok (tuf_dir name).
Proof. intros Hn. unfold tuf_dir. auto with server. Qed.
Hint Resolve tuf_dir_ok : server.
Lemma tuf_dir_join name : name_ok name -> filepath_Join [tuf_updates h; name; UpdatesTufDir] = tuf_dir name.
Proof. intros Hn. unfold tuf_dir. rewrite Join_entry2 by auto with server. by rewrite !str_app_assoc. Qed.
Lemma tuf_dir_inj a b : name_ok a -> name_ok b -> tuf_dir a = tuf_dir b -> a = b.
Proof.
  intros Ha Hb E. unfold tuf_dir in E.
  by apply path_of_dir_inj in E as [E%path_of_inj _]; auto with server.
Qed.

(** Reading the timestamp of an update. *)
Lemma ReadTufMeta_eq name w :
  name_ok name -> ReadTufMeta (A := AtsTufMeta) (tuf_updates h) name TufTimestampFile w =
    (content ← wrap "error reading file for update" (readFile (tuf_dir name) TufTimestampFile false);
     wrap "unable to parse metadata of update" (lift (json_Unmarshal content))) w.
Proof. intros Hn. unfold ReadTufMeta, Updates_ReadFile, upd_localHandle. by rewrite tuf_dir_join. Qed.
Lemma ReadTufMeta_Ok name w ts w' :
  name_ok name -> ReadTufMeta (tuf_updates h) name TufTimestampFile w = (Ok ts, w') ->
  fs w' = fs w ∧ timestamp_of w name ts.
Proof.
  intros Hn E. rewrite ReadTufMeta_eq in E by done.
  apply bind_wrap_Ok in E as (f & w1 & E1 & E). apply wrap_Ok_inv, lift_inv in E as [E ->].
  apply readFile_content in E1 as [Hfs [Hc|[? ?]]]; auto with server; [|done].
  split; [done|]. by exists f.
Qed.
Lemma ReadTufMeta_at name w ts :
  name_ok name -> faults w = [] -> timestamp_of w name ts ->
  ReadTufMeta (tuf_updates h) name TufTimestampFile w = (Ok ts, w).
Proof.
  intros Hn Hf (f & Hm & Hj). rewrite ReadTufMeta_eq by done.
  rewrite (bind_Ok _ _ _ _ _ (wrap_Ok _ _ _ _ _ (readFile_at (tuf_dir name) TufTimestampFile false w f (tuf_dir_ok _ Hn) timestamp_name_ok Hf Hm))).
  by rewrite Hj.
Qed.
(** The timestamp with a new expiry, signed again. *)
Definition renewed (ts : AtsTufMeta) (sg : Signature) (now : Z) : AtsTufMeta :=
  {| meta_Signatures := [sg];
     meta_Signed := with_expires ((now + TimestampExpiration h) / 1000 * 1000) (meta_Signed ts) |}.

Lemma WriteTimestamp_Ok name ts w w' :
  name_ok name -> WriteTimestamp h name ts w = (Ok tt, w') ->
  files_but (written_paths (tuf_dir name) TufTimestampFile) w w' ∧
  meta_at w' (tuf_dir name) TufTimestampFile = Some ts.
Proof.
  intros Hn E. unfold WriteTimestamp, Updates_WriteFile, upd_localHandle in E. rewrite tuf_dir_join in E by done.
  apply bind_inv_Ok in E as (d & w1 & E1 & E). apply bind_wrap_Ok in E1 as ([] & w2 & E2 & E1). minv E1.
  apply wrap_Ok_inv, writeFile_files in E as [A B]; auto with server.
  apply files_but_mkdirs in E2. split; [|done]. eapply files_but_weaken; [by eapply files_but_trans|]. done.
Qed.

(** One refresh that succeeds: nothing is done when the timestamp holds for more
    than a day; otherwise it is signed again with a new expiry. *)
Lemma refreshTufTimestamp_Ok u w w' :
  name_ok (u_Name u) -> refreshTufTimestamp h u w = (Ok tt, w') ->
  ∃ ts, timestamp_of w (u_Name u) ts ∧
    if clock w + 24 * hour_ms <? expiry ts then fs w' = fs w
    else ∃ sg, Sign h RoleTimestamp (meta_Signed (renewed ts sg (clock w))) = Ok sg ∧
      files_but (written_paths (tuf_dir (u_Name u)) TufTimestampFile) w w' ∧
      meta_at w' (tuf_dir (u_Name u)) TufTimestampFile = Some (json_Marshal (renewed ts sg (clock w))).
Proof.
  intros Hn E. unfold refreshTufTimestamp in E. apply bind_wrap_Ok in E as (ts & w1 & E1 & E).
  assert (clock w1 = clock w) as Hc.
  { assert (keeps fs_only (ReadTufMeta (A := AtsTufMeta) (tuf_updates h) (u_Name u) TufTimestampFile) any) as K.
    { unfold ReadTufMeta, Updates_ReadFile, upd_localHandle. keeps_auto. }
    by apply K in E1 as [(?&_) _]. }
  apply ReadTufMeta_Ok in E1 as [Hfs Hts]; [|done]. exists ts. split; [done|].
  apply bind_gets_inv in E. rewrite Hc in E. unfold expiry.
  destruct (_ <? _); [by minv E|].
  apply bind_gets_inv in E. rewrite Hc in E. apply bind_wrap_lift_Ok in E as (sg & Hs & E). exists sg. split; [done|].
  apply WriteTimestamp_Ok in E as [A B]; [|done]. split; [|done].
  eapply files_but_weaken; [eapply files_but_trans; [by apply (files_but_fs [])|done]|done].
Qed.

(** The three documents of an update. *)
Definition chain_at (root : RootMeta) (w : world) (name : string) : option verified :=
  verify_chain root (meta_at w (tuf_dir name) TufTimestampFile) (meta_at w (tuf_dir name) TufSnapshotFile)
    (meta_at w (tuf_dir name) TufTargetsFile).

Lemma metadata_path_written d a b :
  a ∈ metadata_names -> b ∈ metadata_names -> a <> b -> path_of d a ∉ written_paths d b.
Proof.
  intros Ha Hb Hab. unfold written_paths. rewrite !elem_of_cons, elem_of_nil.
  intros [Hc|[Hc|[]]]; apply path_of_inj in Hc; [done|]. revert Ha Hb Hc. clear.
  unfold metadata_names. rewrite !elem_of_cons, !elem_of_nil.
  intros [->|[->|[->|[]]]] [->|[->|[->|[]]]]; intros E; vm_compute in E; discriminate E.
Qed.
Lemma verify_chain_inv root ts ss tg chain :
  verify_chain root ts ss tg = Some chain ->
  ∃ tsf ssf tgf, ts = Some tsf ∧ ss = Some ssf ∧ tg = Some tgf ∧
    json_Unmarshal tsf = Ok (v_timestamp chain) ∧ json_Unmarshal ssf = Ok (v_snapshot chain) ∧
    json_Unmarshal tgf = Ok (v_targets chain) ∧
    let tsm := meta_Signed (v_timestamp chain) in
    signed_by root RoleTimestamp (mm_Common tsm) tsm (meta_Signatures (v_timestamp chain)) = true.
Proof.
  unfold verify_chain. destruct ts as [tsf|], ss as [ssf|], tg as [tgf|]; try done.
  destruct (json_Unmarshal tsf) eqn:E1; [|done]. destruct (json_Unmarshal ssf) eqn:E2; [|done].
  destruct (json_Unmarshal tgf) eqn:E3; [|done]. destruct (_ && _) eqn:E; [|done]. intros [= <-].
  cbn [v_timestamp v_snapshot v_targets]. bool_to_prop. eauto 10.
Qed.
(** Replacing the timestamp by one that is signed and refers to the same
    snapshot. *)
Lemma verify_chain_replace root ts ss tg chain f ts' :
  verify_chain root ts ss tg = Some chain -> json_Unmarshal f = Ok ts' ->
  Meta (meta_Signed ts') = Meta (meta_Signed (v_timestamp chain)) ->
  signed_by root RoleTimestamp (mm_Common (meta_Signed ts')) (meta_Signed ts') (meta_Signatures ts') = true ->
  verify_chain root (Some f) ss tg =
    Some {| v_timestamp := ts'; v_snapshot := v_snapshot chain; v_targets := v_targets chain |}.
Proof.
  unfold verify_chain. intros E Hf Hm Hs. destruct ts as [tsf|], ss as [ssf|], tg as [tgf|]; try done.
  destruct (json_Unmarshal tsf) eqn:E1; [|done]. destruct (json_Unmarshal ssf) eqn:E2; [|done].
  destruct (json_Unmarshal tgf) eqn:E3; [|done]. destruct (_ && _) eqn:Ec in E; [|done]. injection E as <-.
  cbn [v_timestamp v_snapshot v_targets] in *. rewrite Hf, Hs, Hm. bool_to_prop. cbn [andb].
  by repeat match goal with Hc : _ = true |- _ => rewrite Hc; clear Hc end.
Qed.
Lemma signed_by_type {A} `{Canonical A} root role c (v : A) sigs :
  signed_by root role c v sigs = true -> sc_Type c = TufType role.
Proof. unfold signed_by. repeat case_match; try done. intros E. bool_to_prop. by apply String.eqb_eq. Qed.

(** C26. A refresh keeps what a device accepts: the three documents still verify, the
    targets and the snapshot are the same, the timestamp has its version and
    refers to the same snapshot; its expiry only moves when less than a day is
    left, and then to the configured period from now. *)
Theorem refresh_keeps_chain root u chain w w' :
  trusts root (signers h) -> name_ok (u_Name u) -> refreshTufTimestamp h u w = (Ok tt, w') ->
  chain_at root w (u_Name u) = Some chain ->
  ∃ chain', chain_at root w' (u_Name u) = Some chain' ∧
    v_targets chain' = v_targets chain ∧ v_snapshot chain' = v_snapshot chain ∧
    Version (mm_Common (meta_Signed (v_timestamp chain'))) = Version (mm_Common (meta_Signed (v_timestamp chain))) ∧
    expiry (v_timestamp chain') =
      (if clock w + 24 * hour_ms <? expiry (v_timestamp chain) then expiry (v_timestamp chain)
       else (clock w + TimestampExpiration h) / 1000 * 1000).
Proof.
  intros Ht Hn E Hc. apply refreshTufTimestamp_Ok in E as (ts & (f & Hf & Hj) & E); [|done].
  pose proof (verify_chain_inv _ _ _ _ _ Hc) as (f' & ? & ? & Hf' & Hs & Hg & Hj' & _ & _ & Hsig).
  rewrite Hf in Hf'. injection Hf' as <-. rewrite Hj in Hj'. injection Hj' as ->.
  destruct (_ <? _).
  { exists chain. split_and!; try done. rewrite <-Hc. unfold chain_at, meta_at, file_at. by rewrite E. }
  destruct E as (sg & [s [Hss Hsg]]%Sign_signer & Hb & Hm). eexists. split.
  - unfold chain_at. rewrite Hm. unfold meta_at.
    rewrite (Hb (path_of _ TufSnapshotFile)), (Hb (path_of _ TufTargetsFile))
      by (apply metadata_path_written; [..|discriminate]; unfold metadata_names; set_solver).
    eapply (verify_chain_replace _ _ _ _ chain); [exact Hc|apply json_roundtrip|done|].
    eapply (trusted_signature root (signers h) RoleTimestamp s); try done; [unfold tufRoles; set_solver|].
    by apply signed_by_type in Hsig.
  - cbn [v_targets v_snapshot v_timestamp]. done.
Qed.

(** ** Every timestamp is refreshed in time *)

(** The update's metadata directory is there, and no directory is in the way of
    the timestamp. *)
Definition refreshable (w : world) (name : string) : Prop :=
  name_ok name ∧ dir_exists w (tuf_dir name) ∧
  ∀ k, k ∈ written_paths (tuf_dir name) TufTimestampFile -> fs w !! k <> Some Dir.
(** The timestamp holds for more than a day. *)
Definition alive (w : world) (name : string) : Prop :=
  ∃ ts, timestamp_of w name ts ∧ clock w + 24 * hour_ms < expiry ts.
Definition can_sign : Prop := ∀ m : MetaMeta, ∃ sg, Sign h RoleTimestamp m = Ok sg.

Lemma WriteTimestamp_run name ts w :
  faults w = [] -> refreshable w name ->
  ∃ w', WriteTimestamp h name ts w = (Ok tt, w') ∧ fs_only w w' ∧
    agree_but (written_paths (tuf_dir name) TufTimestampFile) w w' ∧
    (∀ k, k ∈ written_paths (tuf_dir name) TufTimestampFile -> fs w' !! k <> Some Dir).
Proof.
  intros Hf (Hn & Hd & Hk).
  destruct (writeFile_ok (tuf_dir name) TufTimestampFile ts defaultFileAccess w) as [w' Hw]; auto with server.
  { apply dir_exists_is_dir; auto with server. }
  { apply Hk. unfold written_paths. set_solver. }
  { apply Hk. unfold written_paths. set_solver. }
  exists w'. split.
  { unfold WriteTimestamp, Updates_WriteFile, upd_localHandle. rewrite tuf_dir_join by done.
    rewrite bind_assoc, (bind_Ok _ _ _ _ _ (wrap_Ok _ _ _ _ _ (mkdirs_exists _ _ Hf Hd))). by apply wrap_Ok. }
  split; [by apply fs_only_writeFile in Hw as [? _]|].
  apply writeFile_spec in Hw as [A [(m & t & B) C]]; auto with server. split; [exact A|].
  intros k Hin. unfold written_paths in Hin. rewrite !elem_of_cons, elem_of_nil in Hin.
  destruct Hin as [->|[->|[]]]; [by rewrite B|by rewrite C].
Qed.
Lemma timestamp_of_fs w w' name ts : fs w' = fs w -> timestamp_of w name ts -> timestamp_of w' name ts.
Proof. unfold timestamp_of, meta_at, file_at. by intros ->. Qed.
Lemma refresh_step u w :
  can_sign -> 24 * hour_ms + 1000 <= TimestampExpiration h -> faults w = [] -> refreshable w (u_Name u) ->
  ∃ r w', refreshTufTimestamp h u w = (r, w') ∧ fs_only w w' ∧
    agree_but (written_paths (tuf_dir (u_Name u)) TufTimestampFile) w w' ∧
    (∀ k, k ∈ written_paths (tuf_dir (u_Name u)) TufTimestampFile -> fs w' !! k <> Some Dir) ∧
    ((∃ ts, timestamp_of w (u_Name u) ts) -> alive w' (u_Name u)).
Proof.
  intros Hsign Hexp Hf Hr. pose proof Hr as (Hn & Hd & Hk).
  destruct (ReadTufMeta_run (A := AtsTufMeta) (tuf_updates h) (u_Name u) TufTimestampFile w Hf) as [[ts|e] Er].
  2: { eexists _, w. split; [|split_and!; [done|auto with server|done|]].
       - unfold refreshTufTimestamp. by rewrite (bind_Err _ _ _ _ _ (wrap_Err _ _ _ _ _ Er)).
       - intros [ts Hts]. by rewrite (ReadTufMeta_at _ _ ts) in Er. }
  pose proof Er as [_ Hts]%ReadTufMeta_Ok; [|done].
  unfold refreshTufTimestamp. rewrite (bind_Ok _ _ _ _ _ (wrap_Ok _ _ _ _ _ Er)).
  unfold expiry in *. unfold mbind at 1, M_bind at 1, gets at 1. cbn [fst snd].
  destruct (Z.ltb_spec (clock w + 24 * hour_ms) (Expires (mm_Common (meta_Signed ts)))) as [Hlt|Hge].
  { eexists _, w. split_and!; [done..|auto with server|done|]. intros _. by exists ts. }
  unfold expires_in. unfold mbind at 1, M_bind at 1, gets at 1. cbn [fst snd].
  destruct (Hsign (with_expires ((clock w + TimestampExpiration h) / 1000 * 1000) (meta_Signed ts))) as [sg Hsg].
  rewrite Hsg. unfold mbind at 1, M_bind at 1, wrap at 1, map_err at 1, lift at 1. cbn [fst snd].
  set (new := {| meta_Signatures := [sg]; meta_Signed := _ |}).
  destruct (WriteTimestamp_run (u_Name u) (json_Marshal new) w Hf Hr) as (w' & E & A & B & C).
  exists (Ok tt), w'. split; [exact E|]. split; [done|]. split; [done|]. split; [done|]. intros _.
  exists new. pose proof (WriteTimestamp_Ok _ _ _ _ Hn E) as [_ Hm]. split.
  { exists (json_Marshal new). split; [done|apply json_roundtrip]. }
  destruct A as (-> & _). unfold expiry, new. cbn [meta_Signed with_expires mm_Common Expires].
  pose proof (Z.mod_pos_bound (clock w + TimestampExpiration h) 1000 ltac:(lia)).
  pose proof (Z.div_mod (clock w + TimestampExpiration h) 1000 ltac:(lia)). lia.
Qed.

Lemma written_path_name d k :
  k ∈ written_paths d TufTimestampFile -> ∃ n, name_ok n ∧ k = path_of d n.
Proof.
  unfold written_paths. rewrite !elem_of_cons, elem_of_nil.
  intros [->|[->|[]]]; eexists; (split; [|reflexivity]); auto with server.
Qed.
Lemma ancestor_not_written a b k :
  name_ok a -> name_ok b -> k ∈ ancestors (tuf_dir b) -> k ∉ written_paths (tuf_dir a) TufTimestampFile.
Proof.
  intros Ha Hb Hk (n & Hn & ->)%written_path_name. apply ancestors_comps in Hk; [|auto with server].
  revert Hk. unfold tuf_dir. rewrite !comps_app_name, !length_app by auto with server. cbn [length]. lia.
Qed.
Lemma written_paths_disjoint a b k :
  name_ok a -> name_ok b -> a <> b -> k ∈ written_paths (tuf_dir b) TufTimestampFile ->
  k ∉ written_paths (tuf_dir a) TufTimestampFile.
Proof.
  intros Ha Hb Hab (n & Hn & ->)%written_path_name (m & Hm & E)%written_path_name.
  apply path_of_dir_inj in E as [E%tuf_dir_inj _]; auto with server.
Qed.
Lemma refreshable_others a b w w' :
  name_ok a -> a <> b -> agree_but (written_paths (tuf_dir a) TufTimestampFile) w w' ->
  refreshable w b -> refreshable w' b.
Proof.
  intros Ha Hab Hag (Hb & Hd & Hk). split; [done|]. split.
  - intros k Hin. rewrite Hag; [by apply Hd|by eapply ancestor_not_written].
  - intros k Hin. rewrite Hag; [by apply Hk|by eapply written_paths_disjoint].
Qed.
Lemma timestamp_others a b w w' ts :
  name_ok a -> name_ok b -> a <> b -> agree_but (written_paths (tuf_dir a) TufTimestampFile) w w' ->
  timestamp_of w b ts -> timestamp_of w' b ts.
Proof.
  intros Ha Hb Hab Hag (f & Hf & Hj). exists f. split; [|done]. rewrite <-Hf. apply file_at_fs, Hag.
  eapply written_paths_disjoint; try done. unfold written_paths. by left.
Qed.
Lemma refresh_all l w :
  can_sign -> 24 * hour_ms + 1000 <= TimestampExpiration h -> faults w = [] ->
  (∀ u, u ∈ l -> refreshable w (u_Name u)) ->
  ∃ w', forM l (λ u, ignore (refreshTufTimestamp h u)) w = (Ok tt, w') ∧
    (∀ u, u ∈ l -> (∃ ts, timestamp_of w (u_Name u) ts) -> alive w' (u_Name u)) ∧
    (∀ n, name_ok n -> alive w n -> alive w' n) ∧ fs_only w w' ∧ (∀ n, refreshable w n -> refreshable w' n).
Proof.
  intros Hs He. revert w. induction l as [|u l IH]; intros w Hf Hr.
  { exists w. split_and!; try done. intros u Hu. by apply elem_of_nil in Hu. }
  destruct (refresh_step u w Hs He Hf (Hr u ltac:(by left))) as (r & w1 & E & Hfs & Hag & Hnd & Hal).
  pose proof (Hr u ltac:(by left)) as (Hn & Hdir & Hkey).
  assert (alive w1 (u_Name u) ∨ alive w (u_Name u) -> alive w1 (u_Name u)) as Hal'.
  { intros [Ha|(ts & Hts & _)]; [done|]. apply Hal. by exists ts. }
  assert (∀ n, name_ok n -> alive w n -> alive w1 n) as Hkeep.
  { intros n Hnn Ha. destruct (decide (u_Name u = n)) as [<-|Hne]; [by apply Hal'; right|].
    destruct Ha as (ts & Hts & Hlt). exists ts. split; [by apply (timestamp_others (u_Name u) n w w1)|]. by destruct Hfs as [-> _]. }
  assert (∀ n, refreshable w n -> refreshable w1 n) as Href.
  { intros n Hrn. destruct (decide (u_Name u = n)) as [<-|Hne]; [|by eapply refreshable_others].
    split; [done|]. split; [|done]. intros k Hk. rewrite Hag; [by apply Hdir|by eapply ancestor_not_written]. }
  destruct (IH w1) as (w' & E' & Hall & Hkeep' & Hfs' & Href').
  { destruct Hfs as (_ & _ & _ & _ & Hsuf). by eapply suffix_no_faults. }
  { intros u' Hu'. apply Href, Hr. by right. }
  exists w'. cbn [forM]. rewrite (bind_ignore _ _ _ _ _ E). split; [done|]. split; [|split; [|split; [by etrans|auto]]].
  - intros u' [->|Hu']%elem_of_cons Hts; [by apply Hkeep'; [|apply Hal]|].
    destruct (decide (u_Name u = u_Name u')) as [Heq|Hne].
    + rewrite <-Heq in *. by apply Hkeep'; [|apply Hal].
    + apply Hall; [done|]. destruct Hts as [ts Hts]. exists ts.
      eapply timestamp_others; try done. by destruct (Hr u' ltac:(by right)).
  - intros n Hnn Ha. by apply Hkeep', Hkeep.
Qed.

(** A round of the daemon keeps every update installable: when nothing fails,
    each update whose timestamp could be read has one that holds for more than
    a day, whatever the state of the metadata of the others. *)
Theorem RefreshTufTimestamps_live w :
  can_sign -> 24 * hour_ms + 1000 <= TimestampExpiration h -> faults w = [] ->
  (∀ name, is_Some (updates (db w) !! name) -> refreshable w name) ->
  ∃ w', RefreshTufTimestamps h w = (Ok tt, w') ∧
    ∀ name, is_Some (updates (db w) !! name) -> (∃ ts, timestamp_of w name ts) -> alive w' name.
Proof.
  intros Hs He Hf Hr. destruct (ListUpdates_all w Hf) as (l & El & Hl).
  destruct (refresh_all l w Hs He Hf) as (w' & E & Hall & _).
  { intros u Hu. apply Hr, Hl. by exists u. }
  exists w'. unfold RefreshTufTimestamps. rewrite (bind_Ok _ _ _ _ _ El). split; [done|].
  intros name Hn Hts. apply Hl in Hn as (u & Hu & <-). by apply Hall.
Qed.
End Refresh.
