(* ===== verification/TufKeys.v ===== *)
(** The keys and the root of trust that [InitTuf] and [ImportTuf] set up, and
    that [LoadTuf] reads back. *)
From S2P Require Import Prelude GoStrings Bytes GoPath Schema World BaseFs Crypto Models Tar Configs Updates Ostree FsHandles Tuf TufFs ApiStorage ApiTuf TufSpec TufLife.

(** ** Directories stay *)

Lemma mkdirs_keeps_dir p w r w' k : mkdirs p true w = (r, w') -> fs w !! k = Some Dir -> fs w' !! k = Some Dir.
Proof.
  unfold mkdirs, os_MkdirAll. intros E Hk. apply syscall_inv in E as [[l E]|(e & l & -> & ->)]; [|done].
  simpl in E. destruct (existsb _ _); simplify_eq; [done|]. simpl. rewrite foldr_mkdir_lookup. by case_decide.
Qed.
Lemma writeFile_keeps_dir root name c m w r w' k :
  dir_ok root -> name_ok name -> writeFile root name c m w = (r, w') -> k ∉ written_paths root name ->
  fs w !! k = Some Dir -> fs w' !! k = Some Dir.
Proof. intros Hr Hn E Hk Hd. apply writeFile_spec in E as [A _]; [|done..]. by rewrite A. Qed.
Lemma write_metas_keeps_dir dir msg t s z w r w' k :
  dir_ok dir -> write_metas dir msg t s z w = (r, w') -> k ∉ metadata_paths dir ->
  fs w !! k = Some Dir -> fs w' !! k = Some Dir.
Proof.
  intros Hd E Hk. unfold metadata_paths, metadata_names in Hk. cbn [map concat] in Hk. rewrite !elem_of_app in Hk.
  unfold write_metas in E. cbn [forM fst snd] in E.
  assert (∀ n w r w', n ∈ metadata_names -> wrap msg (writeFile dir n
      (if String.eqb n TufTargetsFile then t else if String.eqb n TufSnapshotFile then s else z) defaultFileAccess) w = (r, w') ->
      k ∉ written_paths dir n -> fs w !! k = Some Dir -> fs w' !! k = Some Dir) as Hw.
  { intros n w1 r1 w2 Hn E1 Hk1. apply map_err_inv in E1 as (r0 & E1 & ->).
    eapply writeFile_keeps_dir; [done|by apply metadata_name_ok|exact E1|done]. }
  intros H0. apply bind_inv in E as [([] & w1 & E1 & E)|(e & E1 & ->)];
    (apply (Hw TufTargetsFile) in E1; [|unfold metadata_names; set_solver|tauto|done]); [|done].
  apply bind_inv in E as [([] & w2 & E2 & E)|(e & E2 & ->)];
    (apply (Hw TufSnapshotFile) in E2; [|unfold metadata_names; set_solver|tauto|done]); [|done].
  apply bind_inv in E as [([] & w3 & E3 & E)|(e & E3 & ->)];
    (apply (Hw TufTimestampFile) in E3; [|unfold metadata_names; set_solver|tauto|done]); [|done].
  by minv E.
Qed.

Section KeyStore.
Context `{KeyEncryption, !KeyEncryptionLaws, JSON AtsKey, !JSONLaws AtsKey, Digest, Ed25519, !Ed25519Laws}.
Variable h : TufFsHandle.
Hypothesis root_ok : dir_ok (tuf_root h).

Lemma keys_name_ok : name_ok tufKeysDir. Proof. vm_compute. by split_and!. Qed.
Lemma default_name_ok : name_ok tufDefaultDir. Proof. vm_compute. by split_and!. Qed.
Lemma role_key_name_ok role : role ∈ tufRoles -> name_ok (role +:+ ".key").
Proof. unfold tufRoles. intros Hr. repeat (apply elem_of_cons in Hr as [->|Hr]; [vm_compute; by split_and!|]). by apply elem_of_nil in Hr. Qed.
Lemma NoDup_tufRoles : NoDup tufRoles.
Proof. apply (bool_decide_eq_true_1 (NoDup tufRoles)). by vm_compute. Qed.
Lemma role_key_inj a b : a +:+ ".key" = b +:+ ".key" -> a = b.
Proof. apply str_app_inv_tail. Qed.
Hint Resolve keys_name_ok default_name_ok role_key_name_ok : server.
Lemma keysDir_eq : keysDir h = path_of (tuf_root h) tufKeysDir.
Proof. unfold keysDir. rewrite Join_entry by auto with server. done. Qed.
Lemma keysDir_ok : dir_ok (keysDir h).
Proof. rewrite keysDir_eq. auto with server. Qed.
Hint Resolve keysDir_ok : server.

(** The file holds the signer's key, encrypted under the secret. *)
Definition key_file (secret : string) (role : RoleName) (s : Signer) (c : string) : Prop :=
  ∃ nonce, len nonce = 12 ∧
    c = nonce +:+ gcm_Seal (deriveKeyEncryptionKey secret role) nonce (json_Marshal (PrivateAtsKey s)).
Definition stored_key (secret : string) (w : world) (role : RoleName) (s : Signer) : Prop :=
  signer_ok s ∧ ∃ c, file_at w (path_of (keysDir h) (role +:+ ".key")) = Some c ∧ key_file secret role s c.

Lemma encryptBytes_Ok secret role s w c w' :
  encryptBytes (deriveKeyEncryptionKey secret role) (json_Marshal (PrivateAtsKey s)) w = (Ok c, w') ->
  fs w' = fs w ∧ key_file secret role s c.
Proof.
  unfold encryptBytes. intros E. apply bind_lift_Ok in E as (_ & _ & E).
  apply bind_inv_Ok in E as (nonce & w1 & E1 & E). apply rand_Read_len in E1 as [Hl ->]. minv E.
  split; [done|]. by exists nonce.
Qed.
Lemma decryptBytes_key secret role s c :
  key_file secret role s c -> decryptBytes (deriveKeyEncryptionKey secret role) c = Ok (json_Marshal (PrivateAtsKey s)).
Proof.
  intros (nonce & Hl & ->). unfold decryptBytes, aes_NewCipher, deriveKeyEncryptionKey. rewrite hkdf_read_length.
  cbn [Z.eqb orb mbind result_bind Pos.eqb]. unfold len at 1. rewrite str_length_app.
  assert (String.length nonce = 12%nat) as Hn by (unfold len in Hl; lia).
  destruct (Z.ltb_spec (Z.of_nat (String.length nonce + String.length (gcm_Seal (hkdf_read secret hkdfKeyEncSalt role) nonce
      (json_Marshal (PrivateAtsKey s))))) gcm_NonceSize) as [Hlt|_]; [unfold gcm_NonceSize in Hlt; lia|].
  rewrite <-Hn, str_take_app_exact, str_drop_app. apply gcm_open_seal.
Qed.

Lemma writeKey_Ok secret role s w w' :
  role ∈ tufRoles -> signer_ok s -> writeKey h secret role s w = (Ok tt, w') ->
  files_but (written_paths (keysDir h) (role +:+ ".key")) w w' ∧ stored_key secret w' role s.
Proof.
  intros Hr Hs E. unfold writeKey in E. apply bind_wrap_Ok in E as (c & w1 & E1 & E).
  apply encryptBytes_Ok in E1 as [Hfs Hc]. apply wrap_Ok_inv, writeFile_files in E as [A B]; auto with server.
  split; [|split; [done|by exists c]].
  intros k Hk. rewrite A by done. unfold file_at. by rewrite Hfs.
Qed.
(** Reading a stored key. *)
Lemma readKey_stored secret role s w :
  role ∈ tufRoles -> faults w = [] -> stored_key secret w role s -> readKey h secret role w = (Ok s, w).
Proof.
  intros Hr Hf (Hs & c & Hat & Hc). unfold readKey.
  rewrite (bind_Ok _ _ _ _ _ (wrap_Ok _ _ _ _ _ (readFile_at (keysDir h) _ false w c keysDir_ok (role_key_name_ok _ Hr) Hf Hat))).
  mrun. rewrite (decryptBytes_key _ _ _ _ Hc). rewrite json_roundtrip. by rewrite SignerFromAtsKey_Private.
Qed.
Lemma stored_key_files secret keys w w' role s :
  files_but keys w w' -> path_of (keysDir h) (role +:+ ".key") ∉ keys -> stored_key secret w role s -> stored_key secret w' role s.
Proof. intros Hb Hk (Hs & c & Hc & Hf). split; [done|]. exists c. by rewrite Hb. Qed.

(** The paths that the keys of the roles are written through. *)
Definition key_paths (roles : list RoleName) : list string :=
  concat (map (λ role, written_paths (keysDir h) (role +:+ ".key")) roles).
Lemma elem_of_key_paths roles k :
  k ∈ key_paths roles ↔ ∃ role, role ∈ roles ∧ k ∈ written_paths (keysDir h) (role +:+ ".key").
Proof.
  unfold key_paths. induction roles as [|r roles IH]; cbn [map concat].
  - split; [by intros Hk%elem_of_nil|]. by intros (? & Hr%elem_of_nil & _).
  - rewrite elem_of_app, IH. setoid_rewrite elem_of_cons. naive_solver.
Qed.
Lemma key_path_written role role' :
  role ∈ tufRoles -> role' ∈ tufRoles -> role <> role' ->
  path_of (keysDir h) (role +:+ ".key") ∉ written_paths (keysDir h) (role' +:+ ".key").
Proof.
  intros Hr Hr' Hne. unfold written_paths. rewrite !elem_of_cons, elem_of_nil.
  intros [E|[E|[]]]; apply path_of_inj in E; [by apply role_key_inj in E|]. revert Hr Hr' E. clear. unfold tufRoles.
  rewrite !elem_of_cons, !elem_of_nil.
  intros [->|[->|[->|[->|[]]]]] [->|[->|[->|[->|[]]]]] E; vm_compute in E; discriminate E.
Qed.

Lemma generate_signers_Ok secret roles sgs w sgs' w' :
  NoDup roles -> roles ⊆ tufRoles -> generate_signers h secret roles sgs w = (Ok sgs', w') ->
  files_but (key_paths roles) w w' ∧
  (∀ role, role ∈ roles -> ∃ s, sgs' !! role = Some s ∧ stored_key secret w' role s) ∧
  (∀ role, role ∉ roles -> sgs' !! role = sgs !! role).
Proof.
  revert sgs w. induction roles as [|role roles IH]; intros sgs w Hnd Hsub E; cbn [generate_signers] in E.
  { minv E. split_and!; [apply files_but_refl|intros r Hr; by apply elem_of_nil in Hr|done]. }
  apply NoDup_cons in Hnd as [Hni Hnd].
  apply bind_wrap_Ok in E as (s & w1 & E1 & E). pose proof (NewSigner_ok _ _ _ E1) as Hs.
  apply bind_inv_Ok in E as ([] & w2 & E2 & E).
  apply writeKey_Ok in E2 as [A B]; [|set_solver|done]. apply IH in E as (C & D & F); [|done|set_solver].
  assert (fs w1 = fs w) as Hfs.
  { unfold NewSigner in E1. apply bind_inv_Ok in E1 as (seed & w3 & E3 & E1). apply rand_Read_len in E3 as [_ ->].
    apply bind_lift_Ok in E1 as (i & _ & E1). by minv E1. }
  split_and!.
  - eapply files_but_weaken; [eapply files_but_trans; [eapply files_but_trans; [by apply (files_but_fs [])|exact A]|exact C]|]. done.
  - intros r [->|Hr]%elem_of_cons; [|by apply D]. exists s. split; [by rewrite F, lookup_insert_eq|].
    eapply stored_key_files; [exact C| |exact B]. intros (r' & Hr' & Hk)%elem_of_key_paths.
    revert Hk. apply key_path_written; [set_solver..|]. by intros ->.
  - intros r Hr. rewrite F by set_solver. apply lookup_insert_ne. set_solver.
Qed.

(** The signers of the roles, as stored. *)
Definition stored_keys (secret : string) (w : world) (sgs : gmap string Signer) : Prop :=
  ∀ role, role ∈ tufRoles -> ∃ s, sgs !! role = Some s ∧ stored_key secret w role s.
Lemma stored_keys_files secret keys w w' sgs :
  files_but keys w w' -> (∀ k, k ∈ keys -> ∀ role, role ∈ tufRoles -> k <> path_of (keysDir h) (role +:+ ".key")) ->
  stored_keys secret w sgs -> stored_keys secret w' sgs.
Proof.
  intros Hb Hk Hs role Hr. destruct (Hs role Hr) as (s & Hss & Hst). exists s. split; [done|].
  eapply stored_key_files; try done. intros Hin. by eapply Hk.
Qed.
Lemma read_signers_stored secret sgs w roles acc :
  faults w = [] -> stored_keys secret w sgs -> roles ⊆ tufRoles -> NoDup roles ->
  ∃ sgs', read_signers h secret roles acc w = (Ok sgs', w) ∧
    (∀ role, role ∈ roles -> sgs' !! role = sgs !! role) ∧ (∀ role, role ∉ roles -> sgs' !! role = acc !! role).
Proof.
  intros Hf Hs. revert acc. induction roles as [|role roles IH]; intros acc Hsub Hnd.
  { exists acc. split_and!; [done| |done]. intros r Hr. by apply elem_of_nil in Hr. }
  apply NoDup_cons in Hnd as [Hni Hnd]. destruct (Hs role ltac:(set_solver)) as (s & Hss & Hst).
  destruct (IH (<[role := s]> acc) ltac:(set_solver) Hnd) as (sgs' & E & Hin & Hout). exists sgs'. cbn [read_signers].
  rewrite (bind_Ok _ _ _ _ _ (readKey_stored secret role s w ltac:(set_solver) Hf Hst)). split; [done|]. split.
  - intros r [->|Hr]%elem_of_cons; [|by apply Hin]. by rewrite Hout, lookup_insert_eq.
  - intros r Hr. rewrite Hout by set_solver. apply lookup_insert_ne. set_solver.
Qed.

(** ** A root that lists the new keys *)

(** Different public keys have different identifiers. *)
Hypothesis key_ids : ∀ a b i, tufKeyID a = Ok i -> tufKeyID b = Ok i -> a = b.
Lemma same_id s t : signer_ok s -> signer_ok t -> sg_Id s = sg_Id t -> PublicAtsKey s = PublicAtsKey t.
Proof.
  intros (Hk & Hi & _) (Hk' & Hi' & _) E. rewrite E in Hi. unfold PublicAtsKey. by rewrite Hk, Hk', (key_ids _ _ _ Hi Hi').
Qed.
Lemma new_root_trusts sgs version expires :
  (∀ role, role ∈ tufRoles -> ∃ s, sgs !! role = Some s ∧ signer_ok s) -> trusts (new_root sgs version expires) sgs.
Proof.
  intros Hs role Hr. destruct (Hs role Hr) as (s & Hss & Hok). exists s. split; [done|]. split; [done|].
  destruct (Hs RoleRoot) as (s1 & E1 & O1); [unfold tufRoles; set_solver|].
  destruct (Hs RoleTargets) as (s2 & E2 & O2); [unfold tufRoles; set_solver|].
  destruct (Hs RoleSnapshot) as (s3 & E3 & O3); [unfold tufRoles; set_solver|].
  destruct (Hs RoleTimestamp) as (s4 & E4 & O4); [unfold tufRoles; set_solver|].
  unfold new_root, root_roles, root_keys. cbn [Roles Keys]. unfold tufRoles. cbn [foldl]. rewrite E1, E2, E3, E4.
  assert (∀ (m : gmap string AtsKey) t, signer_ok t -> sg_Id t = sg_Id s -> <[sg_Id t := PublicAtsKey t]> m !! sg_Id s = Some (PublicAtsKey s)) as Hsame.
  { intros m t Ht E. rewrite E, lookup_insert_eq. f_equal. by apply same_id. }
  split.
  - unfold tufRoles in Hr. rewrite !elem_of_cons, elem_of_nil in Hr.
    destruct Hr as [->|[->|[->|[->|[]]]]]; simplify_eq; by vm_compute.
  - destruct (decide (sg_Id s4 = sg_Id s)) as [E|Hne4]; [by apply Hsame|rewrite lookup_insert_ne by done].
    destruct (decide (sg_Id s3 = sg_Id s)) as [E|Hne3]; [by apply Hsame|rewrite lookup_insert_ne by done].
    destruct (decide (sg_Id s2 = sg_Id s)) as [E|Hne2]; [by apply Hsame|rewrite lookup_insert_ne by done].
    destruct (decide (sg_Id s1 = sg_Id s)) as [E|Hne1]; [by apply Hsame|exfalso].
    unfold tufRoles in Hr. rewrite !elem_of_cons, elem_of_nil in Hr.
    destruct Hr as [->|[->|[->|[->|[]]]]]; simplify_eq.
Qed.
End KeyStore.

(** ** Initialization *)

Section Init.
Context `{KeyEncryption, !KeyEncryptionLaws, JSON AtsKey, !JSONLaws AtsKey, Digest, Ed25519, !Ed25519Laws}.
Context `{JSON AtsTufRoot, JSONIndent AtsTufRoot, !JSONIndentLaws AtsTufRoot, JSON AtsTufTargets, JSON AtsTufMeta}.
Context `{Canonical RootMeta, Canonical TargetsMeta, Canonical MetaMeta, Canonical AtsTufTargets, Canonical AtsTufMeta}.
Context `{!CanonicalLaws AtsTufTargets, !CanonicalLaws AtsTufMeta}.
Variable h : TufFsHandle.
Hypothesis root_ok : dir_ok (tuf_root h).
Hypothesis key_ids : ∀ a b i, tufKeyID a = Ok i -> tufKeyID b = Ok i -> a = b.
Hint Resolve keys_name_ok default_name_ok role_key_name_ok keysDir_ok : server.

Definition default_dir : string := path_of (tuf_root h) tufDefaultDir.
Lemma default_dir_ok : dir_ok default_dir.
Proof. unfold default_dir. auto with server. Qed.
Hint Resolve default_dir_ok : server.

Lemma writeDefaultMeta_Ok root sgs expires w w' :
  trusts root sgs -> writeDefaultMeta h sgs expires w = (Ok tt, w') ->
  files_but (metadata_paths default_dir) w w' ∧
  (∀ k, fs w !! k = Some Dir -> k ∉ metadata_paths default_dir -> fs w' !! k = Some Dir) ∧
  ∃ chain, verify_chain root (meta_at w' default_dir TufTimestampFile) (meta_at w' default_dir TufSnapshotFile)
      (meta_at w' default_dir TufTargetsFile) = Some chain ∧ Targets (targets_Signed (v_targets chain)) = ∅.
Proof.
  intros Ht E. unfold writeDefaultMeta in E. rewrite (Join_entry _ _ root_ok default_name_ok) in E. fold default_dir in E.
  apply bind_wrap_lift_Ok in E as (sgT & [s1 [Hs1 HT]]%sign_with_signer & E). apply bind_wrap_lift_Ok in E as (t & Et & E).
  apply bind_wrap_lift_Ok in E as (sgS & [s2 [Hs2 HS]]%sign_with_signer & E). apply bind_wrap_lift_Ok in E as (s & Es & E).
  apply bind_wrap_lift_Ok in E as (sgZ & [s3 [Hs3 HZ]]%sign_with_signer & E). apply bind_wrap_lift_Ok in E as (z & Ez & E).
  apply bind_wrap_Ok in E as ([] & w1 & E1 & E). pose proof E as Em. apply write_metas_files in E as (A & B & C & D); [|auto with server].
  split; [|split].
  - eapply files_but_weaken; [eapply files_but_trans; [by eapply files_but_mkdirs|exact A]|done].
  - intros k Hd Hk. eapply write_metas_keeps_dir; [|exact Em|done|by eapply mkdirs_keeps_dir]. auto with server.
  - rewrite B, C, D. eexists. split; [by eapply chain_of_documents|]. done.
Qed.

Lemma root_name_1 : root_name 1 = "1.root.json". Proof. done. Qed.
Lemma root_name_ok v : name_ok (root_name v).
Proof.
  unfold root_name, Itoa. assert (no_char slash (format_int 10 v) = true) as Hs.
  { apply format_int_no_char; [lia|done]. }
  assert (HasSuffix (format_int 10 v +:+ rootJsonSuffix) rootJsonSuffix = true) as Hsuf by apply HasSuffix_app.
  split_and!; try (intros E; rewrite E in Hsuf; by vm_compute in Hsuf).
  by rewrite no_char_app, Hs.
Qed.
Hint Resolve root_name_ok : server.
Lemma entry_apart dir n : dir_ok dir -> name_ok n -> dir <> path_of dir n.
Proof. intros Hd Hn E. apply (f_equal (length ∘ comps)) in E. cbn in E. rewrite comps_app_name, length_app in E by auto with server. simpl in E. lia. Qed.
Lemma root_not_written n : name_ok n -> tuf_root h ∉ written_paths (tuf_root h) n.
Proof.
  intros Hn. unfold written_paths. rewrite !elem_of_cons, elem_of_nil.
  intros [E|[E|[]]]; by apply entry_apart in E; auto with server.
Qed.
Lemma root_not_metadata : tuf_root h ∉ metadata_paths default_dir.
Proof.
  intros (n & E & Hn & _)%metadata_paths_names. apply (f_equal (length ∘ comps)) in E. cbn in E. unfold default_dir in E.
  rewrite !comps_app_name, !length_app in E by auto with server. simpl in E. lia.
Qed.
Definition root_at (w : world) (v : Z) (r : AtsTufRoot) : Prop :=
  file_at w (path_of (tuf_root h) (root_name v)) = Some (json_MarshalIndent r).
Lemma writeRoot_Ok r w w' :
  writeRoot h r w = (Ok tt, w') ->
  let v := Version (rm_Common (root_Signed r)) in
  files_but (written_paths (tuf_root h) (root_name v)) w w' ∧ root_at w' v r ∧ fs w' !! tuf_root h = Some Dir.
Proof.
  intros E v. unfold writeRoot in E. apply bind_wrap_Ok in E as ([] & w1 & E1 & E). apply wrap_Ok_inv in E.
  pose proof E as Em. apply writeFile_files in E as [A B]; auto with server. split; [|split; [exact B|]].
  - eapply files_but_weaken; [eapply files_but_trans; [by eapply files_but_mkdirs|exact A]|done].
  - eapply writeFile_keeps_dir; [| |exact Em| |]; auto with server; [by apply root_not_written, root_name_ok|].
    by apply MkdirAll_is_dir in E1.
Qed.

(** To ask changes nothing; an initialized directory is seen as one. *)
Lemma isInitialized_fs w r w' : isInitialized h w = (r, w') -> fs w' = fs w.
Proof.
  intros E. unfold isInitialized in E. apply bind_try_inv in E as (n & w1 & En & E).
  assert (fs w1 = fs w) as <-.
  { unfold os_Stat in En. apply syscall_inv in En as [[l En]|(e & l & -> & ->)]; [|done]. cbn in En. destruct (fs w !! _); by simplify_eq. }
  destruct n; [|by minv E]. apply bind_try_inv in E as (l & w2 & El & E). apply ret_inv in E as [_ ->].
  unfold rootMetaNames in El. apply bind_try_inv in El as (d & w3 & Ed & El). unfold os_ReadDir in Ed.
  assert (fs w3 = fs w1) as <-.
  { apply syscall_inv in Ed as [[l' Ed]|(e & l' & -> & ->)]; [|done]. cbn in Ed. repeat case_match; by simplify_eq. }
  destruct d as [names|err]; [by apply bind_gets_inv, ret_inv in El as [_ ->]|]. destruct (errors_Is err ErrNotExist); [by apply ret_inv in El as [_ ->]|by apply fail_inv in El as [_ ->]].
Qed.
Lemma isInitialized_true w v c k :
  faults w = [] -> fs w !! tuf_root h = Some Dir ->
  file_at w (path_of (tuf_root h) (root_name v)) = Some c ->
  file_at w (path_of (keysDir h) (RoleRoot +:+ ".key")) = Some k -> isInitialized h w = (Ok true, w).
Proof.
  intros Hf Hd Hr Hk. unfold isInitialized, keyPath.
  rewrite Join_entry by (auto with server; apply role_key_name_ok; unfold tufRoles; set_solver).
  unfold file_at in Hk, Hr. destruct (fs w !! path_of (keysDir h) (RoleRoot +:+ ".key")) as [n|] eqn:Ek; [|done].
  assert (os_Stat (path_of (keysDir h) (RoleRoot +:+ ".key")) w = (Ok n, w)) as Es.
  { unfold os_Stat. rewrite syscall_ok by done. by rewrite Ek. }
  rewrite (bind_try _ _ _ _ _ Es).
  assert (is_dir w (tuf_root h) = true) as Hdir by by apply bool_decide_true; right; right.
  assert (∃ l, rootMetaNames h w = (Ok l, w) ∧ root_name v ∈ l) as (l & El & Hl).
  { unfold rootMetaNames, os_ReadDir. mrun. rewrite syscall_ok by done. rewrite Hdir. eexists. split; [done|].
    rewrite sort_by_elem. apply list_elem_of_In, List.filter_In. split.
    - apply list_elem_of_In, elem_of_entries; [done|]. split; [auto with server|]. destruct (fs w !! path_of (tuf_root h) (root_name v)); [eauto|done].
    - rewrite Join_entry by auto with server. apply andb_true_iff. split; [|apply HasSuffix_app].
      apply negb_true_iff, bool_decide_false.
      intros [E|[E|E]]; [| |by rewrite E in Hr].
      + apply (f_equal comps) in E. rewrite comps_app_name in E by auto with server. by apply app_eq_nil in E as [_ ?].
      + apply (f_equal comps) in E. rewrite comps_app_name in E by auto with server. by apply app_eq_nil in E as [_ ?]. }
  rewrite (bind_try _ _ _ _ _ El). destruct l; [by apply elem_of_nil in Hl|done].
Qed.

(** What a finished setup promises: the keys load, the root on disk is signed by
    its own root key and lists the loaded signers, and the metadata served to
    devices with no update verifies against it. *)
Definition initialized (w : world) (root : AtsTufRoot) (sgs : gmap string Signer) : Prop :=
  LoadTuf h w = (Ok (with_signers sgs h), w) ∧
  root_at w (Version (rm_Common (root_Signed root))) root ∧
  trusts (root_Signed root) sgs ∧
  signed_by (root_Signed root) RoleRoot (rm_Common (root_Signed root)) (root_Signed root) (root_Signatures root) = true ∧
  ∃ chain, verify_chain (root_Signed root) (meta_at w default_dir TufTimestampFile) (meta_at w default_dir TufSnapshotFile)
    (meta_at w default_dir TufTargetsFile) = Some chain ∧ Targets (targets_Signed (v_targets chain)) = ∅.

(** The secret is kept apart from the TUF files. *)
Hypothesis auth_ok : dir_ok (tuf_auth h).
Hypothesis auth_apart : tuf_auth h ∉ [tuf_root h; keysDir h; default_dir].
Definition secret_at (w : world) (secret : string) : Prop :=
  secret <> "" ∧ file_at w (path_of (tuf_auth h) HmacFile) = Some secret.

Lemma hmac_name_ok : name_ok HmacFile. Proof. vm_compute. by split_and!. Qed.
Hint Resolve hmac_name_ok : server.
Lemma read_secret_Ok hint w secret w' : read_secret h hint w = (Ok secret, w') -> fs w' = fs w ∧ secret_at w secret.
Proof.
  unfold read_secret, GetHmacSecret. intros E. apply bind_wrap_Ok in E as (s & w1 & E1 & E).
  apply readFile_content in E1 as [Hfs [Hc|[? ?]]]; auto with server; [|done].
  destruct (Z.eqb_spec (len s) 0) as [|Hl]; minv E. split; [done|]. split; [by intros ->|done].
Qed.
Lemma read_secret_at hint w secret : faults w = [] -> secret_at w secret -> read_secret h hint w = (Ok secret, w).
Proof.
  intros Hf [Hne Hs]. unfold read_secret, GetHmacSecret.
  rewrite (bind_Ok _ _ _ _ _ (wrap_Ok _ _ _ _ _ (readFile_at (tuf_auth h) HmacFile false w secret auth_ok hmac_name_ok Hf Hs))).
  destruct (Z.eqb_spec (len secret) 0) as [El|]; [|done]. destruct secret; [done|]. unfold len in El. simpl in El. lia.
Qed.
(** Paths in the three directories that a setup writes to. *)
Definition setup_path (k : string) : Prop :=
  ∃ d n, d ∈ [tuf_root h; keysDir h; default_dir] ∧ name_ok n ∧ k = path_of d n.
Lemma secret_at_files keys w w' secret :
  files_but keys w w' -> (∀ k, k ∈ keys -> setup_path k) -> secret_at w secret -> secret_at w' secret.
Proof.
  intros Hb Hk [Hne Hs]. split; [done|]. rewrite Hb; [done|]. intros Hin. apply Hk in Hin as (d & n & Hd & Hn & E).
  apply path_of_dir_inj in E as [E _]; auto with server; [by subst|].
  rewrite !elem_of_cons, elem_of_nil in Hd. destruct Hd as [->|[->|[->|[]]]]; auto with server.
Qed.
Lemma written_setup d n k : d ∈ [tuf_root h; keysDir h; default_dir] -> name_ok n -> k ∈ written_paths d n -> setup_path k.
Proof.
  intros Hd Hn. unfold written_paths. rewrite !elem_of_cons, elem_of_nil.
  intros [->|[->|[]]]; eexists _, _; (split; [exact Hd|]; split; [|reflexivity]); auto with server.
Qed.
Lemma metadata_setup k : k ∈ metadata_paths default_dir -> setup_path k.
Proof. intros (n & -> & Hn & _)%metadata_paths_names. exists default_dir, n. split; [set_solver|]. by split. Qed.
Lemma key_paths_setup k : k ∈ key_paths h tufRoles -> setup_path k.
Proof. intros (r & Hr & Hk)%elem_of_key_paths. eapply written_setup; [|by apply role_key_name_ok|exact Hk]. set_solver. Qed.

Lemma keys_not_root : keysDir h <> tuf_root h.
Proof. rewrite keysDir_eq by done. intros E. symmetry in E. by apply entry_apart in E; auto with server. Qed.
Lemma default_not_root : default_dir <> tuf_root h.
Proof. unfold default_dir. intros E. symmetry in E. by apply entry_apart in E; auto with server. Qed.
Lemma keys_not_default : keysDir h <> default_dir.
Proof. rewrite keysDir_eq by done. unfold default_dir. intros E%path_of_inj. done. Qed.
Lemma written_in_dir d e n m : dir_ok d -> dir_ok e -> name_ok n -> name_ok m -> d <> e -> path_of d n ∉ written_paths e m.
Proof.
  intros Hd He Hn Hm Hne. unfold written_paths. rewrite !elem_of_cons, elem_of_nil.
  intros [E|[E|[]]]; apply path_of_dir_inj in E as [E _]; auto with server.
Qed.
Lemma metadata_in_dir d n : dir_ok d -> name_ok n -> d <> default_dir -> path_of d n ∉ metadata_paths default_dir.
Proof.
  intros Hd Hn Hne (m & E & Hm & _)%metadata_paths_names. apply path_of_dir_inj in E as [E _]; auto with server.
Qed.

(** What the files of a setup hold that loads. *)
Record tuf_ready (secret : string) (sgs : gmap string Signer) (w : world) : Prop := {
  rd_keys : stored_keys h secret w sgs;
  rd_only role : role ∉ tufRoles -> sgs !! role = None;
  rd_secret : secret_at w secret;
  rd_root : ∃ version root, root_at w version root;
  rd_dir : fs w !! tuf_root h = Some Dir
}.
Lemma ready_loads secret sgs w :
  faults w = [] -> tuf_ready secret sgs w ->
  isInitialized h w = (Ok true, w) ∧ LoadTuf h w = (Ok (with_signers sgs h), w).
Proof.
  intros Hf [Hst Hnone Hsec (version & root & Hroot) Hdir].
  assert (isInitialized h w = (Ok true, w)) as Hinit.
  { destruct (Hst RoleRoot) as (s' & _ & _ & k & Hk & _); [unfold tufRoles; set_solver|].
    eapply isInitialized_true; [done|done|exact Hroot|exact Hk]. }
  split; [done|]. unfold LoadTuf. rewrite (bind_Ok _ _ _ _ _ Hinit). cbn [negb].
  rewrite (bind_Ok _ _ _ _ _ (read_secret_at "" _ _ Hf Hsec)).
  destruct (read_signers_stored h root_ok secret sgs w tufRoles ∅ Hf Hst) as (sgs' & El & H1' & H2'); [done|apply NoDup_tufRoles|].
  rewrite (bind_Ok _ _ _ _ _ El). assert (sgs' = sgs) as ->; [|done]. apply map_eq. intros role.
  destruct (decide (role ∈ tufRoles)); [by apply H1'|]. by rewrite H2', Hnone, lookup_empty.
Qed.

(** The last steps of a setup: the new root, then the default metadata. *)
Lemma finish_setup secret sgs version expires sigs sg s w w' :
  let root := {| root_Signatures := sigs; root_Signed := new_root sgs version expires |} in
  stored_keys h secret w sgs -> (∀ role, role ∉ tufRoles -> sgs !! role = None) -> secret_at w secret ->
  sgs !! RoleRoot = Some s -> Signer_Sign s (new_root sgs version expires) = Ok sg -> sg ∈ sigs ->
  (writeRoot h root;; writeDefaultMeta h sgs expires) w = (Ok tt, w') -> faults w' = [] ->
  tuf_ready secret sgs w' ∧ initialized w' root sgs ∧
  files_but (written_paths (tuf_root h) (root_name version) ++ metadata_paths default_dir) w w'.
Proof.
  intros root Hst Hnone Hsec Hs Hsg Hin E Hf.
  assert (trusts (new_root sgs version expires) sgs) as Ht.
  { apply (new_root_trusts h); [done..|]. intros role Hr. destruct (Hst role Hr) as (s' & Hs' & Hok & _). eauto. }
  apply bind_inv_Ok in E as ([] & w1 & E1 & E). apply writeRoot_Ok in E1 as (A & B & C).
  eapply writeDefaultMeta_Ok in E as (D & F & chain & Hc & Hempty); [|exact Ht].
  assert (root_at w' version root) as Hroot.
  { unfold root_at. rewrite D; [exact B|]. apply metadata_in_dir; auto with server. by intros E1%symmetry%default_not_root. }
  assert (stored_keys h secret w' sgs) as Hst'.
  { eapply (stored_keys_files h secret _ w1); [exact D| |eapply (stored_keys_files h secret _ w); [exact A| |exact Hst]].
    - intros k Hk role Hr ->. revert Hk. apply metadata_in_dir; auto with server. apply keys_not_default.
    - intros k Hk role Hr ->. revert Hk. apply written_in_dir; auto with server. apply keys_not_root. }
  assert (secret_at w' secret) as Hsec'.
  { eapply (secret_at_files _ w1); [exact D|by apply metadata_setup|]. eapply (secret_at_files _ w); [exact A| |done].
    intros k Hk. eapply written_setup; [|by apply root_name_ok|exact Hk]. set_solver. }
  assert (tuf_ready secret sgs w') as Hready.
  { constructor; eauto. apply F; [exact C|apply root_not_metadata]. }
  split; [done|split; [|by eapply files_but_trans]]. split; [by apply (ready_loads secret)|split; [exact Hroot|split; [exact Ht|split]]].
  - eapply (trusted_signature_in _ sgs RoleRoot s); try done. unfold tufRoles. set_solver.
  - by exists chain.
Qed.
(** The first steps: the directory of the keys and a fresh key for each role. *)
Lemma setup_keys {B} msg secret (g : gmap string Signer -> IO B) w b w' :
  secret_at w secret ->
  (wrap msg (os_MkdirAll (keysDir h));; generate_signers h secret tufRoles ∅ ≫= g) w = (Ok b, w') ->
  ∃ sgs w1, g sgs w1 = (Ok b, w') ∧ stored_keys h secret w1 sgs ∧ (∀ role, role ∉ tufRoles -> sgs !! role = None) ∧
    secret_at w1 secret ∧ files_but (key_paths h tufRoles) w w1.
Proof.
  intros Hsec E. apply bind_wrap_Ok in E as ([] & w1 & E1 & E). apply bind_inv_Ok in E as (sgs & w2 & E2 & E).
  apply files_but_MkdirAll in E1. apply generate_signers_Ok in E2 as (A & B' & C); [|done|apply NoDup_tufRoles|done].
  exists sgs, w2. split; [done|]. split; [done|]. split; [intros r Hr; by rewrite C, lookup_empty|].
  split; [|by apply (files_but_weaken ([] ++ key_paths h tufRoles)); [eapply files_but_trans|]].
  eapply secret_at_files; [exact A|apply key_paths_setup|]. eapply secret_at_files; [exact E1| |done]. intros k Hk. by apply elem_of_nil in Hk.
Qed.
(** All that an initialization writes is in its directories. *)
Definition setup_paths (version : Z) : list string :=
  key_paths h tufRoles ++ written_paths (tuf_root h) (root_name version) ++ metadata_paths default_dir.
Lemma InitTuf_Ok w w' :
  InitTuf h w = (Ok tt, w') -> faults w' = [] ->
  ∃ secret root sgs, tuf_ready secret sgs w' ∧ initialized w' root sgs ∧ Version (rm_Common (root_Signed root)) = 1 ∧
    files_but (setup_paths 1) w w'.
Proof.
  intros E Hf. unfold InitTuf in E. apply bind_inv_Ok in E as (i & w1 & Ei & E). destruct i; [by minv E|].
  apply bind_inv_Ok in E as (secret & w2 & [Hfs Hsec]%read_secret_Ok & E).
  assert (secret_at w2 secret) as Hsec2. { destruct Hsec as [? Hs]. split; [done|]. unfold file_at in *. by rewrite Hfs. }
  apply setup_keys in E as (sgs & w3 & E & Hst & Hnone & Hsec3 & Hk3); [|done].
  apply bind_gets_inv in E. apply bind_wrap_lift_Ok in E as (sg & [s [Hs Hsg]]%sign_with_signer & E).
  eapply finish_setup in E as (Hr & Hi & Hfin); [|done..|by left|done].
  eexists secret, _, sgs. split; [exact Hr|]. split; [exact Hi|]. split; [done|].
  apply isInitialized_fs in Ei.
  eapply files_but_trans; [|exact Hfin]. eapply files_but_weaken; [eapply files_but_trans; [by apply (files_but_fs [] w w2); congruence|exact Hk3]|done].
Qed.

(** C18. Initialization does what it is for, and only once: the keys it stored load
    again, the first root is signed by its own key and lists them, the metadata
    for devices without an update verifies; a second initialization is refused
    and changes nothing. *)
Theorem InitTuf_LoadTuf w w' :
  InitTuf h w = (Ok tt, w') -> faults w' = [] ->
  ∃ root sgs, initialized w' root sgs ∧ Version (rm_Common (root_Signed root)) = 1 ∧
    InitTuf h w' = (Err ErrTufAlreadyInitialized, w').
Proof.
  intros E Hf. apply InitTuf_Ok in E as (secret & root & sgs & Hr & Hi & Hv & _); [|done].
  exists root, sgs. split; [exact Hi|]. split; [done|]. apply ready_loads in Hr as [Hinit _]; [|done].
  unfold InitTuf. by rewrite (bind_Ok _ _ _ _ _ Hinit).
Qed.

(** ** Import *)

Lemma versions_complete_lookup roots idx i r :
  versions_complete idx roots = true -> roots !! i = Some r -> imp_version r = idx + 1 + Z.of_nat i.
Proof.
  revert idx i. induction roots as [|x roots IH]; intros idx i E Hi; [done|]. cbn [versions_complete] in E. bool_to_prop.
  destruct i as [|i]; [injection Hi as <-; lia|]. cbn in Hi. rewrite (IH (idx + 1) i) by done. lia.
Qed.
Lemma root_name_inj a b : in_int64 a -> in_int64 b -> root_name a = root_name b -> a = b.
Proof. intros Ha Hb E. unfold root_name in E. apply str_app_inv_tail in E. by apply Itoa_inj. Qed.
Lemma root_name_written dir a b : in_int64 a -> in_int64 b -> a <> b -> path_of dir (root_name a) ∉ written_paths dir (root_name b).
Proof.
  intros Ha Hb Hne. unfold written_paths. rewrite !elem_of_cons, elem_of_nil.
  intros [E|[E|[]]]; apply path_of_inj in E; [by apply root_name_inj in E|].
  assert (HasSuffix (root_name a) (str1 "n"%char) = true) as Hc.
  { unfold root_name, rootJsonSuffix. change ".root.json" with (".root.jso" +:+ str1 "n").
    rewrite <-str_app_assoc. apply HasSuffix_app. }
  rewrite E in Hc. apply HasSuffix_spec in Hc as [r Hr]. unfold partialFileSuffix in Hr.
  change "..part" with ("..par" +:+ str1 "t") in Hr. rewrite <-str_app_assoc in Hr.
  by apply last_char_app in Hr.
Qed.
Definition root_paths (roots : list importedRoot) : list string :=
  concat (map (λ imp, written_paths (tuf_root h) (root_name (imp_version imp))) roots).
Lemma elem_of_root_paths roots k :
  k ∈ root_paths roots ↔ ∃ imp, imp ∈ roots ∧ k ∈ written_paths (tuf_root h) (root_name (imp_version imp)).
Proof.
  unfold root_paths. induction roots as [|r roots IH]; cbn [map concat].
  - split; [by intros Hk%elem_of_nil|]. by intros (? & Hr%elem_of_nil & _).
  - rewrite elem_of_app, IH. setoid_rewrite elem_of_cons. naive_solver.
Qed.
(** The imported roots are stored as they came. *)
Lemma write_roots msg roots idx w w' :
  versions_complete idx roots = true -> 0 <= idx -> idx + Z.of_nat (length roots) < 2 ^ 63 ->
  forM roots (λ imp, wrap msg (writeFile (tuf_root h) (root_name (imp_version imp)) (raw imp) defaultFileAccess)) w = (Ok tt, w') ->
  files_but (root_paths roots) w w' ∧
  ∀ imp, imp ∈ roots -> file_at w' (path_of (tuf_root h) (root_name (imp_version imp))) = Some (raw imp).
Proof.
  revert idx w. induction roots as [|r roots IH]; intros idx w Hv Hi Hlen E; cbn [forM] in E.
  { minv E. split; [apply files_but_refl|]. intros imp Himp. by apply elem_of_nil in Himp. }
  pose proof Hv as Hv0. cbn [versions_complete] in Hv. bool_to_prop. cbn [length] in Hlen.
  apply bind_wrap_Ok in E as ([] & w1 & E1 & E). apply writeFile_files in E1 as [A B]; auto with server.
  apply (IH (idx + 1)) in E as [C D]; [|done|lia..]. split.
  { eapply files_but_weaken; [by eapply files_but_trans|done]. }
  intros imp [->|Himp]%elem_of_cons; [|by apply D]. rewrite C; [exact B|].
  intros (imp' & (j & Hj)%list_elem_of_lookup_1 & Hk)%elem_of_root_paths. revert Hk.
  pose proof (lookup_lt_Some _ _ _ Hj). pose proof (versions_complete_lookup _ (idx + 1) j imp' ltac:(done) Hj).
  apply root_name_written; unfold in_int64; lia.
Qed.

Context `{Rsa, CertCodec}.

Lemma findFirstRootSigner_Ok ids keys s :
  findFirstRootSigner ids keys = Ok s -> is_Id s ∈ ids ∧ ∃ key, key ∈ keys ∧ ImportSignerFromAtsKey key = Ok s.
Proof.
  induction keys as [|key keys IH]; cbn [findFirstRootSigner]; [done|].
  destruct (ImportSignerFromAtsKey key) as [s'|] eqn:E; [case_bool_decide as Hin|].
  - intros [= <-]. split; [done|]. exists key. split; [by left|done].
  - intros (? & k & ? & ?)%IH. split; [done|]. exists k. split; [by right|done].
  - intros (? & k & ? & ?)%IH. split; [done|]. exists k. split; [by right|done].
Qed.
(** The root before lists the online key of an imported signer. *)
Definition lists_signer (base : RootMeta) (s : ImportSigner) : Prop :=
  ∃ seed rr, len seed = 32 ∧ is_signer s = ImportEd25519 (NewKeyFromSeed seed) ∧
    Roles base !! RoleRoot = Some rr ∧ Threshold rr = 1 ∧ is_Id s ∈ KeyIDs rr ∧
    Keys base !! is_Id s = Some {| KeyType := tufKeyTypeEd25519; KeyValue := {| Private := ""; Public := hex (ed_public seed) |} |}.
Lemma ImportSigner_Sign_signed base s (v : RootMeta) sg w w' sigs :
  lists_signer base s -> sc_Type (rm_Common v) = TufType RoleRoot -> ImportSigner_Sign s v w = (Ok sg, w') -> sg ∈ sigs ->
  signed_by base RoleRoot (rm_Common v) v sigs = true.
Proof.
  intros (seed & rr & Hl & Hsg & Hr & Ht & Hid & Hk) Hty E Hin. unfold ImportSigner_Sign in E.
  apply bind_wrap_lift_Ok in E as (msg & Hmsg & E). rewrite Hsg in E. minv E. minv E0. minv E.
  unfold signed_by. rewrite Hmsg, Hr, Hty, Ht, String.eqb_refl. cbn [Z.ltb Z.compare andb].
  set (sg0 := {| KeyID := _ |}) in *.
  assert (sig_valid base RoleRoot msg sg0 = true) as Hvalid.
  { unfold sig_valid, sg0. cbn [KeyID sig_Signature]. rewrite Hr, Hk. cbn [KeyType KeyValue Public].
    rewrite bool_decide_true by done. rewrite String.eqb_refl, hex_DecodeString_hex. cbn [andb]. by apply ed_correct. }
  assert (KeyID sg0 ∈ remove_dups (map KeyID (List.filter (sig_valid base RoleRoot msg) sigs))) as Hm.
  { apply elem_of_remove_dups, list_elem_of_fmap. exists sg0. split; [done|].
    apply list_elem_of_In, List.filter_In. split; [by apply list_elem_of_In|done]. }
  apply Z.leb_le. destruct (remove_dups _); [by apply elem_of_nil in Hm|]. cbn [length]. lia.
Qed.
Lemma mapM_lift_Ok {A B} (f : A -> result B) l (w : world) bs w' :
  mapM_M (λ a, lift (f a)) l w = (Ok bs, w') -> w' = w ∧ Forall2 (λ a b, f a = Ok b) l bs.
Proof.
  revert bs w'. induction l as [|a l IH]; intros bs w' E; cbn [mapM_M] in E; [by minv E|].
  apply bind_lift_Ok in E as (b & Eb & E). apply bind_inv_Ok in E as (bs' & w1 & E1 & E). apply IH in E1 as [-> HF].
  minv E. split; [done|]. by constructor.
Qed.

(** What an import of the roots [roots] leaves behind. *)
Definition imported (keys : list AtsKey) (w : world) (roots : list importedRoot) : Prop :=
  ∃ root sgs base oldSigner, initialized w root sgs ∧
    base ∈ roots ∧ (∀ v, 1 <= v <= imp_version base -> ∃ imp, imp ∈ roots ∧ imp_version imp = v ∧
      file_at w (path_of (tuf_root h) (root_name v)) = Some (raw imp)) ∧
    imp_version base = Z.of_nat (length roots) ∧
    Version (rm_Common (root_Signed root)) = imp_version base + 1 ∧
    (∃ key rr, key ∈ keys ∧ ImportSignerFromAtsKey key = Ok oldSigner ∧
       Roles (root_Signed (imp_root base)) !! RoleRoot = Some rr ∧ is_Id oldSigner ∈ KeyIDs rr) ∧
    (lists_signer (root_Signed (imp_root base)) oldSigner ->
     signed_by (root_Signed (imp_root base)) RoleRoot (rm_Common (root_Signed root)) (root_Signed root) (root_Signatures root) = true).
Lemma ImportSigner_Sign_fs {A} `{Canonical A} s (v : A) w sg w' : ImportSigner_Sign s v w = (Ok sg, w') -> fs w' = fs w.
Proof.
  unfold ImportSigner_Sign. intros E. apply bind_wrap_lift_Ok in E as (m & _ & E).
  apply bind_inv_Ok in E as (d & w1 & E1 & E). minv E. destruct (is_signer s); [by minv E1|].
  apply bind_inv_Ok in E1 as (d' & w2 & E2 & E1). apply rand_Read_len in E2 as [_ ->]. minv E1. by minv E1.
Qed.
Lemma importTuf_Ok roots keys w w' :
  importTuf h roots keys w = (Ok tt, w') -> faults w' = [] -> Z.of_nat (length roots) < 2 ^ 63 - 1 -> roots <> [] ->
  imported keys w' roots.
Proof.
  intros E Hf Hlen Hpos. unfold importTuf in E. apply bind_inv_Ok in E as (secret & w3 & [Hfs Hsec]%read_secret_Ok & E).
  assert (secret_at w3 secret) as Hsec3. { destruct Hsec as [? Hs]. split; [done|]. unfold file_at in *. by rewrite Hfs. }
  set (sorted := sort_by _ roots) in *. assert (sorted ≡ₚ roots) as Hperm by apply sort_by_perm.
  destruct (last sorted) as [base|] eqn:Hlast; [|by minv E].
  destruct (negb (versions_complete 0 sorted)) eqn:Hv in E; [by minv E|]. apply negb_false_iff in Hv.
  destruct (1 <? _) in E; [by minv E|]. destruct (Roles _ !! RoleRoot) as [rr|] eqn:Hrr in E; [|by minv E].
  apply bind_lift_Ok in E as (old & [Hid (key & Hkey & Hold)]%findFirstRootSigner_Ok & E).
  apply setup_keys in E as (sgs & w4 & E & Hst & Hnone & Hsec4 & _); [|done].
  apply bind_gets_inv in E. apply bind_wrap_lift_Ok in E as (sg & [s [Hs Hsg]]%sign_with_signer & E).
  apply bind_wrap_Ok in E as (oldSg & w5 & Eo & E). apply bind_wrap_Ok in E as ([] & w6 & E6 & E).
  apply bind_inv_Ok in E as ([] & w7 & E7 & E).
  assert (length sorted = length roots) as Hls by by apply Permutation_length.
  assert (length roots <> 0%nat) as Hne by by destruct roots.
  rewrite last_lookup in Hlast. pose proof (versions_complete_lookup _ 0 _ _ Hv Hlast) as Hbase.
  apply (write_roots _ _ 0) in E7 as [A7 B7]; [|done|lia|lia].
  apply ImportSigner_Sign_fs in Eo as Hfs5.
  apply files_but_mkdirs in E6.
  assert (files_but (root_paths sorted) w4 w7) as H47.
  { eapply files_but_weaken; [eapply files_but_trans; [by apply (files_but_fs [])|eapply files_but_trans; [exact E6|exact A7]]|done]. }
  assert (imp_version base + 1 = Z.of_nat (length roots) + 1) as Hbv by (rewrite Hbase; lia).
  rewrite (wrap64_small (imp_version base + 1)) in E, Hsg, Eo by (unfold in_int64; lia).
  eapply finish_setup in E as (_ & Hi & Hfin); [| |done|..|by left|done]; [|..|exact Hs|exact Hsg].
  2: { eapply stored_keys_files; [exact H47| |exact Hst]. intros k (imp & _ & Hk)%elem_of_root_paths role Hr ->.
       revert Hk. apply written_in_dir; auto with server. by apply keys_not_root. }
  2: { eapply secret_at_files; [exact H47| |exact Hsec4]. intros k (imp & _ & Hk)%elem_of_root_paths.
       eapply written_setup; [|by apply root_name_ok|exact Hk]. set_solver. }
  eexists _, sgs, base, old. split; [exact Hi|].
  split; [rewrite <-Hperm; by eapply list_elem_of_lookup_2|]. split_and!.
  - intros v Hvr. destruct (lookup_lt_is_Some_2 sorted (Z.to_nat (v - 1))) as [imp Himp]; [lia|].
    pose proof (versions_complete_lookup _ 0 _ _ Hv Himp) as Hvi. exists imp.
    assert (imp ∈ sorted) as Hin by by eapply list_elem_of_lookup_2.
    assert (imp_version imp = v) as Hv' by lia. split; [by rewrite <-Hperm|]. split; [done|].
    rewrite Hfin, <-Hv'; [by apply B7|]. rewrite not_elem_of_app. split.
    + apply root_name_written; unfold in_int64; lia.
    + apply metadata_in_dir; auto with server. intros Eq. symmetry in Eq. by apply default_not_root in Eq.
  - lia.
  - done.
  - exists key, rr. done.
  - intros Hlists. cbn [root_Signed root_Signatures]. eapply ImportSigner_Sign_signed; [done|done|exact Eo|by right; left].
Qed.

End Init.
