(* ===== verification/Encoding.v ===== *)
(** Standard library routines on text that the HTTP layer uses:
    [encoding/hex], [encoding/base64], UTF-8 and the search functions of [strings]. *)
From S2P Require Import Prelude GoStrings Crypto.

(** ** strings *)

Fixpoint Contains (s sub : string) : bool :=
  HasPrefix s sub || match s with "" => false | String _ s' => Contains s' sub end.

(** [strings.ToLower] on ASCII; the callers compare the result with ASCII text
    none of whose letters is the lower case of another rune. *)
Definition lower_char (c : ascii) : ascii :=
  if is_upper c then ascii_of_nat (nat_of_ascii c + 32) else c.
Fixpoint ToLower (s : string) : string :=
  match s with "" => "" | String c s' => String (lower_char c) (ToLower s') end.

(** ** unicode/utf8: [for _, c := range s] *)

Definition RuneError : Z := 65533.
Definition code (c : ascii) : Z := Z.of_nat (nat_of_ascii c).
(** [utf8.DecodeRuneInString] of a non-empty string: the rune and its width. *)
Definition cont (lo hi : Z) (c : ascii) : bool := (lo <=? code c) && (code c <=? hi).
Definition decode_rune (c : ascii) (s : string) : Z * nat :=
  let c0 := code c in
  if c0 <? 128 then (c0, 1%nat)
  else if (194 <=? c0) && (c0 <=? 223) then
    match s with
    | String c1 _ => if cont 128 191 c1 then ((c0 - 192) * 64 + (code c1 - 128), 2%nat) else (RuneError, 1%nat)
    | _ => (RuneError, 1%nat)
    end
  else if (224 <=? c0) && (c0 <=? 239) then
    match s with
    | String c1 (String c2 _) =>
        if cont (if c0 =? 224 then 160 else 128) (if c0 =? 237 then 159 else 191) c1 && cont 128 191 c2
        then ((c0 - 224) * 4096 + (code c1 - 128) * 64 + (code c2 - 128), 3%nat) else (RuneError, 1%nat)
    | _ => (RuneError, 1%nat)
    end
  else if (240 <=? c0) && (c0 <=? 244) then
    match s with
    | String c1 (String c2 (String c3 _)) =>
        if cont (if c0 =? 240 then 144 else 128) (if c0 =? 244 then 143 else 191) c1 && cont 128 191 c2 && cont 128 191 c3
        then ((c0 - 240) * 262144 + (code c1 - 128) * 4096 + (code c2 - 128) * 64 + (code c3 - 128), 4%nat)
        else (RuneError, 1%nat)
    | _ => (RuneError, 1%nat)
    end
  else (RuneError, 1%nat).
Fixpoint runes_loop (fuel : nat) (s : string) : list Z :=
  match fuel, s with
  | S fuel', String c s' => let '(r, n) := decode_rune c s' in r :: runes_loop fuel' (str_drop (pred n) s')
  | _, _ => []
  end.
(** Every rune takes a byte at least. *)
Definition runes (s : string) : list Z := runes_loop (String.length s) s.
(** [strings.ContainsRune]: an encoded rune starts nowhere inside another one. *)
Definition ContainsRune (s : string) (r : Z) : bool := existsb (Z.eqb r) (runes s).

(** ** encoding/hex: [DecodeString] *)

Definition hex_digit (c : ascii) : option Z :=
  if is_digit c then Some (code c - 48)
  else if in_range 97 102 c then Some (code c - 87)
  else if in_range 65 70 c then Some (code c - 55) else None.
Fixpoint hex_decode (s : string) : result string :=
  match s with
  | "" => Ok ""
  | String a (String b s') =>
      match hex_digit a, hex_digit b with
      | Some x, Some y => r ← hex_decode s'; Ok (String (ascii_of_nat (Z.to_nat (16 * x + y))) r)
      | _, _ => Err (ErrMsg "encoding/hex: invalid byte")
      end
  | _ => Err (ErrMsg "encoding/hex: odd length hex string")
  end.

(** ** encoding/base64: [StdEncoding.DecodeString] *)

Definition b64_digit (c : ascii) : option Z :=
  if is_upper c then Some (code c - 65)
  else if is_lower c then Some (code c - 71)
  else if is_digit c then Some (code c + 4)
  else if Ascii.eqb c "+" then Some 62 else if Ascii.eqb c "/" then Some 63 else None.
Definition chr (z : Z) : ascii := ascii_of_nat (Z.to_nat (z `mod` 256)).
Definition b64_corrupt {A} : result A := Err (ErrMsg "illegal base64 data").
Fixpoint b64_quanta (s : string) : result string :=
  match s with
  | "" => Ok ""
  | String a (String b (String c (String d s'))) =>
      match b64_digit a, b64_digit b with
      | Some x, Some y =>
          let c1 := chr (x * 4 + y / 16) in
          if Ascii.eqb c "=" then
            if Ascii.eqb d "=" && String.eqb s' "" then Ok (str1 c1) else b64_corrupt
          else
            match b64_digit c with
            | None => b64_corrupt
            | Some z =>
                let c2 := chr (y * 16 + z / 4) in
                if Ascii.eqb d "=" then if String.eqb s' "" then Ok (String c1 (str1 c2)) else b64_corrupt
                else match b64_digit d with
                     | None => b64_corrupt
                     | Some t => r ← b64_quanta s'; Ok (String c1 (String c2 (String (chr (z * 64 + t)) r)))
                     end
            end
      | _, _ => b64_corrupt
      end
  | _ => b64_corrupt
  end.
(** Line ends are skipped. *)
Fixpoint drop_newlines (s : string) : string :=
  match s with
  | "" => ""
  | String c s' => if one_of (bytes [10; 13]%nat) c then drop_newlines s' else String c (drop_newlines s')
  end.
Definition base64_DecodeString (s : string) : result string := b64_quanta (drop_newlines s).

(** ** Theory *)

Example base64_examples :
  base64_DecodeString "aGVsbG8=" = Ok "hello" ∧ base64_DecodeString "aGVs" = Ok "hel" ∧
  is_Ok (base64_DecodeString "aGVsb") = false ∧ is_Ok (base64_DecodeString "aGV=bG8=") = false.
Proof. by vm_compute. Qed.
Example runes_examples :
  runes (bytes [65; 195; 169; 226; 130; 172; 255; 240; 159; 152; 128]%nat) = [65; 233; 8364; 65533; 128512].
Proof. by vm_compute. Qed.

Lemma Contains_spec s sub : Contains s sub = true ↔ ∃ a b, s = a +:+ sub +:+ b.
Proof.
  induction s as [|c s IH]; cbn [Contains].
  - rewrite orb_false_r, HasPrefix_spec. split.
    + intros [r Hr]. by exists "", r.
    + intros (a & b & Hab). destruct a as [|? ?]; [eauto|done].
  - rewrite orb_true_iff, HasPrefix_spec, IH. split.
    + intros [[r Hr]|(a & b & ->)]; [by exists "", r|by exists (String c a), b].
    + intros (a & b & Hab). destruct a as [|x a]; [left; eauto|]. injection Hab as -> ->. right. eauto.
Qed.

Lemma hex_digit_char d : 0 <= d < 16 -> hex_digit (digit_char d) = Some d.
Proof.
  intros Hd. assert (In d (map Z.of_nat (seq 0 16))) as Hin.
  { rewrite in_map_iff. exists (Z.to_nat d). rewrite in_seq. lia. }
  revert d Hd Hin. assert (forallb (λ d, bool_decide (hex_digit (digit_char d) = Some d)) (map Z.of_nat (seq 0 16)) = true) as H
    by by vm_compute.
  intros d _ Hin. rewrite forallb_forall in H. by apply H, bool_decide_eq_true in Hin.
Qed.
Lemma hex_decode_hex s : hex_decode (hex s) = Ok s.
Proof.
  induction s as [|c s IH]; [done|]. cbn [hex hex_byte]. simpl.
  assert (0 <= Z.of_nat (nat_of_ascii c) < 256) as Hc by (pose proof (nat_ascii_bounded c); lia).
  pose proof (Z.mod_pos_bound (Z.of_nat (nat_of_ascii c)) 16). rewrite !hex_digit_char; [|lia|].
  2: { split; [apply Z.div_pos; lia|apply Z.div_lt_upper_bound; lia]. }
  rewrite IH. simpl. rewrite <-Z.div_mod by lia. by rewrite Nat2Z.id, ascii_nat_embedding.
Qed.
