(* ===== verification/Toys.v ===== *)
(** Stand-ins for the packages the code calls (JSON codecs, canonical JSON,
    ed25519, the authenticated cipher), each with its laws: the concrete
    functions on which the runs of the model are evaluated. *)
From stdpp Require Import fin_maps.
From S2P Require Import Prelude GoStrings Bytes GoPath Schema World BaseFs Crypto Ostree Tuf TufFs ApiTuf.

(** ** A codec from a list of tokens *)

Class Tokens (A : Type) := { tok : A -> list string; untok : list string -> option (A * list string) }.
Class TokensLaws (A : Type) `{Tokens A} := { untok_tok (a : A) l : untok (tok a ++ l) = Some (a, l) }.

Definition tokens_string : Tokens string :=
  {| tok s := [s]; untok l := match l with [] => None | s :: l' => Some (s, l') end |}.
Definition tokens_Z : Tokens Z :=
  {| tok z := [pos_bits (encode z)];
     untok l := match l with [] => None | s :: l' => (λ z, (z, l')) <$> (bits_pos s ≫= decode) end |}.
Definition tokens_prod `{Tokens A, Tokens B} : Tokens (A * B) :=
  {| tok p := tok p.1 ++ tok p.2;
     untok l := '(a, l) ← untok l; '(b, l) ← untok l; Some ((a, b), l) |}.
Fixpoint tok_list `{Tokens A} (l : list A) : list string :=
  match l with [] => ["]"] | x :: l' => "," :: tok x ++ tok_list l' end.
Fixpoint untok_list `{Tokens A} (fuel : nat) (l : list string) : option (list A * list string) :=
  match fuel, l with
  | S f, t :: l =>
      if String.eqb t "," then '(x, l) ← untok l; '(xs, l) ← untok_list f l; Some (x :: xs, l)
      else Some ([], l)
  | _, _ => None
  end.
Definition tokens_list `{Tokens A} : Tokens (list A) := {| tok := tok_list; untok l := untok_list (S (length l)) l |}.
(** A type with the tokens of another. *)
Definition tokens_iso {A B} `{Tokens B} (f : A -> B) (g : B -> A) : Tokens A :=
  {| tok a := tok (f a); untok l := (λ p, (g p.1, p.2)) <$> untok l |}.
#[global] Existing Instances tokens_string tokens_Z tokens_prod tokens_list.
#[global] Instance tokens_gmap `{Tokens A} : Tokens (gmap string A) :=
  tokens_iso (B := list (string * A)) map_to_list list_to_map.

#[global] Instance tokens_string_laws : TokensLaws string.
Proof. by constructor. Qed.
#[global] Instance tokens_Z_laws : TokensLaws Z.
Proof. constructor. intros z l. cbn [tok untok tokens_Z app]. rewrite bits_pos_bits. cbn [mbind option_bind]. by rewrite decode_encode. Qed.
#[global] Instance tokens_prod_laws `{TokensLaws A, TokensLaws B} : TokensLaws (A * B).
Proof.
  constructor. intros [a b] l. cbn [tok untok tokens_prod fst snd]. rewrite <-app_assoc, untok_tok. cbn [mbind option_bind].
  by rewrite untok_tok.
Qed.
Lemma untok_tok_list `{TokensLaws A} (xs : list A) l fuel :
  (length xs < fuel)%nat -> untok_list fuel (tok_list xs ++ l) = Some (xs, l).
Proof.
  revert fuel. induction xs as [|x xs IH]; intros [|fuel] Hf; cbn [length] in Hf; try lia; [done|].
  cbn [tok_list app untok_list]. change (String.eqb "," ",") with true. rewrite <-app_assoc, untok_tok. cbn [mbind option_bind].
  rewrite IH by lia. done.
Qed.
Lemma tok_list_length `{Tokens A} (xs : list A) : (length xs < length (tok_list xs))%nat.
Proof. induction xs as [|x xs IH]; cbn [tok_list length]; [lia|]. rewrite length_app. lia. Qed.
#[global] Instance tokens_list_laws `{TokensLaws A} : TokensLaws (list A).
Proof.
  constructor. intros xs l. cbn [tok untok tokens_list]. apply untok_tok_list. rewrite length_app.
  pose proof (tok_list_length xs). lia.
Qed.
Lemma tokens_iso_laws {A B} `{TokensLaws B} (f : A -> B) (g : B -> A) :
  (∀ a, g (f a) = a) -> @TokensLaws A (tokens_iso f g).
Proof. intros Hg. constructor. intros a l. cbn [tok untok tokens_iso]. rewrite untok_tok. cbn. by rewrite Hg. Qed.
#[global] Instance tokens_gmap_laws `{TokensLaws A} : TokensLaws (gmap string A).
Proof. apply tokens_iso_laws. intros m. apply list_to_map_to_list. Qed.

(** The text of a token list: each token in hexadecimal, then a full stop. *)
Definition text_of (l : list string) : string := foldr (λ t s, hex t +:+ "." +:+ s) "" l.
Fixpoint tokens_in (l : list string) : option (list string) :=
  match l with
  | [] => None
  | [last] => if String.eqb last "" then Some [] else None
  | h :: l' => match hex_DecodeString h with Ok t => cons t <$> tokens_in l' | Err _ => None end
  end.
Lemma hex_no_char c s : is_hexdigit c = false -> no_char c (hex s) = true.
Proof. intros Hc. apply hexdigit_no_char; [done|apply hex_hexdigit]. Qed.
Lemma tokens_in_text l : tokens_in (Split (text_of l) ".") = Some l.
Proof.
  induction l as [|t l IH]; [done|]. cbn [text_of foldr].
  change (hex t +:+ "." +:+ ?s) with (hex t +:+ String "."%char s). rewrite Split_app by by apply hex_no_char.
  fold (text_of l). pose proof (Split_not_nil (text_of l) ".") as Hne. destruct (Split (text_of l) ".") as [|y ys] eqn:E; [done|].
  change (tokens_in (hex t :: y :: ys)) with
    (match hex_DecodeString (hex t) with Ok t => cons t <$> tokens_in (y :: ys) | Err _ => None end).
  by rewrite hex_DecodeString_hex, IH.
Qed.

Definition toy_codec `{Tokens A} : JSON A :=
  {| json_Marshal a := "{" +:+ text_of (tok a);
     json_Unmarshal s := match s with
       | String _ s' => match tokens_in (Split s' ".") with
                        | Some l => match untok l with Some (a, []) => Ok a | _ => Err (ErrMsg "invalid JSON") end
                        | None => Err (ErrMsg "invalid JSON") end
       | "" => Err (ErrMsg "unexpected end of JSON input") end |}.
Lemma text_no_newline l : no_char (byte 10) (text_of l) = true.
Proof. induction l as [|t l IH]; [done|]. cbn [text_of foldr]. rewrite !no_char_app. fold (text_of l). by rewrite IH, hex_no_char. Qed.
Lemma toy_codec_laws `{TokensLaws A} : @JSONLaws A toy_codec.
Proof.
  constructor; intros a; cbn [json_Marshal json_Unmarshal toy_codec]; [|by rewrite no_char_app, text_no_newline|done].
  change ("{" +:+ ?s) with (String "{"%char s). cbv iota beta. rewrite tokens_in_text.
  pose proof (untok_tok a []) as E. rewrite app_nil_r in E. by rewrite E.
Qed.

(** ** The TUF documents *)

Definition common_tuple (c : SignedCommon) := (sc_Type c, (Expires c, Version c)).
#[global] Instance tokens_common : Tokens SignedCommon :=
  tokens_iso common_tuple (λ p, {| sc_Type := p.1; Expires := p.2.1; Version := p.2.2 |}).
#[global] Instance tokens_common_laws : TokensLaws SignedCommon. Proof. apply tokens_iso_laws. by intros []. Qed.
#[global] Instance tokens_signature : Tokens Signature :=
  tokens_iso (λ s, (KeyID s, (Method s, sig_Signature s))) (λ p, {| KeyID := p.1; Method := p.2.1; sig_Signature := p.2.2 |}).
#[global] Instance tokens_signature_laws : TokensLaws Signature. Proof. apply tokens_iso_laws. by intros []. Qed.
#[global] Instance tokens_key : Tokens AtsKey :=
  tokens_iso (λ k, (KeyType k, (Public (KeyValue k), Private (KeyValue k))))
    (λ p, {| KeyType := p.1; KeyValue := {| Public := p.2.1; Private := p.2.2 |} |}).
#[global] Instance tokens_key_laws : TokensLaws AtsKey. Proof. apply tokens_iso_laws. by intros [? []]. Qed.
#[global] Instance tokens_bool : Tokens bool := tokens_iso (λ b : bool, if b then 1 else 0) (Z.eqb 1).
#[global] Instance tokens_bool_laws : TokensLaws bool. Proof. apply tokens_iso_laws. by intros []. Qed.
#[global] Instance tokens_role : Tokens RootRole :=
  tokens_iso (λ r, (KeyIDs r, Threshold r)) (λ p, {| KeyIDs := p.1; Threshold := p.2 |}).
#[global] Instance tokens_role_laws : TokensLaws RootRole. Proof. apply tokens_iso_laws. by intros []. Qed.
#[global] Instance tokens_root_meta : Tokens RootMeta :=
  tokens_iso (λ r, (rm_Common r, (ConsistentSnapshot r, (Keys r, Roles r))))
    (λ p, {| rm_Common := p.1; ConsistentSnapshot := p.2.1; Keys := p.2.2.1; Roles := p.2.2.2 |}).
#[global] Instance tokens_root_meta_laws : TokensLaws RootMeta. Proof. apply tokens_iso_laws. by intros []. Qed.
#[global] Instance tokens_root : Tokens AtsTufRoot :=
  tokens_iso (λ r, (root_Signatures r, root_Signed r)) (λ p, {| root_Signatures := p.1; root_Signed := p.2 |}).
#[global] Instance tokens_root_laws : TokensLaws AtsTufRoot. Proof. apply tokens_iso_laws. by intros []. Qed.
#[global] Instance tokens_target : Tokens TargetFileMeta :=
  tokens_iso (λ t, (Length t, (tf_Hashes t, Custom t))) (λ p, {| Length := p.1; tf_Hashes := p.2.1; Custom := p.2.2 |}).
#[global] Instance tokens_target_laws : TokensLaws TargetFileMeta. Proof. apply tokens_iso_laws. by intros []. Qed.
#[global] Instance tokens_targets_meta : Tokens TargetsMeta :=
  tokens_iso (λ t, (tm_Common t, Targets t)) (λ p, {| tm_Common := p.1; Targets := p.2 |}).
#[global] Instance tokens_targets_meta_laws : TokensLaws TargetsMeta. Proof. apply tokens_iso_laws. by intros []. Qed.
#[global] Instance tokens_targets : Tokens AtsTufTargets :=
  tokens_iso (λ t, (targets_Signatures t, targets_Signed t)) (λ p, {| targets_Signatures := p.1; targets_Signed := p.2 |}).
#[global] Instance tokens_targets_laws : TokensLaws AtsTufTargets. Proof. apply tokens_iso_laws. by intros []. Qed.
#[global] Instance tokens_item : Tokens MetaItem :=
  tokens_iso (λ i, (mi_Version i, (mi_Length i, mi_Hashes i))) (λ p, {| mi_Version := p.1; mi_Length := p.2.1; mi_Hashes := p.2.2 |}).
#[global] Instance tokens_item_laws : TokensLaws MetaItem. Proof. apply tokens_iso_laws. by intros []. Qed.
#[global] Instance tokens_meta_meta : Tokens MetaMeta :=
  tokens_iso (λ m, (mm_Common m, Meta m)) (λ p, {| mm_Common := p.1; Meta := p.2 |}).
#[global] Instance tokens_meta_meta_laws : TokensLaws MetaMeta. Proof. apply tokens_iso_laws. by intros []. Qed.
#[global] Instance tokens_meta : Tokens AtsTufMeta :=
  tokens_iso (λ m, (meta_Signatures m, meta_Signed m)) (λ p, {| meta_Signatures := p.1; meta_Signed := p.2 |}).
#[global] Instance tokens_meta_laws : TokensLaws AtsTufMeta. Proof. apply tokens_iso_laws. by intros []. Qed.
#[global] Instance tokens_version_custom : Tokens version_custom := tokens_iso vc_Version Build_version_custom.

(** Canonical JSON is the same codec, and so is the indented form. *)
Definition toy_canonical `{Tokens A} : Canonical A := {| cjson_Encode a := Ok (@json_Marshal A toy_codec a) |}.
Lemma toy_canonical_laws `{TokensLaws A} : @CanonicalLaws A toy_codec toy_canonical.
Proof. constructor. intros a s [= <-]. apply (@json_roundtrip A toy_codec toy_codec_laws). Qed.
Definition toy_indent `{Tokens A} : JSONIndent A := {| json_MarshalIndent := @json_Marshal A toy_codec |}.
Lemma toy_indent_laws `{TokensLaws A} : @JSONIndentLaws A toy_codec toy_indent.
Proof. constructor. apply (@json_roundtrip A toy_codec toy_codec_laws). Qed.

(** ** Cryptography *)

(** The public key is the padded seed; a signature is the key and a prefix of
    the message. *)
Definition toy_ed : Ed25519 :=
  {| ed_public := pad32; ed_sign priv msg := str_drop 32 priv +:+ str_take 8 msg;
     ed_verify pub msg s := String.eqb s (pub +:+ str_take 8 msg);
     pkix_ed25519 pub := if len pub =? 32 then Ok pub else Err (ErrMsg "bad key") |}.
Lemma pad32_length s : String.length (pad32 s) = 32%nat.
Proof. apply (@sha256_length toy_digest toy_digest_laws). Qed.
Lemma toy_ed_laws : @Ed25519Laws toy_ed.
Proof.
  constructor; cbn [ed_public ed_sign ed_verify toy_ed].
  - intros s. unfold len. by rewrite pad32_length.
  - intros s msg Hs. rewrite str_drop_all_len by done. apply String.eqb_refl.
Qed.
Lemma pad32_id s : String.length s = 32%nat -> pad32 s = s.
Proof. intros Hs. unfold pad32. rewrite <-Hs. apply str_take_app_exact. Qed.
Lemma hex_inj a b : hex a = hex b -> a = b.
Proof. intros E. pose proof (hex_DecodeString_hex a) as Ha. rewrite E, hex_DecodeString_hex in Ha. congruence. Qed.
(** Key identifiers tell public keys apart. *)
Lemma toy_key_ids a b i : @tufKeyID toy_digest toy_ed a = Ok i -> @tufKeyID toy_digest toy_ed b = Ok i -> a = b.
Proof.
  unfold tufKeyID. cbn [pkix_ed25519 toy_ed].
  destruct (Z.eqb_spec (len a) 32) as [Ha|]; [|done]. destruct (Z.eqb_spec (len b) 32) as [Hb|]; [|done].
  intros [= <-] [= E]. unfold sha256_hex in E. apply hex_inj in E. cbn [sha256 toy_digest] in E.
  unfold len in *. by rewrite !pad32_id in E by lia.
Qed.
Definition toy_encryption : KeyEncryption :=
  {| hkdf_read s t i := pad32 (s +:+ i); gcm_Seal k n p := k +:+ p;
     gcm_Open k n c := if HasPrefix c k then Ok (TrimPrefix c k) else Err (ErrMsg "message authentication failed") |}.
Lemma toy_encryption_laws : @KeyEncryptionLaws toy_encryption.
Proof.
  constructor; cbn [hkdf_read gcm_Seal gcm_Open toy_encryption].
  - intros s t i. unfold len. by rewrite pad32_length.
  - intros k n p. by rewrite HasPrefix_app, TrimPrefix_app.
Qed.
