(* ===== verification/Http.v ===== *)
(** server/echo.go, and what the handlers use of the echo framework and of
    net/http: the parts of a request they read, and the effects they have on
    the response. *)
From S2P Require Import Prelude GoStrings Bytes GoPath Schema World Crypto.

(** ** Requests and responses *)

Inductive http_method := GET | HEAD | OPTIONS | POST | PUT | PATCH | DELETE | OTHER (name : string).
#[global] Instance http_method_eq_dec : EqDecision http_method.
Proof. solve_decision. Defined.

(** The path of the route that matched ([c.Path()]) and its parameters
    ([c.Param]); [rq_form] is what [c.FormValue] finds (the query or the body),
    [rq_body] the outcome of reading the body; [rq_csrf] is the cookie that the
    CSRF check leaves in the context of the request.  Header names are in lower case;
    a cookie that is there has a value. *)
Record request := {
  rq_method : http_method; rq_path : string; rq_route : string; rq_ip : string; rq_scheme : string; rq_host : string;
  rq_headers : gmap string (list string); rq_cookies : gmap string string; rq_params : gmap string string;
  rq_query : gmap string (list string); rq_form : gmap string string; rq_body : result string;
  rq_csrf : option string
}.
Definition first_of (m : gmap string (list string)) (k : string) : string :=
  match m !! k with Some (v :: _) => v | _ => "" end.
Definition Header_Get (r : request) (k : string) : string := first_of (rq_headers r) k.
Definition c_Param (r : request) (k : string) : string := default "" (rq_params r !! k).
Definition c_QueryParam (r : request) (k : string) : string := first_of (rq_query r) k.
Definition c_FormValue (r : request) (k : string) : string := default "" (rq_form r !! k).

(** What a handler does to the response, in the order in which it does it. *)
Inductive output :=
  | Respond (code : Z) (body : string)                  (* c.String, c.JSON, c.NoContent, c.HTML, c.Redirect *)
  | Render (template arg : string)                      (* a page, written as it is rendered *)
  | Write (chunk : string)                              (* c.Response().Write *)
  | SendFile (path : string)                            (* c.File *)
  | SetHeader (name value : string)
  | SetCookie (name value : string) (expires : Z) (secure : bool)
  | Go (job : IO unit).                                 (* a goroutine is started: it runs at some later time *)
(** Outputs that send the status line. *)
Definition commits (o : output) : bool :=
  match o with Respond _ _ | Render _ _ | Write _ | SendFile _ => true | _ => false end.

(** encoding/json of a response value, mime.TypeByExtension, and the server's
    own version text: of no consequence here. *)
Class Encoders := { any_json : ∀ {A : Type}, A -> string }.
(** [c.Bind]: the body, query or path parameters decoded into a Go type, into a
    zero value or over one that has been filled in. *)
Class Bind (A : Type) := { bind_request : request -> result A }.
Class BindOnto (A : Type) := { bind_onto : A -> request -> result A }.
(** [echo.QueryParamOr]. *)
Class QueryParams := { query_int_or : request -> string -> Z -> result Z; query_bool_or : request -> string -> bool -> result bool }.

(** [err.Error()]; a failed system call also names the operation and the path. *)
Fixpoint Error (e : error) : string :=
  match e with
  | ErrNotExist => "no such file or directory"
  | ErrExist => "file exists"
  | ErrIO => "input/output error"
  | ErrNoRows => "sql: no rows in result set"
  | ErrDbConstraintUnique => "UNIQUE constraint failed"
  | ErrUpdateInUse => "update is referenced by one or more devices"
  | ErrInvalidUpdate => "invalid update archive"
  | ErrTufNotInitialized => "TUF is not initialized"
  | ErrTufAlreadyInitialized => "TUF is already initialized"
  | ErrTarUnpackExceedsLimit => "tar unpack exceeds limit"
  | ErrConfigUploadBroken => "config upload broken"
  | ErrHTTP code msg => "code=" +:+ Itoa code +:+ ", message=" +:+ msg
  | ErrPanic msg | ErrMsg msg => msg
  | ErrWrap msg inner => msg +:+ ": " +:+ Error inner
  end.

(** ** Handlers *)

(** The state of the process as a handler sees it: the world, the state of the
    front end [P] (rate limiter, tokens) and the response so far. *)
Record server (P : Type) := Server { sv_world : world; sv_front : P; sv_out : list output }.
Arguments Server {P}. Arguments sv_world {P}. Arguments sv_front {P}. Arguments sv_out {P}.
Definition with_world {P} (w : world) (s : server P) : server P := Server w (sv_front s) (sv_out s).
Definition with_front {P} (p : P) (s : server P) : server P := Server (sv_world s) p (sv_out s).
Notation H P := (M (server P)).

Section Handlers.
Context {P : Type}.

(** A call into the storage. *)
Definition io {A} (m : IO A) : H P A := λ s, let '(r, w) := m (sv_world s) in (r, with_world w s).
Definition put_out (o : output) : H P unit := modify (λ s, Server (sv_world s) (sv_front s) (sv_out s ++ [o])).
Definition c_String (code : Z) (body : string) : H P unit := put_out (Respond code body).
Definition c_NoContent (code : Z) : H P unit := put_out (Respond code "").
Definition c_JSON `{Encoders} {A} (code : Z) (v : A) : H P unit := put_out (Respond code (any_json v)).
Definition c_Redirect (code : Z) (url : string) : H P unit := put_out (SetHeader "Location" url);; put_out (Respond code "").
Definition c_File (path : string) : H P unit := put_out (SendFile path).
Definition Header_Set (name value : string) : H P unit := put_out (SetHeader name value).

(** server.EchoError: the message becomes the response of the error handler. *)
Definition EchoError {A} (code : Z) (msg : string) : H P A := fail (ErrHTTP code msg).
(** [EchoError(c, err, code, err.Error())]. *)
Definition EchoErr {A} (code : Z) (err : error) : H P A := EchoError code (Error err).
(** [if r, err := m; err != nil { return EchoError(c, err, code, msg) }]. *)
Definition or_error {A} (m : IO A) (code : Z) (msg : string) : H P A :=
  r ← try (io m); match r with Ok a => mret a | Err _ => EchoError code msg end.

Definition ReadBody (r : request) : H P string :=
  match rq_body r with Ok b => mret b | Err _ => EchoError 400 "Failed to read request body" end.
Definition ParseJsonBody {A} `{JSON A} (body : string) : H P A :=
  match json_Unmarshal body with Ok a => mret a | Err _ => EchoError 400 "Failed to parse request JSON body" end.
Definition ReadJsonBody {A} `{JSON A} (r : request) : H P A := body ← ReadBody r; ParseJsonBody body.
End Handlers.

(** A handler, and a middleware around one. *)
Notation handler P := (request -> H P unit) (only parsing).

(** What the client sees: the first output that commits the response, or else
    what the error handler of echo makes of the error. *)
Definition status_of_output (o : output) : Z := match o with Respond code _ => code | _ => 200 end.
Definition error_status (e : error) : Z := match e with ErrHTTP code _ => code | _ => 500 end.
Definition http_status {P} (r : result unit) (s : server P) : Z :=
  match List.find commits (sv_out s) with
  | Some o => status_of_output o
  | None => match r with Ok _ => 200 | Err e => error_status e end
  end.
(** Run a handler on a fresh response. *)
Definition serve {P} (h : handler P) (r : request) (w : world) (p : P) : Z * list output * world * P :=
  let '(res, s) := h r (Server w p []) in (http_status res s, sv_out s, sv_world s, sv_front s).

(** ** Theory *)

Section Theory.
Context {P : Type}.

(** [io] is a monad morphism. *)
Lemma io_ret {A} (a : A) (s : server P) : io (mret a) s = (mret a : H P A) s.
Proof. by destruct s. Qed.
Lemma io_bind {A B} (m : IO A) (f : A -> IO B) (s : server P) : io (m ≫= f) s = (x ← io m; io (f x)) s.
Proof. unfold io, mbind, M_bind. cbn. destruct (m (sv_world s)) as [[a|e] w]; [|done]. cbn. by destruct (f a w). Qed.
Lemma io_inv {A} (m : IO A) (s : server P) r s' :
  io m s = (r, s') -> ∃ w, m (sv_world s) = (r, w) ∧ s' = with_world w s.
Proof. unfold io. destruct (m (sv_world s)) as [r0 w]. intros [= <- <-]. eauto. Qed.
Lemma or_error_inv {A} (m : IO A) code msg (s : server P) r s' :
  or_error m code msg s = (r, s') ->
  ∃ r0 w, m (sv_world s) = (r0, w) ∧ s' = with_world w s ∧
    r = match r0 with Ok a => Ok a | Err _ => Err (ErrHTTP code msg) end.
Proof.
  unfold or_error. intros E. apply bind_try_inv in E as (r0 & s1 & E1 & E). apply io_inv in E1 as (w & E1 & ->).
  exists r0, w. split; [done|]. destruct r0; [by minv E|]. unfold EchoError in E. by minv E.
Qed.
End Theory.

(** ** What a handler keeps of the world *)

(** Files, tables and time are as they were. *)
Definition same (w w' : world) : Prop := fs w' = fs w ∧ db w' = db w ∧ clock w' = clock w.
#[global] Instance same_preorder : PreOrder same.
Proof.
  split; [done|]. intros w1 w2 w3 (Hf1 & Hd1 & Hc1) (Hf2 & Hd2 & Hc2).
  unfold same. by rewrite Hf2, Hd2, Hc2.
Qed.
Lemma same_query {A} (f : database -> result A) : keeps same (sql_query f) any.
Proof.
  intros w r w'. unfold sql_query. intros [(l & -> & E)|(e & l & -> & ->)]%sql_inv; [|done].
  split; [done|by destruct r].
Qed.
Lemma same_rand : keeps same rand_text any.
Proof. by intros w r w' [= <- <-]. Qed.
#[export] Hint Resolve same_query same_rand : keeps.

Definition on_world {P} (R : relation world) (s s' : server P) : Prop := R (sv_world s) (sv_world s').
#[global] Instance on_world_preorder {P} R `{!PreOrder R} : PreOrder (@on_world P R).
Proof. split; [intros s; by unfold on_world|]. intros s1 s2 s3 Hs1 Hs2. unfold on_world in *. by etrans. Qed.

Section OnWorld.
Context {P : Type} (R : relation world) `{!PreOrder R}.
Notation keeps_w m Q := (keeps (@on_world P R) m Q).

Lemma keeps_io {A} (m : IO A) Q : keeps R m Q -> keeps_w (io m) Q.
Proof. intros Hm s r s' (w & E & ->)%io_inv. apply Hm in E. by destruct s. Qed.
Lemma keeps_put_out o : keeps_w (put_out o) any.
Proof. intros s r s' [= <- <-]. split; [|done]. by unfold on_world. Qed.
Lemma keeps_front (f : P -> P) : keeps_w (modify (λ s, with_front (f (sv_front s)) s)) any.
Proof. intros s r s' [= <- <-]. split; [|done]. by unfold on_world. Qed.
Lemma keeps_or_error {A} (m : IO A) code msg Q : keeps R m Q -> keeps_w (or_error m code msg) Q.
Proof.
  intros Hm s r s' (r0 & w & E & -> & ->)%or_error_inv. apply Hm in E as [E Hr].
  split; [by destruct s|]. by destruct r0.
Qed.
Lemma keeps_EchoError {A} code msg (Q : A -> Prop) : keeps_w (EchoError code msg) Q.
Proof. apply keeps_fail. Qed.
Lemma keeps_EchoErr {A} code e (Q : A -> Prop) : keeps_w (EchoErr code e) Q.
Proof. apply keeps_fail. Qed.
Lemma keeps_c_Redirect code url : keeps_w (c_Redirect code url) any.
Proof. unfold c_Redirect. eapply keeps_bind; [apply keeps_put_out|]. intros _ _. apply keeps_put_out. Qed.
Lemma keeps_ReadBody r : keeps_w (ReadBody r) any.
Proof. unfold ReadBody. destruct (rq_body r); [by apply keeps_ret|apply keeps_fail]. Qed.
Lemma keeps_ParseJsonBody {A} `{JSON A} b : keeps_w (ParseJsonBody (A:=A) b) any.
Proof. unfold ParseJsonBody. destruct (json_Unmarshal b); [by apply keeps_ret|apply keeps_fail]. Qed.
Lemma keeps_ReadJsonBody {A} `{JSON A} r : keeps_w (ReadJsonBody (A:=A) r) any.
Proof.
  unfold ReadJsonBody. eapply keeps_bind; [apply keeps_ReadBody|]. intros b _. apply keeps_ParseJsonBody.
Qed.
End OnWorld.
#[export] Hint Resolve keeps_io keeps_put_out keeps_front keeps_or_error keeps_EchoError keeps_EchoErr keeps_c_Redirect
  keeps_ReadBody keeps_ParseJsonBody keeps_ReadJsonBody : keeps.
#[export] Hint Extern 1 (keeps _ (c_String _ _) _) => unfold c_String : keeps.
#[export] Hint Extern 1 (keeps _ (c_NoContent _) _) => unfold c_NoContent : keeps.
#[export] Hint Extern 1 (keeps _ (c_JSON _ _) _) => unfold c_JSON : keeps.
#[export] Hint Extern 1 (keeps _ (c_File _) _) => unfold c_File : keeps.
#[export] Hint Extern 1 (keeps _ (Header_Set _ _) _) => unfold Header_Set : keeps.

(** The same for a computation with [on_world]: follow the code. *)
Ltac keeps_handler := repeat first
  [ solve [eauto with keeps typeclass_instances]
  | match goal with
    | |- keeps _ (io _) _ => apply keeps_io
    | |- keeps _ (or_error _ _ _) _ => apply keeps_or_error
    | |- keeps _ (c_String _ _) _ => apply keeps_put_out; apply _
    end
  | keeps_step ].
