(* ===== verification/Gateway.v ===== *)
(** server/gateway: the server that devices talk to.  Requests arrive over TLS
    with the certificate of the device, or with a token that was given to it;
    the middleware finds the device and the handlers read and write its row and
    its files through the gateway storage. *)
From S2P Require Import Prelude GoStrings Bytes GoPath Schema World BaseFs Crypto Encoding Models Tar Configs Updates FsHandles Tuf TufFs GatewayStorage Http.

(** ** What the server takes from other packages *)

(** go-pkgz/expirable-cache: [Set] with the time to live of the cache, [Get]
    at a time in milliseconds, which also renews the entry's place in the LRU order. *)
Class TokenCache (C : Type) := {
  cache_Set : Z -> string -> string -> C -> C;
  cache_Get : Z -> string -> C -> option string * C
}.
(** The time to live that RegisterHandlers configures. *)
Definition token_ttl : Z := 3600 * 1000.
(** Documented: an entry is there until its time to live is over or it is
    evicted, and what is returned for a key is what was set for it. *)
Class TokenCacheLaws (C : Type) `{TokenCache C} := {
  cache_entries : C -> gmap string (string * Z);   (* value, time of expiry *)
  entries_Set now k v c : cache_entries (cache_Set now k v c) ⊆ <[k := (v, now + token_ttl)]> (cache_entries c);
  entries_Get now k c : cache_entries (snd (cache_Get now k c)) ⊆ cache_entries c;
  Get_Some now k c v : fst (cache_Get now k c) = Some v -> ∃ exp, cache_entries c !! k = Some (v, exp) ∧ now <= exp;
  Get_live now k c v exp : cache_entries c !! k = Some (v, exp) -> now < exp -> fst (cache_Get now k c) = Some v;
  Set_live now k v c : cache_entries (cache_Set now k v c) !! k = Some (v, now + token_ttl)
}.
(** time.Parse and Format: RFC 3339 to milliseconds, RFC 1123 in whole seconds. *)
Class TimeParse := { parse_rfc3339 : string -> option Z; parse_rfc1123 : string -> option Z; rfc1123 : Z -> string }.
(** pelletier/go-toml, for tables of tables of values. *)
Class Toml := {
  toml_value : Type;
  toml_Decode : string -> result (gmap string (gmap string toml_value));
  toml_Encode : gmap string (gmap string toml_value) -> result string
}.
(** uuid.New().String() of random bytes; mime.TypeByExtension; echo's BodyLimit:
    refuses the request, or passes it on with a body that ends in an error after
    so many bytes. *)
Class GatewayLibs := {
  uuid_String : string -> string;
  TypeByExtension : string -> string;
  limit_body : request -> result (result string)
}.

(** A request with the certificates of its TLS connection; [gr_stream] is what
    reading the body piece by piece gives: the bytes, and the error that ended them. *)
Record gw_request := {
  gr_request :> request; PeerCertificates : list Certificate; gr_stream : string * option error
}.
Definition with_body (b : result string) (r : gw_request) : gw_request :=
  {| gr_request := {| rq_method := rq_method r; rq_path := rq_path r; rq_route := rq_route r; rq_ip := rq_ip r;
       rq_scheme := rq_scheme r; rq_host := rq_host r; rq_headers := rq_headers r; rq_cookies := rq_cookies r;
       rq_params := rq_params r; rq_query := rq_query r; rq_form := rq_form r; rq_body := b; rq_csrf := rq_csrf r |};
     PeerCertificates := PeerCertificates r; gr_stream := gr_stream r |}.

(** [PemBytesToObject(pem, x509.ParseCertificate)] of storage/pem_helpers.go. *)
Definition PemBytesToCertificate `{CertCodec} (pem : string) : result Certificate :=
  match pem_decode pem with
  | None => Err (ErrMsg "malformed PEM data")
  | Some (first, rest) => if 0 <? len (TrimSpace rest) then Err (ErrMsg "malformed PEM data") else ParseCertificate first
  end.
(** [getHeader]: an empty header is a value, a missing one is not. *)
Definition getHeader (r : request) (header defVal : string) : string :=
  match rq_headers r !! header with Some (v :: _) => v | _ => defVal end.
(** The index of the last occurrence. *)
Fixpoint LastIndex (s sub : string) : option nat :=
  match s with
  | "" => if String.eqb sub "" then Some O else None
  | String _ s' =>
      match LastIndex s' sub with
      | Some i => Some (S i)
      | None => if HasPrefix s sub then Some O else None
      end
  end.
(** filepath.Ext: from the last dot of the last element. *)
Fixpoint filepath_Ext (s : string) : string :=
  match s with
  | "" => ""
  | String c s' =>
      let e := filepath_Ext s' in
      if negb (String.eqb e "") then e
      else if Ascii.eqb c "." && no_char "/" s' then s else ""
  end.
(** [parseRegistryHash] *)
Fixpoint registry_hash (markers : list string) (path : string) : string :=
  match markers with
  | [] => ""
  | marker :: markers' =>
      match LastIndex path marker with
      | Some idx => str_drop (idx + String.length marker) path
      | None => registry_hash markers' path
      end
  end.
Definition parseRegistryHash (path : string) : string := registry_hash ["/blobs/sha256:"; "/manifests/sha256:"] path.
Definition ostreeContentType (path : string) : string :=
  if String.eqb path "config" then "text/plain"
  else if HasPrefix path "delta-stats/" then "application/json"
  else "application/octet-stream".
Definition guessContentType `{GatewayLibs} (path : string) : string :=
  let ext := filepath_Ext path in
  let ext := if String.eqb ext ".log" then ".txt" else ext in
  let ct := TypeByExtension ext in
  if String.eqb ct "" then "application/octet-stream" else ct.

(** ** Request bodies *)

Record ConfigFileCreate := { cc_Name : string; cc_OnChanged : list string; cc_Value : string; cc_Unencrypted : option bool }.
Record ConfigCreate := { cc_Reason : string; cc_Files : list ConfigFileCreate }.
Record NetworkInfo := { Hostname : string; Mac : string; LocalIpv4 : string }.
Record testCreateBody := { tc_Name : string; tc_TestId : string }.
Record testCompleteBody := { td_Status : string; td_Details : string; td_Results : list TargetTestResult; td_Artifacts : list string }.
Record signedUrl := { su_Url : string; su_ContentType : string }.
Record ostreeDownloadUrl := { DownloadUrl : string; AccessToken : string }.
(** Any JSON value. *)
Class AnyJson := { json_value : Type; any_codec :: JSON json_value }.

(** ** Merging configurations *)

Notation pacmanConfig := (gmap string (gmap string toml_value)).

Section Pacman.
Context `{Toml}.
Definition merge_values (old values : gmap string toml_value) : gmap string toml_value :=
  foldl (λ m kv, <[kv.1 := kv.2]> m) old (map_to_list values).
Definition merge_section (p : pacmanConfig) (sv : string * gmap string toml_value) : pacmanConfig :=
  match p !! sv.1 with
  | None => <[sv.1 := sv.2]> p
  | Some old => <[sv.1 := merge_values old sv.2]> p
  end.
Definition pacman_merge (p : pacmanConfig) (tomlString : string) : result pacmanConfig :=
  data ← toml_Decode tomlString;
  Ok (foldl merge_section p (map_to_list data)).
(** A leading newline of the encoder is trimmed. *)
Fixpoint TrimLeft_nl (s : string) : string :=
  match s with String c s' => if Ascii.eqb c (byte 10) then TrimLeft_nl s' else s | "" => "" end.
Definition pacman_encode (p : pacmanConfig) : result string := s ← toml_Encode p; Ok (TrimLeft_nl s).
End Pacman.

Record handlers := { hg_url : string; hg_storage : GwStorage }.

Section Gateway.
Context `{HD : Digest, HT : TimeFormat, HCC : CertCodec, HN : Encoders, HTP : TimeParse, HTL : Toml, HL : GatewayLibs, HAJ : AnyJson}.
Context `{J1 : JSON DeviceUpdateEvent, J2 : JSON DeviceStatus, J3 : JSON AppliedConfigs, J4 : JSON (option (gmap string ConfigFile)), J5 : JSON TargetTest}.
Context `{J6 : JSON (list DeviceUpdateEvent), J7 : JSON ConfigCreate, J8 : JSON AppsStates, J9 : JSON NetworkInfo, J10 : JSON testCreateBody, J11 : JSON testCompleteBody}.
Context {C : Type} `{HC : TokenCache C} (h : handlers).
Notation gw := (hg_storage h).
Notation HG := (H C).
Definition gw_handler : Type := gw_request -> HG unit.
(** A handler behind the authentication: the context of the request carries the device. *)
Definition device_handler : Type := Device -> gw_handler.

(** ** Middleware *)

Definition authDevice (next : device_handler) : gw_handler := λ r,
  match PeerCertificates r with
  | [] => c_String 403 "no client certificate provided"
  | cert :: _ =>
      let uuid := CommonName cert in
      let certPem := pem_cert (Raw cert) in
      device ← try (io (GW_DeviceGet uuid));
      match device with
      | Err err => c_String 502 (Error err)
      | Ok None =>
          device ← try (io (DeviceCreate uuid certPem));
          match device with
          | Err _ => c_String 502 "Unable to create device"
          | Ok device => next device r
          end
      | Ok (Some device) =>
          if dv_Deleted device then c_String 403 ("Device(" +:+ uuid +:+ ") is on the denied list")
          else if negb (String.eqb certPem (Cert device)) then
            match PemBytesToCertificate (Cert device) with
            | Err _ => c_String 502 "Unable to rotate device certificate"
            | Ok current =>
                '(device, err) ← io (RotateCert gw device current cert);
                match err with
                | Some _ => c_String 502 "Unable to rotate device certificate"
                | None => next device r
                end
            end
          else next device r
      end
  end.
Definition cache_get (token : string) : HG (option string) := λ s,
  let '(v, c) := cache_Get (clock (sv_world s)) token (sv_front s) in (Ok v, with_front c s).
Definition cache_set (token uuid : string) : HG unit := λ s,
  (Ok tt, with_front (cache_Set (clock (sv_world s)) token uuid (sv_front s)) s).
Definition lookupTokenDevice (token : string) (next : device_handler) : gw_handler := λ r,
  uuid ← cache_get token;
  match uuid with
  | None => c_String 401 "invalid or expired token"
  | Some uuid =>
      device ← try (io (GW_DeviceGet uuid));
      match device with
      | Err _ => c_String 502 "Unable to look up device"
      | Ok None => c_String 401 "invalid device"
      | Ok (Some device) => if dv_Deleted device then c_String 401 "invalid device" else next device r
      end
  end.
Definition authToken (next : device_handler) : gw_handler := λ r,
  let token := c_QueryParam r "token" in
  if len token =? 0 then EchoError 401 "Missing token" else lookupTokenDevice token next r.
Definition checkinDevice (next : device_handler) : device_handler := λ d r,
  let apps := getHeader r "x-ats-dockerapps" (Apps d) in
  let hash := getHeader r "x-ats-ostreehash" (OstreeHash d) in
  let tag := getHeader r "x-ats-tags" (Tag d) in
  let target := getHeader r "x-ats-target" (TargetName d) in
  '(d, _) ← io (CheckIn d target tag hash apps);
  next d r.
Definition authDeviceOrBearer (next : device_handler) : gw_handler := λ r,
  match PeerCertificates r with
  | _ :: _ => authDevice (checkinDevice next) r
  | [] =>
      let authHeader := Header_Get r "authorization" in
      if negb (HasPrefix authHeader "Bearer ") then c_String 401 "missing or invalid Authorization header"
      else lookupTokenDevice (str_drop (String.length "Bearer ") authHeader) next r
  end.
(** middleware.BodyLimit, but for the upload of artifacts. *)
Definition bodyLimit (next : device_handler) : device_handler := λ d r,
  if String.eqb (rq_route r) "/tests/:testid/:path" then next d r
  else match limit_body r with Err e => fail e | Ok body => next d (with_body body r) end.

(** ** Handlers *)

(** handlers_device.go, handlers_info.go *)
Definition deviceGet : device_handler := λ d r, c_JSON 200 d.
Definition akTomlInfo : device_handler := λ d r,
  bytes ← ReadBody r;
  or_error (PutFile gw d AktomlFile bytes) 500 "Failed to save aktoml";;
  c_String 200 "".
Definition hardwareInfo : device_handler := λ d r,
  bytes ← ReadBody r;
  (ParseJsonBody bytes : HG json_value);;
  or_error (PutFile gw d HwInfoFile bytes) 500 "Failed to save hwinfo";;
  c_String 200 "".
Definition networkInfo : device_handler := λ d r,
  bytes ← ReadBody r;
  (ParseJsonBody bytes : HG NetworkInfo);;
  or_error (PutFile gw d NetInfoFile bytes) 500 "Failed to save netinfo";;
  c_String 200 "".
Definition appsStatesInfo : device_handler := λ d r,
  bytes ← ReadBody r;
  data ← (ParseJsonBody bytes : HG AppsStates);
  match parse_rfc3339 (as_DeviceTime data) with
  | None => EchoError 400 ("Failed to parse device time, must be RFC3339: " +:+ as_DeviceTime data)
  | Some _ =>
      or_error (SaveAppsStates gw d bytes) 500 "Failed to save apps-states";;
      c_String 200 ""
  end.

(** handlers_events.go *)
Definition valid_event (event : DeviceUpdateEvent) : bool :=
  negb (len (Id event) =? 0) && negb (len (CorrelationId (Event event)) =? 0) && ValidCorrelationId (CorrelationId (Event event)).
(** An invalid time of the device is replaced by the time of the server. *)
Definition with_valid_time (now : Z) (event : DeviceUpdateEvent) : DeviceUpdateEvent :=
  match parse_rfc3339 (DeviceTime event) with
  | Some _ => event
  | None => {| Id := Id event; DeviceTime := rfc3339_utc now; Event := Event event; EventType := EventType event |}
  end.
Fixpoint valid_events (now : Z) (events : list DeviceUpdateEvent) : list DeviceUpdateEvent :=
  match events with
  | [] => []
  | event :: events' =>
      if valid_event event then with_valid_time now event :: valid_events now events' else valid_events now events'
  end.
Definition eventsUpload : device_handler := λ d r,
  events ← (ReadJsonBody r : HG (list DeviceUpdateEvent));
  now ← io time_now_ms;
  match valid_events now events with
  | [] => c_String 200 ""
  | validEvents => or_error (ProcessEvents gw d validEvents) 500 "Failed to save events";; c_String 200 ""
  end.

(** handlers_config.go.  A nil map cannot be assigned to. *)
Definition valid_config_names : list string := ["wireguard-client"; "fio-remote-actions"].
Definition config_file_of (newFile : ConfigFileCreate) : ConfigFile :=
  {| cf_Value := cc_Value newFile; Unencrypted := default false (cc_Unencrypted newFile); OnChanged := cc_OnChanged newFile |}.
Fixpoint patch_files (files : option (gmap string ConfigFile)) (news : list ConfigFileCreate) : result (option (gmap string ConfigFile)) :=
  match news with
  | [] => Ok files
  | newFile :: news' =>
      if negb (bool_decide (cc_Name newFile ∈ valid_config_names)) then Err (ErrHTTP 400 "invalid config file name")
      else match files with
           | None => Err (ErrPanic "assignment to entry in nil map")
           | Some files => patch_files (Some (<[cc_Name newFile := config_file_of newFile]> files)) news'
           end
  end.
Definition configPatch : device_handler := λ d r,
  newC ← (ReadJsonBody r : HG ConfigCreate);
  if Z.of_nat (length (cc_Files newC)) =? 0 then EchoError 400 "no config files provided" else
  if negb (ValidConfigsReasonRegex (cc_Reason newC)) then EchoError 400 "reason must match pattern" else
  files ← or_error (GetDeviceConfig gw d) 500 "failed to fetch device config";
  files ← lift (patch_files files (cc_Files newC));
  or_error (SaveDeviceConfig gw d (cc_Reason newC) (json_Marshal files)) 500 "failed to save device config";;
  c_String 201 "".

Record merged := { mg_files : gmap string ConfigFile; mg_audit : list AuditFields; mg_pacman : pacmanConfig }.
Definition no_audit : AuditFields := {| af_CreatedAt := 0; af_CreatedBy := ""; af_Reason := ""; Auxiliary := "" |}.
Definition merged_nothing : merged := {| mg_files := ∅; mg_audit := replicate 3 no_audit; mg_pacman := ∅ |}.
(** The files of one set over those of the sets before it. *)
Definition merge_file (m : gmap string ConfigFile * pacmanConfig) (kv : string * ConfigFile) : HG (gmap string ConfigFile * pacmanConfig) :=
  let '(k, v) := kv in
  p ← (if String.eqb k ConfigSotaOverride
       then match pacman_merge m.2 (cf_Value v) with
            | Ok p => mret p
            | Err _ => EchoError 500 "failed to parse sota toml config"
            end
       else mret m.2);
  mret (<[k := v]> m.1, p).
Fixpoint merge_files (m : gmap string ConfigFile * pacmanConfig) (cfg : list (string * ConfigFile)) : HG (gmap string ConfigFile * pacmanConfig) :=
  match cfg with [] => mret m | kv :: cfg' => m ← merge_file m kv; merge_files m cfg' end.
Definition auxiliary (d : Device) (idx : nat) : string := match idx with 1%nat => GroupName d | 2%nat => Uuid d | _ => "" end.
Definition merge_config (d : Device) (idx : nat) (srcConfig : option ConfigFileSet) (m : merged) : HG merged :=
  match srcConfig with
  | None => mret m
  | Some src =>
      let audit := <[idx := {| af_CreatedAt := CreatedAt src; af_CreatedBy := CreatedBy src; af_Reason := Reason src;
                               Auxiliary := auxiliary d idx |}]> (mg_audit m) in
      if len (RawFiles src) =? 0 then mret {| mg_files := mg_files m; mg_audit := audit; mg_pacman := mg_pacman m |} else
      match json_Unmarshal (RawFiles src) with
      | Err _ => EchoError 500 "failed to parse config JSON"
      | Ok cfg =>
          '(files, p) ← merge_files (mg_files m, mg_pacman m) (map_to_list (default ∅ cfg));
          mret {| mg_files := files; mg_audit := audit; mg_pacman := p |}
      end
  end.
Definition merge_sota (m : merged) : HG (gmap string ConfigFile) :=
  if Z.of_nat (size (mg_pacman m)) =? 0 then mret (mg_files m) else
  match pacman_encode (mg_pacman m) with
  | Err _ => EchoError 500 "failed to encode merged sota toml config"
  | Ok value =>
      let sota := default {| cf_Value := ""; Unencrypted := false; OnChanged := [] |} (mg_files m !! ConfigSotaOverride) in
      mret (<[ConfigSotaOverride := {| cf_Value := value; Unencrypted := Unencrypted sota; OnChanged := OnChanged sota |}]> (mg_files m))
  end.
(** Latest change at or before the time in If-Modified-Since? *)
Definition not_modified (r : request) (timestamp : Z) : bool :=
  let ims := Header_Get r "if-modified-since" in
  (0 <? len ims) && match parse_rfc1123 ims with Some dts => timestamp <=? dts | None => false end.
Definition configGet : device_handler := λ d r,
  '(c0, c1, c2, timestamp) ← or_error (GetConfigs gw d) 500 "failed to fetch config";
  if timestamp =? 0 then c_NoContent 204 else
  if not_modified r timestamp then c_String 304 "" else
  m ← merge_config d 0 c0 merged_nothing;
  m ← merge_config d 1 c1 m;
  m ← merge_config d 2 c2 m;
  files ← merge_sota m;
  Header_Set "Date" (rfc1123 timestamp);;
  now ← io time_now_unix;
  ignore (io (SaveAppliedConfigs gw d {| ac_Files := files; AppliedAt := now; AuditTrail := mg_audit m |}));;
  c_JSON 200 files.

(** handlers_meta.go *)
Definition metaHandler (role file : string) : device_handler := λ d r,
  let tag := Header_Get r "x-ats-tags" in
  if len tag =? 0 then EchoError 404 "Device sent no tag" else
  content ← try (io (GetTufMeta gw d file));
  match content with
  | Err err => if errors_Is err ErrNotExist then EchoError 404 "Not found TUF role" else EchoError 500 "Failed to fetch TUF role"
  | Ok content => Header_Set "x-ats-role-checksum" (sha256_hex content);; c_String 200 content
  end.
Definition metaTimestamp := metaHandler "timestamp" TufTimestampFile.
Definition metaSnapshot := metaHandler "snapshot" TufSnapshotFile.
Definition metaTargets := metaHandler "targets" TufTargetsFile.
Definition readRootVersion (r : request) : option Z :=
  match cut_suffix (c_Param r "root") ".root.json" with
  | None => None
  | Some v => match Atoi v with Some version => if version <? 1 then None else Some version | None => None end
  end.
Definition metaRoot : device_handler := λ d r,
  match readRootVersion r with
  | None => EchoError 404 "Not Found"
  | Some version => metaHandler "root" (Itoa version +:+ "." +:+ TufRootFile) d r
  end.

(** handlers_ostree.go, handlers_apps.go *)
Definition new_token : HG string := t ← io rand_text; lift (slice t 0 16).
Definition ostreeUrls : device_handler := λ d r,
  token ← new_token;
  cache_set token (Uuid d);;
  c_JSON 200 [{| DownloadUrl := hg_url h +:+ "/ostree"; AccessToken := token |}].
Definition ostreeFileStream : device_handler := λ d r,
  filePath ← lift (slice (rq_path r) (len "/ostree/") (len (rq_path r)));
  if negb (String.eqb (Clean filePath) filePath) then c_String 404 "Not Found" else
  if len (UpdateName d) =? 0 then EchoError 400 "device has no updates configured" else
  Header_Set "Content-Type" (ostreeContentType filePath);;
  c_File (GetOstreeFilePath gw d filePath).
Definition appsProxyUrl : device_handler := λ d r,
  token ← new_token;
  cache_set token (Uuid d);;
  c_String 201 (hg_url h +:+ "/registry?token=" +:+ token).
Definition blobHead : device_handler := λ d r, c_NoContent 200.
Definition blobGet : device_handler := λ d r,
  let path := c_Param r "*" in
  if negb (String.eqb (Clean path) path) then c_String 404 "Not Found" else
  let hash := parseRegistryHash path in
  if (len hash =? 0) || Contains hash ".." then c_String 404 "Not Found" else
  c_File (GetAppsFilePath gw d ("blobs/sha256/" +:+ hash)).

(** handlers_fiotest.go *)
Definition testCreate : device_handler := λ d r,
  let target := Header_Get r "x-ats-target" in
  test ← (ReadJsonBody r : HG testCreateBody);
  let id := tc_TestId test in
  if (0 <? len id) && negb (TestIdRegex id) then EchoError 400 ("test-id(" +:+ id +:+ ") must match pattern: ^[A-Za-z0-9\-\_]{15,48}$") else
  id ← (if len id =? 0 then t ← io rand_text; mret (uuid_String t) else mret id);
  or_error (TestCreate gw d target (tc_Name test) id) 500 "Failed to save test";;
  c_String 201 id.
Definition testComplete : device_handler := λ d r,
  let testid := c_Param r "testid" in
  body ← try (ReadJsonBody r : HG testCompleteBody);
  match body with
  | Err _ => EchoError 500 "Failed to parse request body"
  | Ok test =>
      let status := if String.eqb (td_Status test) "" then "PASSED" else td_Status test in
      or_error (TestComplete gw d testid status (td_Details test) (td_Results test)) 500 "Failed to save test";;
      let baseUrl := "https://" +:+ rq_host r +:+ rq_path r in
      c_JSON 200 (foldl (λ m p, <[p := {| su_Url := baseUrl +:+ "/" +:+ p; su_ContentType := guessContentType p |}]> m)
                        (∅ : gmap string signedUrl) (td_Artifacts test))
  end.
Definition testArtifact : device_handler := λ d r,
  let testid := c_Param r "testid" in
  let path := c_Param r "path" in
  let '(bytes, err) := gr_stream r in
  or_error (TestStoreArtifact gw d testid path bytes;; match err with Some e => fail e | None => mret tt end)
    500 "Failed to save test artifact";;
  c_String 200 "OK".

(** ** Routes (handlers.go) *)

Definition mtls_routes : list (http_method * string * device_handler) :=
  [(POST, "/apps-states", appsStatesInfo);
   (POST, "/app-proxy-url", appsProxyUrl);
   (GET, "/config", configGet);
   (PATCH, "/config", configPatch);
   (GET, "/device", deviceGet);
   (POST, "/events", eventsUpload);
   (POST, "/ostree/download-urls", ostreeUrls);
   (GET, "/repo/timestamp.json", metaTimestamp);
   (GET, "/repo/snapshot.json", metaSnapshot);
   (GET, "/repo/targets.json", metaTargets);
   (GET, "/repo/:root", metaRoot);
   (PUT, "/system_info", hardwareInfo);
   (PUT, "/system_info/config", akTomlInfo);
   (PUT, "/system_info/network", networkInfo);
   (POST, "/tests", testCreate);
   (PUT, "/tests/:testid", testComplete);
   (PUT, "/tests/:testid/:path", testArtifact)].
Definition mtls (next : device_handler) : gw_handler := authDevice (bodyLimit (checkinDevice next)).
Definition gateway_routes : list (http_method * string * gw_handler) :=
  [(GET, "/healthz", λ _, c_String 200 "ok")] ++
  map (λ '(m, p, f), (m, p, mtls f)) mtls_routes ++
  [(GET, "/ostree/*", authDeviceOrBearer ostreeFileStream);
   (HEAD, "/registry/v2/*", authToken blobHead);
   (GET, "/registry/v2/*", authToken blobGet)].
End Gateway.
Arguments gw_handler : clear implicits.
Arguments device_handler : clear implicits.
