(* ===== verification/Limiter.v ===== *)
(** auth/generations.go and auth/ratelimiter.go: the limits per client address,
    and the theorem that a block for bad authentication holds until its end. *)
From S2P Require Import Prelude GoStrings Bytes GoPath Schema World Crypto FsHandles Http.

(** ** generationMap *)

Record generationMap (V : Type) := GenMap { front : gmap string V; back : gmap string V; lastSwap : Z; sweepAge : Z }.
Arguments GenMap {V}. Arguments front {V}. Arguments back {V}. Arguments lastSwap {V}. Arguments sweepAge {V}.

Definition newGenerationMap {V} (now age : Z) : generationMap V := GenMap ∅ ∅ now age.
Definition gm_get {V} (g : generationMap V) (key : string) : option V * generationMap V :=
  match front g !! key with
  | Some v => (Some v, g)
  | None =>
      match back g !! key with
      | Some v => (Some v, GenMap (<[key := v]> (front g)) (delete key (back g)) (lastSwap g) (sweepAge g))
      | None => (None, g)
      end
  end.
Definition gm_put {V} (g : generationMap V) (key : string) (v : V) : generationMap V :=
  GenMap (<[key := v]> (front g)) (back g) (lastSwap g) (sweepAge g).
Definition gm_sweep {V} (g : generationMap V) (now : Z) : generationMap V :=
  if sweepAge g <=? now - lastSwap g then GenMap ∅ (front g) now (sweepAge g) else g.

(** ** golang.org/x/time/rate.Limiter: a token bucket; a limit is a fraction of
    tokens per second, times are nanoseconds. *)
Class RateLimit := {
  bucket : Type;
  NewLimiter : Z * Z -> Z -> bucket;          (* limit, burst *)
  AllowN : bucket -> Z -> Z -> bool * bucket; (* time, number of tokens *)
  no_tokens : bucket -> Z -> bool             (* Tokens() <= 0 *)
}.

(** ** authRateLimiter *)

Definition errTooManyRequests := ErrMsg "rate-limit exceeded".
Definition errTooManyBadAuthOps := ErrMsg "too many bad authentication operations".
Definition badAuthRate : Z * Z := (1, 60).
(** [time.Duration(n) * time.Second], in 64 bits. *)
Definition seconds (n : Z) : Z := wrap64 (n * 10 ^ 9).
(** The zero time.Time, in nanoseconds since the epoch. *)
Definition zero_time : Z := -62135596800 * 10 ^ 9.

Section Limiter.
Context `{RateLimit, TimeFormat}.

(** An [ipLimiter] is shared by pointer: what is done to it is put back under
    its key. *)
Record ipLimiter := { rateLimit : bucket; authLimit : bucket; blockUntil : Z; blockReason : option error }.
Record authRateLimiter := {
  entries : generationMap ipLimiter; attemptsPerSecond : Z; attemptsBlockDuration : Z;
  badAuthLimit : Z; badAuthBlockDuration : Z
}.
Definition with_entries (g : generationMap ipLimiter) (rl : authRateLimiter) : authRateLimiter :=
  {| entries := g; attemptsPerSecond := attemptsPerSecond rl; attemptsBlockDuration := attemptsBlockDuration rl;
     badAuthLimit := badAuthLimit rl; badAuthBlockDuration := badAuthBlockDuration rl |}.

Definition or_default (n d : Z) : Z := if n <=? 0 then d else n.
Definition NewRateLimiter (cfg : RateLimitConfig) (now : Z) : authRateLimiter :=
  let attempts := or_default (AttemptsPerSecond cfg) 20 in
  let attemptsBlock := or_default (AttemptsBlockDurationSec cfg) 30 in
  let badLimit := or_default (BadAuthLimit cfg) 5 in
  let badBlock := or_default (BadAuthBlockDurationSec cfg) 300 in
  let sweep := wrap64 (2 * seconds badBlock) in
  let alt := wrap64 (2 * seconds attemptsBlock) in
  {| entries := newGenerationMap now (if sweep <? alt then alt else sweep);
     attemptsPerSecond := attempts; attemptsBlockDuration := seconds attemptsBlock;
     badAuthLimit := badLimit; badAuthBlockDuration := seconds badBlock |}.

Definition getOrCreate (rl : authRateLimiter) (identifier : string) : ipLimiter * authRateLimiter :=
  let '(o, g) := gm_get (entries rl) identifier in
  match o with
  | Some v => (v, with_entries g rl)
  | None =>
      let v := {| rateLimit := NewLimiter (attemptsPerSecond rl, 1) (attemptsPerSecond rl);
                  authLimit := NewLimiter badAuthRate (badAuthLimit rl); blockUntil := zero_time; blockReason := None |} in
      (v, with_entries (gm_put g identifier v) rl)
  end.
Definition update_entry (identifier : string) (v : ipLimiter) (rl : authRateLimiter) : authRateLimiter :=
  with_entries (gm_put (entries rl) identifier v) rl.
(** Nothing looks at the chain of this error, only its text is shown. *)
Definition blocked_until (reason : error) (until : Z) : error :=
  ErrMsg (Error reason +:+ ": You are blocked until " +:+ rfc3339_utc (until / 10 ^ 6)).

Definition flagBadOperation (rl : authRateLimiter) (identifier : string) (now : Z) : authRateLimiter :=
  let '(v, rl) := getOrCreate rl identifier in
  let '(ok, b) := AllowN (authLimit v) now 1 in
  let v := {| rateLimit := rateLimit v; authLimit := b; blockUntil := blockUntil v; blockReason := blockReason v |} in
  if ok then update_entry identifier v rl
  else
    let until := now + badAuthBlockDuration rl in
    update_entry identifier {| rateLimit := rateLimit v; authLimit := b; blockUntil := until;
                               blockReason := Some (blocked_until errTooManyBadAuthOps until) |} rl.
Definition allow (rl : authRateLimiter) (identifier : string) (now : Z) : option error * authRateLimiter :=
  let rl := with_entries (gm_sweep (entries rl) now) rl in
  let '(v, rl) := getOrCreate rl identifier in
  if (now <? blockUntil v) || no_tokens (authLimit v) now then (blockReason v, rl) else
  let '(ok, b) := AllowN (rateLimit v) now 1 in
  let v' := {| rateLimit := b; authLimit := authLimit v; blockUntil := blockUntil v; blockReason := blockReason v |} in
  if ok then (None, update_entry identifier v' rl)
  else
    let until := now + attemptsBlockDuration rl in
    let reason := blocked_until errTooManyRequests until in
    (Some reason, update_entry identifier {| rateLimit := b; authLimit := authLimit v; blockUntil := until;
                                             blockReason := Some reason |} rl).

(** The same on the server's limiter, at the time of the clock. *)
Definition now_ns {P} : H P Z := gets (λ s, clock (sv_world s) * 10 ^ 6).
Definition FlagBadOperation (r : request) : H authRateLimiter unit :=
  now ← now_ns; modify (λ s, with_front (flagBadOperation (sv_front s) (rq_ip r) now) s).
Definition rl_allow (r : request) : H authRateLimiter (option error) :=
  now ← now_ns;
  ((λ s, let '(e, rl) := allow (sv_front s) (rq_ip r) now in (Ok e, with_front rl s)) : H authRateLimiter (option error)).
(** [rl.Middleware] and [GetRateLimiterMiddleware]. *)
Definition rl_Middleware (next : handler authRateLimiter) : handler authRateLimiter := λ r,
  e ← rl_allow r;
  match e with Some err => EchoErr 429 err | None => next r end.

(** ** Theory *)

(** The address is blocked until [U] at least, and the entry that says so
    cannot be swept away before; [T] is a time not after the present. *)
Definition blocked (rl : authRateLimiter) (i : string) (U T : Z) : Prop :=
  U <= T + sweepAge (entries rl) ∧
  ∃ v, U <= blockUntil v ∧ is_Some (blockReason v) ∧
    (front (entries rl) !! i = Some v ∨
     front (entries rl) !! i = None ∧ back (entries rl) !! i = Some v ∧ U <= lastSwap (entries rl) + sweepAge (entries rl)).

Lemma getOrCreate_config rl i v rl' :
  getOrCreate rl i = (v, rl') ->
  sweepAge (entries rl') = sweepAge (entries rl) ∧ lastSwap (entries rl') = lastSwap (entries rl) ∧
  badAuthBlockDuration rl' = badAuthBlockDuration rl ∧ front (entries rl') !! i = Some v.
Proof.
  unfold getOrCreate, gm_get. destruct (front (entries rl) !! i) as [v1|] eqn:E1.
  { intros [= <- <-]. by destruct rl. }
  destruct (back (entries rl) !! i) as [v2|] eqn:E2; intros [= <- <-]; cbn; by rewrite lookup_insert_eq.
Qed.
Lemma getOrCreate_other rl i j v rl' :
  i <> j -> getOrCreate rl j = (v, rl') ->
  front (entries rl') !! i = front (entries rl) !! i ∧ back (entries rl') !! i = back (entries rl) !! i.
Proof.
  intros Hij. unfold getOrCreate, gm_get. destruct (front (entries rl) !! j); [by intros [= <- <-]|].
  destruct (back (entries rl) !! j); intros [= <- <-]; cbn; rewrite ?lookup_insert_ne, ?lookup_delete_ne by done; done.
Qed.
Lemma getOrCreate_blocked rl i j v rl' U T :
  blocked rl i U T -> getOrCreate rl j = (v, rl') ->
  blocked rl' i U T ∧ (i = j -> U <= blockUntil v ∧ is_Some (blockReason v)).
Proof.
  intros [HU (w & Hw & Hr & Hin)] E. pose proof (getOrCreate_config _ _ _ _ E) as (Hs & Hl & _ & Hf).
  destruct (decide (i = j)) as [<-|Hij].
  - assert (v = w) as ->.
    { revert E. unfold getOrCreate, gm_get. destruct Hin as [->|(-> & -> & _)]; by intros [= <- _]. }
    split; [|done]. split; [by rewrite Hs|]. exists w. split; [done|]. split; [done|]. by left.
  - split; [|done]. split; [by rewrite Hs|]. exists w. split; [done|]. split; [done|].
    destruct (getOrCreate_other _ _ _ _ _ Hij E) as [-> ->]. by rewrite Hs, Hl.
Qed.
Lemma update_blocked rl i j v U T :
  blocked rl i U T -> (i = j -> U <= blockUntil v ∧ is_Some (blockReason v)) -> blocked (update_entry j v rl) i U T.
Proof.
  intros [HU (w & Hw & Hr & Hin)] Hv. split; [done|]. cbn. destruct (decide (i = j)) as [<-|Hij].
  - destruct (Hv eq_refl). exists v. rewrite lookup_insert_eq. auto.
  - exists w. rewrite lookup_insert_ne by done. auto.
Qed.
Lemma sweep_blocked rl i U T now :
  blocked rl i U T -> T <= now < U -> blocked (with_entries (gm_sweep (entries rl) now) rl) i U T.
Proof.
  intros [HU (w & Hw & Hr & Hin)] Hnow. split; [cbn; by unfold gm_sweep; case_match|].
  exists w. split; [done|]. split; [done|]. cbn. unfold gm_sweep. destruct (Z.leb_spec (sweepAge (entries rl)) (now - lastSwap (entries rl))).
  - cbn. right. destruct Hin as [Hin|(_ & _ & Hin)]; [|lia]. rewrite lookup_empty. split; [done|]. split; [done|]. lia.
  - done.
Qed.
Lemma flag_blocked rl i j U T now :
  blocked rl i U T -> U <= now + badAuthBlockDuration rl -> blocked (flagBadOperation rl j now) i U T.
Proof.
  intros Hb HU. unfold flagBadOperation. destruct (getOrCreate rl j) as [v rl'] eqn:E.
  pose proof (getOrCreate_config _ _ _ _ E) as (_ & _ & Hd & _).
  destruct (getOrCreate_blocked _ _ _ _ _ _ _ Hb E) as [Hb' Hv]. destruct (AllowN _ _ _) as [[] b].
  - apply update_blocked; [done|]. exact Hv.
  - apply update_blocked; [done|]. intros _. cbn. split; [by rewrite Hd|by eexists].
Qed.
(** A blocked address is refused, whoever else is let in, and stays blocked. *)
Lemma allow_blocked rl i j U T now :
  blocked rl i U T -> T <= now < U ->
  blocked (allow rl j now).2 i U T ∧ (i = j -> is_Some (allow rl j now).1).
Proof.
  intros Hb Hnow. unfold allow. pose proof (sweep_blocked _ _ _ _ _ Hb Hnow) as Hb1.
  destruct (getOrCreate _ j) as [v rl'] eqn:E. destruct (getOrCreate_blocked _ _ _ _ _ _ _ Hb1 E) as [Hb' Hv].
  destruct ((now <? blockUntil v) || no_tokens (authLimit v) now) eqn:Eb.
  { split; [done|]. intros Hij. by apply Hv. }
  destruct (AllowN _ _ _) as [ok b]. destruct ok; cbn [fst snd].
  - split; [apply update_blocked; [done|]; exact Hv|]. intros Hij. apply Hv in Hij as [Hu _]. bool_to_prop. lia.
  - split; [|by eexists]. apply update_blocked; [done|]. intros Hij. apply Hv in Hij as [Hu _]. bool_to_prop. lia.
Qed.

(** Requests at the limiter, with their times. *)
Inductive limiter_op := OpAllow (i : string) | OpFlag (i : string).
Definition limiter_step (rl : authRateLimiter) (x : Z * limiter_op) : authRateLimiter :=
  match x.2 with OpAllow i => (allow rl i x.1).2 | OpFlag i => flagBadOperation rl i x.1 end.

Lemma allow_config rl i now :
  badAuthBlockDuration (allow rl i now).2 = badAuthBlockDuration rl ∧ sweepAge (entries (allow rl i now).2) = sweepAge (entries rl).
Proof.
  unfold allow. destruct (getOrCreate _ i) as [v rl'] eqn:E. pose proof (getOrCreate_config _ _ _ _ E) as (Hs & _ & Hd & _).
  assert (sweepAge (entries rl') = sweepAge (entries rl)) as Hs'.
  { rewrite Hs. cbn. unfold gm_sweep. by case_match. }
  case_match; [done|]. by destruct (AllowN _ _ _) as [[] b].
Qed.
Lemma flag_config rl i now :
  badAuthBlockDuration (flagBadOperation rl i now) = badAuthBlockDuration rl ∧
  sweepAge (entries (flagBadOperation rl i now)) = sweepAge (entries rl).
Proof.
  unfold flagBadOperation. destruct (getOrCreate rl i) as [v rl'] eqn:E. pose proof (getOrCreate_config _ _ _ _ E) as (Hs & _ & Hd & _).
  by destruct (AllowN _ _ _) as [[] b].
Qed.
Lemma steps_blocked l rl i U T :
  blocked rl i U T -> U <= T + badAuthBlockDuration rl -> Forall (λ x : Z * limiter_op, T <= x.1 < U) l ->
  blocked (foldl limiter_step rl l) i U T.
Proof.
  revert rl. induction l as [|[t op] l IH]; intros rl Hb HU Hl; [done|]. apply Forall_cons in Hl as [Ht Hl]. cbn in Ht.
  cbn [foldl]. unfold limiter_step at 2. cbn [fst snd]. destruct op as [j|j]; apply IH; try done.
  - by apply allow_blocked.
  - by rewrite (proj1 (allow_config rl j t)).
  - apply flag_blocked; [done|lia].
  - by rewrite (proj1 (flag_config rl j t)).
Qed.
Lemma flag_blocks rl i now :
  (AllowN (authLimit (getOrCreate rl i).1) now 1).1 = false -> badAuthBlockDuration rl <= sweepAge (entries rl) ->
  blocked (flagBadOperation rl i now) i (now + badAuthBlockDuration rl) now.
Proof.
  intros Ha Hs. unfold flagBadOperation. destruct (getOrCreate rl i) as [v rl'] eqn:E. cbn in Ha.
  pose proof (getOrCreate_config _ _ _ _ E) as (Hs' & _ & Hd & _). destruct (AllowN _ _ _) as [ok b]. cbn in Ha. subst ok.
  split; [cbn; lia|]. eexists. split; [|split; [|left; cbn; by rewrite lookup_insert_eq]]; cbn; [lia|by eexists].
Qed.

(** C39. A block for bad authentication holds: once an address has used up its bad
    attempts, every request it makes before the block ends is refused, whatever
    other requests and failures, of whatever addresses, come in between, and
    however many addresses the map of the limiter has to sweep. *)
Theorem bad_auth_block_holds rl i t0 l t :
  (AllowN (authLimit (getOrCreate rl i).1) t0 1).1 = false -> badAuthBlockDuration rl <= sweepAge (entries rl) ->
  let U := t0 + badAuthBlockDuration rl in
  Forall (λ x : Z * limiter_op, t0 <= x.1 < U) l -> t0 <= t < U ->
  is_Some (allow (foldl limiter_step (flagBadOperation rl i t0) l) i t).1.
Proof.
  intros Ha Hs U Hl Ht. eapply (allow_blocked _ i i U t0); [|done|done]. apply steps_blocked; [by apply flag_blocks| |done].
  rewrite (proj1 (flag_config rl i t0)). subst U. lia.
Qed.
(** Every limiter the server makes satisfies the condition on the sweep. *)
Lemma NewRateLimiter_sweep cfg now :
  BadAuthBlockDurationSec cfg < 2 ^ 32 -> AttemptsBlockDurationSec cfg < 2 ^ 32 ->
  badAuthBlockDuration (NewRateLimiter cfg now) <= sweepAge (entries (NewRateLimiter cfg now)).
Proof.
  intros Hc1 Hc2. unfold NewRateLimiter, seconds, or_default. cbn [entries newGenerationMap sweepAge badAuthBlockDuration].
  destruct (Z.leb_spec (BadAuthBlockDurationSec cfg) 0), (Z.leb_spec (AttemptsBlockDurationSec cfg) 0);
    rewrite !wrap64_small by (unfold in_int64; rewrite ?wrap64_small by (unfold in_int64; lia); lia);
    rewrite ?wrap64_small by (unfold in_int64; lia); case_match; bool_to_prop; lia.
Qed.
End Limiter.

Section LimiterKeeps.
Context `{RateLimit, TimeFormat} (R : relation world) `{!PreOrder R}.

Lemma keeps_rl_allow r : keeps (on_world R) (rl_allow r) any.
Proof.
  intros s res s'. unfold rl_allow, now_ns. intros Hr. minv Hr. destruct (allow _ _ _) as [e rl].
  injection Hr as <- <-. split; [|done]. by unfold on_world.
Qed.
Lemma keeps_FlagBadOperation r : keeps (on_world R) (FlagBadOperation r) any.
Proof.
  intros s res s'. unfold FlagBadOperation, now_ns. intros Hr. minv Hr. injection Hr as <- <-.
  split; [|done]. by unfold on_world.
Qed.
End LimiterKeeps.
#[export] Hint Resolve keeps_rl_allow keeps_FlagBadOperation : keeps.
