(* ===== verification/ApiUpdate.v ===== *)
(** storage/api/api_storage_update.go: the progress of an update or of one of
    its rollouts, computed from the log of the events devices report. *)
From S2P Require Import Prelude GoStrings GoPath Schema World BaseFs Crypto Models Tar Configs Updates FsHandles Tuf TufFs ApiStorage.

Definition MissingState := "Missing".
Definition RolledBackState := "Rolled back".
Definition installationFailedState := "Installation completed; failed".
Definition installationSucceededState := "Installation completed; succeeded".

Record UpdateSummary := { us_Status : gmap string Z; us_Tag : string }.

(** What is decoded of a target's custom metadata, with the version still raw. *)
Record target_custom := { tc_Version : string; tc_Tags : list string; tc_HardwareIds : list string }.
(** A JSON string. *)
Record json_string := { js_value : string }.

(** A nil pointer dereference: the request's goroutine panics. *)
Definition nil_dereference : error := ErrPanic "runtime error: invalid memory address or nil pointer dereference".

Section ApiUpdate.
Context `{JSON Rollout, JSON DeviceStatus, JSON AtsTufTargets, JSON target_custom, JSON json_string}.
Variable root : string.
Notation updates_dir := (FsConfig_UpdatesDir root).

(** ** The targets an update installs *)

Definition decode_custom (custom : string) : result target_custom :=
  match json_Unmarshal custom with
  | Ok c => Ok c
  | Err e => Err (ErrWrap "invalid custom metadata of target" e)
  end.
Definition decode_version (raw : string) : result Z :=
  match json_Unmarshal raw with
  | Err e => Err (ErrWrap "invalid version of target" e)
  | Ok v => match Atoi (js_value v) with
            | Some n => Ok n
            | None => Err (ErrMsg "invalid version of target")
            end
  end.
(** One hardware id of a target: the newest version wins. *)
Definition latest_of (targetName : string) (version : Z) (m : gmap string (string * Z)) (hwId : string)
  : gmap string (string * Z) :=
  match m !! hwId with
  | Some (_, cur) => if cur <? version then <[hwId := (targetName, version)]> m else m
  | None => <[hwId := (targetName, version)]> m
  end.
(** The targets and their custom metadata, in the order the map yields them. *)
Definition customs (t : TargetsMeta) : list (string * string) :=
  map (λ kv, (kv.1, Custom kv.2)) (map_to_list (Targets t)).
(** The loop over the targets, in the order the map yields them. *)
Fixpoint latest_loop (tag : string) (targets : list (string * string)) (byHwId : gmap string (string * Z))
  : result (gmap string (string * Z)) :=
  match targets with
  | [] => Ok byHwId
  | (name, custom) :: rest =>
      if len custom =? 0 then latest_loop tag rest byHwId
      else
        c ← decode_custom custom;
        if negb (bool_decide (tag ∈ tc_Tags c)) || (Z.of_nat (length (tc_HardwareIds c)) =? 0)
        then latest_loop tag rest byHwId
        else
          version ← decode_version (tc_Version c);
          latest_loop tag rest (foldl (latest_of name version) byHwId (tc_HardwareIds c))
  end.
Definition latestUpdateTargets (name : string) : IO (option (gset string)) :=
  u ← GetUpdate name;
  match u with
  | None => mret None
  | Some u =>
      r ← try (ReadTufMeta updates_dir name TufTargetsFile);
      match r with
      | Err err => if errors_Is err ErrNotExist then mret None else fail err
      | Ok targets =>
          byHwId ← lift (latest_loop (u_Tag u) (customs (targets_Signed targets)) ∅);
          mret (if bool_decide (byHwId = ∅) then None
                else Some (list_to_set (map (λ kv, kv.2.1) (map_to_list byHwId))))
      end
  end.

(** ** The last known state of each device *)

Definition states : Type := gmap string string * gmap string bool.
(** Is the event about a target other than those the update installs? *)
Definition other_target (targets : option (gset string)) (status : DeviceStatus) : bool :=
  match targets with
  | None => false
  | Some t => (0 <? len (st_TargetName status)) && negb (bool_decide (st_TargetName status ∈ t))
  end.
Definition filtered_out (filterUuids : option (gset string)) (status : DeviceStatus) : bool :=
  match filterUuids with Some f => negb (bool_decide (st_Uuid status ∈ f)) | None => false end.
(** One event: [lastStates] and [failed] after it. *)
Definition state_step (targets filterUuids : option (gset string)) (s : states) (status : DeviceStatus) : states :=
  let '(lastStates, failed) := s in
  if filtered_out filterUuids status then s
  else if other_target targets status then
    if default false (failed !! st_Uuid status) && String.eqb (Status status) installationSucceededState
    then (<[st_Uuid status := RolledBackState]> lastStates, failed)
    else s
  else (<[st_Uuid status := Status status]> lastStates,
        <[st_Uuid status := String.eqb (Status status) installationFailedState]> failed).
Fixpoint states_loop (targets filterUuids : option (gset string)) (lines : list (result string)) (s : states)
  : result (option (gmap string string)) :=
  match lines with
  | [] => Ok (Some s.1)
  | Err e :: _ => if errors_Is e ErrNotExist then Ok None else Err e
  | Ok line :: rest =>
      match json_Unmarshal line with
      | Err _ => states_loop targets filterUuids rest s
      | Ok status => states_loop targets filterUuids rest (state_step targets filterUuids s status)
      end
  end.
Definition lastKnownStates (name : string) (filterUuids : option (gset string))
  : IO (option (gmap string string)) :=
  targets ← latestUpdateTargets name;
  lines ← TailRolloutsLog root name;
  lift (states_loop targets filterUuids lines (∅, ∅)).

(** ** Reports *)

(** The loop over the states: counts per status, and the devices of the
    filter that were not seen. *)
Definition count_states (lastStates : gmap string string) (filterUuids : option (gset string))
  : gmap string Z * option (gset string) :=
  foldl (λ '(report, f) '(uuid, status),
           (<[status := default 0 (report !! status) + 1]> report, (λ s, s ∖ {[uuid]}) <$> f))
        (∅, filterUuids) (map_to_list lastStates).
Definition report_of (lastStates : gmap string string) (filterUuids : option (gset string)) : gmap string Z :=
  let '(report, f) := count_states lastStates filterUuids in
  let missing := match f with Some s => Z.of_nat (size s) | None => 0 end in
  if 0 <? missing then <[MissingState := missing]> report else report.
Definition updateSummary (name : string) (filterUuids : option (gset string)) : IO UpdateSummary :=
  u ← GetUpdate name;
  lastStates ← lastKnownStates name filterUuids;
  match u with
  | None => fail nil_dereference
  | Some u =>
      mret {| us_Status := match lastStates with None => ∅ | Some m => report_of m filterUuids end;
              us_Tag := u_Tag u |}
  end.

Definition select_state (filterState : string) (lastStates : gmap string string)
  (filterUuids : option (gset string)) : list string :=
  if String.eqb filterState MissingState
  then match filterUuids with
       | None => []
       | Some f => elements (f ∖ dom lastStates)
       end
  else map fst (List.filter (λ kv, String.eqb kv.2 filterState) (map_to_list lastStates)).
Definition updateStateFor (name filterState : string) (filterUuids : option (gset string)) : IO (list string) :=
  lastStates ← lastKnownStates name filterUuids;
  mret (match lastStates with None => [] | Some m => select_state filterState m filterUuids end).

Definition api_UpdateSummary (name : string) : IO UpdateSummary := updateSummary name None.
Definition UpdateStateFor (updateName status : string) : IO (list string) := updateStateFor updateName status None.
Definition RolloutSummary (updateName rolloutName : string) : IO UpdateSummary :=
  rollout ← GetRollout root updateName rolloutName;
  updateSummary updateName (Some (list_to_set (Effect rollout))).
Definition RolloutStateFor (updateName rolloutName status : string) : IO (list string) :=
  rollout ← GetRollout root updateName rolloutName;
  updateStateFor updateName status (Some (list_to_set (Effect rollout))).
End ApiUpdate.

(** ** Theory: the state of a device *)

Section States.
Context `{JSON DeviceStatus}.
Implicit Types (targets filterUuids : option (gset string)) (e : DeviceStatus).

(** What the log says of one device, newest event first: its last event for
    this update, unless it failed and a later installation of another
    target succeeded. *)
Fixpoint settle targets (newest_first : list DeviceStatus) (recovered : bool) : option string :=
  match newest_first with
  | [] => None
  | e :: older =>
      if other_target targets e
      then settle targets older (recovered || String.eqb (Status e) installationSucceededState)
      else Some (if recovered && String.eqb (Status e) installationFailedState
                 then RolledBackState else Status e)
  end.
(** Did the last event for this update report a failed installation? *)
Fixpoint last_failed targets (newest_first : list DeviceStatus) : bool :=
  match newest_first with
  | [] => false
  | e :: older => if other_target targets e then last_failed targets older
                  else String.eqb (Status e) installationFailedState
  end.
Definition events_of (uuid : string) (es : list DeviceStatus) : list DeviceStatus :=
  List.filter (λ e, String.eqb (st_Uuid e) uuid) es.
Definition decode_line (line : string) : option DeviceStatus :=
  match json_Unmarshal line with Ok e => Some e | Err _ => None end.

Lemma settle_recovered targets es b :
  settle targets es b = if b && last_failed targets es then Some RolledBackState else settle targets es false.
Proof.
  revert b. induction es as [|e es IH]; intros b; simpl; [by rewrite andb_false_r|].
  destruct (other_target targets e) eqn:E; [|by destruct b, (String.eqb _ _)].
  rewrite IH, (IH (String.eqb _ _)). by destruct b, (String.eqb _ _), (last_failed _ _).
Qed.
Lemma events_of_snoc uuid es e :
  reverse (events_of uuid (es ++ [e])) =
  if String.eqb (st_Uuid e) uuid then e :: reverse (events_of uuid es) else reverse (events_of uuid es).
Proof.
  unfold events_of. rewrite List.filter_app. simpl. destruct (String.eqb _ _).
  - by rewrite reverse_app.
  - by rewrite app_nil_r.
Qed.

Lemma states_fold targets filterUuids es uuid :
  let s := foldl (state_step targets filterUuids) (∅, ∅) es in
  match filterUuids with Some f => uuid ∈ f | None => True end ->
  s.1 !! uuid = settle targets (reverse (events_of uuid es)) false ∧
  default false (s.2 !! uuid) = last_failed targets (reverse (events_of uuid es)).
Proof.
  intros s Hu. subst s. induction es as [|e es IH] using rev_ind; [simpl; by rewrite !lookup_empty|].
  rewrite foldl_snoc, events_of_snoc. destruct (foldl _ _ es) as [ls fl]. destruct IH as [IH1 IH2].
  simpl in IH1, IH2. unfold state_step.
  destruct (String.eqb_spec (st_Uuid e) uuid) as [<-|Hne].
  - assert (filtered_out filterUuids e = false) as ->.
    { destruct filterUuids as [f|]; [|done]. simpl. by rewrite bool_decide_true. }
    simpl. rewrite settle_recovered. destruct (other_target targets e).
    + rewrite <-IH1, <-IH2. by destruct (default false _) eqn:E, (String.eqb _ _); simpl;
        rewrite ?lookup_insert_eq.
    + simpl. by rewrite !lookup_insert_eq.
  - repeat case_match; simpl; rewrite ?lookup_insert_ne by done; done.
Qed.
Lemma states_fold_filter targets f es uuid :
  uuid ∉ f -> (foldl (state_step targets (Some f)) (∅, ∅) es).1 !! uuid = None.
Proof.
  intros Hu. induction es as [|e es IH] using rev_ind; [simpl; by rewrite lookup_empty|].
  rewrite foldl_snoc. destruct (foldl _ _ es) as [ls fl]. simpl in IH. unfold state_step, filtered_out.
  case_bool_decide as Hin; simpl; [|done].
  assert (st_Uuid e <> uuid) by (by intros <-).
  repeat case_match; simpl; rewrite ?lookup_insert_ne by done; done.
Qed.
(** Where a state comes from. *)
Lemma settle_values targets es b st :
  settle targets es b = Some st -> st = RolledBackState \/ ∃ e, e ∈ es ∧ st = Status e.
Proof.
  revert b. induction es as [|e es IH]; intros b; simpl; [done|]. destruct (other_target targets e).
  - intros [->|(x & Hx & ->)]%IH; [by left|]. right. exists x. set_solver.
  - destruct (_ && _); intros [= <-]; [by left|]. right. exists e. set_solver.
Qed.
Lemma settle_rolled_back targets es b :
  (∀ e, e ∈ es -> Status e <> RolledBackState) ->
  settle targets es b = Some RolledBackState ↔
  ∃ newer e older, es = newer ++ e :: older ∧ other_target targets e = false ∧
    Status e = installationFailedState ∧ Forall (λ x, other_target targets x = true) newer ∧
    (b = true \/ Exists (λ x, Status x = installationSucceededState) newer).
Proof.
  revert b. induction es as [|e es IH]; intros b Hne; simpl.
  { split; [done|]. by intros ([|??] & ? & ? & ? & _). }
  destruct (other_target targets e) eqn:E.
  - rewrite IH by set_solver. split.
    + intros (newer & x & older & -> & Hx & Hs & Hall & Hb). exists (e :: newer), x, older.
      split_and!; [done..|by constructor|]. rewrite orb_true_iff, String.eqb_eq in Hb.
      destruct Hb as [[Hb|Hb]|Hb]; [by left|right; by left|right; by right].
    + intros (newer & x & older & Hes & Hx & Hs & Hall & Hb). destruct newer as [|y newer]; simplify_eq/=; [congruence|].
      apply Forall_cons in Hall as [_ Hall]. exists newer, x, older. split_and!; [done..|].
      rewrite orb_true_iff, String.eqb_eq. destruct Hb as [->|Hb]; [by left; left|].
      apply Exists_cons in Hb as [Hb|Hb]; [by left; right|by right].
  - split.
    + destruct b; simpl; [|intros [= Hs]; by apply Hne in Hs; [|set_solver]].
      destruct (String.eqb_spec (Status e) installationFailedState) as [Hs|_];
        [|intros [= Hs]; by apply Hne in Hs; [|set_solver]].
      intros _. exists [], e, es. split_and!; [done..|by left].
    + intros (newer & x & older & Hes & Hx & Hs & Hall & Hb). destruct newer as [|y newer]; simplify_eq/=.
      * rewrite Hs. simpl. destruct Hb as [->|Hb]; [done|by inversion Hb].
      * apply Forall_cons in Hall as [Hy _]. congruence.
Qed.
Lemma states_loop_Ok targets filterUuids lines s :
  states_loop targets filterUuids (map Ok lines) s =
  Ok (Some (foldl (state_step targets filterUuids) s (omap decode_line lines)).1).
Proof.
  revert s. induction lines as [|l lines IH]; intros s; [done|]. unfold decode_line in *. simpl.
  destruct (json_Unmarshal l); simpl; apply IH.
Qed.
End States.

(** ** Theory: the report *)

Lemma count_states_spec m filterUuids :
  (∀ st, default 0 ((count_states m filterUuids).1 !! st) =
         Z.of_nat (length (List.filter (λ kv, String.eqb kv.2 st) (map_to_list m)))) ∧
  (∀ st, (count_states m filterUuids).1 !! st <> Some 0) ∧
  (count_states m filterUuids).2 = (λ f, f ∖ dom m) <$> filterUuids.
Proof.
  unfold count_states.
  assert (∀ l,
    let r := foldl (λ '(report, f) '(uuid, status),
      (<[status := default 0 (report !! status) + 1]> report, (λ s, s ∖ {[uuid]}) <$> f)) (∅ : gmap string Z, filterUuids) l in
    (∀ st, default 0 (r.1 !! st) = Z.of_nat (length (List.filter (λ kv : string * string, String.eqb kv.2 st) l))) ∧
    (∀ st, r.1 !! st <> Some 0) ∧
    r.2 = (λ f, f ∖ list_to_set (l.*1 : list string)) <$> filterUuids) as Hl.
  { intros l. induction l as [|[u s] l (IH1 & IH2 & IH3)] using rev_ind.
    - simpl. split_and!; [done..|]. destruct filterUuids; [|done]. simpl. f_equal. set_solver.
    - cbv zeta in *. rewrite foldl_snoc. destruct (foldl _ _ l) as [rep f]. simpl in IH1, IH2, IH3 |- *.
      split_and!.
      + intros st. rewrite List.filter_app, length_app. simpl. destruct (String.eqb_spec s st) as [->|Hne].
        * rewrite lookup_insert_eq. simpl. rewrite IH1. lia.
        * rewrite lookup_insert_ne by done. rewrite IH1. simpl. lia.
      + intros st. destruct (decide (s = st)) as [->|]; [|by rewrite lookup_insert_ne].
        rewrite lookup_insert_eq. rewrite IH1. intros [= E]. lia.
      + rewrite IH3, fmap_app. destruct filterUuids; [|done]. simpl. f_equal. set_solver. }
  specialize (Hl (map_to_list m)). cbv zeta in Hl. destruct Hl as (H1 & H2 & H3). split_and!; [done..|].
  rewrite H3. destruct filterUuids; [|done]. simpl. f_equal. apply set_eq. intros x.
  rewrite !elem_of_difference, elem_of_list_to_set, elem_of_dom.
  split; intros [? Hn]; (split; [done|]); contradict Hn.
  - destruct Hn as [v Hv]. apply list_elem_of_fmap. exists (x, v). by rewrite elem_of_map_to_list.
  - apply list_elem_of_fmap in Hn as ([k v] & -> & Hkv). apply elem_of_map_to_list in Hkv. simpl. eauto.
Qed.

(** The sum of the counts of a report. *)
Definition total_count (m : gmap string Z) : Z := map_fold (λ _ c acc, c + acc) 0 m.
Lemma total_count_insert_fresh k v m : m !! k = None -> total_count (<[k := v]> m) = v + total_count m.
Proof. intros H. unfold total_count. apply map_fold_insert_L; [lia|done]. Qed.
Lemma total_count_insert k v m : total_count (<[k := v]> m) = v + total_count m - default 0 (m !! k).
Proof.
  destruct (m !! k) as [x|] eqn:E; [|rewrite total_count_insert_fresh by done; simpl; lia].
  rewrite <-(insert_id m k x E) at 2. rewrite <-(insert_delete_eq m k v), <-(insert_delete_eq m k x).
  rewrite !total_count_insert_fresh by apply lookup_delete_eq. simpl. lia.
Qed.
Lemma count_states_total m filterUuids :
  total_count (count_states m filterUuids).1 = Z.of_nat (size m).
Proof.
  rewrite <-length_map_to_list. unfold count_states. induction (map_to_list m) as [|[u s] l IH] using rev_ind; [done|].
  rewrite foldl_snoc, length_app. destruct (foldl _ _ l) as [rep f]. simpl in *.
  rewrite total_count_insert. lia.
Qed.

Section Report.
Context (m : gmap string string) (f : gset string).
Hypothesis Hdom : dom m ⊆ f.
Hypothesis Hmissing : ∀ u, m !! u <> Some MissingState.

Lemma filter_states_size st :
  length (List.filter (λ kv : string * string, String.eqb kv.2 st) (map_to_list m)) =
  size (filter (λ u, m !! u = Some st) f).
Proof.
  rewrite <-(length_map fst), <-(size_list_to_set (C := gset string)) by apply NoDup_filter_keys.
  f_equal. apply set_eq. intros u. rewrite elem_of_list_to_set, elem_of_filter, elem_of_filter_keys. simpl. split.
  - intros (v & Hu & ->%String.eqb_eq). split; [done|]. apply Hdom, elem_of_dom. eauto.
  - intros [Hu _]. exists st. split; [done|]. by apply String.eqb_eq.
Qed.
Lemma missing_size : size (f ∖ dom m) = size (filter (λ u, m !! u = None) f).
Proof. f_equal. apply set_eq. intros u. rewrite elem_of_difference, elem_of_filter, not_elem_of_dom. tauto. Qed.

Lemma report_of_spec :
  total_count (report_of m (Some f)) = Z.of_nat (size f) ∧
  (∀ st, default 0 (report_of m (Some f) !! st) =
     if decide (st = MissingState) then Z.of_nat (size (filter (λ u, m !! u = None) f))
     else Z.of_nat (size (filter (λ u, m !! u = Some st) f))).
Proof.
  destruct (count_states_spec m (Some f)) as (H1 & _ & H3). pose proof (count_states_total m (Some f)) as H2.
  unfold report_of. destruct (count_states m (Some f)) as [rep g]. simpl in H1, H2, H3. subst g. simpl.
  assert (default 0 (rep !! MissingState) = 0) as H0.
  { rewrite H1, filter_states_size. replace (filter _ f) with (∅ : gset string); [done|].
    symmetry. apply set_eq. intros u. rewrite elem_of_filter. split; [|set_solver]. by intros [?%Hmissing _]. }
  assert (size f = (size m + size (f ∖ dom m))%nat) as Hsize.
  { rewrite <-size_dom, <-size_union by set_solver. f_equal. apply set_eq. intros x.
    rewrite elem_of_union, elem_of_difference. destruct (decide (x ∈ dom m)); set_solver. }
  assert (∀ st, st <> MissingState -> default 0 (rep !! st) = Z.of_nat (size (filter (λ u, m !! u = Some st) f))) as Hst.
  { intros st _. by rewrite H1, filter_states_size. }
  destruct (Z.ltb_spec 0 (Z.of_nat (size (f ∖ dom m)))).
  - split; [rewrite total_count_insert, H2, H0; lia|]. intros st. rewrite <-missing_size. case_decide as Hm.
    + subst st. by rewrite lookup_insert_eq.
    + rewrite lookup_insert_ne by done. by apply Hst.
  - split; [rewrite H2; lia|]. intros st. rewrite <-missing_size. case_decide as Hm; [|by apply Hst].
    subst st. lia.
Qed.
Lemma select_state_spec st :
  NoDup (select_state st m (Some f)) ∧
  ∀ u, u ∈ select_state st m (Some f) ↔ u ∈ f ∧ m !! u = (if decide (st = MissingState) then None else Some st).
Proof.
  unfold select_state. destruct (String.eqb_spec st MissingState) as [->|Hne].
  - rewrite decide_True by done. split; [apply NoDup_elements|]. intros u.
    by rewrite elem_of_elements, elem_of_difference, not_elem_of_dom.
  - rewrite decide_False by done. split; [apply NoDup_filter_keys|].
    intros u. rewrite elem_of_filter_keys. simpl. split.
    + intros (v & Hu & ->%String.eqb_eq). split; [|done]. apply Hdom, elem_of_dom. eauto.
    + intros [_ Hu]. exists st. split; [done|]. by apply String.eqb_eq.
Qed.
End Report.

(** ** Theory: what the reports say *)

Section Reports.
Context `{JSON Rollout, JSON DeviceStatus, JSON AtsTufTargets, JSON target_custom, JSON json_string}.
Variable root : string.

(** The state of a device, as the lines of an update's log tell it. *)
Definition state_in (targets : option (gset string)) (lines : list string) (uuid : string) : option string :=
  settle targets (reverse (events_of uuid (omap decode_line lines))) false.

Definition in_scope (filterUuids : option (gset string)) (uuid : string) : bool :=
  match filterUuids with Some f => bool_decide (uuid ∈ f) | None => true end.

(** A device counts as rolled back exactly when its last event about the
    update is a failed installation and, after it, it reported a successful
    installation of another target. *)
Theorem rolled_back_iff targets lines uuid :
  let events := events_of uuid (omap decode_line lines) in
  (∀ e, e ∈ events -> Status e <> RolledBackState) ->
  state_in targets lines uuid = Some RolledBackState ↔
  ∃ older e newer, events = older ++ e :: newer ∧ other_target targets e = false ∧
    Status e = installationFailedState ∧ (∀ x, x ∈ newer -> other_target targets x = true) ∧
    ∃ x, x ∈ newer ∧ Status x = installationSucceededState.
Proof.
  intros events Hne. unfold state_in. fold events. rewrite settle_rolled_back by (intros e; rewrite elem_of_reverse; auto).
  split.
  - intros (newer & e & older & He & Ho & Hs & Hall & Hb). exists (reverse older), e, (reverse newer).
    rewrite Forall_forall in Hall. destruct Hb as [Hb|(x & Hx & Hsx)%Exists_exists]; [done|]. split_and!; [|done..| |].
    + rewrite <-(reverse_involutive events), He. by rewrite reverse_app, reverse_cons, <-app_assoc.
    + intros y. rewrite elem_of_reverse. auto.
    + exists x. by rewrite elem_of_reverse.
  - intros (older & e & newer & -> & Ho & Hs & Hall & x & Hx & Hsx). exists (reverse newer), e, (reverse older).
    split_and!; [by rewrite reverse_app, reverse_cons, <-app_assoc|done..| |].
    + apply Forall_forall. intros y. rewrite elem_of_reverse. auto.
    + right. apply Exists_exists. exists x. by rewrite elem_of_reverse.
Qed.

Lemma lastKnownStates_run name filterUuids targets lines w :
  latestUpdateTargets root name w = (Ok targets, w) ->
  TailRolloutsLog root name w = (Ok (map Ok lines), w) ->
  ∃ m, lastKnownStates root name filterUuids w = (Ok (Some m), w) ∧
       ∀ u, m !! u = if in_scope filterUuids u then state_in targets lines u else None.
Proof.
  intros Ht Hl. unfold lastKnownStates.
  rewrite (bind_Ok _ _ _ _ _ Ht), (bind_Ok _ _ _ _ _ Hl). unfold lift. rewrite states_loop_Ok.
  eexists. split; [done|]. intros u. destruct filterUuids as [f|]; simpl.
  - case_bool_decide; [by apply states_fold|by apply states_fold_filter].
  - by apply states_fold.
Qed.

Section OneRollout.
Context (updateName rolloutName : string) (w : world) (u : update_row) (rollout : Rollout)
  (targets : option (gset string)) (lines : list string).
Hypothesis Hf : faults w = [].
Hypothesis Hu : updates (db w) !! updateName = Some u.
Hypothesis Hro : GetRollout root updateName rolloutName w = (Ok rollout, w).
Hypothesis Ht : latestUpdateTargets root updateName w = (Ok targets, w).
Hypothesis Hl : TailRolloutsLog root updateName w = (Ok (map Ok lines), w).
(** No event carries the status that stands for the missing devices. *)
Hypothesis Hmissing : ∀ x, state_in targets lines x <> Some MissingState.
Let E : gset string := list_to_set (Effect rollout).

Lemma GetUpdate_run : ∃ v, GetUpdate updateName w = (Ok (Some v), w) ∧ u_Tag v = up_tag u.
Proof. unfold GetUpdate, stmtUpdateGet_run. rewrite bind_try_query, Hu by done. by eexists. Qed.

(** The report of a rollout accounts for every device the rollout took
    effect on, exactly once: the counts add up to their number, and each
    count is the number of devices in that state, the devices without an
    event in the log being the missing ones. *)
Theorem RolloutSummary_spec :
  ∃ summary, RolloutSummary root updateName rolloutName w = (Ok summary, w) ∧
    us_Tag summary = up_tag u ∧
    total_count (us_Status summary) = Z.of_nat (size E) ∧
    ∀ st, default 0 (us_Status summary !! st) =
      Z.of_nat (size (filter (λ x, state_in targets lines x =
                                   if decide (st = MissingState) then None else Some st) E)).
Proof.
  destruct (lastKnownStates_run updateName (Some E) _ _ _ Ht Hl) as (m & Hm & Hst).
  destruct GetUpdate_run as (v & Hv & Htag).
  unfold RolloutSummary, updateSummary. rewrite (bind_Ok _ _ _ _ _ Hro), (bind_Ok _ _ _ _ _ Hv), (bind_Ok _ _ _ _ _ Hm).
  eexists. split; [done|]. split; [done|]. simpl in *.
  destruct (report_of_spec m E) as [H1' H2'].
  { intros x [y Hy]%elem_of_dom. rewrite Hst in Hy. by case_bool_decide. }
  { intros x. rewrite Hst. case_bool_decide; [apply Hmissing|done]. }
  split; [done|]. intros st. rewrite H2'.
  case_decide; do 2 f_equal; apply set_eq; intros x; rewrite !elem_of_filter, Hst;
    (split; intros [? ?]; (split; [|done]); by rewrite bool_decide_true in * by done).
Qed.

(** Asking which devices of a rollout are in a state gives each of them
    once, and no other. *)
Theorem RolloutStateFor_spec st :
  ∃ l, RolloutStateFor root updateName rolloutName st w = (Ok l, w) ∧ NoDup l ∧
    ∀ x, x ∈ l ↔ x ∈ Effect rollout ∧
      state_in targets lines x = if decide (st = MissingState) then None else Some st.
Proof.
  destruct (lastKnownStates_run updateName (Some E) _ _ _ Ht Hl) as (m & Hm & Hst).
  unfold RolloutStateFor, updateStateFor. rewrite (bind_Ok _ _ _ _ _ Hro), (bind_Ok _ _ _ _ _ Hm).
  exists (select_state st m (Some E)). split; [done|]. unfold in_scope in Hst.
  destruct (select_state_spec m E) with (st := st) as [H1' H2'].
  { intros x [y Hy]%elem_of_dom. rewrite Hst in Hy. by case_bool_decide. }
  split; [done|]. intros x. rewrite H2', Hst. case_bool_decide as Hx;
    subst E; rewrite elem_of_list_to_set in Hx; rewrite elem_of_list_to_set; tauto.
Qed.
End OneRollout.

(** The summary of an update that does not exist is a nil dereference, for
    any content of its log: the handler has no check before it. *)
Theorem UpdateSummary_unknown_update name w lines :
  faults w = [] -> updates (db w) !! name = None ->
  TailRolloutsLog root name w = (Ok lines, w) ->
  (∀ e, Err e ∈ lines -> errors_Is e ErrNotExist = true) ->
  api_UpdateSummary root name w = (Err nil_dereference, w).
Proof.
  intros Hf Hu Hl He. unfold api_UpdateSummary, updateSummary, lastKnownStates, latestUpdateTargets.
  assert (GetUpdate name w = (Ok None, w)) as Hg.
  { unfold GetUpdate, stmtUpdateGet_run. by rewrite bind_try_query, Hu. }
  assert (∀ s, ∃ o, states_loop None None lines s = Ok o) as Hs.
  { clear Hl. induction lines as [|[line|e] lines IH]; intros s; simpl; [eauto| |].
    - destruct (json_Unmarshal line); apply IH; intros e' He'; apply He; set_solver.
    - rewrite He by set_solver. eauto. }
  destruct (Hs (∅, ∅)) as [o Ho].
  rewrite (bind_Ok _ _ _ _ _ Hg), !bind_assoc, (bind_Ok _ _ _ _ _ Hg), (bind_Ok _ _ _ None w) by done.
  rewrite bind_assoc, (bind_Ok _ _ _ _ _ Hl), (bind_Ok _ _ _ o w); [done|]. unfold lift. by rewrite Ho.
Qed.
End Reports.
