(* ===== verification/Rollouts.v ===== *)
(** server/ui/daemons/daemons_rollouts.go: the watchdog that commits the
    rollouts of the journal, and the protocol it follows with the API handlers
    that create rollouts while it runs. *)
From S2P Require Import Prelude GoStrings GoPath Schema World BaseFs Crypto Models Tar Configs Updates FsHandles Tuf TufFs ApiStorage.

Section Watchdog.
Context `{JSON Rollout}.
(** The data directory. *)
Variable root : string.
Notation updates_dir := (FsConfig_UpdatesDir root).

(** One journal entry: false when it must be retried later. *)
Definition process_entry (e : string * string * string) : IO bool :=
  let '(tag, updateName, rolloutName) := e in
  r ← try (GetRollout root updateName rolloutName);
  match r with
  | Err err => if errors_Is err ErrNotExist then mret true else mret false
  | Ok rollout =>
      if negb (Commit rollout) then
        c ← try (CommitRollout root tag updateName rolloutName rollout);
        mret (is_Ok c)
      else mret true
  end.
Fixpoint process_entries (l : list (string * string * string)) (success : bool) : IO bool :=
  match l with
  | [] => mret success
  | e :: l' => ok ← process_entry e; process_entries l' (success && ok)
  end.
Definition processJournal : IO bool :=
  j ← ReadRolloutJournal root;
  success ← process_entries j.1 true;
  mret (match j.2 with None => success | Some _ => false end).

(** The part of a round of [rolloutWatchdog] after the journal was processed. *)
Definition after_processing (firstRun processed : bool) : IO unit :=
  if firstRun then mret tt
  else if processed then ignore (RolloverRolloutJournal root)
  else mret tt.
(** One round of the loop; [firstRun] is false after it. *)
Definition rolloutWatchdog_round (firstRun : bool) : IO unit :=
  processed ← processJournal; after_processing firstRun processed.
(** The loop, until it is stopped after [n] rounds. *)
Fixpoint rolloutWatchdog (n : nat) (interval : Z) (firstRun : bool) : IO unit :=
  match n with
  | O => mret tt
  | S n' => rolloutWatchdog_round firstRun;; time_sleep interval;; rolloutWatchdog n' interval false
  end.
End Watchdog.

(** ** Theory: what the journal lines say *)

Definition journal := list (string * string * string).
Definition entry_line (e : string * string * string) : string :=
  let '(tag, u, r) := e in rollout_line tag u r.
Definition journal_text (l : journal) : string :=
  foldr (λ e s, entry_line e +:+ str1 (byte 10) +:+ s) "" l.

Definition journal_file := rolloutJournalFile.
Definition active_file := rolloutJournalFile +:+ partialFileSuffix.

Definition plain (s : string) : bool :=
  no_char "|" s && no_char (byte 10) s && no_char (byte 13) s.
(** A rollout the API accepts, whose names are not those of the journal's files. *)
Definition entry_ok (e : string * string * string) : Prop :=
  let '(tag, u, r) := e in
  plain tag = true ∧ plain u = true ∧ plain r = true ∧ name_ok u ∧ name_ok r ∧
  u <> journal_file ∧ u <> active_file ∧ HasSuffix r partialFileSuffix = false ∧
  len (rollout_line tag u r) < maxScanTokenSize.
#[global] Instance entry_ok_dec e : Decision (entry_ok e).
Proof. destruct e as [[tag u] r]. unfold entry_ok. apply _. Defined.

Lemma plain_spec s : plain s = true -> no_char "|" s = true ∧ no_char (byte 10) s = true ∧ no_char (byte 13) s = true.
Proof. unfold plain. intros [[? ?]%andb_true_iff ?]%andb_true_iff. done. Qed.
Lemma drop_cr_no_char s : no_char (byte 13) s = true -> drop_cr s = s.
Proof.
  intros H. unfold drop_cr, TrimSuffix. destruct (cut_suffix s (str1 (byte 13))) as [x|] eqn:E; [|done].
  apply cut_suffix_spec in E as ->. rewrite no_char_app in H. apply andb_true_iff in H as [_ H]. done.
Qed.
Lemma entry_line_plain e :
  entry_ok e -> no_char (byte 10) (entry_line e) = true ∧ no_char (byte 13) (entry_line e) = true.
Proof.
  destruct e as [[t u] r]. intros (Ht%plain_spec & Hu%plain_spec & Hr%plain_spec & _). unfold entry_line, rollout_line.
  rewrite !no_char_app. destruct Ht as (_ & -> & ->), Hu as (_ & -> & ->), Hr as (_ & -> & ->). done.
Qed.
Lemma Split_entry_line t u r :
  entry_ok (t, u, r) -> Split (rollout_line t u r) "|" = [t; u; r].
Proof.
  intros (Ht%plain_spec & Hu%plain_spec & Hr%plain_spec & _). unfold rollout_line.
  change ("|" +:+ u +:+ "|" +:+ r) with (String "|" (u +:+ String "|" r)).
  rewrite !Split_app, Split_no_char by tauto. done.
Qed.
Lemma parse_journal_text l :
  Forall entry_ok l -> parse_rollout_journal (scan_lines (journal_text l)) = (l, None).
Proof.
  induction 1 as [|e l He Hl IH]; [done|]. pose proof (entry_line_plain _ He) as [H10 H13].
  change (journal_text (e :: l)) with (entry_line e +:+ str1 (byte 10) +:+ journal_text l).
  rewrite scan_lines_cons; [|done|].
  - rewrite drop_cr_no_char by done. cbn [parse_rollout_journal]. rewrite IH. destruct e as [[t u] r].
    cbn [entry_line]. by rewrite Split_entry_line.
  - destruct e as [[t u] r]. apply He.
Qed.
Lemma journal_text_snoc l e : journal_text (l ++ [e]) = journal_text l +:+ entry_line e +:+ str1 (byte 10).
Proof.
  unfold journal_text. induction l as [|x l IH]; simpl; [by rewrite str_app_nil_r|].
  rewrite IH. by rewrite !str_app_assoc.
Qed.
Lemma journal_names_ok : name_ok journal_file ∧ name_ok active_file ∧ journal_file <> active_file.
Proof. vm_compute. by split_and!. Qed.

(** ** Theory: what the operations do to rollout files and journals *)

Section Effects.
Context `{HR : JSON Rollout} (root : string) (Hroot : dir_ok root).
Notation U := (FsConfig_UpdatesDir root).
Definition rollout_path (u r : string) : string := path_of (path_of (path_of U u) UpdatesRolloutsDir) r.
Definition journal_path (n : string) : string := path_of U n.

Lemma updates_dir_ok : dir_ok U.
Proof.
  assert (name_ok UpdatesDir) by by apply (bool_decide_unpack _). unfold FsConfig_UpdatesDir.
  rewrite Join_entry by done. by apply entry_dir_ok.
Qed.
Lemma rollouts_name_ok : name_ok UpdatesRolloutsDir. Proof. by apply (bool_decide_unpack _). Qed.
Lemma rollouts_dir u : name_ok u -> filepath_Join [U; u; UpdatesRolloutsDir] = path_of (path_of U u) UpdatesRolloutsDir.
Proof.
  intros Hu. rewrite (Join_entry2 _ _ _ updates_dir_ok Hu rollouts_name_ok). by rewrite !str_app_assoc.
Qed.
Lemma rollouts_dir_ok u : name_ok u -> dir_ok (path_of (path_of U u) UpdatesRolloutsDir).
Proof. intros Hu. repeat apply entry_dir_ok; auto using updates_dir_ok, rollouts_name_ok. Qed.

Lemma rollout_path_comps u r : name_ok u -> name_ok r -> comps (rollout_path u r) = comps U ++ [u; UpdatesRolloutsDir; r].
Proof.
  intros Hu Hr. pose proof updates_dir_ok as HU. unfold rollout_path.
  assert (dir_ok (path_of U u)) by by apply entry_dir_ok.
  rewrite !comps_app_name; auto using dir_ok_nonempty, rollouts_dir_ok, rollouts_name_ok.
  by rewrite <-!app_assoc.
Qed.
Lemma rollout_path_inj u r u' r' :
  name_ok u -> name_ok r -> name_ok u' -> name_ok r' ->
  rollout_path u r = rollout_path u' r' -> u = u' ∧ r = r'.
Proof.
  intros ???? E. apply (f_equal comps) in E. rewrite !rollout_path_comps in E by done.
  apply app_inv_head in E. by simplify_eq.
Qed.
Lemma rollout_path_journal u r n : name_ok u -> name_ok r -> name_ok n -> rollout_path u r <> journal_path n.
Proof.
  intros ??? E. apply (f_equal comps) in E. rewrite rollout_path_comps in E by done. unfold journal_path in E.
  rewrite comps_app_name in E by auto using dir_ok_nonempty, updates_dir_ok. apply app_inv_head in E. by simplify_eq.
Qed.

(** Reading a rollout. *)
Lemma GetRollout_cases u r w res w' :
  name_ok u -> name_ok r -> GetRollout root u r w = (res, w') ->
  fs w' = fs w ∧ fs_only w w' ∧
  match res with
  | Ok ro => ∃ c, file_at w (rollout_path u r) = Some c ∧ json_Unmarshal c = Ok ro
  | Err e => honest w -> errors_Is e ErrNotExist = true ->
             ∀ c, file_at w (rollout_path u r) = Some c -> json_Unmarshal c = Err e
  end.
Proof.
  intros Hu Hr H. unfold GetRollout, Updates_ReadFile, upd_localHandle in H.
  rewrite !rollouts_dir in H by done. rewrite !bind_assoc in H.
  rewrite (bind_Ok _ _ _ tt w), (bind_Ok _ _ _ (path_of (path_of U u) UpdatesRolloutsDir) w) in H by done.
  unfold readFile in H. rewrite (join_path _ r (rollouts_dir_ok u Hu) Hr) in H. fold (rollout_path u r) in H.
  destruct (os_ReadFile (rollout_path u r) w) as [res0 w1] eqn:E.
  unfold wrap, map_err, mbind, M_bind, try in H. rewrite E in H. simpl in H.
  apply os_ReadFile_cases in E as (Hfs & Ho & E). destruct res0 as [c|e]; simpl in H.
  - unfold lift in H. simplify_eq. split; [done|]. split; [done|]. destruct E as (m & t & E).
    assert (file_at w (rollout_path u r) = Some c) as Hc by (unfold file_at; by rewrite E).
    destruct (json_Unmarshal c) as [ro|e] eqn:Ej; [eauto|]. intros _ _ c1 Hc1. congruence.
  - unfold fail in H. simplify_eq. split; [done|]. split; [done|]. intros Hh He c Hc. simpl in He.
    apply E in He; [|done]. unfold file_at in Hc. by rewrite He in Hc.
Qed.

(** Writing a rollout touches its own file and the partial one only; it
    replaces the file or leaves it as it was. *)
Lemma WriteRollout_cases u r content w res w' :
  name_ok u -> name_ok r ->
  Updates_WriteFile U UpdatesRolloutsDir u r content w = (res, w') ->
  fs_only w w' ∧
  (∀ k, k <> rollout_path u r -> k <> rollout_path u (r +:+ partialFileSuffix) -> file_at w' k = file_at w k) ∧
  (∀ n, name_ok n -> n <> u -> fs w' !! journal_path n = fs w !! journal_path n) ∧
  match res with
  | Ok _ => file_at w' (rollout_path u r) = Some content
  | Err _ => file_at w' (rollout_path u r) = file_at w (rollout_path u r)
  end.
Proof.
  intros Hu Hr H. split.
  { assert (keeps fs_only (Updates_WriteFile U UpdatesRolloutsDir u r content) any) as Hk
      by (unfold Updates_WriteFile, upd_localHandle; keeps_auto). by apply Hk in H as [? _]. }
  unfold Updates_WriteFile, upd_localHandle in H. rewrite !rollouts_dir in H by done.
  set (h := path_of (path_of U u) UpdatesRolloutsDir) in *.
  assert (dir_ok h) as Hh by by apply rollouts_dir_ok.
  assert (∀ w1 res1, os_MkdirAll h w = (res1, w1) ->
    (∀ k, file_at w1 k = file_at w k) ∧
    (∀ n, name_ok n -> n <> u -> fs w1 !! journal_path n = fs w !! journal_path n)) as Hmk.
  { intros w1 res1 E. split; [intros k; by eapply MkdirAll_file_at|]. intros n Hn Hne. unfold journal_path.
    apply (MkdirAll_other_entry U u UpdatesRolloutsDir n w res1 w1);
      auto using updates_dir_ok, rollouts_name_ok. by rewrite <-E; unfold h; rewrite !str_app_assoc. }
  unfold mkdirs, wrap, map_err, mbind, M_bind, mret, M_ret in H.
  destruct (os_MkdirAll h w) as [[[]|e] w1] eqn:E; destruct (Hmk _ _ eq_refl) as [E1 E2];
    [|simplify_eq; auto].
  destruct (writeFile h r content defaultFileAccess w1) as [res2 w2] eqn:Ew.
  apply (writeFile_spec h r) in Ew as [Ha Hw]; [|done..].
  assert (w' = w2 ∧ is_Ok res = is_Ok res2) as [-> Hres] by (by destruct res2; simplify_eq).
  assert (file_at w2 (rollout_path u r) = match res2 with Ok _ => Some content | Err _ => file_at w (rollout_path u r) end) as Hf.
  { change (rollout_path u r) with (path_of h r). destruct res2; [destruct Hw as [(m & t & Hw) _]; unfold file_at; by rewrite Hw|].
    rewrite (file_at_fs w1 w2) by exact Hw. apply E1. }
  split; [|split].
  - intros k H1 H2. rewrite (file_at_fs w1 w2); [apply E1|]. apply Ha. rewrite !elem_of_cons.
    intros [->|[->|?%elem_of_nil]]; done.
  - intros n Hn Hne. rewrite <-E2 by done. apply Ha. rewrite !elem_of_cons.
    intros [Ej|[Ej|?%elem_of_nil]]; [| |done]; symmetry in Ej.
    + by apply (rollout_path_journal u r n) in Ej.
    + apply (rollout_path_journal u (r +:+ partialFileSuffix) n) in Ej; auto with server.
  - by destruct res, res2.
Qed.
Lemma CommitRollout_cases t u r ro w res w' :
  name_ok u -> name_ok r -> CommitRollout root t u r ro w = (res, w') ->
  faults w' `suffix_of` faults w ∧
  (∀ k, k <> rollout_path u r -> k <> rollout_path u (r +:+ partialFileSuffix) -> file_at w' k = file_at w k) ∧
  (∀ n, name_ok n -> n <> u -> fs w' !! journal_path n = fs w !! journal_path n) ∧
  ((∃ ro', file_at w' (rollout_path u r) = Some (json_Marshal ro') ∧ Commit ro' = true) \/
   is_Ok res = false ∧ file_at w' (rollout_path u r) = file_at w (rollout_path u r)).
Proof.
  intros Hu Hr H. unfold CommitRollout, SetUpdateName, stmtDeviceSetUpdate_run, SaveRollout in H.
  apply bind_inv in H as [(eff & w1 & E & H)|(e & E & ->)]; apply db_only_sql in E as [(_ & Hfs & _ & _ & Hs) _].
  - apply WriteRollout_cases in H as ((_ & _ & _ & _ & Hs') & Hk & Hj & Hres); [|done..].
    assert (∀ k, file_at w1 k = file_at w k) as Hf by (intros k; apply file_at_fs; by rewrite Hfs).
    split; [by etrans|]. split; [intros; rewrite <-Hf; auto|]. split; [intros; rewrite <-Hfs; auto|].
    destruct res; [left; eexists; by split|right; by rewrite Hres, Hf].
  - assert (∀ k, file_at w' k = file_at w k) as Hf by (intros k; apply file_at_fs; by rewrite Hfs).
    split; [done|]. split; [done|]. split; [by intros; rewrite Hfs|]. right. by rewrite Hf.
Qed.
End Effects.

(** ** The protocol *)

Section Protocol.
Context `{HR : JSON Rollout, !JSONLaws Rollout} (root : string) (Hroot : dir_ok root).
Notation U := (FsConfig_UpdatesDir root).
Notation pending_path := (journal_path root active_file).
Notation current_path := (journal_path root journal_file).

(** What the watchdog is doing: waiting, or between the journal and its
    rollover. *)
Inductive phase := Waiting | Processed (ok : bool).
(** A request of [rolloutPut] between its two writes: the entry it appended,
    the rollout it will write, and whether the journal was rolled over since. *)
Record creation := { rq_entry : string * string * string; rq_rollout : Rollout; rolled : bool }.
Record sys := Sys { sys_world : world; sys_first : bool; sys_phase : phase; creating : list creation }.

(** The steps, each a run of the program's own operations, at any faults:
    - a request appends its journal line, and may fail;
    - a request writes its rollout file (it may fail), and is over;
    - a rollout is committed by the goroutine of its request;
    - the watchdog processes the journal.  The interval between two rounds is
      minutes: no request that was writing at the last rollover still is;
    - the watchdog rolls the journal over, or does not;
    - the process is restarted: its requests are gone;
    - anything else that leaves the updates alone. *)
Inductive step : sys -> sys -> Prop :=
  | step_append e ro w first ph cr r w' :
      entry_ok e ->
      AppendJournal U (entry_line e +:+ str1 (byte 10)) w = (r, w') ->
      step (Sys w first ph cr)
           (Sys w' first ph (if is_Ok r then {| rq_entry := e; rq_rollout := ro; rolled := false |} :: cr else cr))
  | step_write t u r ro b w first ph cr cr' res w' :
      cr ≡ₚ {| rq_entry := (t, u, r); rq_rollout := ro; rolled := b |} :: cr' ->
      Updates_WriteFile U UpdatesRolloutsDir u r (json_Marshal ro) w = (res, w') ->
      step (Sys w first ph cr) (Sys w' first ph cr')
  | step_commit t u r ro w first ph cr res w' :
      entry_ok (t, u, r) ->
      CommitRollout root t u r ro w = (res, w') ->
      step (Sys w first ph cr) (Sys w' first ph cr)
  | step_process w first cr ok w' :
      (∀ q, q ∈ cr -> rolled q = false) ->
      processJournal root w = (Ok ok, w') ->
      step (Sys w first Waiting cr) (Sys w' first (Processed ok) cr)
  | step_rollover w first ok cr w' :
      after_processing root first ok w = (Ok tt, w') ->
      step (Sys w first (Processed ok) cr)
           (Sys w' false Waiting
                (if negb first && ok
                 then map (λ q, {| rq_entry := rq_entry q; rq_rollout := rq_rollout q; rolled := true |}) cr
                 else cr))
  | step_restart w first ph cr : step (Sys w first ph cr) (Sys w true Waiting [])
  | step_other w first ph cr w' :
      (∀ k, HasPrefix k (U +:+ "/") = true -> fs w' !! k = fs w !! k) -> honest w' ->
      step (Sys w first ph cr) (Sys w' first ph cr).

(** The entries of the two journal files, as the reader parses them. *)
Definition entries_at (w : world) (p : string) : journal * option error :=
  parse_rollout_journal (scan_lines (content_of w p)).
(** A rollout that was created and not yet committed. *)
Definition uncommitted (w : world) (u r : string) : Prop :=
  name_ok u ∧ name_ok r ∧ u <> journal_file ∧ u <> active_file ∧ HasSuffix r partialFileSuffix = false ∧
  ∃ c ro, file_at w (rollout_path root u r) = Some c ∧ json_Unmarshal c = Ok ro ∧ Commit ro = false.
(** The state of a fresh server. *)
Definition sys_init (s : sys) : Prop :=
  creating s = [] ∧ sys_phase s = Waiting ∧ honest (sys_world s) ∧
  fs (sys_world s) !! pending_path = None ∧ fs (sys_world s) !! current_path = None ∧
  ∀ u r, ~ uncommitted (sys_world s) u r.

(** *** The invariant *)
Record journals (w : world) (eP eJ : journal) : Prop := {
  jn_pending : content_of w pending_path = journal_text eP;
  jn_current : content_of w current_path = journal_text eJ;
  jn_pending_ok : Forall entry_ok eP;
  jn_current_ok : Forall entry_ok eJ;
  jn_pending_file : fs w !! pending_path <> Some Dir;
  jn_current_file : fs w !! current_path <> Some Dir;
  jn_honest : honest w
}.
Definition in_journal (l : journal) (u r : string) : Prop := ∃ t, (t, u, r) ∈ l.
Record inv (s : sys) (eP eJ : journal) : Prop := {
  inv_journals : journals (sys_world s) eP eJ;
  inv_uncommitted u r : uncommitted (sys_world s) u r -> in_journal (eP ++ eJ) u r;
  inv_creating q : q ∈ creating s ->
    entry_ok (rq_entry q) ∧ (rq_entry q ∈ eP \/ (rolled q = true ∧ rq_entry q ∈ eJ));
  inv_processed : sys_phase s = Processed true -> ∀ u r, uncommitted (sys_world s) u r -> in_journal eP u r;
  inv_not_rolled ok q : sys_phase s = Processed ok -> q ∈ creating s -> rolled q = false
}.

Lemma uncommitted_file_at w w' u r :
  file_at w' (rollout_path root u r) = file_at w (rollout_path root u r) ->
  uncommitted w' u r -> uncommitted w u r.
Proof. unfold uncommitted. by intros ->. Qed.
(** A write under the name of one rollout leaves the others alone. *)
Lemma uncommitted_other w w' u r u' r' :
  name_ok u -> name_ok r -> HasSuffix r partialFileSuffix = false ->
  (∀ k, k <> rollout_path root u r -> k <> rollout_path root u (r +:+ partialFileSuffix) -> file_at w' k = file_at w k) ->
  uncommitted w' u' r' -> (u', r') = (u, r) \/ uncommitted w u' r'.
Proof.
  intros Hu Hr Hs Hk Hun. destruct (decide ((u', r') = (u, r))) as [|Hne]; [by left|]. right.
  eapply uncommitted_file_at; [|done]. destruct Hun as (Hu' & Hr' & _ & _ & Hs' & _). apply Hk.
  - intros [-> ->]%rollout_path_inj; auto.
  - intros [-> ->]%rollout_path_inj; auto with server. by rewrite HasSuffix_app in Hs'.
Qed.
(** The journals depend on two files and on the faults. *)
Lemma journals_same w w' eP eJ :
  journals w eP eJ -> fs w' !! pending_path = fs w !! pending_path -> fs w' !! current_path = fs w !! current_path ->
  honest w' -> journals w' eP eJ.
Proof.
  intros [H1 H2 H3 H4 H5 H6 H7] Ep Ec Hh. constructor; try done; unfold content_of in *; by rewrite ?Ep, ?Ec.
Qed.
Lemma journals_write w w' u eP eJ :
  u <> journal_file -> u <> active_file ->
  journals w eP eJ -> (∀ n, name_ok n -> n <> u -> fs w' !! journal_path root n = fs w !! journal_path root n) ->
  faults w' `suffix_of` faults w -> journals w' eP eJ.
Proof.
  intros H1 H2 Hj Hn Hf. destruct journal_names_ok as (Hc & Ha & _).
  eapply journals_same; [done|by apply Hn|by apply Hn|]. eapply honest_suffix; [done|apply Hj].
Qed.

(** *** Each operation keeps it *)

Lemma append_cases e w res w' eP eJ :
  entry_ok e -> journals w eP eJ -> AppendJournal U (entry_line e +:+ str1 (byte 10)) w = (res, w') ->
  (∀ u r, uncommitted w' u r -> uncommitted w u r) ∧
  (journals w' (eP ++ [e]) eJ \/ is_Ok res = false ∧ journals w' eP eJ).
Proof.
  intros He Hj H. destruct journal_names_ok as (Hc & Ha & Hne). pose proof (updates_dir_ok root Hroot) as HU.
  unfold AppendJournal in H. apply (appendFile_cases U active_file) in H as (Hk & Ho & Hd & Hcont); [|done|done|apply Hj].
  split.
  - intros u r Hun. eapply uncommitted_file_at; [|done]. apply file_at_fs, Hk.
    destruct Hun as (Hu & Hr & _). rewrite list_elem_of_singleton. intros Ek.
    by eapply (rollout_path_journal root Hroot u r active_file).
  - assert (fs w' !! current_path = fs w !! current_path) as Ec.
    { apply Hk. rewrite list_elem_of_singleton. unfold journal_path. intros E%path_of_inj. done. }
    destruct Hj as [H1 H2 H3 H4 H5 H6 H7]. fold (journal_path root active_file) in Hcont, Hd.
    assert (honest w') as Hh by by eapply honest_fs_only.
    assert (content_of w' current_path = journal_text eJ) as Hcur by (unfold content_of; by rewrite Ec).
    destruct Hcont as [Hcont|[Hr Hcont]]; [left|right; split; [by destruct res as [[]|]|]];
      (constructor; [|done| |done|done|by rewrite Ec|done]).
    + by rewrite Hcont, H1, journal_text_snoc.
    + apply Forall_app. auto.
    + by rewrite Hcont.
    + done.
Qed.

Lemma process_entry_cases t u r w res w' eP eJ :
  entry_ok (t, u, r) -> journals w eP eJ -> process_entry root (t, u, r) w = (res, w') ->
  ∃ b, res = Ok b ∧ journals w' eP eJ ∧ (∀ u' r', uncommitted w' u' r' -> uncommitted w u' r') ∧
       (b = true -> ~ uncommitted w' u r).
Proof.
  intros (_ & _ & _ & Hu & Hr & Hu1 & Hu2 & Hs & _) Hj H. unfold process_entry in H. minv H.
  apply GetRollout_cases in E as (Hfs & Ho & E); [|done..].
  assert (journals st eP eJ) as Hj1.
  { eapply journals_same; [done|by rewrite Hfs|by rewrite Hfs|]. eapply honest_fs_only; [done|apply Hj]. }
  assert (∀ k, file_at st k = file_at w k) as Hf by (intros k; apply file_at_fs; by rewrite Hfs).
  assert (∀ u' r', uncommitted st u' r' -> uncommitted w u' r') as Hun
    by (intros u' r'; by apply uncommitted_file_at).
  destruct res0 as [ro|e].
  - destruct E as (c & Hc & Hdec). destruct (Commit ro) eqn:Ec; simpl in H.
    + minv H. eexists. split; [done|]. split; [done|]. split; [done|].
      intros _ (_ & _ & _ & _ & _ & c' & ro' & Hc' & Hd' & Hf'). rewrite Hf in Hc'. congruence.
    + minv H. apply CommitRollout_cases in E as (Hsuf & Hk & Hn & Hres); [|done..]. minv H.
      eexists. split; [done|]. split; [by eapply journals_write|]. split.
      * intros u' r' Hw. destruct (uncommitted_other _ _ _ _ _ _ Hu Hr Hs Hk Hw) as [[= -> ->]|]; [|auto].
        destruct Hres as [(ro' & Hro' & Hcm)|[_ Hsame]]; [|apply Hun; by eapply uncommitted_file_at].
        destruct Hw as (_ & _ & _ & _ & _ & c' & ro'' & Hc' & Hd' & Hf').
        rewrite Hro' in Hc'. simplify_eq. rewrite json_roundtrip in Hd'. congruence.
      * intros Hok. destruct Hres as [(ro' & Hro' & Hcm)|[Hno _]]; [|congruence].
        intros (_ & _ & _ & _ & _ & c' & ro'' & Hc' & Hd' & Hf').
        rewrite Hro' in Hc'. simplify_eq. rewrite json_roundtrip in Hd'. congruence.
  - destruct (errors_Is e ErrNotExist) eqn:Ee; minv H; (eexists; split; [done|]; split; [done|]; split; [done|]); [|done].
    intros _ (_ & _ & _ & _ & _ & c' & ro' & Hc' & Hd' & Hf'). rewrite Hf in Hc'.
    rewrite (E (jn_honest _ _ _ Hj) eq_refl _ Hc') in Hd'. done.
Qed.
Lemma process_entries_cases l ok w res w' eP eJ :
  Forall entry_ok l -> journals w eP eJ -> process_entries root l ok w = (res, w') ->
  ∃ b, res = Ok b ∧ journals w' eP eJ ∧ (∀ u r, uncommitted w' u r -> uncommitted w u r) ∧
       (b = true -> ok = true ∧ ∀ u r, in_journal l u r -> ~ uncommitted w' u r).
Proof.
  intros Hl. revert ok w. induction Hl as [|[[t u] r] l He Hl IH]; intros ok w Hj H; cbn [process_entries] in H.
  { minv H. eexists. split; [done|]. split; [done|]. split; [done|]. intros ->. split; [done|].
    intros u r (t & Ht%elem_of_nil). done. }
  destruct (process_entry root (t, u, r) w) as [res1 w1] eqn:E. pose proof E as E1.
  apply (process_entry_cases t u r _ _ _ eP eJ) in E1 as (b & -> & Hj1 & Hun1 & Hb1); [|done|done].
  rewrite (bind_Ok _ _ _ _ _ E) in H.
  apply IH in H as (b2 & -> & Hj2 & Hun2 & Hb2); [|done]. exists b2. split; [done|]. split; [done|].
  split; [auto|]. intros ->. destruct (Hb2 eq_refl) as [[-> ->]%andb_true_iff Hin]. split; [done|].
  intros u' r' (t' & Ht'). apply elem_of_cons in Ht' as [[= -> -> ->]|Ht']; [|apply Hin; by exists t'].
  intros Hw. apply Hb1; auto.
Qed.
Lemma processJournal_cases w res w' eP eJ :
  journals w eP eJ -> processJournal root w = (res, w') ->
  ∃ ok, res = Ok ok ∧ journals w' eP eJ ∧ (∀ u r, uncommitted w' u r -> uncommitted w u r) ∧
        (ok = true -> ∀ u r, in_journal eJ u r -> ~ uncommitted w' u r).
Proof.
  intros Hj H. destruct journal_names_ok as (Hc & Ha & Hne). pose proof (updates_dir_ok root Hroot) as HU.
  unfold processJournal, ReadRolloutJournal, ReadJournal in H. rewrite !bind_assoc in H.
  destruct (readFileLines U rolloutJournalFile true w) as [res1 w1] eqn:E. pose proof E as E1.
  apply (readFileLines_cases U rolloutJournalFile) in E1 as (Hfs & Ho & lines & -> & Hl); [|done..].
  rewrite (bind_Ok _ _ _ _ _ E) in H.
  assert (journals w1 eP eJ) as Hj1.
  { eapply journals_same; [done|by rewrite Hfs|by rewrite Hfs|]. eapply honest_fs_only; [done|apply Hj]. }
  assert (∀ u' r', uncommitted w1 u' r' -> uncommitted w u' r') as Hun.
  { intros u' r'. apply uncommitted_file_at, file_at_fs. by rewrite Hfs. }
  assert (parse_rollout_journal lines = (eJ, None) \/ ∃ e, parse_rollout_journal lines = ([], Some e)) as Hp.
  { destruct Hj as [H1 H2 H3 H4 H5 H6 H7]. fold (journal_path root journal_file) in Hl. destruct Hl as [(c & m & t & Ef & ->)|[(e & ->)|[-> Ef]]].
    - left. change rolloutJournalFile with journal_file in Ef. fold (journal_path root journal_file) in Ef.
      unfold content_of in H2. rewrite Ef in H2. subst c. by apply parse_journal_text.
    - right. by exists e.
    - left. change rolloutJournalFile with journal_file in Ef. fold (journal_path root journal_file) in Ef.
      unfold content_of in H2. rewrite (Ef H7) in H2.
      destruct eJ as [|e l]; [done|]. exfalso. simpl in H2.
      destruct (entry_line e); discriminate H2. }
  rewrite (bind_Ok _ _ _ (parse_rollout_journal lines) w1) in H by done.
  destruct (process_entries root (parse_rollout_journal lines).1 true w1) as [res2 w2] eqn:E2. pose proof E2 as E3.
  apply (process_entries_cases _ _ _ _ _ eP eJ) in E3 as (ok & -> & Hj2 & Hun2 & Hb2); [| |done].
  2: destruct Hp as [->|[e' ->]]; [apply Hj|constructor].
  rewrite (bind_Ok _ _ _ _ _ E2) in H. minv H. eexists. split; [done|]. split; [done|]. split; [auto|].
  destruct Hp as [Hp|[e' Hp]]; rewrite Hp in *; simpl; [|done]. intros ->. by destruct (Hb2 eq_refl) as [_ Hin].
Qed.

(** The rollover moves the active journal onto the current one, or does
    nothing. *)
Lemma rollover_cases w res w' eP eJ :
  journals w eP eJ -> RolloverRolloutJournal root w = (res, w') ->
  (∀ u r, uncommitted w' u r -> uncommitted w u r) ∧ (journals w' [] eP \/ journals w' eP eJ).
Proof.
  intros Hj H. destruct journal_names_ok as (Hc & Ha & Hne). pose proof (updates_dir_ok root Hroot) as HU.
  assert (honest w') as Hh.
  { assert (keeps fs_only (RolloverRolloutJournal root) any) as Hk by (unfold RolloverRolloutJournal, RolloverJournal; keeps_auto).
    apply Hk in H as [H _]. eapply honest_fs_only; [done|apply Hj]. }
  unfold RolloverRolloutJournal, RolloverJournal in H.
  change (rolloutJournalFile +:+ partialFileSuffix) with active_file in H. change rolloutJournalFile with journal_file in H.
  rewrite (Join_entry _ _ HU Ha), (Join_entry _ _ HU Hc) in H. fold (journal_path root active_file) (journal_path root journal_file) in H. cbv zeta in H.
  minv H. assert (fs w' = fs st) as Hst.
  { destruct res0 as [[]|e]; [by minv H|]. by destruct (errors_Is e ErrNotExist); minv H. }
  apply rename_effect in E; [|apply Hj].
  destruct res0 as [[]|e]; [|rewrite E in Hst; split; [intros u r; apply uncommitted_file_at, file_at_fs; by rewrite Hst|]].
  2: { right. eapply journals_same; [done|by rewrite Hst|by rewrite Hst|done]. }
  destruct E as (n & En & Ef). rewrite Ef in Hst. destruct Hj as [H1 H2 H3 H4 H5 H6 H7].
  assert (pending_path <> current_path) as Hpc by (intros E%path_of_inj; done). split.
  - intros u r Hun. eapply uncommitted_file_at; [|done]. apply file_at_fs. rewrite Hst.
    destruct Hun as (Hu & Hr & _). rewrite lookup_insert_ne, lookup_delete_ne; [done|..]; intros E; symmetry in E;
      by apply (rollout_path_journal root Hroot u r) in E.
  - left. constructor; try done; unfold content_of; rewrite Hst.
    + by rewrite lookup_insert_ne, lookup_delete_eq by done.
    + rewrite lookup_insert_eq. unfold content_of in H1. by rewrite En in H1.
    + by rewrite lookup_insert_ne, lookup_delete_eq by done.
    + rewrite lookup_insert_eq. intros [= ->]. done.
Qed.

Lemma in_journal_app l1 l2 u r : in_journal (l1 ++ l2) u r ↔ in_journal l1 u r \/ in_journal l2 u r.
Proof. unfold in_journal. setoid_rewrite elem_of_app. naive_solver. Qed.

Lemma journal_path_under n : HasPrefix (journal_path root n) (U +:+ "/") = true.
Proof. unfold journal_path. rewrite <-str_app_assoc. apply HasPrefix_app. Qed.
Lemma rollout_path_under u r : HasPrefix (rollout_path root u r) (U +:+ "/") = true.
Proof.
  unfold rollout_path. rewrite !str_app_assoc, <-(str_app_assoc U). apply HasPrefix_app.
Qed.

Lemma inv_step s s' eP eJ : inv s eP eJ -> step s s' -> ∃ eP' eJ', inv s' eP' eJ'.
Proof.
  intros [Hj Hun Hcr Hpr Hnr] Hstep. destruct Hstep as
    [e ro w first ph cr res w' He E | t u r ro b w first ph cr cr' res w' Hp E | t u r ro w first ph cr res w' He E
    | w first cr ok w' Hq E | w first ok cr w' E | w first ph cr | w first ph cr w' Hk Hh]; simpl in *.
  - destruct (append_cases _ _ _ _ _ _ He Hj E) as [Hu [Hj'|[Hr Hj']]].
    + exists (eP ++ [e]), eJ. constructor; simpl; [done| | | |].
      * intros u r Hw. apply Hu, Hun in Hw. rewrite !in_journal_app in *. tauto.
      * assert (∀ q, q ∈ cr -> entry_ok (rq_entry q) ∧
            (rq_entry q ∈ eP ++ [e] \/ rolled q = true ∧ rq_entry q ∈ eJ)) as Hold.
        { intros q Hq%Hcr. rewrite elem_of_app. tauto. }
        destruct (is_Ok res); [|done]. intros q [->|Hq]%elem_of_cons; [|by apply Hold].
        split; [done|]. left. simpl. set_solver.
      * intros -> u r Hw. rewrite in_journal_app. left. auto.
      * intros ok q -> Hq. destruct (is_Ok res); [|by eapply Hnr].
        apply elem_of_cons in Hq as [->|Hq]; [done|by eapply Hnr].
    + rewrite Hr. exists eP, eJ. constructor; simpl; auto.
  - destruct (Hcr {| rq_entry := (t, u, r); rq_rollout := ro; rolled := b |}) as [He Hin]; [rewrite Hp; by left|].
    simpl in He, Hin. destruct He as (_ & _ & _ & Hu & Hr & Hu1 & Hu2 & Hs & _).
    apply WriteRollout_cases in E as (Ho & Hk & Hn & _); [|done..].
    assert (journals w' eP eJ) as Hj' by (eapply journals_write; [..|apply Ho]; done).
    exists eP, eJ. constructor; simpl; [done| | | |].
    + intros u' r' Hw. destruct (uncommitted_other _ _ _ _ _ _ Hu Hr Hs Hk Hw) as [[= -> ->]|]; [|auto].
      exists t. rewrite elem_of_app. tauto.
    + intros q Hq. apply Hcr. rewrite Hp. by right.
    + intros -> u' r' Hw. destruct (uncommitted_other _ _ _ _ _ _ Hu Hr Hs Hk Hw) as [[= -> ->]|]; [|auto].
      exists t. destruct Hin as [|[Hb _]]; [done|].
      assert (b = false); [|congruence]. apply (Hnr true {| rq_entry := (t, u, r); rq_rollout := ro; rolled := b |}); [done|].
      rewrite Hp. by left.
    + intros ok q -> Hq. eapply Hnr; [done|]. rewrite Hp. by right.
  - destruct He as (_ & _ & _ & Hu & Hr & Hu1 & Hu2 & Hs & _).
    apply CommitRollout_cases in E as (Ho & Hk & Hn & Hres); [|done..].
    assert (journals w' eP eJ) as Hj' by by eapply journals_write.
    assert (∀ u' r', uncommitted w' u' r' -> uncommitted w u' r') as Hu'.
    { intros u' r' Hw. destruct (uncommitted_other _ _ _ _ _ _ Hu Hr Hs Hk Hw) as [[= -> ->]|]; [|done].
      destruct Hres as [(ro' & Hro' & Hcm)|[_ Hsame]]; [|by eapply uncommitted_file_at].
      destruct Hw as (_ & _ & _ & _ & _ & c' & ro'' & Hc' & Hd' & Hf').
      rewrite Hro' in Hc'. simplify_eq. rewrite json_roundtrip in Hd'. congruence. }
    exists eP, eJ. constructor; simpl; auto.
  - destruct (processJournal_cases _ _ _ _ _ Hj E) as (ok' & [= <-] & Hj' & Hu' & Hok).
    exists eP, eJ. constructor; simpl; auto.
    + intros [= ->] u r Hw. destruct (Hun u r (Hu' _ _ Hw)) as [t [Ht|Ht]%elem_of_app]; [by exists t|].
      exfalso. eapply Hok; [done| |exact Hw]. by exists t.
  - unfold after_processing in E. destruct first; [|destruct ok]; simpl.
    + minv E. exists eP, eJ. constructor; simpl; auto; done.
    + minv E. destruct (rollover_cases _ _ _ _ _ Hj E) as [Hu' [Hj'|Hj']].
      * exists [], eP. constructor; simpl; [done| | |done|done].
        -- intros u r Hw. apply Hpr; auto.
        -- intros q (q0 & -> & Hq)%list_elem_of_fmap. simpl. destruct (Hcr _ Hq) as [? [?|[Hr _]]]; [auto|].
           by rewrite (Hnr true q0) in Hr.
      * exists eP, eJ. constructor; simpl; [done|auto| |done|done].
        intros q (q0 & -> & Hq)%list_elem_of_fmap. simpl. destruct (Hcr _ Hq) as [? [?|[Hr _]]]; [auto|].
        by rewrite (Hnr true q0) in Hr.
    + minv E. exists eP, eJ. constructor; simpl; auto; done.
  - exists eP, eJ. constructor; simpl; [done|done| |done|done]. intros q Hq. by apply elem_of_nil in Hq.
  - assert (journals w' eP eJ) as Hj'
      by (eapply journals_same; [done|apply Hk, journal_path_under..|done]).
    assert (∀ u r, uncommitted w' u r -> uncommitted w u r) as Hu'.
    { intros u r. apply uncommitted_file_at, file_at_fs, Hk, rollout_path_under. }
    exists eP, eJ. constructor; simpl; auto.
Qed.

Lemma inv_init s : sys_init s -> inv s [] [].
Proof.
  intros (Hc & Hp & Hh & HP & HC & Hun). constructor; rewrite ?Hc, ?Hp; try done.
  - by constructor; unfold content_of; rewrite ?HP, ?HC.
  - intros u r Hw. by apply Hun in Hw.
  - intros q Hq. by apply elem_of_nil in Hq.
Qed.
Lemma inv_reachable s0 s : sys_init s0 -> rtc step s0 s -> ∃ eP eJ, inv s eP eJ.
Proof.
  intros H0 Hs. apply inv_init in H0. assert (∃ eP eJ, inv s0 eP eJ) as Hinv by eauto. clear H0.
  induction Hs as [|s0 s1 s2 Hs _ IH]; [done|]. destruct Hinv as (eP & eJ & Hi). eapply IH, inv_step; done.
Qed.

(** C1. Whatever the order in which requests append and write, commits fail, the
    watchdog runs and the process restarts: a rollout that is on disk and
    not committed has its line in one of the two journal files, which always
    parse; and after a round without an error it is in the one that the
    rollover keeps, so that no rollover drops it. *)
Theorem no_rollout_lost s0 s :
  sys_init s0 -> rtc step s0 s ->
  ∃ eP eJ, entries_at (sys_world s) pending_path = (eP, None) ∧ entries_at (sys_world s) current_path = (eJ, None) ∧
    (∀ u r, uncommitted (sys_world s) u r -> in_journal (eP ++ eJ) u r) ∧
    (sys_phase s = Processed true -> ∀ u r, uncommitted (sys_world s) u r -> in_journal eP u r).
Proof.
  intros H0 Hs. destruct (inv_reachable _ _ H0 Hs) as (eP & eJ & [Hj Hun _ Hpr _]). exists eP, eJ.
  destruct Hj as [H1 H2 H3 H4 _ _ _]. unfold entries_at. rewrite H1, H2, !parse_journal_text by done. auto.
Qed.

(** A round that reports success has committed every rollout of the journal,
    whatever calls failed meanwhile, and has uncommitted none. *)
Theorem processJournal_commits w w' eP eJ :
  journals w eP eJ -> processJournal root w = (Ok true, w') ->
  (∀ t u r, (t, u, r) ∈ eJ -> ~ uncommitted w' u r) ∧ (∀ u r, uncommitted w' u r -> uncommitted w u r).
Proof.
  intros Hj E. destruct (processJournal_cases _ _ _ _ _ Hj E) as (ok & [= <-] & _ & Hu & Hok).
  split; [|done]. intros t u r Ht. apply Hok; [done|by exists t].
Qed.
End Protocol.

(** ** A run *)

Module RolloutDemo.
Definition json : JSON Rollout := toy_json.
Definition w0 : world :=
  World {["/d" := Dir; "/d/updates" := Dir]} 1000 [] empty_db (λ _, "") 0.
Definition s0 : sys := Sys w0 true Waiting [].
Definition e : string * string * string := ("main", "u1", "r1").
Definition ro : Rollout := {| ro_CreatedAt := 1; Uuids := ["dev1"]; Groups := []; Effect := []; Commit := false |}.
Definition w1 : world := (AppendJournal "/d/updates" (entry_line e +:+ str1 (byte 10)) w0).2.
Definition s1 : sys := Sys w1 true Waiting [{| rq_entry := e; rq_rollout := ro; rolled := false |}].
Definition w2 : world :=
  (Updates_WriteFile "/d/updates" UpdatesRolloutsDir "u1" "r1" (@json_Marshal _ json ro) w1).2.
Definition s2 : sys := Sys w2 true Waiting [].
Definition w3 : world := (RolloverRolloutJournal "/d" w2).2.
Definition w4 : world := (@processJournal json "/d" w3).2.

Lemma root_ok : dir_ok "/d". Proof. vm_compute. by split. Qed.
Lemma e_ok : entry_ok e. Proof. by apply (bool_decide_unpack _). Qed.
Lemma s0_init : @sys_init json "/d" s0.
Proof.
  unfold sys_init. split_and!; try (vm_compute; reflexivity); [by constructor|].
  intros u r (_ & _ & _ & _ & _ & c & ro' & Hc & _). unfold file_at in Hc. simpl in Hc.
  destruct (_ !! rollout_path "/d" u r) as [n|] eqn:E; [|done].
  rewrite lookup_insert_Some in E. destruct E as [[_ <-]|[_ E]]; [done|].
  rewrite lookup_singleton_Some in E. by destruct E as [_ <-].
Qed.
Lemma s2_reachable : rtc (@step json "/d") s0 s2.
Proof.
  eapply rtc_l; [apply (step_append "/d" e ro w0 true Waiting [] (Ok tt) w1); [apply e_ok|vm_compute; reflexivity]|].
  eapply rtc_l; [|apply rtc_refl].
  apply (step_write "/d" "main" "u1" "r1" ro false w1 true Waiting _ [] (Ok tt) w2); [done|vm_compute; reflexivity].
Qed.
Lemma s2_uncommitted w :
  file_at w (rollout_path "/d" "u1" "r1") = Some (@json_Marshal _ json ro) -> @uncommitted json "/d" w "u1" "r1".
Proof.
  intros E. unfold uncommitted. split_and!; [by apply (bool_decide_unpack _)..|done|done|done|].
  exists (@json_Marshal _ json ro), ro. split_and!; [done|apply toy_json_laws|done].
Qed.
End RolloutDemo.

Lemma no_rollout_lost_witness :
  ∃ eP eJ, entries_at RolloutDemo.w2 (journal_path "/d" active_file) = (eP, None) ∧ in_journal (eP ++ eJ) "u1" "r1".
Proof.
  destruct (@no_rollout_lost RolloutDemo.json toy_json_laws "/d" RolloutDemo.root_ok _ _
              RolloutDemo.s0_init RolloutDemo.s2_reachable) as (eP & eJ & HP & _ & Hun & _).
  exists eP, eJ. split; [exact HP|]. apply Hun, RolloutDemo.s2_uncommitted. vm_compute. reflexivity.
Defined.

Lemma processJournal_commits_witness :
  @uncommitted RolloutDemo.json "/d" RolloutDemo.w3 "u1" "r1" ∧
  ~ @uncommitted RolloutDemo.json "/d" RolloutDemo.w4 "u1" "r1".
Proof.
  split; [apply RolloutDemo.s2_uncommitted; vm_compute; reflexivity|].
  apply (@processJournal_commits RolloutDemo.json toy_json_laws "/d" RolloutDemo.root_ok
           RolloutDemo.w3 RolloutDemo.w4 [] [RolloutDemo.e]) with (t := "main"); [|vm_compute; reflexivity|by left].
  constructor; [vm_compute; reflexivity..|constructor|constructor; [apply RolloutDemo.e_ok|constructor]| | |constructor];
    vm_compute; discriminate.
Defined.
