(* ===== verification/ApiSpec.v ===== *)
(** What the operations of the operator-facing API promise: selection of the
    devices of a rollout, deletion of updates, paging of the device list,
    label patches, and the results of tests. *)
From S2P Require Import Prelude GoStrings GoPath Schema World BaseFs Crypto Models Tar Configs Updates FsHandles Tuf TufFs ApiStorage Rollouts.

(** ** Rollouts: the devices that get the update *)

Section Commit.
Context `{HR : JSON Rollout} (root : string) (Hroot : dir_ok root).

(** A device is selected by its tag, and by its uuid or its group. *)
Definition selected_for (tag : string) (ro : Rollout) (uuid : string) (d : device_row) : Prop :=
  d_tag d = tag ∧ (uuid ∈ Uuids ro \/ d_group_name d ∈ Groups ro).
Lemma update_selects_spec tag ro uuid d :
  update_selects tag (Uuids ro) (Groups ro) (uuid, d) = true ↔ selected_for tag ro uuid d.
Proof.
  unfold update_selects, selected_for. simpl.
  by rewrite andb_true_iff, orb_true_iff, String.eqb_eq, !bool_decide_eq_true.
Qed.

(** C30. A commit that succeeds, among any failures of other calls, has assigned
    the update to exactly the selected devices, has changed nothing else of
    them, and has recorded exactly them in the rollout's file. *)
Theorem CommitRollout_exact t u r ro w w' :
  name_ok u -> name_ok r -> CommitRollout root t u r ro w = (Ok tt, w') ->
  ∃ effect,
    file_at w' (rollout_path root u r) =
      Some (json_Marshal {| ro_CreatedAt := ro_CreatedAt ro; Uuids := Uuids ro; Groups := Groups ro;
                            Effect := effect; Commit := true |}) ∧
    NoDup effect ∧
    (∀ k, k ∈ effect ↔ ∃ d, devices (db w) !! k = Some d ∧ selected_for t ro k d) ∧
    ∀ k, devices (db w') !! k =
         (λ d, if decide (k ∈ effect) then with_update_name u d else d) <$> devices (db w) !! k.
Proof.
  intros Hu Hr H. unfold CommitRollout, SetUpdateName, stmtDeviceSetUpdate_run, SaveRollout in H.
  minv H. apply sql_inv in E as [(l & -> & [= ->])|(e & l & [=] & _)].
  apply (WriteRollout_cases root Hroot) in H as ((_ & Hdb & _) & _ & _ & Hf); [|done..].
  eexists. split; [exact Hf|]. split; [apply NoDup_filter_rows|].
  assert (∀ k, k ∈ map fst (List.filter (update_selects t (Uuids ro) (Groups ro)) (rows (devices (db w)))) ↔
    ∃ d, devices (db w) !! k = Some d ∧ selected_for t ro k d) as Hin.
  { intros k. rewrite elem_of_filter_rows. by setoid_rewrite update_selects_spec. }
  split; [done|]. intros k. rewrite Hdb. simpl. rewrite map_lookup_imap.
  destruct (devices (db w) !! k) as [d|] eqn:E; [|done]. simpl. f_equal.
  case_decide as Hk; rewrite Hin, E in Hk.
  - destruct Hk as (d' & [= <-] & Hs%update_selects_spec). by rewrite Hs.
  - destruct (update_selects _ _ _ _) eqn:Es; [|done]. contradict Hk. apply update_selects_spec in Es. eauto.
Qed.
End Commit.

(** ** Updates in use *)

(** Deleting an update is refused while a device has it assigned, and exactly
    then; the devices counted in the list of updates are those that prevent it. *)
Theorem DeleteUpdate_in_use root name u w :
  faults w = [] -> updates (db w) !! name = Some u ->
  ∃ l item, ListUpdates (up_tag u) w = (Ok l, w) ∧ item ∈ l ∧ u_Name item = name ∧
    ((DeleteUpdate root name w).1 = Err ErrUpdateInUse ↔ DeviceCount item <> 0) ∧
    (DeviceCount item <> 0 -> (DeleteUpdate root name w).2 = w).
Proof.
  intros Hf Hu. unfold ListUpdates, stmtUpdateList_run. rewrite sql_query_run by done.
  eexists. exists {| u_Tag := up_tag u; u_Name := name; UploadedAt := up_uploaded_at u; UploadedBy := up_uploaded_by u;
    DeviceCount := Z.of_nat (length (assigned (db w) (up_tag u) name)) |}.
  split; [done|]. split.
  { rewrite sort_by_elem. apply list_elem_of_In, List.in_map_iff. exists (name, u). split; [done|].
    apply List.filter_In. rewrite <-list_elem_of_In, elem_of_rows. split; [done|].
    by rewrite String.eqb_refl, orb_true_r. }
  split; [done|]. cbn [DeviceCount].
  assert (∀ l : list (string * device_row), Z.of_nat (length l) <> 0 ↔ l <> []) as Hl
    by (intros [|x l]; simpl; split; intros; done || lia).
  rewrite Hl. unfold DeleteUpdate, stmtUpdateDelete_run.
  destruct (decide (assigned (db w) (up_tag u) name = [])) as [Ha|Ha].
  - split; [|done]. split; [|done]. intros H. exfalso. revert H. unfold mbind, M_bind. rewrite sql_run by done.
    rewrite Hu, bool_decide_true by done. simpl. unfold Updates_Delete, os_RemoveAll.
    mrun. by rewrite syscall_ok.
  - assert (DeleteUpdate root name w = (Err ErrUpdateInUse, w)) as E.
    { unfold DeleteUpdate, stmtUpdateDelete_run. apply bind_Err. rewrite sql_run, Hu, bool_decide_false by done. by destruct w as [? ? ? [] ? ?]. }
    unfold DeleteUpdate, stmtUpdateDelete_run in E. rewrite E. done.
Qed.

(** ** Pages of the device list *)

Lemma page_slices {A} (n : nat) (l : list A) K :
  concat (map (λ k, take n (drop (k * n) l)) (seq 0 K)) = take (K * n) l.
Proof.
  induction K as [|K IH]; [done|]. rewrite seq_S, map_app, concat_app, IH. simpl. rewrite app_nil_r.
  replace (n + K * n)%nat with (K * n + n)%nat by lia. by rewrite take_take_drop.
Qed.

(** The pages of a device list, in any of the orders, partition one
    enumeration of the active devices: asking for consecutive pages gives
    consecutive slices of it, every page tells the total, and once the pages
    cover the total every device has been listed exactly once. *)
Theorem DevicesList_pages order o n w :
  faults w = [] -> orderBy_of order = Some o -> (0 < n)%nat ->
  let get k := DevicesList {| lo_OrderBy := order; Limit := Z.of_nat n; Offset := Z.of_nat (k * n) |} w in
  ∃ l, l ≡ₚ map item_of (active (db w)) ∧
    ∀ K, ∃ pages, map get (seq 0 K) = map (λ p, (Ok (p, Z.of_nat (length l)), w)) pages ∧
         concat pages = take (K * n) l.
Proof.
  intros Hf Ho Hn get. set (s := sort_by (order_cmp o) (active (db w))). exists (map item_of s).
  split; [apply Permutation_map, sort_by_perm|]. intros K.
  exists (map (λ k, take n (drop (k * n) (map item_of s))) (seq 0 K)). split; [|apply page_slices].
  rewrite map_map. apply map_ext. intros k. unfold get, DevicesList. simpl. rewrite Ho.
  unfold stmtDeviceCount_run, stmtDeviceList_run. rewrite !bind_query by done. unfold mret, M_ret. do 3 f_equal.
  - unfold page. destruct (Z.ltb_spec (Z.of_nat n) 0); [lia|]. rewrite !Nat2Z.id.
    by rewrite <-List.firstn_map, <-List.skipn_map.
  - rewrite length_map. unfold s. by rewrite length_sort_by.
Qed.

(** ** Labels *)

Definition names_unique (t : gmap string device_row) : Prop :=
  ∀ k1 k2 r1 r2, t !! k1 = Some r1 -> t !! k2 = Some r2 -> d_name r1 = d_name r2 -> d_name r1 <> "" -> k1 = k2.
Lemma names_uniqueb_spec t : names_uniqueb t = true ↔ names_unique t.
Proof.
  unfold names_uniqueb, names_unique. rewrite bool_decide_eq_true.
  assert (∀ k r, t !! k = Some r ↔ (k, r) ∈ map_to_list t) as Hin by (intros; by rewrite elem_of_map_to_list).
  setoid_rewrite Hin. pose proof (NoDup_fst_map_to_list t) as Hn. clear Hin.
  induction (map_to_list t) as [|[k r] l IH]; simpl.
  { split; [|constructor]. intros _ k1 k2 r1 r2 H%elem_of_nil. done. }
  rewrite fmap_cons in Hn. apply NoDup_cons in Hn as [Hk Hn]. specialize (IH Hn).
  assert (∀ x, x ∈ List.filter non_empty (map (λ kv, d_name kv.2) l) ↔ ∃ k' r', (k', r') ∈ l ∧ d_name r' = x ∧ x <> "") as Hx.
  { intros x. rewrite list_elem_of_In, List.filter_In, List.in_map_iff. unfold non_empty.
    rewrite negb_true_iff, String.eqb_neq. setoid_rewrite <-list_elem_of_In. split.
    - intros [([k' r'] & <- & Hl) Hne]. eauto.
    - intros (k' & r' & Hl & <- & Hne). split; [|done]. by exists (k', r'). }
  assert (non_empty (d_name r) = true ↔ d_name r <> "") as Hne by (unfold non_empty; by rewrite negb_true_iff, String.eqb_neq).
  split.
  - intros H k1 k2 r1 r2 H1 H2 He Hn1.
    assert (NoDup (List.filter non_empty (map (λ kv, d_name kv.2) l))) as Hl
      by (destruct (non_empty (d_name r)); [by apply NoDup_cons in H as [_ H]|done]).
    assert (∀ k' r', (k', r') ∈ l -> d_name r' = d_name r -> d_name r <> "" -> False) as Hcl.
    { intros k' r' Hl' E Hr. rewrite (proj2 Hne Hr) in H. apply NoDup_cons in H as [H _]. apply H, Hx. eauto. }
    apply elem_of_cons in H1 as [[= -> ->]|H1]; apply elem_of_cons in H2 as [[= -> ->]|H2]; [done|..].
    + exfalso. eapply Hcl; [exact H2|congruence|done].
    + exfalso. eapply Hcl; [exact H1|congruence|congruence].
    + by eapply IH.
  - intros H. assert (NoDup (List.filter non_empty (map (λ kv, d_name kv.2) l))) as Hl.
    { apply IH. intros k1 k2 r1 r2 H1 H2. apply H; by right. }
    destruct (non_empty (d_name r)) eqn:En; [|done]. constructor; [|done].
    rewrite Hx. intros (k' & r' & Hl' & E & Hr). apply Hk. rewrite (H k k' r r'); [|by left|by right|done|congruence].
    apply list_elem_of_fmap. by exists (k', r').
Qed.

Lemma lookup_patch_labels p l k :
  patch_labels p l !! k = match p !! k with None => l !! k | Some v => v end.
Proof. unfold patch_labels. rewrite lookup_merge. by destruct (l !! k), (p !! k). Qed.

(** A label patch is all or nothing.  Either every named device has exactly
    the patched labels (a null removes one) and nothing else changed but the
    time stamp of a changed group, or the database is as it was; and names
    that were unique stay unique. *)
Theorem PatchDeviceLabels_spec labels uuids w r w' :
  PatchDeviceLabels labels uuids w = (r, w') ->
  (names_unique (devices (db w)) -> names_unique (devices (db w'))) ∧
  match r with
  | Err _ => db w' = db w
  | Ok _ => names_unique (devices (db w')) ∧
      ∀ k, match devices (db w) !! k with
           | None => devices (db w') !! k = None
           | Some d => ∃ d', devices (db w') !! k = Some d' ∧
               (k ∉ uuids -> d' = d) ∧
               (k ∈ uuids -> (∀ x, d_labels d' !! x = match labels !! x with None => d_labels d !! x | Some v => v end) ∧
                  d' = DeviceRow (d_cert d) (d_deleted d) (d_created_at d) (d_last_seen d) (d_tag d) (d_labels d')
                         (d_update_name d) (d_target_name d) (d_ostree_hash d) (d_apps d) (d_group_name_modified_at d') ∧
                  (d_group_name d' = d_group_name d -> d_group_name_modified_at d' = d_group_name_modified_at d))
           end
  end.
Proof.
  intros [(l & -> & ->)|(e & l & -> & ->)]%sql_now_inv; [|done]. cbv zeta.
  destruct (names_uniqueb _) eqn:En; simpl; [|done]. apply names_uniqueb_spec in En.
  split; [done|]. split; [done|]. intros k. rewrite map_lookup_imap.
  destruct (devices (db w) !! k) as [d|] eqn:E; [|done]. simpl. eexists. split; [done|].
  case_bool_decide; (split; [done|]); [intros _|done]. split; [apply lookup_patch_labels|]. split; [done|].
  unfold with_labels, d_group_name, device_label. simpl. intros ->. by rewrite String.eqb_refl.
Qed.
