(* ===== verification/Integration.v ===== *)
(** The two servers over the same storage: what a device reports through the
    gateway is what an operator reads through the API. *)
From S2P Require Import Prelude GoStrings GoPath Schema World BaseFs Crypto Models Tar Configs Updates FsHandles Tuf TufFs GatewayStorage ApiStorage ApiUpdate Rollouts.

(** ** Files of a device *)

Section DeviceFiles.
Context (root uuid : string) (Hroot : dir_ok root) (Huuid : name_ok uuid).
Notation dir := (path_of (FsConfig_DevicesDir root) uuid).
Lemma devices_dir_ok : dir_ok (FsConfig_DevicesDir root).
Proof.
  assert (name_ok DevicesDir) by by apply (bool_decide_unpack _). unfold FsConfig_DevicesDir.
  rewrite Join_entry by done. by apply entry_dir_ok.
Qed.
Lemma device_dir : filepath_Join [FsConfig_DevicesDir root; uuid] = dir ∧ dir_ok dir.
Proof. split; [apply Join_entry|apply entry_dir_ok]; auto using devices_dir_ok. Qed.

(** A successful write can be read back, and the device's directory exists. *)
Lemma Devices_WriteFile_ok name content w w' :
  name_ok name -> Devices_WriteFile (FsConfig_DevicesDir root) uuid name content w = (Ok tt, w') ->
  file_at w' (path_of dir name) = Some content ∧ is_dir w' dir = true ∧ db w' = db w.
Proof.
  intros Hn H. destruct device_dir as [Hj Hd].
  assert (db w' = db w) as Hdb.
  { assert (keeps fs_only (Devices_WriteFile (FsConfig_DevicesDir root) uuid name content) any) as Hk
      by (unfold Devices_WriteFile, dev_localHandle; keeps_auto). apply Hk in H as [(_ & ? & _) _]. done. }
  unfold Devices_WriteFile, dev_localHandle in H. rewrite Hj in H.
  unfold mkdirs, wrap, map_err, mbind, M_bind, mret, M_ret in H.
  destruct (os_MkdirAll dir w) as [[[]|e] w1] eqn:E0; [|done].
  destruct (writeFile dir name content defaultFileAccess w1) as [[[]|e] w2] eqn:Ew; [|done]. simplify_eq.
  apply (MkdirAll_is_dir _ _ _ Hd) in E0. apply (writeFile_spec _ _ _ _ _ _ _ Hd Hn) in Ew as [Ha [(m & t & Hf) _]].
  split; [unfold file_at; by rewrite Hf|]. split; [|done].
  unfold is_dir. apply bool_decide_eq_true. right. right. rewrite Ha; [done|]. rewrite !elem_of_cons.
  assert (∀ x, dir <> path_of dir x) as Hne.
  { intros x Hx. apply (f_equal String.length) in Hx. rewrite !str_length_app in Hx. simpl in Hx. lia. }
  intros [E|[E|E%elem_of_nil]]; [by apply Hne in E|by apply Hne in E|done].
Qed.
Lemma Devices_ReadFile_run name w :
  name_ok name -> faults w = [] -> fs w !! path_of dir name <> Some Dir ->
  Devices_ReadFile (FsConfig_DevicesDir root) uuid name w = (Ok (default "" (file_at w (path_of dir name))), w).
Proof.
  intros Hn Hf Hnd. destruct device_dir as [Hj Hd]. unfold Devices_ReadFile, dev_localHandle. rewrite Hj.
  rewrite (bind_Ok _ _ w dir w) by done. unfold file_at. apply wrap_Ok.
  destruct (fs w !! path_of dir name) as [[c m t|]|] eqn:E; [|done|].
  - by eapply readFile_ok.
  - by apply readFile_absent.
Qed.
End DeviceFiles.

(** ** Test results *)

Section Tests.
Context `{JSON TargetTest, !JSONLaws TargetTest}.
Context (s : GwStorage) (d : Device) (testId : string).
Hypothesis Hroot : dir_ok (gw_root s).
Hypothesis Huuid : name_ok (Uuid d).
Hypothesis Hid : no_char "/" testId = true.

Lemma test_name_ok : name_ok (TestsPrefix +:+ testId).
Proof.
  assert (no_char "/" (TestsPrefix +:+ testId) = true) by by rewrite no_char_app, Hid.
  split_and!; try done; intros E; apply (f_equal String.length) in E; rewrite str_length_app in E; simpl in E; lia.
Qed.

Lemma GetTest_run t w :
  faults w = [] -> is_dir w (path_of (devices_root s) (Uuid d)) = true ->
  file_at w (path_of (path_of (devices_root s) (Uuid d)) (TestsPrefix +:+ testId)) = Some (json_Marshal t) ->
  ∃ arts, GetTest (gw_root s) (Uuid d) testId w =
    (Ok (Some {| tt_Uuid := tt_Uuid t; tt_Name := tt_Name t; tt_TargetName := tt_TargetName t;
                 tt_Status := tt_Status t; CreatedOn := CreatedOn t; CompletedOn := CompletedOn t;
                 tt_Details := tt_Details t; Artifacts := arts; Results := Results t |}), w).
Proof.
  intros Hf Hd Hfile. pose proof (device_dir _ _ Hroot Huuid) as [Hj Hdir].
  unfold GetTest. erewrite bind_try.
  2: { apply Devices_ReadFile_run; [done|done|apply test_name_ok|done|].
       unfold file_at, devices_root in Hfile. intros E. by rewrite E in Hfile. }
  unfold devices_root in *. rewrite Hfile. simpl.
  erewrite bind_Ok by (apply wrap_Ok; unfold lift; by rewrite json_roundtrip).
  unfold Devices_ListFiles, dev_localHandle. rewrite Hj.
  erewrite (bind_Ok (wrap _ _)) by (apply wrap_Ok; rewrite (bind_Ok _ _ w _ w) by done; apply wrap_Ok, matchFiles_ok; done).
  by eexists.
Qed.

(** A test a device has started and completed is what the API returns for
    it: its name, its target and the reported outcome and results. *)
Theorem test_lifecycle targetName testName status details results w w1 w2 :
  TestCreate s d targetName testName testId w = (Ok tt, w1) ->
  TestComplete s d testId status details results w1 = (Ok tt, w2) ->
  faults w1 = [] ->
  (∃ arts, GetTest (gw_root s) (Uuid d) testId w1 =
     (Ok (Some {| tt_Uuid := testId; tt_Name := testName; tt_TargetName := targetName; tt_Status := "RUNNING";
                  CreatedOn := clock w / 1000; CompletedOn := None; tt_Details := ""; Artifacts := arts; Results := [] |}), w1)) ∧
  (∃ arts, GetTest (gw_root s) (Uuid d) testId w2 =
     (Ok (Some {| tt_Uuid := testId; tt_Name := testName; tt_TargetName := targetName; tt_Status := status;
                  CreatedOn := clock w / 1000; CompletedOn := Some (clock w1 / 1000); tt_Details := details;
                  Artifacts := arts; Results := results |}), w2)) ∧
  (status = "PASSED" \/ status = "FAILED") ∧ Forall (λ r, result_status_ok r = true) results.
Proof.
  intros H1 H2 Hf. unfold TestCreate, time_now_unix in H1. minv H1.
  apply Devices_WriteFile_ok in H1 as (F1 & D1 & _); [|done|done|apply test_name_ok].
  split; [by apply (GetTest_run _ w1 Hf D1 F1)|].
  unfold TestComplete in H2. destruct (negb _ && negb _) eqn:Es; [minv H2|].
  assert (fs w1 !! path_of (path_of (FsConfig_DevicesDir (gw_root s)) (Uuid d)) (TestsPrefix +:+ testId) <> Some Dir) as Hnd.
  { unfold file_at in F1. intros E. by rewrite E in F1. }
  rewrite (bind_Ok _ _ w1 _ w1 (wrap_Ok _ _ _ _ _ (Devices_ReadFile_run _ _ Hroot Huuid _ w1 test_name_ok Hf Hnd))) in H2.
  rewrite F1 in H2. simpl in H2. unfold lift in H2. rewrite json_roundtrip in H2.
  erewrite bind_Ok in H2 by by apply wrap_Ok. simpl in H2.
  destruct (forallb result_status_ok results) eqn:Er; simpl in H2; [|minv H2]. unfold time_now_unix in H2. minv H2.
  unfold wrap, map_err in H2. destruct (Devices_WriteFile _ _ _ _ w1) as [[[]|] w2'] eqn:Ew; simplify_eq. rename Ew into H2.
  assert (faults w2 = []) as Hf2.
  { assert (keeps fs_only (Devices_WriteFile (devices_root s) (Uuid d) (TestsPrefix +:+ testId) (json_Marshal
       {| tt_Uuid := testId; tt_Name := testName; tt_TargetName := targetName; tt_Status := status;
          CreatedOn := clock w / 1000; CompletedOn := Some (clock w1 / 1000); tt_Details := details;
          Artifacts := []; Results := results |})) any) as Hk by (unfold Devices_WriteFile, dev_localHandle; keeps_auto).
    apply Hk in H2 as [(_&_&_&_&Hs) _]. by apply suffix_no_faults in Hs. }
  apply Devices_WriteFile_ok in H2 as (F2 & D2 & _); [|done|done|apply test_name_ok].
  split; [by apply (GetTest_run _ w2 Hf2 D2 F2)|]. split.
  - apply andb_false_iff in Es. rewrite !negb_false_iff, !String.eqb_eq in Es. done.
  - apply Forall_forall. intros x Hx. rewrite forallb_forall in Er. apply Er. by apply list_elem_of_In.
Qed.

(** The API cannot tell a missing test from a damaged one: a missing file
    reads as the empty text, which is not JSON, so the caller gets an error
    where the code means to return no test. *)
Theorem GetTest_missing_is_an_error w e :
  faults w = [] -> file_at w (path_of (path_of (devices_root s) (Uuid d)) (TestsPrefix +:+ testId)) = None ->
  fs w !! path_of (path_of (devices_root s) (Uuid d)) (TestsPrefix +:+ testId) <> Some Dir ->
  (json_Unmarshal "" : result TargetTest) = Err e ->
  GetTest (gw_root s) (Uuid d) testId w = (Err (ErrWrap "error unmarshalling test" e), w).
Proof.
  intros Hf Hfile Hnd Hj. unfold GetTest.
  erewrite bind_try by (apply Devices_ReadFile_run; [done|done|apply test_name_ok|done|exact Hnd]).
  unfold devices_root in Hfile. rewrite Hfile. simpl. apply bind_Err, wrap_Err. unfold lift. by rewrite Hj.
Qed.
End Tests.
