(* ===== verification/Scopes.v ===== *)
(** storage/users/scopes.go: role-based access as a bit mask ([Scopes]). *)
From S2P Require Import Prelude GoStrings.

Notation Scopes := Z (only parsing).

Definition scopeR : Scopes := Z.shiftl 1 0.
Definition scopeU : Scopes := Z.shiftl 1 1.
Definition scopeC : Scopes := Z.shiftl 1 2.
Definition scopeD : Scopes := Z.shiftl 1 3.
Definition scopeShiftDevices : Z := 0.
Definition scopeShiftUpdates : Z := 4.
Definition scopeShiftUsers : Z := 8.

Definition ScopeDevicesR : Scopes := Z.shiftl scopeR scopeShiftDevices.
Definition ScopeDevicesRU : Scopes := Z.shiftl (Z.lor scopeU scopeR) scopeShiftDevices.
Definition ScopeDevicesC : Scopes := Z.shiftl scopeC scopeShiftDevices.
Definition ScopeDevicesD : Scopes := Z.shiftl scopeD scopeShiftDevices.
Definition ScopeUpdatesR : Scopes := Z.shiftl scopeR scopeShiftUpdates.
Definition ScopeUpdatesRU : Scopes := Z.shiftl (Z.lor scopeU scopeR) scopeShiftUpdates.
Definition ScopeUpdatesD : Scopes := Z.shiftl scopeD scopeShiftUpdates.
Definition ScopeUsersR : Scopes := Z.shiftl scopeR scopeShiftUsers.
Definition ScopeUsersRU : Scopes := Z.shiftl (Z.lor scopeU scopeR) scopeShiftUsers.
Definition ScopeUsersC : Scopes := Z.shiftl scopeC scopeShiftUsers.
Definition ScopeUsersD : Scopes := Z.shiftl scopeD scopeShiftUsers.

(** The Go map, in one of its iteration orders; every result below is sorted. *)
Definition maskToString : list (Scopes * string) :=
  [(ScopeDevicesR, "devices:read"); (ScopeDevicesRU, "devices:read-update");
   (ScopeDevicesC, "devices:create"); (ScopeDevicesD, "devices:delete");
   (ScopeUpdatesR, "updates:read"); (ScopeUpdatesRU, "updates:read-update");
   (ScopeUpdatesD, "updates:delete");
   (ScopeUsersR, "users:read"); (ScopeUsersRU, "users:read-update");
   (ScopeUsersC, "users:create"); (ScopeUsersD, "users:delete")].

(** What [init] derives: the inverse map, the names, the supersets of a mask. *)
Definition stringToMask (name : string) : option Scopes :=
  fst <$> List.find (λ kv, String.eqb kv.2 name) maskToString.
Definition allScopes : list string := sort_strings (map snd maskToString).
Definition maskInclusions (k : Scopes) : list Scopes :=
  List.filter (λ super, (Z.land k super =? k) && negb (k =? super)) (map fst maskToString).

Definition ScopesAvailable : list string := allScopes.

Fixpoint scopes_loop (s : Scopes) (scopes : list string) : result Scopes :=
  match scopes with
  | [] => Ok s
  | scope :: scopes' =>
      match stringToMask (TrimSpace scope) with
      | Some v => scopes_loop (Z.lor s v) scopes'
      | None => Err (ErrMsg ("invalid scope: `" +:+ scope +:+ "`"))
      end
  end.
Definition ScopesFromSlice (scopes : list string) : result Scopes := scopes_loop 0 scopes.
Definition ScopesFromString (scopes : string) : result Scopes := ScopesFromSlice (Split scopes ",").

Definition Has (s scope : Scopes) : bool := Z.land s scope =? scope.
Definition ToSlice (s : Scopes) : list string :=
  sort_strings
    (omap (λ kv, if Has s kv.1 && forallb (λ kk, negb (Has s kk)) (maskInclusions kv.1)
                 then Some kv.2 else None) maskToString).
Definition scopes_String (s : Scopes) : string := Join (ToSlice s) ",".
Definition Grantable (s : Scopes) : list string :=
  List.filter (λ name, match stringToMask name with Some m => Has s m | None => Has s 0 end) allScopes.

(** ** Theory *)

(** Every union of scopes: the masks a parsed list can have. *)
Definition resource_bits (read_update create delete : Z) : list Z :=
  flat_map (λ a, flat_map (λ b, map (λ c, Z.lor a (Z.lor b c)) [0; delete]) [0; create])
    [0; Z.land read_update (read_update / 3); read_update].
Definition valid_scopes : list Scopes :=
  flat_map (λ a, flat_map (λ b, map (λ c, Z.lor a (Z.lor b c))
    (resource_bits ScopeUsersRU ScopeUsersC ScopeUsersD))
    (resource_bits ScopeUpdatesRU 0 ScopeUpdatesD))
    (resource_bits ScopeDevicesRU ScopeDevicesC ScopeDevicesD).
Definition valid (s : Scopes) : Prop := In s valid_scopes.
Definition validb (s : Scopes) : bool := existsb (Z.eqb s) valid_scopes.

Lemma validb_spec s : validb s = true ↔ valid s.
Proof.
  unfold validb, valid. rewrite existsb_exists. split.
  - intros (x & Hx & E). apply Z.eqb_eq in E. by subst.
  - intros H. exists s. by rewrite Z.eqb_refl.
Qed.
Lemma forall_valid (p : Scopes -> bool) :
  forallb p valid_scopes = true -> ∀ s, valid s -> p s = true.
Proof. rewrite forallb_forall. auto. Qed.

Lemma valid_0 : valid 0. Proof. apply validb_spec. vm_compute. reflexivity. Qed.
Lemma stringToMask_mem n m : stringToMask n = Some m -> In (m, n) maskToString.
Proof.
  unfold stringToMask. intros H. apply fmap_Some in H as ([k v] & H & ->).
  apply find_some in H as [H E]. simpl in *. apply String.eqb_eq in E. by subst.
Qed.
Lemma valid_lor s m n : valid s -> In (m, n) maskToString -> valid (Z.lor s m).
Proof.
  intros Hs Hm. apply validb_spec.
  assert (forallb (λ kv, validb (Z.lor s kv.1)) maskToString = true) as H.
  { revert s Hs. apply forall_valid. vm_compute. reflexivity. }
  rewrite forallb_forall in H. by apply (H (m, n)).
Qed.
Lemma scopes_loop_valid l s s' : valid s -> scopes_loop s l = Ok s' -> valid s'.
Proof.
  revert s. induction l as [|x l IH]; intros s Hs H; simpl in H; [by simplify_eq|].
  destruct (stringToMask (TrimSpace x)) as [v|] eqn:E; [|done].
  eapply IH; [|done]. eapply valid_lor; [done|]. by apply stringToMask_mem.
Qed.
Lemma ScopesFromSlice_valid l s : ScopesFromSlice l = Ok s -> valid s.
Proof. apply scopes_loop_valid, valid_0. Qed.
Lemma ScopesFromString_valid t s : ScopesFromString t = Ok s -> valid s.
Proof. apply ScopesFromSlice_valid. Qed.

Definition parses_back (s : Scopes) : bool :=
  (s =? 0) || bool_decide (ScopesFromString (scopes_String s) = Ok s).
Lemma parses_back_all : forallb parses_back valid_scopes = true.
Proof. vm_compute. reflexivity. Qed.
Lemma scopes_roundtrip s : valid s -> s <> 0 -> ScopesFromString (scopes_String s) = Ok s.
Proof.
  intros Hs Hn. pose proof (forall_valid _ parses_back_all s Hs) as H.
  unfold parses_back in H. apply orb_true_iff in H as [H|H].
  - by apply Z.eqb_eq in H.
  - by apply bool_decide_eq_true in H.
Qed.

Definition subset (a b : Scopes) : Prop := Z.land a b = a.
Lemma subset_land_r a b : subset (Z.land a b) b.
Proof. unfold subset. by rewrite <-Z.land_assoc, Z.land_diag. Qed.
Lemma subset_trans a b c : subset a b -> subset b c -> subset a c.
Proof. unfold subset. intros H1 H2. rewrite <-H1, <-Z.land_assoc, H2. done. Qed.
Lemma subset_Has a b m : subset a b -> Has a m = true -> Has b m = true.
Proof.
  unfold subset, Has. rewrite !Z.eqb_eq. intros H1 H2.
  transitivity (Z.land b (Z.land a m)); [by rewrite H2|].
  by rewrite Z.land_assoc, (Z.land_comm b a), H1.
Qed.

Definition minimal (s : Scopes) : bool :=
  (s =? 0) || (bool_decide (ScopesFromSlice (ToSlice s) = Ok s) &&
    forallb (λ a, forallb (λ b, match stringToMask a, stringToMask b with
       | Some ma, Some mb => negb (Has mb ma) || String.eqb a b | _, _ => true end)
       (ToSlice s)) (ToSlice s)).
Lemma minimal_all : forallb minimal valid_scopes = true.
Proof. vm_compute. reflexivity. Qed.
Lemma minimal_spec s a b ma mb :
  minimal s = true -> s <> 0 -> ScopesFromSlice (ToSlice s) = Ok s ∧
  (a ∈ ToSlice s -> b ∈ ToSlice s -> stringToMask a = Some ma ->
    stringToMask b = Some mb -> Has mb ma = true -> a = b).
Proof.
  unfold minimal. generalize (ToSlice s) as l. intros l H Hn.
  apply orb_true_iff in H as [H|H]; [by apply Z.eqb_eq in H|].
  apply andb_true_iff in H as [H1 H2]. split; [by apply bool_decide_eq_true in H1|].
  intros Ha Hb Ea Eb Hh. rewrite forallb_forall in H2. apply list_elem_of_In in Ha, Hb.
  specialize (H2 a Ha). rewrite forallb_forall in H2. specialize (H2 b Hb).
  rewrite Ea, Eb, Hh in H2. by apply String.eqb_eq in H2.
Qed.

(** A scope list that parses prints back to a list with the same meaning; the
    printed form names no scope that another printed one implies. *)
Theorem scopes_print_parse l s :
  ScopesFromSlice l = Ok s -> s <> 0 ->
  ScopesFromString (scopes_String s) = Ok s ∧
  ScopesFromSlice (ToSlice s) = Ok s ∧
  ∀ a b ma mb, a ∈ ToSlice s -> b ∈ ToSlice s -> stringToMask a = Some ma ->
    stringToMask b = Some mb -> Has mb ma = true -> a = b.
Proof.
  intros H%ScopesFromSlice_valid Hn. split; [by apply scopes_roundtrip|].
  pose proof (forall_valid _ minimal_all s H) as Hm. split.
  - by apply (minimal_spec s "" "" 0 0 Hm Hn).
  - intros a b ma mb. by apply minimal_spec.
Qed.
(** The empty mask does not survive: its printed form is rejected. *)
Theorem scopes_empty_lost : ScopesFromSlice [] = Ok 0 ∧ is_Ok (ScopesFromString (scopes_String 0)) = false.
Proof. split; vm_compute; reflexivity. Qed.
