(* ===== verification/Users.v ===== *)
(** storage/users: accounts (user_storage.go), API tokens (tokens.go), login
    sessions (sessions.go) and the OAuth2 device flow (oauth2.go). *)
From S2P Require Import Prelude GoStrings GoPath Schema World BaseFs Crypto FsHandles Scopes.

(** SQLite's [jsonb(?)] followed by [json_extract(..., '$')]: [None] when the
    text is not JSON. *)
Class SqliteJson := { sqlite_json : string -> option string }.

(** A Go pair [( *T, error )]: both parts can be set. *)
Notation goret A := (option A * option error)%type.

Record User := mkUser {
  id : Z; Username : string; Password : string; Email : string;
  CreatedAt : Z; Deleted : bool; AllowedScopes : Z; AuthProviderData : option string
}.
Definition zero_user : User := mkUser 0 "" "" "" 0 false 0 None.
Definition with_AllowedScopes (s : Z) (u : User) : User :=
  mkUser (id u) (Username u) (Password u) (Email u) (CreatedAt u) (Deleted u) s (AuthProviderData u).
Definition with_Deleted (b : bool) (u : User) : User :=
  mkUser (id u) (Username u) (Password u) (Email u) (CreatedAt u) b (AllowedScopes u) (AuthProviderData u).
Definition with_id (i : Z) (u : User) : User :=
  mkUser i (Username u) (Password u) (Email u) (CreatedAt u) (Deleted u) (AllowedScopes u) (AuthProviderData u).

(** What a [Storage] handle carries besides its statements. *)
Record Storage := { hmacSecret : string; authConfig : AuthConfig; audit_root : string }.

Record Token := mkToken {
  PublicID : Z; tk_CreatedAt : Z; ExpiresAt : Z; Description : string; tk_Scopes : Z; Value : string
}.
Record session := mkSession { ss_UserID : Z; ss_ExpiresAt : Z; ss_Scopes : Z }.
Record OAuth2DeviceAuth := mkDeviceAuth {
  DeviceCode : string; UserCode : string; da_ExpiresAt : Z; TokenExpires : Z;
  TokenDescription : string; da_Scopes : string; UserID : option Z; Authorized : bool; Denied : bool
}.

Section Users.
Context `{Digest, TimeFormat, SqliteJson}.

(** ** Statements on the users table *)

Definition username_taken (d : database) (name : string) (except : option Z) : bool :=
  existsb (λ kv, String.eqb (u_username kv.2) name && negb (bool_decide (Some kv.1 = except)))
    (map_to_list (users d)).

(** The defaults [run] fills in before the insert. *)
Definition fill_new_user (now : Z) (u : User) : User :=
  mkUser (id u) (Username u) (Password u) (Email u)
    (if CreatedAt u =? 0 then now else CreatedAt u) (Deleted u) (AllowedScopes u)
    (Some (default "{}" (AuthProviderData u))).
Definition stmtUserCreate_run (u : User) : IO (User * option error) :=
  now ← time_now_unix;
  let u := fill_new_user now u in
  r ← try (sql (λ d,
    match sqlite_json (default "{}" (AuthProviderData u)) with
    | None => (Err (ErrMsg "malformed JSON"), d)
    | Some data =>
        if username_taken d (Username u) None then (Err ErrDbConstraintUnique, d)
        else
          let i := users_seq d + 1 in
          (Ok i, with_users (<[i := UserRow (Username u) (Password u) (Email u) (CreatedAt u)
                                     (Deleted u) (scopes_String (AllowedScopes u)) data]> (users d)) i d)
    end));
  mret (match r with Ok i => (with_id i u, None) | Err e => (u, Some e) end).

(** Scanning a row selected by id or by name; a failed scan leaves the zero user. *)
Definition scan_user (r : result (Z * user_row)) : goret User :=
  match r with
  | Err e => (Some zero_user, Some e)
  | Ok (i, row) =>
      match ScopesFromString (u_allowed_scopes row) with
      | Err e => (None, Some (ErrWrap "unable to parse scopes" e))
      | Ok s => (Some (mkUser i (u_username row) (u_password row) (u_email row) (u_created_at row)
                         false s (Some (u_auth_provider_data row))), None)
      end
  end.
Definition stmtUserGetById_run (i : Z) : IO (goret User) :=
  r ← try (sql_query (λ d,
    match users d !! i with
    | Some row => if u_deleted row then Err ErrNoRows else Ok (i, row)
    | None => Err ErrNoRows
    end));
  mret (scan_user r).
Definition stmtUserGetByName_run (username : string) : IO (goret User) :=
  r ← try (sql_query (λ d,
    match List.find (λ kv, String.eqb (u_username kv.2) username && negb (u_deleted kv.2)) (rows_z (users d)) with
    | Some kv => Ok kv
    | None => Err ErrNoRows
    end));
  mret (scan_user r).

Fixpoint scan_user_list (l : list (Z * user_row)) : result (list User) :=
  match l with
  | [] => Ok []
  | (i, row) :: l' =>
      match ScopesFromString (u_allowed_scopes row) with
      | Err e => Err (ErrWrap "unable to parse scopes" e)
      | Ok s =>
          us ← scan_user_list l';
          Ok (mkUser i (u_username row) (u_password row) (u_email row) (u_created_at row)
                (u_deleted row) s None :: us)
      end
  end.
Definition stmtUserList_run : IO (list User) :=
  l ← sql_query (λ d, Ok (List.filter (λ kv, negb (u_deleted kv.2)) (rows_z (users d))));
  lift (scan_user_list l).

Definition stmtUserUpdate_run (u : User) : IO unit :=
  sql (λ d,
    match users d !! id u with
    | None => (Ok tt, d)
    | Some row =>
        match sqlite_json (default "{}" (AuthProviderData u)) with
        | None => (Err (ErrMsg "malformed JSON"), d)
        | Some data =>
            if username_taken d (Username u) (Some (id u)) then (Err ErrDbConstraintUnique, d)
            else (Ok tt, with_users (<[id u := UserRow (Username u) (Password u) (Email u) (u_created_at row)
                     (Deleted u) (scopes_String (AllowedScopes u)) data]> (users d)) (users_seq d) d)
        end
    end).

(** ** Statements on the tokens table *)

Definition stmtTokenCreate_run (u : User) (t : Token) : IO Z :=
  sql (λ d,
    if existsb (λ kv, String.eqb (t_value kv.2) (Value t)) (map_to_list (tokens d))
    then (Err ErrDbConstraintUnique, d)
    else
      let i := tokens_seq d + 1 in
      (Ok i, with_tokens (<[i := TokenRow (id u) (tk_CreatedAt t) (ExpiresAt t) (Description t)
                                  (scopes_String (tk_Scopes t)) (Value t)]> (tokens d)) i d)).
Definition stmtTokenDelete_run (u : User) (i : Z) : IO unit :=
  sql_exec (λ d, with_tokens (filter (λ kv, ~ (t_user_id kv.2 = id u ∧ kv.1 = i)) (tokens d)) (tokens_seq d) d).
Definition stmtTokenDeleteAll_run (u : User) : IO unit :=
  sql_exec (λ d, with_tokens (filter (λ kv, t_user_id kv.2 <> id u) (tokens d)) (tokens_seq d) d).
Definition stmtTokenDeleteExpired_run (before : Z) : IO unit :=
  sql_exec (λ d, with_tokens (filter (λ kv, ~ t_expires_at kv.2 < before) (tokens d)) (tokens_seq d) d).
Definition stmtTokenUpdate_run (u : User) (i : Z) (description : string) (scopes : Z) : IO unit :=
  sql_exec (λ d, with_tokens (map_imap (λ k row,
     Some (if (t_user_id row =? id u) && (k =? i)
           then TokenRow (t_user_id row) (t_created_at row) (t_expires_at row) description
                  (scopes_String scopes) (t_value row)
           else row)) (tokens d)) (tokens_seq d) d).
Fixpoint scan_token_list (l : list (Z * token_row)) : result (list Token) :=
  match l with
  | [] => Ok []
  | (i, row) :: l' =>
      match ScopesFromString (t_scopes row) with
      | Err e => Err (ErrWrap "unable to parse scopes" e)
      | Ok s => ts ← scan_token_list l';
                Ok (mkToken i (t_created_at row) (t_expires_at row) (t_description row) s "" :: ts)
      end
  end.
Definition stmtTokenList_run (u : User) : IO (list Token) :=
  l ← sql_query (λ d, Ok (sort_by (λ a b, t_created_at a.2 - t_created_at b.2)
                       (List.filter (λ kv, t_user_id kv.2 =? id u) (rows_z (tokens d)))));
  lift (scan_token_list l).
(** [nil] token when there is no such value. *)
Definition stmtTokenLookup_run (value : string) : IO (option (Token * Z)) :=
  r ← sql_query (λ d, Ok (List.find (λ kv, String.eqb (t_value kv.2) value) (rows_z (tokens d))));
  match r with
  | None => mret None
  | Some (i, row) =>
      match ScopesFromString (t_scopes row) with
      | Err e => fail (ErrWrap "unable to parse scopes" e)
      | Ok s => mret (Some (mkToken i (t_created_at row) (t_expires_at row) "" s "", t_user_id row))
      end
  end.

(** ** Statements on the session table *)

Definition stmtSessionCreate_run (u : User) (sid remoteIP : string) (created expires scopes : Z) : IO unit :=
  sql (λ d, match sessions d !! sid with
            | Some _ => (Err ErrDbConstraintUnique, d)
            | None => (Ok tt, with_sessions (<[sid := SessionRow (id u) remoteIP created expires
                                                        (scopes_String scopes)]> (sessions d)) d)
            end).
Definition stmtSessionDelete_run (sid : string) : IO unit :=
  sql_exec (λ d, with_sessions (delete sid (sessions d)) d).
Definition stmtSessionDeleteExpired_run (before : Z) : IO unit :=
  sql_exec (λ d, with_sessions (filter (λ kv, ~ s_expires_at kv.2 < before) (sessions d)) d).
Definition stmtSessionGet_run (sid : string) : IO (option session) :=
  r ← sql_query (λ d, Ok (sessions d !! sid));
  match r with
  | None => mret None
  | Some row =>
      match ScopesFromString (s_scopes row) with
      | Err e => fail (ErrWrap "unable to parse scopes" e)
      | Ok s => mret (Some (mkSession (s_user_id row) (s_expires_at row) s))
      end
  end.

(** ** Statements on the oauth2_device_flow table *)

Definition device_auth_of (code : string) (row : oauth2_row) : OAuth2DeviceAuth :=
  mkDeviceAuth code (o_user_code row) (o_expires_at row) (o_token_expires row)
    (o_token_description row) (o_scopes row) (o_user_id row) (o_authorized row) (o_denied row).
Definition stmtOAuth2DeviceAuthCreate_run (deviceCode userCode : string) (expiresAt tokenExpires : Z)
  (scopes : string) : IO unit :=
  sql (λ d,
    if bool_decide (is_Some (oauth2_device_flow d !! deviceCode)) ||
       existsb (λ kv, String.eqb (o_user_code kv.2) userCode) (map_to_list (oauth2_device_flow d))
    then (Err ErrDbConstraintUnique, d)
    else (Ok tt, with_oauth2 (<[deviceCode := OAuth2Row userCode expiresAt tokenExpires "" scopes
                                                None false false]> (oauth2_device_flow d)) d)).
Definition stmtOAuth2DeviceAuthGetByDeviceCode_run (deviceCode : string) : IO (option OAuth2DeviceAuth) :=
  sql_query (λ d, Ok (device_auth_of deviceCode <$> oauth2_device_flow d !! deviceCode)).
Definition stmtOAuth2DeviceAuthGetByUserCode_run (userCode : string) : IO (option OAuth2DeviceAuth) :=
  sql_query (λ d, Ok ((λ kv, device_auth_of kv.1 kv.2) <$>
    List.find (λ kv, String.eqb (o_user_code kv.2) userCode) (rows (oauth2_device_flow d)))).
Definition is_pending (row : oauth2_row) : bool := negb (o_authorized row) && negb (o_denied row).
Definition stmtOAuth2DeviceAuthAuthorize_run (userID : Z) (deviceCode tokenDescription scopes : string) : IO unit :=
  sql_exec (λ d, with_oauth2 (alter (λ row,
    if is_pending row
    then OAuth2Row (o_user_code row) (o_expires_at row) (o_token_expires row) tokenDescription scopes
           (Some userID) true (o_denied row)
    else row) deviceCode (oauth2_device_flow d)) d).
Definition stmtOAuth2DeviceAuthDeny_run (deviceCode : string) : IO unit :=
  sql_exec (λ d, with_oauth2 (alter (λ row,
    if is_pending row
    then OAuth2Row (o_user_code row) (o_expires_at row) (o_token_expires row) (o_token_description row)
           (o_scopes row) (o_user_id row) (o_authorized row) true
    else row) deviceCode (oauth2_device_flow d)) d).
Definition stmtOAuth2DeviceAuthDelete_run (deviceCode : string) : IO unit :=
  sql_exec (λ d, with_oauth2 (delete deviceCode (oauth2_device_flow d)) d).
Definition stmtOAuth2DeviceAuthDeleteExpired_run (before : Z) : IO unit :=
  sql_exec (λ d, with_oauth2 (filter (λ kv, ~ o_expires_at kv.2 < before) (oauth2_device_flow d)) d).
End Users.
