(* ===== verification/UserOps.v ===== *)
(** storage/users: the operations on accounts, tokens, sessions and device-flow
    authorizations, with the theorems on what a credential grants. *)
From S2P Require Import Prelude GoStrings GoPath Schema World BaseFs Crypto FsHandles Scopes Users.

Section Ops.
Context `{Digest, TimeFormat, SqliteJson} (h : Storage).

(** ** Accounts (user_storage.go) *)

Definition audit (uid : Z) (event : string) : IO unit := AppendEvent (audit_root h) uid event.

Definition User_Update (u : User) (reason : string) : IO unit :=
  stmtUserUpdate_run u;; audit (id u) reason.
Definition User_Delete (u : User) : IO unit :=
  let u := with_Deleted true u in
  wrap "unable to delete user while deleting tokens" (stmtTokenDeleteAll_run u);;
  User_Update u "User deleted".
Definition User_GetAuditLog (u : User) : IO string := ReadEvents (audit_root h) (id u).

Definition Storage_RunGc : IO unit :=
  now ← time_now_unix;
  ignore (stmtTokenDeleteExpired_run now);;
  ignore (stmtSessionDeleteExpired_run now);;
  ignore (stmtOAuth2DeviceAuthDeleteExpired_run now).

Definition Storage_Create (u : User) : IO (User * option error) :=
  '(u, err) ← stmtUserCreate_run u;
  match err with
  | None => audit (id u) "User created";; mret (u, None)
  | Some _ => mret (u, err)
  end.
Definition Storage_Upsert (username email : string) (scopes : Z) : IO (goret User) :=
  '(u, err) ← stmtUserGetByName_run username;
  match err with
  | Some e =>
      if negb (errors_Is e ErrNoRows) then mret (None, Some e)
      else
        '(u, err) ← Storage_Create (mkUser 0 username "" email 0 false scopes None);
        mret (Some u, err)
  | None => mret (u, None)
  end.
Definition Storage_Get (username : string) : IO (goret User) :=
  '(u, err) ← stmtUserGetByName_run username;
  match err with
  | Some e => if negb (errors_Is e ErrNoRows) then mret (None, Some e) else mret (None, None)
  | None => mret (u, None)
  end.
Definition Storage_GetByID (i : Z) : IO (goret User) :=
  '(u, err) ← stmtUserGetById_run i;
  match err with
  | Some e => if negb (errors_Is e ErrNoRows) then mret (None, Some e) else mret (None, None)
  | None => mret (u, None)
  end.
Definition Storage_List : IO (list User) := stmtUserList_run.

(** ** Tokens (tokens.go) *)

Definition genTokenKey (token : string) : result string :=
  if len token <? 17 then Err (ErrMsg "token too short to derive key")
  else Ok (hkdf_sha256 (hmacSecret h) (str_take 14 (str_drop 3 token))).
Definition hashToken (token : string) : result string :=
  key ← genTokenKey token; Ok (hex (hmac_sha256 key token)).

(** [now.Add(time.Duration(days) * 24 * time.Hour).Unix()]: nanoseconds wrap at 64 bits. *)
Definition maxExpires (now_ms days : Z) : Z :=
  (now_ms * 10 ^ 6 + wrap64 (wrap64 (days * 24) * (3600 * 10 ^ 9))) / 10 ^ 9.
Definition check_lifetime (now_ms expires : Z) : result unit :=
  let days := MaxTokenLifetimeDays (authConfig h) in
  if 0 <? days then
    if maxExpires now_ms days <? expires
    then Err (ErrMsg "requested expiration exceeds maximum allowed expiration") else Ok tt
  else Ok tt.

(** The row a credential names, as the user it grants access to. *)
Definition granted (scopes : Z) (r : goret User) : goret User :=
  let '(u, err) := r in
  ((λ u, with_AllowedScopes (Z.land scopes (AllowedScopes u)) u) <$> u, err).

Definition GetByToken (token : string) : IO (goret User) :=
  match hashToken token with
  | Err e => mret (None, Some e)
  | Ok hashed =>
      r ← try (stmtTokenLookup_run hashed);
      match r with
      | Err e => mret (None, Some e)
      | Ok None => mret (None, None)
      | Ok (Some (t, userID)) =>
          now ← time_now_unix;
          if ExpiresAt t <? now then mret (None, None)
          else
            r ← stmtUserGetById_run userID;
            mret (granted (tk_Scopes t) r)
      end
  end.

Definition GenerateToken (u : User) (description : string) (expires scopes : Z) : IO Token :=
  if negb (Z.land scopes (AllowedScopes u) =? scopes)
  then fail (ErrMsg "requested scopes exceed allowed scopes") else
  now ← time_now_ms;
  _ ← lift (check_lifetime now expires);
  value ← rand_text;
  hashed ← lift (hashToken value);
  created ← time_now_unix;
  let t := mkToken 0 created expires description scopes hashed in
  i ← stmtTokenCreate_run u t;
  audit (id u) ("Token created (id=" +:+ Itoa i +:+ ", expires=" +:+ Itoa expires +:+
                ", scopes=" +:+ scopes_String scopes +:+ ")");;
  mret (mkToken i created expires description scopes value).

Definition DeleteToken (u : User) (i : Z) : IO unit :=
  stmtTokenDelete_run u i;; audit (id u) ("Token deleted id=" +:+ Itoa i).
Definition ListTokens (u : User) : IO (list Token) := stmtTokenList_run u.
Definition UpdateToken (u : User) (i : Z) (newDescription : string) (newScopes : Z) : IO unit :=
  if negb (Z.land newScopes (AllowedScopes u) =? newScopes)
  then fail (ErrMsg "requested scopes exceed allowed scopes") else
  stmtTokenUpdate_run u i newDescription newScopes;;
  audit (id u) ("Token updated (id=" +:+ Itoa i +:+ ", scopes=" +:+ scopes_String newScopes +:+ ")").

(** ** Sessions (sessions.go) *)

Definition hashSessionID (sid : string) : result string := hashToken sid.

Definition GetBySession (sid : string) : IO (goret User) :=
  match hashSessionID sid with
  | Err e => mret (None, Some e)
  | Ok hashed =>
      r ← try (stmtSessionGet_run hashed);
      match r with
      | Err e => mret (None, Some e)
      | Ok None => mret (None, None)
      | Ok (Some sess) =>
          now ← time_now_unix;
          if ss_ExpiresAt sess <? now then mret (None, None)
          else
            r ← stmtUserGetById_run (ss_UserID sess);
            mret (granted (ss_Scopes sess) r)
      end
  end.
Definition CreateSession (u : User) (remoteIP : string) (expires scopes : Z) : IO string :=
  if negb (Z.land scopes (AllowedScopes u) =? scopes)
  then fail (ErrMsg "requested scopes exceed allowed scopes") else
  idStr ← rand_text;
  hashed ← wrap "unable to hash session id" (lift (hashSessionID idStr));
  now ← time_now_unix;
  wrap "unable to create session" (stmtSessionCreate_run u hashed remoteIP now expires scopes);;
  audit (id u) ("Session created (ip=" +:+ remoteIP +:+ ", expires=" +:+ Itoa expires +:+
                ", scopes=" +:+ scopes_String scopes +:+ ")");;
  mret idStr.
Definition DeleteSession (u : User) (sid : string) : IO unit :=
  hashed ← wrap "unable to hash session id" (lift (hashSessionID sid));
  wrap "unable to delete session" (stmtSessionDelete_run hashed);;
  audit (id u) ("Session deleted id=" +:+ sid).

(** ** OAuth2 device flow (oauth2.go) *)

Definition CreateDeviceAuth (expiresAt tokenExpires : Z) (scopes : string) : IO (string * string) :=
  _ ← lift (ScopesFromString scopes);
  now ← time_now_ms;
  _ ← lift (check_lifetime now expiresAt);
  deviceCode ← rand_text;
  userCode ← rand_text;
  let userCode := str_take 4 userCode +:+ "-" +:+ str_take 4 (str_drop 4 userCode) in
  stmtOAuth2DeviceAuthCreate_run deviceCode userCode expiresAt tokenExpires scopes;;
  mret (deviceCode, userCode).
Definition GetDeviceAuthByDeviceCode (c : string) := stmtOAuth2DeviceAuthGetByDeviceCode_run c.
Definition GetDeviceAuthByUserCode (c : string) := stmtOAuth2DeviceAuthGetByUserCode_run c.
Definition DeleteExpiredDeviceAuth (before : Z) := stmtOAuth2DeviceAuthDeleteExpired_run before.
Definition DeleteDeviceAuth (c : string) := stmtOAuth2DeviceAuthDelete_run c.
Definition ApproveAuthorization (u : User) (deviceCode tokenDescription : string) (scopes : Z) : IO unit :=
  stmtOAuth2DeviceAuthAuthorize_run (id u) deviceCode tokenDescription (scopes_String scopes);;
  audit (id u) ("OAuth2 device authorized: " +:+ tokenDescription).
Definition DenyDeviceAuth (u : User) (deviceCode : string) : IO unit :=
  stmtOAuth2DeviceAuthDeny_run deviceCode;; audit (id u) "OAuth2 device denied".
End Ops.

(** ** Theory *)

Lemma query_inv {A} (f : database -> result A) w r w' :
  sql_query f w = (r, w') ->
  ∃ l, w' = with_faults l w ∧ (r = f (db w) \/ ∃ e, r = Err e).
Proof.
  unfold sql_query. intros [(l & -> & ->)|(e & l & -> & ->)]%sql_inv.
  - exists l. split; [by destruct w|by left].
  - exists l. split; [done|]. eauto.
Qed.

(** The scopes stored for a row, as the code reads them back. *)
Definition row_scopes (t : string) (s : Z) : Prop := ScopesFromString t = Ok s.

Section Credentials.
Context `{HD : Digest, HT : TimeFormat, HJ : SqliteJson} (h : Storage).

(** What the table of users grants the account [i]. *)
Definition user_grants (d : database) (i : Z) (s : Z) : Prop :=
  ∃ row, users d !! i = Some row ∧ u_deleted row = false ∧ row_scopes (u_allowed_scopes row) s.

(** [u] is what the table of users has for its account, the scopes aside. *)
Definition account_of (d : database) (u : User) : Prop :=
  ∃ row, users d !! id u = Some row ∧ u_deleted row = false ∧ Username u = u_username row ∧ Password u = u_password row ∧
    Email u = u_email row ∧ CreatedAt u = u_created_at row ∧ Deleted u = false ∧
    AuthProviderData u = Some (u_auth_provider_data row).

(** A user that comes with an error is the empty one. *)
Lemma getById_some i w u err w' :
  stmtUserGetById_run i w = (Ok (Some u, err), w') ->
  (∃ l, w' = with_faults l w) ∧
  (err = None ∧ user_grants (db w) i (AllowedScopes u) ∧ id u = i ∧ account_of (db w) u \/ is_Some err ∧ u = zero_user).
Proof.
  unfold stmtUserGetById_run. intros H. minv H. minv H.
  apply query_inv in E as (l & -> & [->|(e & ->)]).
  2: { simpl in *. simplify_eq. split; [by exists l|by right]. }
  split; [by exists l|].
  destruct (users (db w) !! i) as [row|] eqn:Eu; [|simpl in *; simplify_eq; by right].
  destruct (u_deleted row) eqn:Ed; [simpl in *; simplify_eq; by right|].
  simpl in *. destruct (ScopesFromString (u_allowed_scopes row)) eqn:Es; simplify_eq. simpl. left.
  split; [done|]. split; [by exists row|]. split; [done|]. by exists row.
Qed.

(** A credential never grants more than its own scopes and those its account
    has at that moment; an expired one, or one of a deleted account, grants nothing. *)
Definition token_granted (d : database) (now : Z) (hashed : string) (u : User) : Prop :=
  ∃ i row ts us, tokens d !! i = Some row ∧ t_value row = hashed ∧ now <= t_expires_at row ∧
    row_scopes (t_scopes row) ts ∧ user_grants d (t_user_id row) us ∧ id u = t_user_id row ∧
    account_of d u ∧ AllowedScopes u = Z.land ts us.

Lemma GetByToken_some token w u err w' :
  GetByToken h token w = (Ok (Some u, err), w') ->
  (∃ l, w' = with_faults l w) ∧ ∃ hashed, hashToken h token = Ok hashed ∧
  (err = None ∧ token_granted (db w) (clock w / 1000) hashed u \/ is_Some err ∧ u = zero_user).
Proof.
  unfold GetByToken. intros H. destruct (hashToken h token) as [hashed|e]; [|by minv H].
  minv H. destruct res as [[[t uid]|]|e]; [|by minv H|by minv H].
  unfold stmtTokenLookup_run in E. minv E.
  apply query_inv in E0 as (l & -> & [[= ->]|(e & E')]); [|done].
  destruct (List.find _ _) as [[i row]|] eqn:Ef; [|by minv E].
  destruct (ScopesFromString (t_scopes row)) as [ts|] eqn:Es; [|by minv E]. minv E.
  apply find_some in Ef as [Hin Hv]. apply list_elem_of_In, elem_of_rows_z in Hin.
  simpl in Hv. apply String.eqb_eq in Hv.
  unfold time_now_unix in H. minv H. simpl in H. destruct (Z.ltb_spec (t_expires_at row) (clock w / 1000)); [by minv H|].
  minv H. destruct v as [[u0|] e0]; minv H; simplify_eq.
  apply getById_some in E as [(l' & ->) Hg]. simpl in *. split; [by exists l'|].
  eexists. split; [done|]. destruct Hg as [(-> & Hg & Hi & Ha)|[He ->]].
  - left. split; [done|]. exists i, row, ts, (AllowedScopes u0). split_and!; done.
  - right. split; [done|]. unfold with_AllowedScopes. simpl. by rewrite Z.land_0_r.
Qed.

(** Whoever is authenticated by an API token: a token with that hash exists and
    has not expired, its account exists and is not deleted, and the scopes handed
    out are at most those of the token and of the account at that moment. *)
Theorem GetByToken_sound token w u w' :
  GetByToken h token w = (Ok (Some u, None), w') ->
  ∃ hashed, hashToken h token = Ok hashed ∧ token_granted (db w) (clock w / 1000) hashed u.
Proof. intros (_ & hashed & Hh & [[_ Hg]|[[? [=]] _]])%GetByToken_some. eauto. Qed.

(** What a session grants, likewise. *)
Definition session_granted (d : database) (now : Z) (hashed : string) (u : User) : Prop :=
  ∃ row ss us, sessions d !! hashed = Some row ∧ now <= s_expires_at row ∧
    row_scopes (s_scopes row) ss ∧ user_grants d (s_user_id row) us ∧ id u = s_user_id row ∧
    account_of d u ∧ AllowedScopes u = Z.land ss us.

Lemma GetBySession_some sid w u err w' :
  GetBySession h sid w = (Ok (Some u, err), w') ->
  (∃ l, w' = with_faults l w) ∧ ∃ hashed, hashSessionID h sid = Ok hashed ∧
  (err = None ∧ session_granted (db w) (clock w / 1000) hashed u \/ is_Some err ∧ u = zero_user).
Proof.
  unfold GetBySession. intros H. destruct (hashSessionID h sid) as [hashed|e]; [|by minv H].
  minv H. destruct res as [[sess|]|e]; [|by minv H|by minv H].
  unfold stmtSessionGet_run in E. minv E.
  apply query_inv in E0 as (l & -> & [[= ->]|(e & E')]); [|done].
  destruct (sessions (db w) !! hashed) as [row|] eqn:Ef; [|by minv E].
  destruct (ScopesFromString (s_scopes row)) as [ss|] eqn:Es; [|by minv E]. minv E.
  unfold time_now_unix in H. minv H. simpl in H. destruct (Z.ltb_spec (s_expires_at row) (clock w / 1000)); [by minv H|].
  minv H. destruct v as [[u0|] e0]; minv H; simplify_eq.
  apply getById_some in E as [(l' & ->) Hg]. simpl in *. split; [by exists l'|].
  eexists. split; [done|]. destruct Hg as [(-> & Hg & Hi & Ha)|[He ->]].
  - left. split; [done|]. exists row, ss, (AllowedScopes u0). split_and!; done.
  - right. split; [done|]. unfold with_AllowedScopes. simpl. by rewrite Z.land_0_r.
Qed.

(** Whoever is authenticated by a login session, when the call reports no error:
    the session exists and has not expired, its account exists and is not deleted,
    and the scopes are at most those of the session and of the account. *)
Theorem GetBySession_sound sid w u w' :
  GetBySession h sid w = (Ok (Some u, None), w') ->
  ∃ hashed, hashSessionID h sid = Ok hashed ∧ session_granted (db w) (clock w / 1000) hashed u.
Proof. intros (_ & hashed & Hh & [[_ Hg]|[[? [=]] _]])%GetBySession_some. eauto. Qed.

(** ** A new token opens exactly the door it was made for *)

Lemma audit_run uid ev w :
  ∃ w', audit h uid ev w = (Ok tt, w') ∧ fs_only w w'.
Proof. unfold audit. apply AppendEvent_ok. Qed.

Lemma audit_inv uid ev w r w' : audit h uid ev w = (r, w') -> fs_only w w' ∧ r = Ok tt.
Proof. destruct (audit_run uid ev w) as (w1 & -> & H). intros [= <- <-]. done. Qed.
Lemma find_unique {A} (p : A -> bool) (l : list A) x :
  x ∈ l -> p x = true -> (∀ y, y ∈ l -> p y = true -> y = x) -> List.find p l = Some x.
Proof.
  intros Hx Hp Hu. destruct (List.find p l) as [y|] eqn:E.
  - apply find_some in E as [Hy Hpy]. f_equal. apply Hu; [by apply list_elem_of_In|done].
  - rewrite (find_none _ _ E x) in Hp; [done|]. by apply list_elem_of_In.
Qed.

Lemma tokenCreate_inv u t w i w' :
  stmtTokenCreate_run u t w = (Ok i, w') ->
  fs_only w (with_db (db w) w') ∧ i = tokens_seq (db w) + 1 ∧ users (db w') = users (db w) ∧
  tokens (db w') = <[i := TokenRow (id u) (tk_CreatedAt t) (ExpiresAt t) (Description t)
                              (scopes_String (tk_Scopes t)) (Value t)]> (tokens (db w)) ∧
  (∀ j row, tokens (db w) !! j = Some row -> t_value row <> Value t).
Proof.
  unfold stmtTokenCreate_run. intros H. pose proof (db_only_sql _ _ _ _ H) as [(Hc & Hf & Hr & Hi & Hn) _].
  apply sql_inv in H as [(l & -> & E)|(e & l & [=] & _)].
  destruct (existsb _ _) eqn:Ex; [done|]. simpl in *. simplify_eq. split_and!; try done.
  intros j row Hj Hv. assert (existsb (λ kv, String.eqb (t_value kv.2) (Value t)) (map_to_list (tokens (db w))) = true); [|congruence].
  apply existsb_exists. exists (j, row). split; [by apply list_elem_of_In, elem_of_map_to_list|].
  simpl. by apply String.eqb_eq.
Qed.

Lemma tokenLookup_run w i row ts :
  faults w = [] -> tokens (db w) !! i = Some row -> row_scopes (t_scopes row) ts ->
  (∀ j r, tokens (db w) !! j = Some r -> t_value r = t_value row -> j = i) ->
  stmtTokenLookup_run (t_value row) w =
    (Ok (Some (mkToken i (t_created_at row) (t_expires_at row) "" ts "", t_user_id row)), w).
Proof.
  intros Hf Hi Hs Hu. unfold stmtTokenLookup_run.
  rewrite bind_query by done.
  rewrite (find_unique _ _ (i, row)); [by rewrite Hs|by apply elem_of_rows_z|apply String.eqb_refl|].
  intros [j r] Hj%elem_of_rows_z Hv. simpl in Hv. apply String.eqb_eq in Hv.
  pose proof (Hu _ _ Hj Hv) as ->. congruence.
Qed.

(** A token that was handed out opens its account, with the scopes asked for
    restricted to those the account has when it is used, until the second it
    expires, and not after. *)
Theorem GenerateToken_GetByToken u desc expires scopes w t w1 row us now :
  valid scopes -> scopes <> 0 ->
  users (db w) !! id u = Some row -> u_deleted row = false -> row_scopes (u_allowed_scopes row) us ->
  GenerateToken h u desc expires scopes w = (Ok t, w1) ->
  (GetByToken h (Value t) (with_faults [] (with_clock now w1))).1 =
    if expires <? now / 1000 then Ok (None, None)
    else Ok (Some (mkUser (id u) (u_username row) (u_password row) (u_email row) (u_created_at row) false
                     (Z.land scopes us) (Some (u_auth_provider_data row))), None).
Proof.
  intros Hval Hn0 Hrow Hdel Hus H. unfold GenerateToken in H. case_match; [by minv H|].
  unfold time_now_ms, time_now_unix, rand_text in H. minv H. minv H. minv E. minv H.
  injection E as <- <-. minv H. minv E. rename E1 into Eh. minv H. minv H.
  destruct (tokenCreate_inv _ _ _ _ _ E) as (_ & Hi & Hu & Ht & Hfresh). simpl in *.
  minv H. apply audit_inv in E1 as [(_ & Hdb & _) _].
  minv H. simpl. unfold GetByToken. rewrite Eh.
  set (wn := with_faults [] (with_clock now st0)).
  assert (tokens (db wn) !! (tokens_seq (db w) + 1) =
    Some (TokenRow (id u) (clock w / 1000) expires desc (scopes_String scopes) v0)) as Hl.
  { simpl. by rewrite Hdb, Ht, lookup_insert_eq. }
  apply (tokenLookup_run wn _ _ scopes) in Hl; [|done|by apply scopes_roundtrip|].
  2: { intros j r. simpl. rewrite Hdb, Ht. intros Hj Hv.
       destruct (decide (j = tokens_seq (db w) + 1)) as [|Hne]; [done|].
       rewrite lookup_insert_ne in Hj by done. by apply Hfresh in Hj. }
  rewrite (bind_try _ _ _ _ _ Hl). unfold time_now_unix. rewrite (bind_Ok (gets _) _ _ _ _ eq_refl). simpl.
  destruct (expires <? now / 1000); [done|].
  unfold stmtUserGetById_run. rewrite bind_assoc.
  rewrite bind_try_query by done. simpl. rewrite Hdb, Hu, Hrow, Hdel. simpl.
  rewrite Hus. done.
Qed.

(** A request for scopes the account does not have changes nothing. *)
Theorem escalation_refused u desc expires scopes i ip w :
  ~ subset scopes (AllowedScopes u) ->
  (∃ e, GenerateToken h u desc expires scopes w = (Err e, w)) ∧
  (∃ e, UpdateToken h u i desc scopes w = (Err e, w)) ∧
  (∃ e, CreateSession h u ip expires scopes w = (Err e, w)).
Proof.
  intros Hs. assert (Z.land scopes (AllowedScopes u) =? scopes = false) as E by (by apply Z.eqb_neq).
  unfold GenerateToken, UpdateToken, CreateSession. rewrite E. split_and!; eexists; reflexivity.
Qed.

(** With a configured maximum of up to 106751 days (where 64-bit nanoseconds
    do not wrap), no token outlives it. *)
Theorem GenerateToken_lifetime u desc expires scopes w t w1 :
  0 < MaxTokenLifetimeDays (authConfig h) <= 106751 ->
  GenerateToken h u desc expires scopes w = (Ok t, w1) ->
  ExpiresAt t <= clock w / 1000 + MaxTokenLifetimeDays (authConfig h) * 86400.
Proof.
  intros Hd H. unfold GenerateToken in H. case_match; [by minv H|].
  unfold time_now_ms, time_now_unix, rand_text in H. minv H. minv H. minv E.
  assert (expires <= maxExpires (clock w) (MaxTokenLifetimeDays (authConfig h))) as Hexp.
  { unfold check_lifetime in E0. destruct (Z.ltb_spec 0 (MaxTokenLifetimeDays (authConfig h))); [|lia].
    destruct (Z.ltb_spec (maxExpires (clock w) (MaxTokenLifetimeDays (authConfig h))) expires); [done|lia]. }
  minv H. minv H. minv H. minv H. minv H. minv H. simpl.
  etransitivity; [exact Hexp|]. unfold maxExpires.
  rewrite (wrap64_small (_ * 24)) by (unfold in_int64; lia).
  rewrite wrap64_small by (unfold in_int64; lia).
  replace (clock w * 10 ^ 6 + MaxTokenLifetimeDays (authConfig h) * 24 * (3600 * 10 ^ 9))
    with (10 ^ 6 * (clock w + MaxTokenLifetimeDays (authConfig h) * 86400 * 1000)) by lia.
  replace (10 ^ 9) with (10 ^ 6 * 1000) by lia. rewrite Z.div_mul_cancel_l by lia.
  rewrite Z.div_add by lia. lia.
Qed.

Lemma userUpdate_inv u w v w' :
  stmtUserUpdate_run u w = (Ok v, w') ->
  tokens (db w') = tokens (db w) ∧ (∀ j, j <> id u -> users (db w') !! j = users (db w) !! j) ∧
  (∀ row', users (db w') !! id u = Some row' ->
     u_deleted row' = Deleted u ∧ u_allowed_scopes row' = scopes_String (AllowedScopes u)).
Proof.
  unfold stmtUserUpdate_run. intros [(l & -> & E)|(e & l & [=] & _)]%sql_inv. simpl.
  destruct (users (db w) !! id u) as [row|] eqn:Eu; simpl in *.
  2: { split_and!; [done|done|]. intros row'. by rewrite Eu. }
  destruct (sqlite_json _) as [data|]; [|done]. destruct (username_taken _ _ _); [done|].
  simpl in *. split_and!; [done|by intros; rewrite lookup_insert_ne|].
  intros row'. rewrite lookup_insert_eq. by intros [= <-].
Qed.

(** Deleting an account removes its tokens and no others, and no credential
    can be resolved to it any more. *)
Theorem User_Delete_spec u w w' :
  User_Delete h u w = (Ok tt, w') ->
  (∀ i row, tokens (db w') !! i = Some row ↔ tokens (db w) !! i = Some row ∧ t_user_id row <> id u) ∧
  (∀ s, ~ user_grants (db w') (id u) s) ∧
  (∀ j, j <> id u -> users (db w') !! j = users (db w) !! j).
Proof.
  unfold User_Delete, User_Update. intros H. minv H. minv E. destruct res; [|done].
  unfold stmtTokenDeleteAll_run, sql_exec in E. apply sql_inv in E as [(l & -> & _)|(e & l & [=] & _)].
  minv H. apply userUpdate_inv in E as (Ht & Hu & Hd). simpl in *.
  apply audit_inv in H as [(_ & Hdb & _) _].
  rewrite Hdb. split_and!; [|by intros s (row & Hr & Hdel & _); destruct (Hd _ Hr); congruence|done].
  intros i row. rewrite Ht. rewrite map_lookup_filter_Some. done.
Qed.

(** A session of a deleted account resolves to a user that is not nil,
    together with the error that there is no such row. *)
Theorem deleted_user_session sid hashed row ss w :
  faults w = [] -> hashSessionID h sid = Ok hashed -> sessions (db w) !! hashed = Some row ->
  row_scopes (s_scopes row) ss -> clock w / 1000 <= s_expires_at row ->
  (∀ urow, users (db w) !! s_user_id row = Some urow -> u_deleted urow = true) ->
  GetBySession h sid w = (Ok (Some (with_AllowedScopes (Z.land ss 0) zero_user), Some ErrNoRows), w).
Proof.
  intros Hf Hh Hs Hsc Hexp Hdel. unfold GetBySession. rewrite Hh. unfold stmtSessionGet_run.
  erewrite bind_try by (rewrite bind_query by done; rewrite Hs, Hsc; done).
  unfold time_now_unix. rewrite (bind_Ok (gets _) _ _ _ _ eq_refl).
  cbn [ss_ExpiresAt ss_UserID ss_Scopes].
  destruct (Z.ltb_spec (s_expires_at row) (clock w / 1000)); [lia|].
  unfold stmtUserGetById_run. rewrite bind_assoc.
  rewrite bind_try_query by done. simpl.
  destruct (users (db w) !! s_user_id row) as [urow|] eqn:Eu; [|done].
  by rewrite (Hdel _ eq_refl).
Qed.

(** Garbage collection removes what has expired, and nothing else. *)
Theorem RunGc_spec w :
  faults w = [] ->
  ∃ w', Storage_RunGc w = (Ok tt, w') ∧
  (∀ i row, tokens (db w') !! i = Some row ↔ tokens (db w) !! i = Some row ∧ clock w / 1000 <= t_expires_at row) ∧
  (∀ i row, sessions (db w') !! i = Some row ↔ sessions (db w) !! i = Some row ∧ clock w / 1000 <= s_expires_at row) ∧
  (∀ c row, oauth2_device_flow (db w') !! c = Some row ↔
     oauth2_device_flow (db w) !! c = Some row ∧ clock w / 1000 <= o_expires_at row) ∧
  users (db w') = users (db w).
Proof.
  intros Hf. unfold Storage_RunGc, time_now_unix. rewrite (bind_Ok (gets _) _ _ _ _ eq_refl).
  unfold stmtTokenDeleteExpired_run, stmtSessionDeleteExpired_run, stmtOAuth2DeviceAuthDeleteExpired_run.
  erewrite bind_ignore by by apply sql_exec_run. erewrite bind_ignore by by apply sql_exec_run.
  unfold ignore. rewrite sql_exec_run by done. eexists. split; [done|]. simpl.
  split_and!; [intros i row|intros i row|intros i row|done];
    rewrite map_lookup_filter_Some, Z.nlt_ge; done.
Qed.

(** ** The device flow as a state machine *)

Inductive flow_op :=
  | FCreate (expiresAt tokenExpires : Z) (scopes : string)
  | FApprove (u : User) (deviceCode description : string) (scopes : Z)
  | FDeny (u : User) (deviceCode : string)
  | FDelete (deviceCode : string)
  | FExpire (before : Z).
Definition run_flow (op : flow_op) : IO unit :=
  match op with
  | FCreate e t s => CreateDeviceAuth h e t s;; mret tt
  | FApprove u c d s => ApproveAuthorization h u c d s
  | FDeny u c => DenyDeviceAuth h u c
  | FDelete c => DeleteDeviceAuth c
  | FExpire b => DeleteExpiredDeviceAuth b
  end.

(** Authorized and denied exclude each other, and exactly the authorized
    requests have a user. *)
Definition flow_row_ok (row : oauth2_row) : Prop :=
  (o_authorized row && o_denied row = false) ∧ (o_authorized row = true ↔ is_Some (o_user_id row)).
Definition flow_ok (w : world) : Prop := map_Forall (λ _, flow_row_ok) (oauth2_device_flow (db w)).
Definition keeps_flow (w w' : world) : Prop := flow_ok w -> flow_ok w'.
(** A decision, once made, stays until its request is deleted. *)
Definition keeps_decisions (w w' : world) : Prop :=
  ∀ c row, oauth2_device_flow (db w) !! c = Some row -> is_pending row = false ->
    oauth2_device_flow (db w') !! c = Some row.
#[local] Instance keeps_flow_preorder : PreOrder keeps_flow.
Proof. split; unfold keeps_flow; [by intros x|intros x y z; auto]. Qed.
#[local] Instance keeps_decisions_preorder : PreOrder keeps_decisions.
Proof. split; unfold keeps_decisions; [by intros x|intros x y z; eauto]. Qed.

Lemma keeps_sql {A} (R : relation world) (f : database -> result A * database) :
  (∀ w l, R w (with_faults l (with_db (f (db w)).2 w))) -> (∀ w l, R w (with_faults l w)) ->
  keeps R (sql f) any.
Proof.
  intros H1 H2 w r w' E. split; [|by destruct r].
  apply sql_inv in E as [(l & -> & _)|(e & l & _ & ->)]; auto.
Qed.
Lemma keeps_audit (R : relation world) uid ev :
  (∀ w w', fs_only w w' -> R w w') -> keeps R (audit h uid ev) any.
Proof.
  intros HR w r w' E. apply audit_inv in E as [E ->]. auto.
Qed.

(** Every operation of the flow keeps both properties of its table, at any fault. *)
Lemma fs_only_keeps_flow w w' : fs_only w w' -> keeps_flow w w'.
Proof. intros (_ & Hdb & _). unfold keeps_flow, flow_ok. by rewrite Hdb. Qed.
Lemma fs_only_keeps_decisions w w' : fs_only w w' -> keeps_decisions w w'.
Proof. intros (_ & Hdb & _). unfold keeps_decisions. by rewrite Hdb. Qed.
Lemma flow_ok_alter c f w :
  (∀ row, flow_row_ok row -> flow_row_ok (f row)) -> flow_ok w ->
  map_Forall (λ _, flow_row_ok) (alter f c (oauth2_device_flow (db w))).
Proof.
  intros Hf Hw i row. destruct (decide (i = c)) as [->|Hne].
  - rewrite lookup_alter_eq. intros (r & Hr & ->)%fmap_Some. apply Hf. by eapply Hw.
  - rewrite lookup_alter_ne by done. apply Hw.
Qed.
Lemma keeps_flow_run op : keeps keeps_flow (run_flow op) any.
Proof.
  assert (∀ uid ev, keeps keeps_flow (audit h uid ev) any) as Ha
    by (intros; apply keeps_audit, fs_only_keeps_flow).
  destruct op as [e t s|u c d s|u c|c|b]; simpl.
  - unfold CreateDeviceAuth, time_now_ms, rand_text. keeps_auto.
    1, 2: intros w r w' [= <- <-]; (split; [|done]); intros ?; done.
    apply keeps_sql; [|by intros ??; unfold keeps_flow, keeps_decisions]. intros w l Hw. unfold flow_ok. simpl.
    destruct (bool_decide _ || _); [done|]. simpl. apply map_Forall_insert_2; [|done].
    split; [done|]. simpl. by split; [|intros []].
  - unfold ApproveAuthorization. keeps_auto. apply keeps_sql; [|by intros ??; unfold keeps_flow, keeps_decisions]. intros w l Hw.
    apply (flow_ok_alter c _ w); [|exact Hw]. intros row [H1 H2]. unfold is_pending.
    destruct (o_authorized row) eqn:Ea, (o_denied row) eqn:Ed; unfold flow_row_ok; simpl;
      rewrite ?Ea, ?Ed; naive_solver.
  - unfold DenyDeviceAuth. keeps_auto. apply keeps_sql; [|by intros ??; unfold keeps_flow, keeps_decisions]. intros w l Hw.
    apply (flow_ok_alter c _ w); [|exact Hw]. intros row [H1 H2]. unfold is_pending.
    destruct (o_authorized row) eqn:Ea, (o_denied row) eqn:Ed; unfold flow_row_ok; simpl;
      rewrite ?Ea, ?Ed; naive_solver.
  - apply keeps_sql; [|by intros ??; unfold keeps_flow, keeps_decisions]. intros w l Hw. by apply map_Forall_delete.
  - apply keeps_sql; [|by intros ??; unfold keeps_flow, keeps_decisions]. intros w l Hw i row Hr.
    apply map_lookup_filter_Some in Hr as [Hr _]. by eapply Hw.
Qed.
Definition no_removal (op : flow_op) : Prop :=
  match op with FDelete _ | FExpire _ => False | _ => True end.
Lemma keeps_decisions_run op : no_removal op -> keeps keeps_decisions (run_flow op) any.
Proof.
  assert (∀ uid ev, keeps keeps_decisions (audit h uid ev) any) as Ha
    by (intros; apply keeps_audit, fs_only_keeps_decisions).
  assert (∀ f w l c, (∀ row, is_pending row = false -> f row = row) ->
    keeps_decisions w (with_faults l (with_db (with_oauth2 (alter f c (oauth2_device_flow (db w))) (db w)) w))) as Halt.
  { intros f w l c Hf i row Hr Hp. simpl. destruct (decide (i = c)) as [->|].
    - rewrite lookup_alter_eq, Hr. simpl. by rewrite Hf.
    - by rewrite lookup_alter_ne. }
  destruct op as [e t s|u c d s|u c|c|b]; intros Hn; try done; simpl.
  - unfold CreateDeviceAuth, time_now_ms, rand_text. keeps_auto.
    1, 2: intros w r w' [= <- <-]; (split; [|done]); intros ?; done.
    apply keeps_sql; [|by intros ??; unfold keeps_flow, keeps_decisions]. intros w l c row Hr Hp. simpl.
    destruct (bool_decide _ || _) eqn:Eb; [done|]. simpl. apply orb_false_iff in Eb as [Eb _].
    apply bool_decide_eq_false in Eb. rewrite lookup_insert_ne; [done|].
    intros <-. rewrite Hr in Eb. by destruct Eb.
  - unfold ApproveAuthorization. keeps_auto. apply keeps_sql; [|by intros ??; unfold keeps_flow, keeps_decisions]. intros w l.
    apply Halt. intros row ->. done.
  - unfold DenyDeviceAuth. keeps_auto. apply keeps_sql; [|by intros ??; unfold keeps_flow, keeps_decisions]. intros w l.
    apply Halt. intros row ->. done.
Qed.

End Credentials.
