(* ===== verification/Auth.v ===== *)
(** auth: passwords (passwords.go), the CSRF check (csrf.go), sessions and
    providers (provider.go, provider_common.go, transport.go), the provider
    without authentication (noauth.go) and those of OAuth2
    (provider_oauthbase.go, provider_github.go, provider_google.go). *)
From S2P Require Import Prelude GoStrings Bytes GoPath Schema World BaseFs Crypto Encoding FsHandles Http Limiter Scopes Users UserOps.

(** ** Passwords *)

(** golang.org/x/crypto/scrypt: [Key(password, salt, 32768, 8, 1, 32)]. *)
Class Scrypt := { scrypt_Key : string -> string -> result string }.

Section Passwords.
Context `{Scrypt}.

Definition PasswordHash (password : string) : IO string :=
  text ← rand_text;
  let salt := str_take 10 text in
  dk ← wrap "unexpected error hashing password" (lift (scrypt_Key password salt));
  mret ("0" +:+ salt +:+ hex dk).
Definition PasswordVerify (password storedPassword : string) : result bool :=
  if len storedPassword <? 11 then Err (ErrMsg ("invalid stored password length: " +:+ Itoa (len storedPassword)))
  else
    match storedPassword with
    | "" => Err (ErrPanic "index out of range")
    | String version rest =>
        if negb (Ascii.eqb version "0") then Err (ErrMsg "unsupported password hash version") else
        let salt := str_take 10 rest in
        match hex_decode (str_drop 10 rest) with
        | Err err => Err (ErrWrap "unexpected error decoding password hash" err)
        | Ok storedHash =>
            match scrypt_Key password salt with
            | Err err => Err (ErrWrap "unexpected error deriving key from password" err)
            | Ok dk => Ok (String.eqb dk storedHash)
            end
        end
    end.

(** A stored hash verifies exactly the passwords with the derived key. *)
Lemma PasswordHash_inv pw w stored w' :
  PasswordHash pw w = (Ok stored, w') ->
  ∃ dk, scrypt_Key pw (str_take 10 (rnd w (rnd_i w))) = Ok dk ∧
    stored = "0" +:+ str_take 10 (rnd w (rnd_i w)) +:+ hex dk ∧ w' = with_rnd_i (S (rnd_i w)) w.
Proof.
  unfold PasswordHash, rand_text. intros Hr. minv Hr. injection E as <- <-.
  apply bind_wrap_lift_Ok in Hr as (dk & Hk & Hr). minv Hr. eauto.
Qed.
Lemma take_drop_app n a b :
  String.length a = n -> str_take n (a +:+ b) = a ∧ str_drop n (a +:+ b) = b.
Proof.
  revert a. induction n as [|n IH]; intros [|c a]; simpl; try done.
  intros [= Ha]. by destruct (IH a Ha) as [-> ->].
Qed.
Lemma length_take n s : (n <= String.length s)%nat -> String.length (str_take n s) = n.
Proof. revert s. induction n as [|n IH]; intros [|c s]; simpl; try done; [lia|]. intros ?. rewrite IH; lia. Qed.
Lemma PasswordVerify_stored pw salt dk :
  String.length salt = 10%nat ->
  PasswordVerify pw ("0" +:+ salt +:+ hex dk) =
    match scrypt_Key pw salt with
    | Ok dk' => Ok (String.eqb dk' dk)
    | Err err => Err (ErrWrap "unexpected error deriving key from password" err)
    end.
Proof.
  intros Hs. unfold PasswordVerify. destruct (Z.ltb_spec (len ("0" +:+ salt +:+ hex dk)) 11) as [Hl|_].
  { unfold len in Hl. rewrite !str_length_app, Hs in Hl. simpl String.length in Hl. lia. }
  destruct (take_drop_app 10 salt (hex dk) Hs) as [Ht Hd].
  change ("0" +:+ salt +:+ hex dk) with (String "0" (salt +:+ hex dk)). cbn [Ascii.eqb negb Bool.eqb]. rewrite Ht, Hd. by rewrite hex_decode_hex.
Qed.

(** A password is verified by the hash made of it, and whatever else is verified
    by that hash has the same derived key. *)
Theorem PasswordHash_PasswordVerify pw pw' w stored w' :
  10 <= len (rnd w (rnd_i w)) -> PasswordHash pw w = (Ok stored, w') ->
  PasswordVerify pw stored = Ok true ∧
  (PasswordVerify pw' stored = Ok true ->
   scrypt_Key pw' (str_take 10 (rnd w (rnd_i w))) = scrypt_Key pw (str_take 10 (rnd w (rnd_i w)))).
Proof.
  intros Hl (dk & Hk & -> & _)%PasswordHash_inv. assert (String.length (str_take 10 (rnd w (rnd_i w))) = 10%nat) as Hs.
  { apply length_take. unfold len in Hl. lia. }
  rewrite !PasswordVerify_stored by done. rewrite Hk, String.eqb_refl. split; [done|].
  destruct (scrypt_Key pw' _) as [dk'|]; [|done]. intros [= ->%String.eqb_eq]. done.
Qed.
End Passwords.

(** ** Sessions and providers *)

(** The [http.Client] of a session adds its cookie to every request. *)
Record Session := mkSession_ { session_BaseUrl : string; session_User : User; Client : option string }.
Record Provider (P : Type) := {
  GetUser : request -> H P (option User);
  GetSession : request -> H P (option Session);
  DropSession : request -> Session -> H P unit;
  GetRateLimiterMiddleware : handler P -> handler P
}.
Arguments GetUser {P}. Arguments GetSession {P}. Arguments DropSession {P}. Arguments GetRateLimiterMiddleware {P}.

Definition AuthCookieName := "fioserver-session".
Definition AuthLoginPath := "/auth/login".
Definition AuthCallbackPath := "/auth/callback".
(** [c.Cookie(name)]; [http.ErrNoCookie] is its only error. *)
Definition c_Cookie (r : request) (name : string) : option string := rq_cookies r !! name.
Definition base_url (r : request) : string := rq_scheme r +:+ "://" +:+ rq_host r.
Definition AddCookie (name value : string) (r : request) : request :=
  {| rq_method := rq_method r; rq_path := rq_path r; rq_route := rq_route r; rq_ip := rq_ip r; rq_scheme := rq_scheme r;
     rq_host := rq_host r; rq_headers := rq_headers r; rq_cookies := <[name := value]> (rq_cookies r);
     rq_params := rq_params r; rq_query := rq_query r; rq_form := rq_form r; rq_body := rq_body r; rq_csrf := rq_csrf r |}.
Definition set_header (name value : string) (r : request) : request :=
  {| rq_method := rq_method r; rq_path := rq_path r; rq_route := rq_route r; rq_ip := rq_ip r; rq_scheme := rq_scheme r;
     rq_host := rq_host r; rq_headers := <[name := [value]]> (rq_headers r); rq_cookies := rq_cookies r;
     rq_params := rq_params r; rq_query := rq_query r; rq_form := rq_form r; rq_body := rq_body r; rq_csrf := rq_csrf r |}.
Definition set_csrf (v : string) (r : request) : request :=
  {| rq_method := rq_method r; rq_path := rq_path r; rq_route := rq_route r; rq_ip := rq_ip r; rq_scheme := rq_scheme r;
     rq_host := rq_host r; rq_headers := rq_headers r; rq_cookies := rq_cookies r; rq_params := rq_params r;
     rq_query := rq_query r; rq_form := rq_form r; rq_body := rq_body r; rq_csrf := Some v |}.
(** [cookieRoundTripper.RoundTrip]: the request that the client sends. *)
Definition RoundTrip (client : option string) (r : request) : request :=
  match client with Some v => AddCookie AuthCookieName v r | None => r end.

(** ** CSRF *)

Definition CsrfCookieName := "fioserver-csrf".
Definition CsrfHeaderName := "x-csrf-token".

Section Csrf.
Context {P : Type}.

(** [time.Now().Add(d)], as the expiry of a cookie in nanoseconds. *)
Definition SetCsrfCookie (expires : Z) (secure : bool) : H P string :=
  token ← io rand_text;
  put_out (SetCookie CsrfCookieName token expires secure);;
  mret token.
Definition csrf_token (r : request) : string :=
  let headerToken := Header_Get r CsrfHeaderName in
  if String.eqb headerToken "" then c_FormValue r "_csrf" else headerToken.
Definition safe_method (m : http_method) : bool := match m with GET | HEAD | OPTIONS => true | _ => false end.
Definition CsrfCheck (next : handler P) : handler P := λ r,
  if safe_method (rq_method r) then next r else
  if non_empty (Header_Get r "authorization") || non_empty (Header_Get r "osf-token") then next r else
  if String.eqb (rq_route r) "/oauth2/authorization/device/" || String.eqb (rq_route r) "/oauth2/token/" then next r else
  match c_Cookie r CsrfCookieName with
  | None => c_String 403 "Missing CSRF cookie"
  | Some cookie =>
      if String.eqb cookie "" then c_String 403 "Missing CSRF cookie" else
      let headerToken := csrf_token r in
      if String.eqb headerToken "" then c_String 403 "Missing CSRF token" else
      if negb (String.eqb cookie headerToken) then c_String 403 "CSRF token mismatch" else
      next (set_csrf cookie r)
  end.
(** The request [req] that is made while [ctx] is handled. *)
Definition PassCsrfCookie (ctx req : request) : request :=
  match rq_csrf ctx with
  | Some cookie => set_header CsrfHeaderName cookie (AddCookie CsrfCookieName cookie req)
  | None => req
  end.
End Csrf.

(** ** commonProvider *)

Section Common.
Context `{Digest, TimeFormat, SqliteJson, RateLimit} (h : Storage).
Notation HA := (H authRateLimiter).
(** [p.renderer.renderLoginPage] *)
Context (renderLoginPage : request -> string -> HA unit).

Definition common_DropSession (r : request) (session : Session) : HA unit :=
  match c_Cookie r AuthCookieName with
  | None => mret tt
  | Some cookie => ignore (io (DeleteSession h (session_User session) cookie))
  end.
Definition common_GetSession (r : request) : HA (option Session) :=
  match c_Cookie r AuthCookieName with
  | None => renderLoginPage r "";; mret None
  | Some sessionID =>
      if String.eqb sessionID "" then renderLoginPage r "";; mret None else
      '(user, err) ← io (GetBySession h sessionID);
      match user, err with
      | Some user, _ => mret (Some (mkSession_ (base_url r) user (Some sessionID)))
      | None, Some err => renderLoginPage r (Error err);; mret None
      | None, None => renderLoginPage r "";; mret None
      end
  end.
(** The token of an Authorization header. *)
Definition bearer_token (r : request) (authHeader : string) : result string :=
  match SplitN authHeader " " 2 with
  | [scheme; authToken] =>
      if negb (String.eqb (ToLower scheme) "bearer") then Err (ErrMsg "invalid authorization header") else
      if bool_decide (rq_method r = POST) && String.eqb (rq_path r) "/v1/devices" then
        match base64_DecodeString authToken with
        | Err err => Err (ErrWrap "invalid base64 token" err)
        | Ok decoded => Ok decoded
        end
      else Ok authToken
  | _ => Err (ErrMsg "invalid authorization header")
  end.
Definition common_GetUser (r : request) : HA (option User) :=
  let authHeader := Header_Get r "authorization" in
  let authToken := if len authHeader =? 0 then Header_Get r "osf-token" else "" in
  if (len authHeader =? 0) && (len authToken =? 0) then
    session ← common_GetSession r; mret (session_User <$> session)
  else
    err ← rl_allow r;
    match err with
    | Some err => EchoErr 429 err
    | None =>
        authToken ← lift (if 0 <? len authHeader then bearer_token r authHeader else Ok authToken);
        '(user, err) ← io (GetByToken h authToken);
        match err, user with
        | Some _, _ => FlagBadOperation r;; c_String 500 "Could not get user by token";; mret None
        | None, None => FlagBadOperation r;; c_String 401 "Invalid token";; mret None
        | None, Some user => mret (Some user)
        end
    end.
End Common.

(** ** noauthProvider *)

Section Noauth.
Context `{Digest, TimeFormat, SqliteJson} (h : Storage) {P : Type}.

Definition noauth_Configure (cfg : AuthConfig) : result Scopes := ScopesFromSlice (NewUserDefaultScopes cfg).
Definition noauth_GetUser (scopes : Scopes) (r : request) : H P (option User) :=
  '(user, err) ← io (Storage_Get "noauth-fake-user");
  match err with
  | Some err => fail err
  | None =>
      user ← match user with
             | Some user => mret user
             | None =>
                 '(user, err) ← io (Storage_Create h (mkUser 0 "noauth-fake-user" "" "" 0 false scopes None));
                 match err with Some err => fail err | None => mret user end
             end;
      (if String.eqb (default "" (c_Cookie r CsrfCookieName)) "" then
         now ← gets (λ s, clock (sv_world s) * 10 ^ 6);
         SetCsrfCookie (now + 24 * 3600 * 10 ^ 9) false;; mret tt
       else mret tt);;
      mret (Some user)
  end.
Definition noauthProvider (scopes : Scopes) : Provider P := {|
  GetUser := noauth_GetUser scopes;
  GetSession r :=
    user ← noauth_GetUser scopes r;
    mret ((λ u, mkSession_ (base_url r) u None) <$> user);
  DropSession _ _ := mret tt;
  GetRateLimiterMiddleware next := next
|}.
End Noauth.

(** ** oauth2BaseProvider *)

Definition oauthStateCookie := "fioserver-oauthstate".

(** golang.org/x/oauth2, what the provider serves over its client, and the
    claims in an id token; the outside world, the same for every request here. *)
Class OAuth2 := {
  oauth_token : Type;
  AuthCodeURL : string -> string;                           (* state *)
  Exchange : string -> result oauth_token;                  (* code *)
  client_Get : oauth_token -> string -> result (Z * string); (* url; status and body *)
  Extra_id_token : oauth_token -> option string
}.

Section OAuthBase.
Context `{Digest, TimeFormat, SqliteJson, RateLimit, Encoders, OAuth2} (h : Storage).
Notation HA := (H authRateLimiter).

Record oauth2BaseProvider := {
  oa_name : string; oa_displayName : string;
  checkToken : request -> oauth_token -> HA (option User);
  oa_newUserScopes : Scopes; oa_sessionTimeout : Z
}.
(** [time.Duration(hours) * time.Hour] *)
Definition hours (n : Z) : Z := wrap64 (n * (3600 * 10 ^ 9)).

Definition oa_renderLoginPage (r : request) (reason : string) : HA unit :=
  if negb (Contains (Header_Get r "accept") "text/html")
  then c_JSON 401 [("error", "authentication required")]
  else put_out (Render "oauth2-login.html" reason).
Definition generateStateOauthCookie : HA string :=
  now ← now_ns;
  state ← io rand_text;
  put_out (SetCookie oauthStateCookie state (now + 3600 * 10 ^ 9) true);;
  mret state.
Definition oa_handleLogin : handler authRateLimiter := λ r,
  oauthState ← generateStateOauthCookie;
  c_Redirect 307 (AuthCodeURL oauthState).
Definition oa_handleOauthCallback (p : oauth2BaseProvider) : handler authRateLimiter := λ r,
  match c_Cookie r oauthStateCookie with
  | None => c_String 400 "Could not read oauth cookie"
  | Some oauthState =>
      if negb (String.eqb (c_FormValue r "state") oauthState) then c_String 400 "Invalid oauth state" else
      let code := c_QueryParam r "code" in
      if String.eqb code "" then c_String 400 "Missing authorization code" else
      match Exchange code with
      | Err _ => c_String 400 "Could not exchange code for token"
      | Ok token =>
          user ← checkToken p r token;
          match user with
          | None => mret tt
          | Some user =>
              now ← now_ns;
              let expires := now + oa_sessionTimeout p in
              sessionId ← try (io (CreateSession h user (rq_ip r) (expires / 10 ^ 9) (AllowedScopes user)));
              match sessionId with
              | Err _ => c_String 500 "Could not create user session"
              | Ok sessionId =>
                  put_out (SetCookie AuthCookieName sessionId expires true);;
                  SetCsrfCookie expires true;;
                  Header_Set "Location" "/";;
                  Header_Set "Cache-Control" "no-store";;
                  Header_Set "Content-Type" "text/html; charset=utf-8";;
                  put_out (Respond 200 "Redirecting")
              end
          end
      end
  end.
Definition oauth_provider : Provider authRateLimiter := {|
  GetUser := common_GetUser h oa_renderLoginPage;
  GetSession := common_GetSession h oa_renderLoginPage;
  DropSession := common_DropSession h;
  GetRateLimiterMiddleware := rl_Middleware
|}.
(** [configure]: the provider and the limiter that goes with it. *)
Definition oauth_configure (name displayName : string) (ct : Scopes -> request -> oauth_token -> HA (option User))
  (cfg : AuthConfig) (now : Z) : result (oauth2BaseProvider * authRateLimiter) :=
  if negb (String.eqb (AuthType cfg) name)
  then Err (ErrMsg ("invalid config type for " +:+ name +:+ " provider: " +:+ AuthType cfg)) else
  match ScopesFromSlice (NewUserDefaultScopes cfg) with
  | Err err => Err (ErrWrap "unable to parse new user default scopes" err)
  | Ok scopes =>
      Ok ({| oa_name := name; oa_displayName := displayName; checkToken := ct scopes; oa_newUserScopes := scopes;
             oa_sessionTimeout := hours (SessionTimeoutHours cfg) |}, NewRateLimiter (RateLimits cfg) now)
  end.

(** *** GitHub *)

Record ghProfile := { gh_Login : string; gh_Name : string; gh_Email : string }.
Context `{JSON ghProfile, JSON (list string)}.

(** A page of the API, read and decoded; a failure has been answered. *)
Definition gh_fetch {A} `{JSON A} (token : oauth_token) (url what : string) : HA (option A) :=
  match client_Get token url with
  | Err _ => c_String 500 ("Unable to request " +:+ what);; mret None
  | Ok (status, body) =>
      if negb (status =? 200) then c_String status ("Unable to read " +:+ what +:+ ": " +:+ body);; mret None
      else match json_Unmarshal body with
           | Err err => c_String status ("Unable to unmarshall " +:+ what +:+ ": " +:+ Error err);; mret None
           | Ok a => mret (Some a)
           end
  end.
(** The logins of the organizations are what is decoded of them. *)
Definition gh_userFromToken (AllowedOrgs : list string) (newUserScopes : Scopes) (r : request) (token : oauth_token) : HA (option User) :=
  profile ← gh_fetch token "https://api.github.com/user" "user profile";
  match profile with
  | None => mret None
  | Some profile =>
      orgs ← gh_fetch token "https://api.github.com/user/orgs" "user organizations";
      match orgs with
      | None => mret None
      | Some orgs =>
          if negb (existsb (λ org, bool_decide (org ∈ AllowedOrgs)) orgs)
          then c_String 401 "Unauthorized organization";; mret None
          else
            '(user, err) ← io (Storage_Upsert h (gh_Login profile) (gh_Email profile) newUserScopes);
            match err with
            | Some _ => c_String 500 "Unexpected error retrieving user";; mret None
            | None => mret user
            end
      end
  end.

(** *** Google *)

Record googleUser := { gg_Email : string; gg_FirstName : string; gg_LastName : string; HostedDomain : string }.
(** go-jose: [jwt.ParseSigned] and [UnsafeClaimsWithoutVerification]. *)
Context (jwt : Type) (ParseSigned : string -> result jwt) (claims : jwt -> result googleUser).

Definition gg_Username (u : googleUser) : string := List.hd "" (Split (gg_Email u) "@").
Definition gg_userFromToken (AllowedDomains : list string) (newUserScopes : Scopes) (r : request) (token : oauth_token) : HA (option User) :=
  match Extra_id_token token with
  | None => fail (ErrPanic "interface conversion: interface {} is nil, not string")
  | Some idTok =>
      match ParseSigned idTok with
      | Err err => c_String 400 ("Could not parse oauth token: " +:+ Error err);; mret None
      | Ok tok =>
          match claims tok with
          | Err err => c_String 400 ("Could not unmarshall oauth token: " +:+ Error err);; mret None
          | Ok profile =>
              if negb (bool_decide (HostedDomain profile ∈ AllowedDomains))
              then c_String 401 ("Unauthorized domain: " +:+ HostedDomain profile);; mret None
              else
                '(user, err) ← io (Storage_Upsert h (gg_Username profile) (gg_Email profile) newUserScopes);
                match err with
                | Some err => c_String 500 ("Unexpected error retrieving user: " +:+ Error err);; mret None
                | None => mret user
                end
          end
      end
  end.
End OAuthBase.

(** ** Theory *)

Section Credential.
Context `{HD : Digest, HT : TimeFormat, HJ : SqliteJson, HR : RateLimit} (h : Storage).
Context (renderLoginPage : request -> string -> H authRateLimiter unit).
Context (Hrender : ∀ r reason, keeps (on_world same) (renderLoginPage r reason) any).

Lemma with_faults_same l w : same w (with_faults l w).
Proof. done. Qed.
Lemma same_getById i : keeps same (stmtUserGetById_run i) any.
Proof. unfold stmtUserGetById_run. keeps_auto. Qed.
Lemma same_getSession sid : keeps same (stmtSessionGet_run sid) any.
Proof. unfold stmtSessionGet_run. keeps_auto. Qed.
Lemma same_tokenLookup v : keeps same (stmtTokenLookup_run v) any.
Proof. unfold stmtTokenLookup_run. keeps_auto. Qed.
Hint Resolve same_getById same_getSession same_tokenLookup : keeps.
Lemma same_GetBySession sid : keeps same (GetBySession h sid) any.
Proof. unfold GetBySession, time_now_unix. keeps_auto. Qed.
Lemma same_GetByToken token : keeps same (GetByToken h token) any.
Proof. unfold GetByToken, time_now_unix. keeps_auto. Qed.
Hint Resolve same_GetBySession same_GetByToken Hrender : keeps.

Lemma same_GetSession r : keeps (on_world same) (common_GetSession h renderLoginPage r) any.
Proof. unfold common_GetSession. keeps_handler. Qed.
Hint Resolve same_GetSession : keeps.
Lemma same_GetUser r : keeps (on_world same) (common_GetUser h renderLoginPage r) any.
Proof. unfold common_GetUser. keeps_handler. Qed.

(** The cookie of the request opens the session of [u]; a session whose account
    is gone opens the empty user. *)
Definition by_session (r : request) (w : world) (u : User) : Prop :=
  ∃ sid hashed, c_Cookie r AuthCookieName = Some sid ∧ hashSessionID h sid = Ok hashed ∧
    (session_granted (db w) (clock w / 1000) hashed u \/ u = zero_user).
Lemma GetSession_some r s ses s' :
  common_GetSession h renderLoginPage r s = (Ok (Some ses), s') ->
  by_session r (sv_world s) (session_User ses) ∧ same (sv_world s) (sv_world s') ∧ sv_out s' = sv_out s ∧
  sv_front s' = sv_front s ∧ Client ses = c_Cookie r AuthCookieName.
Proof.
  unfold common_GetSession. intros Hr. destruct (c_Cookie r AuthCookieName) as [sid|] eqn:Ec; [|minv Hr; by minv Hr].
  destruct (String.eqb sid ""); [minv Hr; by minv Hr|]. minv Hr. destruct v as [[u|] err].
  2: { destruct err; minv Hr; by minv Hr. }
  minv Hr. apply io_inv in E as (w & E & ->). apply GetBySession_some in E as [(l & ->) (hashed & Hh & Hu)].
  split_and!; try done. exists sid, hashed. split; [done|]. split; [done|]. destruct Hu as [[_ Hu]|[_ Hu]]; auto.
Qed.

(** The token of the request, from the header that counts. *)
Definition presents (r : request) (token : string) : Prop :=
  let authHeader := Header_Get r "authorization" in
  if 0 <? len authHeader then bearer_token r authHeader = Ok token else Header_Get r "osf-token" = token.

(** C5. Whoever a request is answered as: the request presents an API token, or
    failing that the cookie of a session, that was issued, has not expired and
    belongs to an account that is not deleted, with no more scopes than the
    credential and the account have at that moment; or else the user is the empty
    one, without any scope.  Nothing is changed by finding this out, and nothing
    has been answered yet. *)
Theorem GetUser_sound r s u s' :
  common_GetUser h renderLoginPage r s = (Ok (Some u), s') ->
  (by_session r (sv_world s) u ∧ Header_Get r "authorization" = "" ∧ Header_Get r "osf-token" = "" \/
   ∃ token hashed, presents r token ∧ hashToken h token = Ok hashed ∧
     token_granted (db (sv_world s)) (clock (sv_world s) / 1000) hashed u) ∧
  same (sv_world s) (sv_world s') ∧ sv_out s' = sv_out s.
Proof.
  unfold common_GetUser. intros Hr.
  assert (∀ x, len x =? 0 = true -> x = "") as Hlen by (intros [|]; [done|unfold len; simpl; lia]).
  destruct (_ && _) eqn:Eh.
  - minv Hr. minv Hr. destruct v as [ses|]; [|done]. injection E0 as E0. simpl in E0. subst u.
    apply GetSession_some in E as (Hs & Hw & Ho & _). split; [|done]. left. split; [done|].
    apply andb_true_iff in Eh as [E1 E2]. rewrite E1 in E2. split; by apply Hlen.
  - minv Hr. assert (sv_world st = sv_world s ∧ sv_out st = sv_out s) as [Hw Ho].
    { unfold rl_allow, now_ns in E. minv E. destruct (allow _ _ _) as [e0 rl]. by injection E as _ <-. }
    destruct v as [err|]; [unfold EchoErr, EchoError in Hr; by minv Hr|]. minv Hr. minv E0. minv Hr.
    apply io_inv in E0 as (w & E0 & ->). destruct v0 as [u0 err]. destruct err as [err|].
    { repeat minv Hr. }
    destruct u0 as [u0|]; [|by repeat minv Hr]. minv Hr. rewrite Hw in E0.
    apply GetByToken_some in E0 as [(l & ->) (hashed & Hh & Hu)]. destruct Hu as [[_ Hu]|[[? ?] _]]; [|done].
    split; [|by rewrite <-Ho]. right. eexists _, hashed. split; [|done]. unfold presents.
    destruct (Z.ltb_spec 0 (len (Header_Get r "authorization"))); [done|]. injection E1 as <-.
    by destruct (Z.eqb_spec (len (Header_Get r "authorization")) 0); [|unfold len in *; lia].
Qed.
End Credential.

(** ** The CSRF check *)

Section CsrfTheory.
Context {P : Type}.

Definition csrf_exempt (r : request) : bool :=
  safe_method (rq_method r) || non_empty (Header_Get r "authorization") || non_empty (Header_Get r "osf-token") ||
  String.eqb (rq_route r) "/oauth2/authorization/device/" || String.eqb (rq_route r) "/oauth2/token/".
Definition csrf_matches (r : request) : Prop :=
  ∃ cookie, c_Cookie r CsrfCookieName = Some cookie ∧ cookie <> "" ∧ csrf_token r = cookie.

Lemma CsrfCheck_exempt (next : handler P) r : csrf_exempt r = true -> CsrfCheck next r = next r.
Proof.
  unfold csrf_exempt, CsrfCheck. destruct (safe_method _); [done|]. simpl.
  destruct (non_empty (Header_Get r "authorization") || non_empty (Header_Get r "osf-token")); [done|]. simpl.
  by destruct (_ || _).
Qed.
Lemma CsrfCheck_passes (next : handler P) r cookie :
  csrf_exempt r = false -> c_Cookie r CsrfCookieName = Some cookie -> cookie <> "" -> csrf_token r = cookie ->
  CsrfCheck next r = next (set_csrf cookie r).
Proof.
  unfold csrf_exempt, CsrfCheck. rewrite !orb_false_iff. intros [[[[-> ->] ->] ->] ->] -> Hc ->. simpl.
  apply String.eqb_neq in Hc as ->. by rewrite String.eqb_refl.
Qed.
Lemma CsrfCheck_refuses (next : handler P) r :
  csrf_exempt r = false -> ~ csrf_matches r -> ∃ msg, CsrfCheck next r = c_String 403 msg.
Proof.
  unfold csrf_exempt, CsrfCheck, csrf_matches. rewrite !orb_false_iff. intros [[[[-> ->] ->] ->] ->] Hm. simpl.
  destruct (c_Cookie r CsrfCookieName) as [cookie|]; [|by eexists].
  destruct (String.eqb_spec cookie ""); [by eexists|]. destruct (String.eqb_spec (csrf_token r) ""); [by eexists|].
  destruct (String.eqb_spec cookie (csrf_token r)) as [Heq|]; [|by eexists]. destruct Hm. by exists cookie.
Qed.

(** A request that changes something and is authenticated by a cookie gets past
    the check exactly when it repeats the value of the CSRF cookie; otherwise it
    is answered with 403 and nothing happens.  A request that the web interface
    sends on behalf of one that got past, with the cookies it passes on, gets past
    the check of the API. *)
Theorem csrf_check_forwards (next next' : handler P) r client req s :
  csrf_exempt r = false ->
  let web := CsrfCheck next r in
  (∃ cookie, csrf_matches r ∧ web = next (set_csrf cookie r) ∧
     let sent := RoundTrip client (PassCsrfCookie (set_csrf cookie r) req) in
     CsrfCheck next' sent = next' sent \/ CsrfCheck next' sent = next' (set_csrf cookie sent)) \/
  ~ csrf_matches r ∧ ∃ msg, web s = (Ok tt, Server (sv_world s) (sv_front s) (sv_out s ++ [Respond 403 msg])).
Proof.
  intros He web. destruct (decide (c_Cookie r CsrfCookieName = Some (csrf_token r) ∧ csrf_token r <> "")) as [[Hc Hn]|Hno].
  - left. exists (csrf_token r). split; [by exists (csrf_token r)|]. split; [by apply CsrfCheck_passes|]. intros sent.
    destruct (csrf_exempt sent) eqn:Hs; [left; by apply CsrfCheck_exempt|right].
    assert (c_Cookie sent CsrfCookieName = Some (csrf_token r) ∧ csrf_token sent = csrf_token r) as [Hc1 Hc2].
    { subst sent. unfold PassCsrfCookie, RoundTrip, c_Cookie. destruct client; cbn [rq_csrf set_csrf AddCookie set_header rq_cookies].
      - rewrite lookup_insert_ne by done. rewrite lookup_insert_eq. split; [done|].
        unfold csrf_token at 1, Header_Get, first_of. simpl. rewrite lookup_insert_eq. by apply String.eqb_neq in Hn as ->.
      - rewrite lookup_insert_eq. split; [done|].
        unfold csrf_token at 1, Header_Get, first_of. simpl. rewrite lookup_insert_eq. by apply String.eqb_neq in Hn as ->. }
    by apply CsrfCheck_passes.
  - right. assert (~ csrf_matches r) as Hm by (intros (c & Hc & Hcn & Ht); apply Hno; by rewrite Ht).
    split; [done|]. destruct (CsrfCheck_refuses next r He Hm) as [msg Hmsg]. exists msg. subst web. by rewrite Hmsg.
Qed.
End CsrfTheory.

(** ** Whom the OAuth2 providers let in *)

Section Members.
Context `{HD : Digest, HT : TimeFormat, HJ : SqliteJson, HR : RateLimit, HO : OAuth2, HP : JSON ghProfile, HL : JSON (list string)} (h : Storage).

Lemma gh_fetch_inv {A} `{JSON A} token url what s r s' :
  gh_fetch (A:=A) token url what s = (r, s') ->
  sv_world s' = sv_world s ∧
  (r = Ok None \/ ∃ body a, client_Get token url = Ok (200, body) ∧ json_Unmarshal body = Ok a ∧ r = Ok (Some a)).
Proof.
  unfold gh_fetch. intros Hr. destruct (client_Get token url) as [[status body]|]; [|injection Hr as <- <-; auto].
  destruct (Z.eqb_spec status 200) as [->|]; cbn [negb] in Hr; [|injection Hr as <- <-; auto].
  destruct (json_Unmarshal body) as [a|] eqn:Ej; injection Hr as <- <-; eauto 7.
Qed.

(** An account is made or opened through GitHub only for a member of one of the
    configured organizations, as GitHub tells it for the token; it is the account
    with the login that GitHub gives. *)
Theorem gh_members_only orgs scopes r token s res s' :
  gh_userFromToken h orgs scopes r token s = (res, s') ->
  db (sv_world s') <> db (sv_world s) \/ (∃ u, res = Ok (Some u)) ->
  ∃ b1 b2 profile logins org,
    client_Get token "https://api.github.com/user" = Ok (200, b1) ∧ json_Unmarshal b1 = Ok profile ∧
    client_Get token "https://api.github.com/user/orgs" = Ok (200, b2) ∧ json_Unmarshal b2 = Ok logins ∧
    org ∈ logins ∧ org ∈ orgs ∧
    ∃ r0 w, Storage_Upsert h (gh_Login profile) (gh_Email profile) scopes (sv_world s) = (r0, w) ∧ sv_world s' = w.
Proof.
  unfold gh_userFromToken. intros Hr Hu.
  apply bind_inv in Hr as [(op & s1 & E & Hr)|(e & E & ->)]; apply gh_fetch_inv in E as [Hw1 E].
  2: { destruct E as [?|(? & ? & _ & _ & ?)]; done. }
  destruct E as [[= ->]|(b1 & profile & E1 & J1 & [= ->])]; [minv Hr; naive_solver congruence|].
  apply bind_inv in Hr as [(oo & s2 & E & Hr)|(e & E & ->)]; apply gh_fetch_inv in E as [Hw2 E].
  2: { destruct E as [?|(? & ? & _ & _ & ?)]; done. }
  destruct E as [[= ->]|(b2 & logins & E2 & J2 & [= ->])]; [minv Hr; naive_solver congruence|].
  destruct (existsb _ logins) eqn:Ex; cbn [negb] in Hr; [|injection Hr as <- <-; simpl in Hu; naive_solver congruence].
  apply existsb_exists in Ex as (org & Hin & Horg%bool_decide_eq_true).
  exists b1, b2, profile, logins, org. rewrite list_elem_of_In. split_and!; try done.
  apply bind_inv in Hr as [([u err] & s3 & E & Hr)|(e & E & ->)]; apply io_inv in E as (w & E & ->);
    rewrite Hw2, Hw1 in E; eexists _, w; (split; [done|]); [|done].
  destruct err; [injection Hr as <- <-|minv Hr]; done.
Qed.
End Members.
