(* ===== verification/AuthLocal.v ===== *)
(** auth/provider_local.go: the provider that keeps the passwords itself, with
    the theorems on what a login, a password change and an expired password do. *)
From S2P Require Import Prelude GoStrings Bytes GoPath Schema World BaseFs Crypto Encoding FsHandles Http Limiter Scopes Users UserOps Auth.

Record PasswordComplexityRules := {
  RequireUppercase : bool; RequireLowercase : bool; RequireDigit : bool; RequireSpecialChar : string
}.
(** The fields that the provider reads. *)
Record authConfigLocal := {
  MinPasswordLength : Z; PasswordHistory : Z; PasswordAgeDays : Z;
  ComplexityRules : PasswordComplexityRules; DevelopmentCookies : bool
}.
Record localProviderUserData := mkUserData { PasswordTimestamp : Z; ud_PasswordHistory : list string }.
Record localProvider := { local_config : authConfigLocal; newUserScopes : Scopes; sessionTimeout : Z }.
Record createRequest := { cr_Username : string; cr_Password : string; cr_Scopes : list string }.

(** ** Password complexity *)

Record seen := { hasUpper : bool; hasLower : bool; hasDigit : bool; hasSpecial : bool }.
Definition rune_in (lo hi c : Z) : bool := (lo <=? c) && (c <=? hi).
Definition see (rules : PasswordComplexityRules) (c : Z) (f : seen) : seen :=
  {| hasUpper := hasUpper f || rune_in 65 90 c; hasLower := hasLower f || rune_in 97 122 c;
     hasDigit := hasDigit f || rune_in 48 57 c; hasSpecial := hasSpecial f || ContainsRune (RequireSpecialChar rules) c |}.
Definition all_seen (rules : PasswordComplexityRules) (f : seen) : bool :=
  (negb (RequireUppercase rules) || hasUpper f) && (negb (RequireLowercase rules) || hasLower f) &&
  (negb (RequireDigit rules) || hasDigit f) && ((len (RequireSpecialChar rules) =? 0) || hasSpecial f).
Fixpoint see_loop (rules : PasswordComplexityRules) (cs : list Z) (f : seen) : seen :=
  match cs with
  | [] => f
  | c :: cs' => let f' := see rules c f in if all_seen rules f' then f' else see_loop rules cs' f'
  end.
Definition complexity_errors (rules : PasswordComplexityRules) (f : seen) : list string :=
  (if RequireUppercase rules && negb (hasUpper f) then ["at least one uppercase letter"] else []) ++
  (if RequireLowercase rules && negb (hasLower f) then ["at least one lowercase letter"] else []) ++
  (if RequireDigit rules && negb (hasDigit f) then ["at least one digit"] else []) ++
  (if (0 <? len (RequireSpecialChar rules)) && negb (hasSpecial f)
   then ["at least one of the following special characters: " +:+ RequireSpecialChar rules] else []).
Definition complexity_verdict (errors : list string) : result unit :=
  match errors with [] => Ok tt | _ => Err (ErrMsg ("password must contain " +:+ Join errors ", ")) end.
Definition validatePasswordComplexity (rules : PasswordComplexityRules) (password : string) : result unit :=
  complexity_verdict (complexity_errors rules
    (see_loop rules (runes password) {| hasUpper := false; hasLower := false; hasDigit := false; hasSpecial := false |})).

Section Local.
Context `{Digest, TimeFormat, SqliteJson, RateLimit, Encoders, Scrypt} (h : Storage) (p : localProvider).
Context `{JSON authConfigLocal, JSON localProviderUserData, Bind createRequest}.
Notation HA := (H authRateLimiter).
Notation cfg := (local_config p).

(** ** Pages *)

Definition renderLoginPage (r : request) (reason : string) : HA unit :=
  if negb (Contains (Header_Get r "accept") "text/html")
  then c_JSON 401 [("error", "authentication required")]
  else
    now ← now_ns;
    SetCsrfCookie (now + 600 * 10 ^ 9) (negb (DevelopmentCookies cfg));;
    put_out (Render "local-login.html" reason).
Definition handlePasswordPage (session : Session) : HA unit :=
  put_out (Render "local-password-change.html" (Username (session_User session))).

(** ** GetSession, with password ageing *)

(** [localData.PasswordTimestamp == 0 || passwordAge > maxAge] *)
Definition password_expired (now timestamp : Z) : bool :=
  (timestamp =? 0) || (wrap64 (PasswordAgeDays cfg * 24 * 60 * 60) <? wrap64 (now - timestamp)).
Definition password_page (u : User) : string := "/users/" +:+ Username u +:+ "/password".
Definition userData (u : User) : result localProviderUserData := json_Unmarshal (default "" (AuthProviderData u)).
Definition local_GetSession (r : request) : HA (option Session) :=
  session ← common_GetSession h renderLoginPage r;
  match session with
  | None => mret None
  | Some session =>
      let u := session_User session in
      if (0 <? PasswordAgeDays cfg) && negb (String.eqb (rq_path r) (password_page u)) then
        match userData u with
        | Ok localData =>
            now ← io time_now_unix;
            if password_expired now (PasswordTimestamp localData)
            then handlePasswordPage session;; mret None
            else mret (Some session)
        | Err _ => mret (Some session)
        end
      else mret (Some session)
  end.
Definition local_provider : Provider authRateLimiter := {|
  (* the embedded commonProvider calls its own GetSession *)
  GetUser := common_GetUser h renderLoginPage;
  GetSession := local_GetSession;
  DropSession := common_DropSession h;
  GetRateLimiterMiddleware := rl_Middleware
|}.
(** The session of a handler that wants one. *)
Definition require_session (r : request) : HA Session :=
  session ← try (local_GetSession r);
  match session with
  | Err err => EchoErr 500 err
  | Ok None => EchoError 401 "authentication required"
  | Ok (Some session) => mret session
  end.

(** ** Creating users *)

Definition too_short (password : string) : bool :=
  (0 <? MinPasswordLength cfg) && (len password <? MinPasswordLength cfg).
Definition handleUserCreate `{!Bind createRequest} : handler authRateLimiter := λ r,
  session ← require_session r;
  if negb (Has (AllowedScopes (session_User session)) ScopeUsersC)
  then EchoError 403 ("user missing required scope: " +:+ scopes_String ScopeUsersC) else
  match bind_request r with
  | Err _ => EchoError 400 "Could not parse request"
  | Ok req =>
      if String.eqb (cr_Username req) "" || String.eqb (cr_Password req) ""
      then EchoError 400 "Username and password are required" else
      '(existing, err) ← io (Storage_Get (cr_Username req));
      if bool_decide (err = None) && bool_decide (is_Some existing)
      then EchoError 409 ("User " +:+ cr_Username req +:+ " already exists") else
      if too_short (cr_Password req)
      then EchoError 400 ("password must be at least " +:+ Itoa (MinPasswordLength cfg) +:+ " characters") else
      match validatePasswordComplexity (ComplexityRules cfg) (cr_Password req) with
      | Err err => EchoErr 400 err
      | Ok _ =>
          hashed ← or_error (PasswordHash (cr_Password req)) 500 "Unable to hash password";
          match (match cr_Scopes req with [] => Ok (newUserScopes p) | scopes => ScopesFromSlice scopes end) with
          | Err err => EchoError 400 ("Invalid scope: " +:+ Error err)
          | Ok scopes =>
              '(_, err) ← io (Storage_Create h (mkUser 0 (cr_Username req) hashed "" 0 false scopes None));
              match err with
              | Some _ => EchoError 500 "Unable to create user"
              | None => c_String 201 "User created"
              end
          end
      end
  end.

(** ** Login *)

Definition handleLogin : handler authRateLimiter := λ r,
  let username := c_FormValue r "username" in
  let password := c_FormValue r "password" in
  '(user, err) ← io (Storage_Get username);
  match err, user with
  | Some _, _ => EchoError 500 "Unable to look up user"
  | None, None => FlagBadOperation r;; renderLoginPage r "Invalid username or password"
  | None, Some user =>
      match PasswordVerify password (Password user) with
      | Err _ => EchoError 500 "Internal error verifying password"
      | Ok false => FlagBadOperation r;; renderLoginPage r "Invalid username or password"
      | Ok true =>
          now ← now_ns;
          let expires := now + sessionTimeout p in
          sessionId ← or_error (CreateSession h user (rq_ip r) (expires / 10 ^ 9) (AllowedScopes user))
                        500 "Could not create user session";
          put_out (SetCookie AuthCookieName sessionId expires (negb (DevelopmentCookies cfg)));;
          SetCsrfCookie expires (negb (DevelopmentCookies cfg));;
          c_Redirect 303 "/"
      end
  end.

(** ** Changing and resetting passwords *)

Definition with_password (hashed : string) (data : localProviderUserData) (u : User) : User :=
  mkUser (id u) (Username u) hashed (Email u) (CreatedAt u) (Deleted u) (AllowedScopes u) (Some (json_Marshal data)).
(** [for _, oldHash := range localData.PasswordHistory]: the refusal, if any. *)
Fixpoint check_history (password : string) (hist : list string) : option (Z * error) :=
  match hist with
  | [] => None
  | oldHash :: hist' =>
      match PasswordVerify password oldHash with
      | Err err => Some (500, ErrWrap "unable to verify password history" err)
      | Ok true => Some (400, ErrMsg ("new password cannot be the same as any of the last " +:+
                                      Itoa (PasswordHistory cfg) +:+ " passwords"))
      | Ok false => check_history password hist'
      end
  end.
(** [append] and the cut to the most recent N-1; cutting more than there is panics. *)
Definition push_history (current : string) (hist : list string) : result (list string) :=
  let hist := hist ++ [current] in
  let toRemove := Z.of_nat (length hist) - (PasswordHistory cfg - 1) in
  if 0 <? toRemove then
    if Z.of_nat (length hist) <? toRemove then Err (ErrPanic "slice bounds out of range")
    else Ok (drop (Z.to_nat toRemove) hist)
  else Ok hist.
Definition setPassword (u : User) (password : string) : IO (Z * option error) :=
  match userData u with
  | Err err => mret (500, Some (ErrWrap "unable to unmarshal auth provider data" err))
  | Ok localData =>
      if too_short password
      then mret (400, Some (ErrMsg ("new password must be at least " +:+ Itoa (MinPasswordLength cfg) +:+ " characters"))) else
      match validatePasswordComplexity (ComplexityRules cfg) password with
      | Err err => mret (400, Some err)
      | Ok _ =>
          hashed ← try (PasswordHash password);
          match hashed with
          | Err err => mret (500, Some (ErrWrap "unable to hash password" err))
          | Ok hashed =>
              match (if 0 <? PasswordHistory cfg then check_history password (ud_PasswordHistory localData) else None) with
              | Some (rc, err) => mret (rc, Some err)
              | None =>
                  hist ← lift (if 0 <? PasswordHistory cfg then push_history (Password u) (ud_PasswordHistory localData)
                               else Ok (ud_PasswordHistory localData));
                  now ← time_now_unix;
                  r ← try (User_Update h (with_password hashed (mkUserData now hist) u) "Password changed");
                  match r with
                  | Err err => mret (500, Some (ErrWrap "unable to update user" err))
                  | Ok _ => mret (0, None)
                  end
              end
          end
      end
  end.
Definition handlePasswordChange : handler authRateLimiter := λ r,
  session ← require_session r;
  let u := session_User session in
  if negb (String.eqb (Username u) (c_Param r "username")) then EchoError 403 "users can only change their own password" else
  let curPassword := c_FormValue r "currentPassword" in
  let newPassword := c_FormValue r "newPassword" in
  if String.eqb curPassword "" || String.eqb newPassword "" then EchoError 400 "Missing form values" else
  if String.eqb curPassword newPassword then EchoError 400 "New password must be different from current password" else
  match PasswordVerify curPassword (Password u) with
  | Err _ => EchoError 500 "Internal error verifying password"
  | Ok false => FlagBadOperation r;; EchoError 400 "Current password is incorrect"
  | Ok true =>
      '(rc, err) ← io (setPassword u newPassword);
      match err with Some err => EchoErr rc err | None => c_String 200 "" end
  end.
Definition handlePasswordReset : handler authRateLimiter := λ r,
  session ← require_session r;
  if negb (Has (AllowedScopes (session_User session)) ScopeUsersRU)
  then EchoError 403 ("user missing required scope: " +:+ scopes_String ScopeUsersRU) else
  let username := c_Param r "username" in
  '(u, err) ← io (Storage_Get username);
  match err, u with
  | Some _, _ => EchoError 500 "Unable to look up user"
  | None, None => EchoError 404 "User not found"
  | None, Some u =>
      if String.eqb username (Username (session_User session)) then EchoError 400 "users cannot reset their own password" else
      let newPassword := c_FormValue r "newPassword" in
      if String.eqb newPassword "" then EchoError 400 "New password is required" else
      match userData u with
      | Err _ => EchoError 500 "Unable to unmarshal auth provider data"
      | Ok localData =>
          hashed ← or_error (PasswordHash newPassword) 500 "Unable to hash password";
          or_error (User_Update h (with_password hashed (mkUserData 0 (ud_PasswordHistory localData)) u)
                      ("Password reset by " +:+ Username (session_User session)))
            500 "Unable to reset password for user";;
          c_String 200 ""
      end
  end.

(** The routes that [Configure] adds. *)
Definition local_routes : list (http_method * string * handler authRateLimiter) :=
  [(POST, "/auth/login", rl_Middleware handleLogin);
   (POST, "/users", rl_Middleware handleUserCreate);
   (POST, "/users/:username/password", rl_Middleware handlePasswordChange);
   (POST, "/users/:username/reset-password", rl_Middleware handlePasswordReset)].
End Local.
Definition local_Configure `{RateLimit, JSON authConfigLocal} (cfg : AuthConfig) (now : Z) : result (localProvider * authRateLimiter) :=
  match json_Unmarshal (AuthRawConfig cfg) with
  | Err err => Err (ErrWrap "unable to unmarshal local config" err)
  | Ok c =>
      match ScopesFromSlice (NewUserDefaultScopes cfg) with
      | Err err => Err (ErrWrap "unable to parse new user default scopes" err)
      | Ok scopes => Ok ({| local_config := c; newUserScopes := scopes; sessionTimeout := hours (SessionTimeoutHours cfg) |},
                         NewRateLimiter (RateLimits cfg) now)
      end
  end.

(** ** Password complexity: the loop that stops early finds what is missing *)

Definition saw (rules : PasswordComplexityRules) (cs : list Z) (f : seen) : seen :=
  {| hasUpper := hasUpper f || existsb (rune_in 65 90) cs; hasLower := hasLower f || existsb (rune_in 97 122) cs;
     hasDigit := hasDigit f || existsb (rune_in 48 57) cs;
     hasSpecial := hasSpecial f || existsb (ContainsRune (RequireSpecialChar rules)) cs |}.
(** Seen alike as far as the rules ask for it. *)
Definition alike (rules : PasswordComplexityRules) (f g : seen) : Prop :=
  (RequireUppercase rules = true -> hasUpper f = hasUpper g) ∧ (RequireLowercase rules = true -> hasLower f = hasLower g) ∧
  (RequireDigit rules = true -> hasDigit f = hasDigit g) ∧ (0 < len (RequireSpecialChar rules) -> hasSpecial f = hasSpecial g).
Lemma all_seen_alike rules f cs : all_seen rules f = true -> alike rules f (saw rules cs f).
Proof.
  unfold all_seen, alike, saw. rewrite !andb_true_iff, !orb_true_iff, !negb_true_iff. intros [[[Hu Hl] Hd] Hs]. simpl.
  split_and!; intros Hr.
  - by destruct Hu as [Hn| ->]; [congruence|].
  - by destruct Hl as [Hn| ->]; [congruence|].
  - by destruct Hd as [Hn| ->]; [congruence|].
  - destruct Hs as [Hs| ->]; [apply Z.eqb_eq in Hs; lia|done].
Qed.
Lemma see_loop_alike rules cs f : alike rules (see_loop rules cs f) (saw rules cs f).
Proof.
  revert f. induction cs as [|c cs IH]; intros f; simpl.
  - unfold alike, saw. simpl. by rewrite !orb_false_r.
  - assert (saw rules (c :: cs) f = saw rules cs (see rules c f)) as ->.
    { unfold saw, see. simpl. by rewrite !orb_assoc. }
    destruct (all_seen rules (see rules c f)) eqn:E; [by apply all_seen_alike|apply IH].
Qed.
Lemma complexity_errors_alike rules f g : alike rules f g -> complexity_errors rules f = complexity_errors rules g.
Proof.
  intros (Hu & Hl & Hd & Hs). unfold complexity_errors. f_equal; [|f_equal; [|f_equal]].
  - destruct (RequireUppercase rules); [by rewrite Hu|done].
  - destruct (RequireLowercase rules); [by rewrite Hl|done].
  - destruct (RequireDigit rules); [by rewrite Hd|done].
  - destruct (Z.ltb_spec 0 (len (RequireSpecialChar rules))); [by rewrite Hs|done].
Qed.
(** The reference: what is missing, rule by rule, from the whole password. *)
Definition missing (rules : PasswordComplexityRules) (password : string) : list string :=
  let some p := existsb p (runes password) in
  (if RequireUppercase rules && negb (some (rune_in 65 90)) then ["at least one uppercase letter"] else []) ++
  (if RequireLowercase rules && negb (some (rune_in 97 122)) then ["at least one lowercase letter"] else []) ++
  (if RequireDigit rules && negb (some (rune_in 48 57)) then ["at least one digit"] else []) ++
  (if (0 <? len (RequireSpecialChar rules)) && negb (some (ContainsRune (RequireSpecialChar rules)))
   then ["at least one of the following special characters: " +:+ RequireSpecialChar rules] else []).
Lemma validate_missing rules password : validatePasswordComplexity rules password = complexity_verdict (missing rules password).
Proof.
  unfold validatePasswordComplexity. f_equal. etransitivity; [apply complexity_errors_alike, see_loop_alike|].
  unfold complexity_errors, missing, saw. simpl. done.
Qed.

(** The check of a password, which stops reading once all it wants has been seen,
    is the rule-by-rule check of the whole password, message included. *)
Theorem validatePasswordComplexity_equiv rules password :
  validatePasswordComplexity rules password = complexity_verdict (missing rules password) ∧
  (validatePasswordComplexity rules password = Ok tt ↔
   (RequireUppercase rules = true -> ∃ c, c ∈ runes password ∧ 65 <= c <= 90) ∧
   (RequireLowercase rules = true -> ∃ c, c ∈ runes password ∧ 97 <= c <= 122) ∧
   (RequireDigit rules = true -> ∃ c, c ∈ runes password ∧ 48 <= c <= 57) ∧
   (RequireSpecialChar rules <> "" -> ∃ c, c ∈ runes password ∧ c ∈ runes (RequireSpecialChar rules))).
Proof.
  split; [apply validate_missing|]. rewrite validate_missing.
  assert (∀ lo hi, existsb (rune_in lo hi) (runes password) = true ↔ ∃ c, c ∈ runes password ∧ lo <= c <= hi) as Hin.
  { intros lo hi. rewrite existsb_exists. unfold rune_in. split; intros (c & Hc & Hr); exists c;
      rewrite ?list_elem_of_In in *; bool_to_prop; [split; [done|lia]|]. split; [done|]. apply andb_true_iff. lia. }
  assert (existsb (ContainsRune (RequireSpecialChar rules)) (runes password) = true ↔
          ∃ c, c ∈ runes password ∧ c ∈ runes (RequireSpecialChar rules)) as Hsp.
  { rewrite existsb_exists. unfold ContainsRune. split.
    - intros (c & Hc & (d & Hd & Hcd%Z.eqb_eq)%existsb_exists). subst d. exists c. by rewrite !list_elem_of_In.
    - intros (c & Hc & Hd). exists c. rewrite !list_elem_of_In in *. split; [done|]. apply existsb_exists. exists c.
      split; [done|apply Z.eqb_refl]. }
  assert (∀ b b' : bool, (b = true -> b' = true) ↔ b && negb b' = false) as Hb by (intros [] []; naive_solver).
  rewrite <-!Hin, <-Hsp, !Hb.
  assert ((RequireSpecialChar rules <> "" -> existsb (ContainsRune (RequireSpecialChar rules)) (runes password) = true) ↔
          (0 <? len (RequireSpecialChar rules)) && negb (existsb (ContainsRune (RequireSpecialChar rules)) (runes password)) = false) as ->.
  { rewrite <-Hb. destruct (RequireSpecialChar rules); split; intros Hx Hy; first [done|by apply Hx]. }
  unfold missing. do 4 match goal with |- context [if ?x then _ else _] => destruct x end; simpl; naive_solver.
Qed.

(** ** Sessions, logins and password changes *)

Section LocalTheory.
Context `{HD : Digest, HT : TimeFormat, HJ : SqliteJson, HR : RateLimit, HE : Encoders, HS : Scrypt} (h : Storage) (p : localProvider).
Context `{HC : JSON authConfigLocal, HU : JSON localProviderUserData}.
Notation cfg := (local_config p).

Lemma same_renderLoginPage r reason : keeps (on_world same) (renderLoginPage p r reason) any.
Proof. unfold renderLoginPage, now_ns, SetCsrfCookie. keeps_handler. Qed.
Hint Resolve same_renderLoginPage : keeps.
Lemma same_local_GetSession r : keeps (on_world same) (local_GetSession h p r) any.
Proof.
  unfold local_GetSession, handlePasswordPage, time_now_unix. keeps_handler.
  all: try (apply same_GetSession; auto with keeps).
Qed.
Lemma local_GetSession_some r s ses s' :
  local_GetSession h p r s = (Ok (Some ses), s') ->
  by_session h r (sv_world s) (session_User ses) ∧ same (sv_world s) (sv_world s') ∧ sv_out s' = sv_out s.
Proof.
  unfold local_GetSession. intros E. apply bind_inv_Ok in E as ([ses0|] & s1 & E0 & E); [|by minv E].
  apply GetSession_some in E0 as (Hs & Hw & Ho & _).
  assert (ses0 = ses ∧ sv_world s' = sv_world s1 ∧ sv_out s' = sv_out s1) as (-> & -> & ->); [|by rewrite Ho].
  destruct (_ && _); [|by minv E]. destruct (userData _) as [data|]; [|by minv E].
  apply bind_inv_Ok in E as (now & s2 & E0 & E). apply io_inv in E0 as (w & E0 & ->). injection E0 as <- <-.
  destruct (password_expired _ _ _); [minv E; by minv E|]. minv E. by destruct s1.
Qed.
Lemma require_session_inv r s ses s' :
  require_session h p r s = (Ok ses, s') ->
  by_session h r (sv_world s) (session_User ses) ∧ same (sv_world s) (sv_world s') ∧ sv_out s' = sv_out s.
Proof.
  unfold require_session, EchoErr, EchoError. intros Hr. apply bind_try_inv in Hr as (res & s1 & E & Hr).
  destruct res as [[ses1|]|err]; [|by minv Hr|by minv Hr]. minv Hr. by apply local_GetSession_some.
Qed.
Lemma same_require_session r : keeps (on_world same) (require_session h p r) any.
Proof. unfold require_session. keeps_handler. apply same_local_GetSession. Qed.
(** The empty user that a session of a deleted account opens has no password. *)
Lemma PasswordVerify_zero pw : is_Ok (PasswordVerify pw (Password zero_user)) = false.
Proof. done. Qed.

(** A session that verifies a password belongs to a live account. *)
Lemma by_session_account r w u pw :
  by_session h r w u -> PasswordVerify pw (Password u) = Ok true -> account_of (db w) u.
Proof.
  intros (sid & hashed & _ & _ & [(row & ss & us & _ & _ & _ & _ & _ & Ha & _)| ->]); [done|].
  pose proof (PasswordVerify_zero pw) as Hz. intros E. by rewrite E in Hz.
Qed.

Lemma userUpdate_exact u w v w' :
  stmtUserUpdate_run u w = (v, w') ->
  fs w' = fs w ∧ clock w' = clock w ∧
  (db w' = db w \/
   v = Ok tt ∧ ∃ row data, users (db w) !! id u = Some row ∧ sqlite_json (default "{}" (AuthProviderData u)) = Some data ∧
     db w' = with_users (<[id u := UserRow (Username u) (Password u) (Email u) (u_created_at row) (Deleted u)
                             (scopes_String (AllowedScopes u)) data]> (users (db w))) (users_seq (db w)) (db w)).
Proof.
  unfold stmtUserUpdate_run. intros [(l & -> & E)|(e & l & -> & ->)]%sql_inv; [|by auto].
  split; [done|]. split; [done|]. simpl.
  destruct (users (db w) !! id u) as [row|] eqn:Eu; simpl in *; [|by left].
  destruct (sqlite_json _) as [data|]; [|by left]. destruct (username_taken _ _ _); [by left|].
  right. split; [done|]. by exists row, data.
Qed.
Lemma check_history_none password hist :
  check_history p password hist = None -> Forall (λ old, PasswordVerify password old = Ok false) hist.
Proof.
  induction hist as [|old hist IH]; simpl; [by constructor|].
  destruct (PasswordVerify password old) as [[]|] eqn:E; [done| |done]. constructor; auto.
Qed.
Lemma push_history_length current hist hist' :
  0 < PasswordHistory cfg -> push_history p current hist = Ok hist' ->
  hist' `suffix_of` (hist ++ [current]) ∧ Z.of_nat (length hist') <= PasswordHistory cfg - 1.
Proof.
  unfold push_history. intros Hn. destruct (Z.ltb_spec 0 (Z.of_nat (length (hist ++ [current])) - (PasswordHistory cfg - 1))).
  - destruct (Z.ltb_spec (Z.of_nat (length (hist ++ [current]))) (Z.of_nat (length (hist ++ [current])) - (PasswordHistory cfg - 1))); [done|].
    intros [= <-]. split; [|rewrite length_drop; lia].
    exists (take (Z.to_nat (Z.of_nat (length (hist ++ [current])) - (PasswordHistory cfg - 1))) (hist ++ [current])).
    by rewrite take_drop.
  - intros [= <-]. split; [done|lia].
Qed.

(** What a changed password has to satisfy, and what is kept of the old ones. *)
Record password_accepted (u : User) (password : string) (data : localProviderUserData) (hist : list string) : Prop := {
  pa_data : userData u = Ok data;
  pa_length : 0 < MinPasswordLength cfg -> MinPasswordLength cfg <= len password;
  pa_complex : validatePasswordComplexity (ComplexityRules cfg) password = Ok tt;
  pa_new : 0 < PasswordHistory cfg -> Forall (λ old, PasswordVerify password old = Ok false) (ud_PasswordHistory data);
  pa_hist : 0 < PasswordHistory cfg ->
    hist `suffix_of` (ud_PasswordHistory data ++ [Password u]) ∧ Z.of_nat (length hist) <= PasswordHistory cfg - 1
}.
Lemma same_PasswordHash pw : keeps same (PasswordHash pw) any.
Proof. unfold PasswordHash. keeps_auto. Qed.
Lemma setPassword_inv u password w r w' :
  setPassword h p u password w = (r, w') -> db w' <> db w ->
  r = Ok (0, None) ∧
  ∃ data hist hashed w1 w2 row stored,
    password_accepted u password data hist ∧ PasswordHash password w1 = (Ok hashed, w2) ∧
    users (db w) !! id u = Some row ∧ sqlite_json (json_Marshal (mkUserData (clock w / 1000) hist)) = Some stored ∧
    db w' = with_users (<[id u := UserRow (Username u) hashed (Email u) (u_created_at row) (Deleted u)
                             (scopes_String (AllowedScopes u)) stored]> (users (db w))) (users_seq (db w)) (db w).
Proof.
  unfold setPassword. intros Hr Hdb. destruct (userData u) as [data|] eqn:Ed; [|by minv Hr].
  destruct (too_short p password) eqn:Et; [by minv Hr|].
  destruct (validatePasswordComplexity _ _) as [[]|] eqn:Ev; [|by minv Hr]. minv Hr.
  destruct res as [hashed|err]; [|apply same_PasswordHash in E as [(_ & Hd & _) _]; by minv Hr].
  pose proof (same_PasswordHash _ _ _ _ E) as [(_ & Hst & Hck) _].
  destruct (if 0 <? PasswordHistory cfg then check_history p password (ud_PasswordHistory data) else None) as [[rc err]|] eqn:Eh;
    [minv Hr; by rewrite Hst in Hdb|].
  minv Hr; [|minv E0; by rewrite Hst in Hdb]. minv E0. unfold time_now_unix in Hr. minv Hr. minv Hr.
  assert (db w' = db st0 ∧ r = match res with Ok _ => Ok (0, None) | Err err => Ok (500, Some (ErrWrap "unable to update user" err)) end)
    as [Hw' ->] by (destruct res; by minv Hr).
  unfold User_Update in E0. apply bind_inv in E0 as [([] & st1 & Ea & Eb)|(e & Ea & ->)].
  2: { apply userUpdate_exact in Ea as (_ & _ & [Hd|[[=] _]]). by rewrite Hw', Hd, Hst in Hdb. }
  apply audit_inv in Eb as [(_ & Hd2 & _) ->]. apply userUpdate_exact in Ea as (_ & _ & [Hd|(_ & row & stored & Hrow & Hj & Hd)]).
  { by rewrite Hw', Hd2, Hd, Hst in Hdb. }
  split; [done|]. rewrite Hst in Hrow, Hd. rewrite Hck in Hj. exists data, v, hashed, w, st, row, stored.
  split; [|split; [done|]; split; [done|]; split; [done|]; by rewrite Hw', Hd2].
  constructor; try done.
  - intros Hm. unfold too_short in Et. destruct (Z.ltb_spec 0 (MinPasswordLength cfg)); [|lia]. simpl in Et. by bool_to_prop.
  - intros Hn. destruct (Z.ltb_spec 0 (PasswordHistory cfg)); [|lia]. by apply check_history_none.
  - intros Hn. destruct (Z.ltb_spec 0 (PasswordHistory cfg)); [|lia]. by apply push_history_length.
Qed.

End LocalTheory.

(** ** Logging in *)

Section LoginTheory.
Context `{HD : Digest, HT : TimeFormat, HJ : SqliteJson, HR : RateLimit, HE : Encoders, HS : Scrypt} (h : Storage) (p : localProvider).

Lemma same_Get name : keeps same (Storage_Get name) any.
Proof. unfold Storage_Get, stmtUserGetByName_run. keeps_auto. Qed.
Lemma getByName_some name w u w' :
  Storage_Get name w = (Ok (Some u, None), w') ->
  account_of (db w) u ∧ Username u = name ∧ user_grants (db w) (id u) (AllowedScopes u).
Proof.
  unfold Storage_Get, stmtUserGetByName_run. intros Hr. apply bind_inv_Ok in Hr as ([u0 err] & w1 & E & Hr).
  apply bind_try_inv in E as (q & w2 & E & E'). apply ret_inv in E' as [E' ->]. injection E' as E'.
  apply query_inv in E as (l & -> & [->|(e & ->)]).
  2: { injection E' as -> ->. cbn iota beta in Hr. by destruct (errors_Is e ErrNoRows). }
  destruct (List.find _ _) as [[i row]|] eqn:Ef; [|injection E' as -> ->; discriminate Hr].
  apply find_some in Ef as [Hin Hv]. apply list_elem_of_In, elem_of_rows_z in Hin. simpl in Hv.
  apply andb_true_iff in Hv as [Hv%String.eqb_eq Hdel]. apply negb_true_iff in Hdel.
  simpl in E'. destruct (ScopesFromString (u_allowed_scopes row)) as [us|] eqn:Es; injection E' as -> ->; [|cbn iota beta in Hr; by destruct (negb _)].
  injection Hr as <- <-. split; [by exists row|]. split; [done|]. by exists row.
Qed.
Lemma createSession_inv u ip expires scopes w r w' :
  CreateSession h u ip expires scopes w = (r, w') -> db w' <> db w ->
  ∃ sid hashed, r = Ok sid ∧ hashSessionID h sid = Ok hashed ∧ sessions (db w) !! hashed = None ∧
    db w' = with_sessions (<[hashed := SessionRow (id u) ip (clock w / 1000) expires (scopes_String scopes)]> (sessions (db w))) (db w).
Proof.
  unfold CreateSession. intros Hr Hdb. destruct (negb _); [by minv Hr|].
  apply bind_inv in Hr as [(sid & w1 & E & Hr)|(e & [=] & _)]. unfold rand_text in E. injection E as <- <-.
  set (w1 := with_rnd_i (S (rnd_i w)) w) in *. destruct (hashSessionID h (rnd w (rnd_i w))) as [hashed|e] eqn:Eh.
  2: { injection Hr as _ <-. by destruct Hdb. }
  rewrite (bind_Ok (wrap _ (lift (Ok hashed))) _ w1 hashed w1 eq_refl) in Hr. unfold time_now_unix in Hr. minv Hr.
  apply bind_inv in Hr as [([] & w2 & E & Hr)|(e & E & ->)].
  2: { apply map_err_inv in E as (r0 & E & Hr0). destruct r0; [done|].
       unfold stmtSessionCreate_run in E. apply sql_inv in E as [(l & -> & Hq)|(e' & l & _ & ->)]; [|by destruct Hdb].
       simpl in Hq, Hdb. destruct (sessions (db w) !! hashed) as [row|]; [by destruct Hdb|done]. }
  apply wrap_Ok_inv in E. unfold stmtSessionCreate_run in E. apply sql_inv in E as [(l & -> & Hq)|(e' & l & [=] & _)].
  apply bind_inv in Hr as [([] & w3 & E & Hr)|(e & E & _)]; [|by apply audit_inv in E as [_ [=]]].
  apply audit_inv in E as [(_ & Hd & _) _]. minv Hr. exists (rnd w (rnd_i w)), hashed. simpl in *.
  destruct (sessions (db w) !! hashed) as [row|] eqn:Es; simpl in *; [done|]. by rewrite Hd.
Qed.

(** C40. A login opens a session only for the account named in the form, if that is
    not deleted and its password verifies: one session more is there, with the
    scopes of the account and the configured life, and nothing else has changed. *)
Theorem login_sound r s res s' :
  handleLogin h p r s = (res, s') -> db (sv_world s') <> db (sv_world s) ->
  let d := db (sv_world s) in
  ∃ i row us sid hashed,
    users d !! i = Some row ∧ u_username row = c_FormValue r "username" ∧ u_deleted row = false ∧
    PasswordVerify (c_FormValue r "password") (u_password row) = Ok true ∧ row_scopes (u_allowed_scopes row) us ∧
    hashSessionID h sid = Ok hashed ∧ sessions d !! hashed = None ∧
    db (sv_world s') = with_sessions (<[hashed := SessionRow i (rq_ip r) (clock (sv_world s) / 1000)
      ((clock (sv_world s) * 10 ^ 6 + sessionTimeout p) / 10 ^ 9) (scopes_String us)]> (sessions d)) d.
Proof.
  intros Hr Hdb d. unfold handleLogin in Hr. apply bind_inv in Hr as [([u err] & s1 & E & Hr)|(e & E & _)].
  2: { apply io_inv in E as (w & E & ->). apply same_Get in E as [(_ & Hd & _) _]. done. }
  apply io_inv in E as (w & E & ->).
  pose proof (same_Get _ _ _ _ E) as [(_ & Hd & Hc) _].
  assert (keeps (on_world same) (FlagBadOperation r;; renderLoginPage p r "Invalid username or password") any) as Hflag.
  { keeps_handler. apply same_renderLoginPage. }
  assert (∀ e, EchoError (A:=unit) 500 e (with_world w s) = (res, s') -> False) as Hecho.
  { intros e Ee. unfold EchoError in Ee. minv Ee. by apply Hdb. }
  destruct err as [err|]; [by apply Hecho in Hr|]. destruct u as [u|].
  2: { apply Hflag in Hr as [(_ & Hd2 & _) _]. exfalso. apply Hdb. by rewrite Hd2, <-Hd. }
  destruct (PasswordVerify _ _) as [[]|] eqn:Ev; [| |by apply Hecho in Hr].
  2: { apply Hflag in Hr as [(_ & Hd2 & _) _]. exfalso. apply Hdb. by rewrite Hd2, <-Hd. }
  unfold now_ns in Hr. minv Hr. cbn [sv_world with_world] in Hr. apply bind_inv in Hr as [(sid & s2 & E2 & Hr)|(e & E2 & _)].
  2: { apply or_error_inv in E2 as (r0 & w2 & E2 & -> & Hr0). destruct r0 as [|e0]; [done|].
       apply createSession_inv in E2 as (? & ? & [=] & _). cbn [sv_world with_world] in *. by rewrite Hd. }
  apply or_error_inv in E2 as (r0 & w2 & E2 & -> & Hr0). destruct r0 as [sid0|]; [|done]. injection Hr0 as <-.
  assert (db (sv_world s') = db w2) as Hs'.
  { match type of Hr with ?m _ = _ => assert (keeps (on_world same) m any) as Hk by (unfold SetCsrfCookie; keeps_handler) end.
    by apply Hk in Hr as [(_ & Hd2 & _) _]. }
  apply createSession_inv in E2 as (sid1 & hashed & _ & Hh & Hn & Hd2); [|cbn [sv_world with_world]; by rewrite Hd, <-Hs'].
  apply getByName_some in E as ((row & Hrow & Hdel & Hun & Hpw & _) & Hname & (row' & Hrow' & _ & Hus)).
  rewrite Hrow in Hrow'. injection Hrow' as <-. cbn [sv_world with_world] in *. rewrite Hd in Hn, Hd2. rewrite Hc in Hd2.
  exists (id u), row, (AllowedScopes u), sid1, hashed. rewrite <-Hun, <-Hpw. split_and!; try done. by rewrite Hs', Hd2.
Qed.

(** An expired password closes the pages, all but the one to change it: whoever
    asks for the session gets none, and the page to change the password is the
    answer.  It does not close the API: the same request, if it carries no token,
    is answered there as coming from the user. *)
Theorem expired_password `{HC : JSON localProviderUserData} r s ses s1 data :
  common_GetSession h (renderLoginPage p) r s = (Ok (Some ses), s1) ->
  let u := session_User ses in
  0 < PasswordAgeDays (local_config p) -> rq_path r <> password_page u -> userData u = Ok data ->
  password_expired p (clock (sv_world s1) / 1000) (PasswordTimestamp data) = true ->
  Header_Get r "authorization" = "" -> Header_Get r "osf-token" = "" ->
  local_GetSession h p r s =
    (Ok None, Server (sv_world s1) (sv_front s1) (sv_out s1 ++ [Render "local-password-change.html" (Username u)])) ∧
  GetUser (local_provider h p) r s = (Ok (Some u), s1).
Proof.
  intros Hs u Hage Hpath Hdata Hexp Ha Ho. split.
  - unfold local_GetSession. rewrite (bind_Ok _ _ _ _ _ Hs). cbn iota beta.
    destruct (Z.ltb_spec 0 (PasswordAgeDays (local_config p))); [|lia]. apply String.eqb_neq in Hpath. fold u. rewrite Hpath.
    cbn [andb negb]. rewrite Hdata. unfold time_now_unix.
    rewrite (bind_Ok (io _) _ s1 (clock (sv_world s1) / 1000) s1); [by rewrite Hexp|].
    unfold io, gets. by destruct s1.
  - cbn [GetUser local_provider]. unfold common_GetUser. rewrite Ha, Ho.
    change ((common_GetSession h (renderLoginPage p) r ≫= λ session, mret (session_User <$> session)) s = (Ok (Some u), s1)).
    by rewrite (bind_Ok _ _ _ _ _ Hs).
Qed.
End LoginTheory.
