(* ===== verification/UiApi.v ===== *)
(** server/ui/api: the middleware of the operator API (handlers.go,
    middleware.go, context.go) and its handlers on devices
    (handlers_devices.go, handlers_devices_create.go, handlers_devices_fiotest.go). *)
From S2P Require Import Prelude GoStrings Bytes GoPath Schema World BaseFs Crypto Encoding Models Tar Configs Updates FsHandles Tuf TufFs ApiStorage ApiTuf Http Scopes Users UserOps Auth.

(** ** Middleware *)

Section Middleware.
Context {P : Type}.

(** A handler behind [authUser]: the context of the request carries the user. *)
Definition user_handler : Type := User -> handler P.
Definition versionHeader := "x-version".
Definition authUser (version : string) (provider : Provider P) (next : user_handler) : handler P := λ r,
  user ← GetUser provider r;
  match user with
  | None => mret tt
  | Some user => Header_Set versionHeader version;; next user r
  end.
Definition requireScope (scope : Scopes) (next : user_handler) : user_handler := λ user r,
  if negb (Has (AllowedScopes user) scope)
  then c_String 403 ("User missing required scope(s): " +:+ scopes_String scope)
  else next user r.
Definition gzipContentTypeAsContentEncoding (next : user_handler) : user_handler := λ user r,
  next user (if String.eqb (Header_Get r "content-type") "application/gzip" then set_header "content-encoding" "gzip" r else r).
End Middleware.
Arguments user_handler : clear implicits.

(** ** Labels *)

Record LabelsReq := { Upserts : gmap string string; Deletes : list string }.
(** [map[string]*string]; [None] is the nil map. *)
Definition LabelsPutReq : Type := option (gmap string (option string)).
Definition maxLabelName : Z := 20.
Definition maxLabelValue : Z := 60.
(** [^[a-z0-9_\-\.]+$] and [^[a-zA-Z0-9_\-\.]+$] *)
Definition validateLabelName (s : string) : bool :=
  non_empty s && str_all (λ c, is_lower c || is_digit c || one_of "_-." c) s.
Definition validateLabelValue (s : string) : bool := non_empty s && str_all (λ c, is_alnum c || one_of "_-." c) s.
Definition standardLabels : list string := ["name"; "group"].

Definition validate_label (kv : string * option string) : result unit :=
  let '(k, v) := kv in
  if maxLabelName <? len k then Err (ErrMsg ("label " +:+ k +:+ " exceeds maximum label name limit " +:+ Itoa maxLabelName))
  else if (match v with Some v => maxLabelValue <? len v | None => false end)
  then Err (ErrMsg ("label " +:+ k +:+ " exceeds maximum label value limit " +:+ Itoa maxLabelValue))
  else if negb (validateLabelName k) then Err (ErrMsg ("label " +:+ k +:+ " name must match a given regexp"))
  else if (match v with Some v => negb (validateLabelValue v) | None => false end)
  then Err (ErrMsg ("label " +:+ k +:+ " value must match a given regexp"))
  else Ok tt.
Fixpoint validate_list (l : list (string * option string)) : result unit :=
  match l with [] => Ok tt | kv :: l' => _ ← validate_label kv; validate_list l' end.
Definition validateLabels (labels : gmap string (option string)) : result unit := validate_list (map_to_list labels).
Fixpoint add_deletes (deletes : list string) (labels : gmap string (option string)) : result (gmap string (option string)) :=
  match deletes with
  | [] => Ok labels
  | k :: deletes' =>
      match labels !! k with
      | Some _ => Err (ErrMsg ("a label " +:+ k +:+ " cannot be both updated and deleted at once"))
      | None => add_deletes deletes' (<[k := None]> labels)
      end
  end.
Definition parseLabels (req : LabelsReq) : result (gmap string (option string)) :=
  if (Z.of_nat (size (Upserts req)) =? 0) && (Z.of_nat (length (Deletes req)) =? 0)
  then Err (ErrMsg "at least one label change must be requested") else
  labels ← add_deletes (Deletes req) (Some <$> Upserts req);
  _ ← validateLabels labels;
  Ok labels.

(** ** Creating devices *)

Definition SotaToml : Type := gmap string (gmap string string).
Record DeviceCreateRequest := {
  dc_Uuid : string; dc_Name : string; dc_Group : string; dc_HardwareId : string; dc_Csr : string;
  SotaConfigDir : string; Overrides : SotaToml
}.
Record DeviceCreateResponse := { RootCrt : string; ClientPem : string; dr_SotaToml : string }.
(** The certificate that [SignCsr] asks for. *)
Record cert_template := { ct_Serial : string; ct_Subject : string; ct_NotBefore : Z; ct_NotAfter : Z; ct_Usage : string }.
(** crypto/x509: certificate requests, and the signing of a certificate by the
    key of the CA; encoding/pem with the type of the block. *)
Class CsrCodec := {
  csr : Type;
  pem_block : string -> option (string * string);    (* type, bytes *)
  ParseCertificateRequest : string -> result csr;
  CheckSignature : csr -> result unit;
  csr_CommonName : csr -> string;
  CreateCertificate : cert_template -> csr -> result string
}.
Record DeviceCa := { RootCert : string; DgUrl : string }.

Section Create.
Context `{CertCodec, CsrCodec}.

Definition SignCsr (c : csr) : IO string :=
  serial ← rand_Read 16;
  now ← time_now_ms;
  certBytes ← lift (CreateCertificate
    {| ct_Serial := serial; ct_Subject := csr_CommonName c; ct_NotBefore := now; ct_NotAfter := now + 7300 * 24 * 3600 * 1000;
       ct_Usage := "ClientAuth" |} c);
  mret (pem_cert certBytes).
Definition genCert (uuid csr : string) : IO string :=
  match pem_block csr with
  | None => fail (ErrMsg "invalid CSR PEM encoding")
  | Some (type, bytes) =>
      if negb (String.eqb type "CERTIFICATE REQUEST") then fail (ErrMsg ("invalid CSR PEM encoding: " +:+ type)) else
      req ← wrap "invalid CSR" (lift (ParseCertificateRequest bytes));
      wrap "CSR signature verification failed" (lift (CheckSignature req));;
      if negb (String.eqb uuid (csr_CommonName req))
      then fail (ErrMsg ("CSR CommonName must match the requested UUID: " +:+ csr_CommonName req +:+ " != " +:+ uuid))
      else SignCsr req
  end.
End Create.

Definition q (s : string) : string := str1 (byte 34) +:+ s +:+ str1 (byte 34).
Definition nl : string := str1 (byte 10).
Definition default_sota (dir hardwareId urlBase : string) : SotaToml :=
  list_to_map
    [("tls", list_to_map [("server", urlBase); ("ca_source", "file"); ("pkey_source", "file"); ("cert_source", "file")]);
     ("provision", list_to_map [("server", urlBase); ("primary_ecu_hardware_id", hardwareId)]);
     ("uptane", list_to_map [("repo_server", urlBase +:+ "/repo"); ("key_source", "file")]);
     ("pacman", list_to_map [("type", "ostree"); ("compose_apps_proxy", urlBase +:+ "/app-proxy-url");
                             ("ostree_server", urlBase +:+ "/ostree"); ("packages_file", "/usr/package.manifest")]);
     ("storage", list_to_map [("type", "sqlite"); ("path", dir)]);
     ("import", list_to_map [("tls_cacert_path", filepath_Join [dir; "root.crt"]); ("tls_pkey_path", filepath_Join [dir; "pkey.pem"]);
                             ("tls_clientcert_path", filepath_Join [dir; "client.pem"])])].
(** Overrides win key by key. *)
Definition merge_sota (sota overrides : SotaToml) : SotaToml :=
  foldl (λ acc kv, <[kv.1 := kv.2 ∪ default ∅ (acc !! kv.1)]> acc) sota (map_to_list overrides).
Definition sota_line (kv : string * string) : string :=
  let '(k, v) := kv in
  match v with
  | "" => "# " +:+ k +:+ " disabled" +:+ nl
  | String c _ => if Ascii.eqb c (byte 34) then k +:+ " = " +:+ v +:+ nl else k +:+ " = " +:+ q v +:+ nl
  end.
Definition sota_section (s : string * gmap string string) : string :=
  "[" +:+ s.1 +:+ "]" +:+ nl +:+ foldr (λ kv t, sota_line kv +:+ t) "" (map_to_list s.2) +:+ nl.
Definition sota_of (req : DeviceCreateRequest) (urlBase : string) : SotaToml :=
  merge_sota (default_sota (if len (SotaConfigDir req) =? 0 then "/var/sota" else SotaConfigDir req) (dc_HardwareId req) urlBase)
    (Overrides req).
Definition genSotaToml (req : DeviceCreateRequest) (urlBase : string) : string :=
  foldr (λ s t, sota_section s +:+ t) "" (map_to_list (sota_of req urlBase)).

(** ** The handlers *)

(** The state of the API: its storage, the TUF keys, the accounts and the CA. *)
Record handlers := { h_root : string; h_tuf : TufFsHandle; h_users : Storage; h_ca : option DeviceCa }.
Definition AppsStatesResp : Type := list AppsStates.
Definition paging_link (path : string) (opts : DeviceListOpts) (offset : Z) : string :=
  path +:+ "?offset=" +:+ Itoa offset +:+ "&limit=" +:+ Itoa (Limit opts) +:+ "&order-by=" +:+ lo_OrderBy opts.
Definition pagination_links (path : string) (opts : DeviceListOpts) (total : Z) : list (Z * string) :=
  let nextOffset := wrap64 (Offset opts + Limit opts) in
  let lastOffset := if Limit opts <? total then wrap64 (((total - 1) / Limit opts) * Limit opts) else 0 in
  (0, "first") :: (if nextOffset <? total then [(nextOffset, "next")] else []) ++ [(lastOffset, "last")].

Section Devices.
Context `{Digest, JSON DeviceUpdateEvent, JSON AppliedConfigs, JSON AppsStates, JSON Rollout, JSON TargetTest, Encoders, CertCodec, CsrCodec}.
Context `{BindOnto DeviceListOpts, Bind LabelsReq, Bind LabelsPutReq, Bind DeviceCreateRequest}.
Context {P : Type} (h : handlers).
Notation root := (h_root h).
Notation UH := (user_handler P).

Definition setPaginationHeaders (r : request) (opts : DeviceListOpts) (total : Z) : H P unit :=
  if Limit opts <=? 0 then mret tt
  else
    let link l := "<" +:+ paging_link (rq_path r) opts l.1 +:+ ">; rel=" +:+ q l.2 in
    Header_Set "Link" (Join (map link (pagination_links (rq_path r) opts total)) ", ").
Definition deviceList : UH := λ _ r,
  match bind_onto {| lo_OrderBy := "name-asc"; Limit := 1000; Offset := 0 |} r with
  | Err _ => EchoError 400 "Failed to parse list options"
  | Ok opts =>
      l ← or_error (DevicesList opts) 500 "Unexpected error listing devices";
      setPaginationHeaders r opts l.2;;
      c_JSON 200 l.1
  end.
Definition deniedDevicesList : UH := λ _ r,
  uuids ← or_error DeniedDevicesList 500 "Unexpected error listing denied devices";
  c_JSON 200 uuids.
Definition handleDevice (r : request) (next : ApiDevice -> H P unit) : H P unit :=
  device ← or_error (ApiDeviceGet root (c_Param r "uuid")) 500 "Failed to lookup device";
  match device with
  | None => c_NoContent 404
  | Some device => next device
  end.
Notation uuid_of d := (li_Uuid (ad_item d)).
Definition deviceGet : UH := λ _ r, handleDevice r (λ device, c_JSON 200 device).
Definition deviceDelete : UH := λ _ r, handleDevice r (λ device,
  or_error (Device_Delete root (uuid_of device)) 500 "Failed to delete device";;
  c_NoContent 204).
Definition undenyDevice : UH := λ _ r,
  undenied ← or_error (UndenyDevice (c_Param r "uuid")) 500 "Failed to remove device from denied list";
  c_NoContent (if undenied : bool then 204 else 404).
Definition deviceUpdatesList : UH := λ _ r, handleDevice r (λ device,
  updates ← or_error (Device_Updates root (uuid_of device)) 500 "Failed to lookup device updates";
  c_JSON 200 updates).
Definition deviceUpdatesGet : UH := λ _ r, handleDevice r (λ device,
  let updateId := c_Param r "id" in
  if negb (ValidCorrelationId updateId) then c_NoContent 404 else
  events ← or_error (Device_Events root (uuid_of device) updateId) 500 "Failed to lookup device update events";
  match events with [] => c_NoContent 404 | _ => c_JSON 200 events end).
Definition deviceAppsStatesGet : UH := λ _ r, handleDevice r (λ device,
  appsStates ← or_error (Device_AppsStates root (uuid_of device)) 500 "Failed to lookup device updates";
  c_JSON 200 appsStates).
Definition deviceKnownGroupsGet : UH := λ _ r,
  groups ← or_error (GetKnownDeviceGroupNames root) 500 "Failed to lookup known device groups";
  c_JSON 200 groups.
Definition deviceKnownLabelsGet : UH := λ _ r,
  labels ← or_error GetKnownDeviceLabelNames 500 "Failed to lookup known device labels";
  c_JSON 200 (standardLabels ++ List.filter (λ s, negb (bool_decide (s ∈ standardLabels))) labels).

(** The end of the two label handlers. *)
Definition save_labels (labels : gmap string (option string)) (uuid : string) : H P unit :=
  r ← try (io (PatchDeviceLabels labels [uuid]));
  match r with
  | Err err => if errors_Is err ErrDbConstraintUnique
               then EchoError 409 "A device with the same 'name' label value already exists"
               else EchoError 500 "Failed to update device labels"
  | Ok _ => c_NoContent 200
  end.
Definition deviceLabelsPatch : UH := λ _ r, handleDevice r (λ device,
  match bind_request r with
  | Err _ => EchoError 400 "Bad JSON body"
  | Ok labelsReq =>
      match parseLabels labelsReq with
      | Err err => EchoErr 400 err
      | Ok labels => save_labels labels (uuid_of device)
      end
  end).
(** What the device has and the request has not is deleted; that writes to the
    map of the request, which panics when it is nil. *)
Definition add_missing (have : gmap string string) (labels : LabelsPutReq) : result (gmap string (option string)) :=
  match labels with
  | Some l => Ok (l ∪ ((λ _, None) <$> have))
  | None => if bool_decide (have = ∅) then Ok ∅ else Err (ErrPanic "assignment to entry in nil map")
  end.
Definition deviceLabelsPut : UH := λ _ r, handleDevice r (λ device,
  match bind_request r with
  | Err _ => EchoError 400 "Bad JSON body"
  | Ok labels =>
      match validateLabels (default ∅ labels) with
      | Err err => EchoErr 400 err
      | Ok _ =>
          labels ← lift (add_missing (li_Labels (ad_item device)) labels);
          save_labels labels (uuid_of device)
      end
  end).

Definition deviceCreate (ca : DeviceCa) : UH := λ _ r,
  match bind_request r with
  | Err _ => EchoError 400 "Bad JSON body"
  | Ok req =>
      if len (dc_Uuid req) =? 0 then c_JSON 400 "Uuid is required" else
      cert ← try (io (genCert (dc_Uuid req) (dc_Csr req)));
      match cert with
      | Err err => EchoErr 400 err
      | Ok cert =>
          if (0 <? len (dc_Name req)) && negb (validateLabelValue (dc_Name req))
          then EchoError 400 "Invalid name label value" else
          groups ← (if 0 <? len (dc_Group req) then
                      groups ← try (io (GetKnownDeviceGroupNames root));
                      match groups with Err err => EchoErr 500 err | Ok groups => mret groups end
                    else mret []);
          if (0 <? len (dc_Group req)) && negb (bool_decide (dc_Group req ∈ groups)) then EchoError 400 "Invalid group" else
          let labels := (if 0 <? len (dc_Name req) then {["name" := dc_Name req]} else ∅) ∪
                        (if 0 <? len (dc_Group req) then {["group" := dc_Group req]} else ∅) in
          created ← try (io (ApiDeviceCreate (dc_Uuid req) cert labels));
          match created with
          | Err err => if errors_Is err ErrDbConstraintUnique then EchoError 409 "Device already exists"
                       else EchoError 500 "Failed to create device"
          | Ok _ => c_JSON 201 {| RootCrt := RootCert ca; ClientPem := cert; dr_SotaToml := genSotaToml req (DgUrl ca) |}
          end
      end
  end.

(** Test results *)
Definition deviceTestsList : UH := λ _ r, handleDevice r (λ device,
  tests ← or_error (GetTests root (uuid_of device)) 500 "Failed to lookup test";
  c_JSON 200 tests).
Definition deviceTestGet : UH := λ _ r, handleDevice r (λ device,
  let testid := c_Param r "testid" in
  if negb (TestIdRegex testid) then EchoError 404 "Test not found" else
  test ← or_error (GetTest root (uuid_of device) testid) 500 "Failed to lookup test";
  match test with None => EchoError 404 "Test not found" | Some test => c_JSON 200 test end).
Definition deviceTestArtifact : UH := λ _ r, handleDevice r (λ device,
  let testid := c_Param r "testid" in
  if negb (TestIdRegex testid) then EchoError 404 "Test not found" else
  fd ← try (io (GetTestArtifact root (uuid_of device) testid (c_Param r "artifact")));
  match fd with
  | Err err => if errors_Is err ErrNotExist then c_NoContent 404 else EchoError 500 "Failed to lookup artifact"
  | Ok content => put_out (Respond 200 content)
  end).
End Devices.
