(* ===== verification/UiUpdates.v ===== *)
(** server/ui/api: the handlers on updates and rollouts (handlers_updates.go,
    handlers_rollouts.go), configurations (handlers_configs.go), certificates
    (handlers_pki.go) and TUF root metadata (handlers_tuf.go), and the OAuth2
    device flow (handlers_oauth2.go). *)
From S2P Require Import Prelude GoStrings Bytes GoPath Schema World BaseFs Crypto Encoding Models Tar Configs Updates Ostree FsHandles Tuf TufFs ApiStorage ApiTuf ApiUpdate Http Scopes Users UserOps Auth UiApi.

(** ** Names in the routes *)

(** [^[a-zA-Z0-9_\-\.\+]+$] and [^[a-zA-Z0-9_\-\.]+$] *)
Definition validateTag (s : string) : bool := non_empty s && str_all (λ c, is_alnum c || one_of "_-.+" c) s.
Definition validateUpdate (s : string) : bool := non_empty s && str_all (λ c, is_alnum c || one_of "_-." c) s.
Definition validateRollout := validateUpdate.
(** [^(?:targets|snapshot|timestamp|(?:\d+\.)?root)\.json$] *)
Definition validTufFile (s : string) : bool :=
  bool_decide (s ∈ ["targets.json"; "snapshot.json"; "timestamp.json"; "root.json"]) ||
  match cut_suffix s ".root.json" with Some n => non_empty n && str_all is_digit n | None => false end.
Definition validateUpdateParams {P} (next : user_handler P) : user_handler P := λ user r,
  let tag := if len (c_Param r "tag") =? 0 then c_QueryParam r "tag" else c_Param r "tag" in
  let update := c_Param r "update" in
  let rollout := c_Param r "rollout" in
  if (0 <? len tag) && negb (validateTag tag) then EchoError 404 "Tag must match a given regexp"
  else if (0 <? len update) && negb (validateUpdate update) then EchoError 404 "Update name must match a given regexp"
  else if (0 <? len rollout) && negb (validateRollout rollout) then EchoError 404 "Rollout name must match a given regexp"
  else next user r.

(** ** The stream of log events *)

Definition parseLastEventId (r : request) : Z :=
  let val := Header_Get r "last-event-id" in
  if len val =? 0 then 0 else match Atoi val with Some n => n | None => 0 end.
Definition log_event (index : Z) (line : string) : string :=
  "event: log" +:+ nl +:+ "id: " +:+ Itoa index +:+ nl +:+ "data: " +:+ line +:+ nl +:+ nl.
Definition error_event (index : Z) (err : error) : string :=
  "event: error" +:+ nl +:+ "id: " +:+ Itoa index +:+ nl +:+ "retry: 1000" +:+ nl +:+
  (if errors_Is err ErrNotExist then "data: No rollout logs for this update yet."
   else "data: Logs tail was interrupted due to server error.") +:+ nl +:+ nl.
(** What [eventStreamReader] yields, for the lines that the reader yields until
    the client disconnects. *)
Fixpoint event_stream (lastId index : Z) (lines : list (result string)) : list string :=
  match lines with
  | [] => []
  | Err err :: _ => [error_event index err]
  | Ok line :: lines' =>
      let index := index + 1 in
      if index <=? lastId then event_stream lastId index lines' else log_event index line :: event_stream lastId index lines'
  end.
(** Lines about other devices are left out; one that does not parse ends the stream. *)
Fixpoint filterUpdateLogs `{JSON DeviceStatus} (uuids : list string) (lines : list (result string)) : list (result string) :=
  match lines with
  | [] => []
  | Err err :: lines' => Err err :: filterUpdateLogs uuids lines'
  | Ok line :: lines' =>
      match json_Unmarshal line with
      | Err err => Err err :: filterUpdateLogs uuids lines'
      | Ok status =>
          if bool_decide (st_Uuid status ∈ uuids) then Ok line :: filterUpdateLogs uuids lines' else filterUpdateLogs uuids lines'
      end
  end.
(** The keep-alive comments between the events carry nothing. *)
Definition streamUpdateLogs {P} (r : request) (lines : list (result string)) : H P unit :=
  Header_Set "Content-Type" "text/event-stream";;
  Header_Set "Cache-Control" "no-cache";;
  Header_Set "X-Accel-Buffering" "no";;
  forM (event_stream (parseLastEventId r) 0 lines) (λ chunk, put_out (Write chunk)).

(** ** Parameters of an upload *)

Definition app_pair (apps : gmap string string) (pair : string) : gmap string string :=
  match (match Cut pair "=" with Some kv => Some kv | None => Cut pair ":" end) with
  | None => apps
  | Some (name, hash) =>
      if String.eqb (TrimSpace name) "" then apps else <[TrimSpace name := TrimSpace hash]> apps
  end.
Definition parseAppsParam (values : list string) : gmap string string :=
  foldl app_pair ∅ (flat_map (λ v, Split v ",") values).

(** ** Configurations in a request *)

(** What is decoded of the body; [None] is the nil map. *)
Record config_request := { cq_Reason : string; cq_Files : option (gmap string ConfigFile) }.
(** [errors.As] looks for a pointer in the error, where the storage has the value. *)
Definition is_broken_pointer (err : error) : bool := false.

(** ** OAuth2 device flow *)

Record DeviceCodeRequest := { dq_Scopes : string; dq_TokenExpires : Z }.
Record DeviceCodeResponse := {
  dcr_DeviceCode : string; dcr_UserCode : string; VerificationURI : string; VerificationURIComplete : string;
  ExpiresIn : Z; Interval : Z
}.
Record DeviceTokenRequest := { tq_DeviceCode : string; GrantType : string }.
Record DeviceTokenResponse := { AccessToken : string; TokenType : string; tr_Expires : Z; tr_Scopes : string }.
Record oauth2Error := { oe_Error : string; ErrorDescription : string }.

(** The body of an upload as the reader of the tarball sees it, decompressed as
    the content encoding says. *)
Class Payload := { request_tarball : request -> tarball }.

Section UiUpdates.
Context `{Digest, TimeFormat, SqliteJson, JSON DeviceUpdateEvent, JSON AppliedConfigs, JSON AppsStates, JSON Rollout, JSON DeviceStatus}.
Context `{JSON AtsTufTargets, JSON AtsTufMeta, JSON target_custom, JSON json_string, JSON version_custom, JSON generatedTargetCustom, JSON targets_file}.
Context `{Ed25519, Canonical TargetsMeta, Canonical MetaMeta, Canonical AtsTufTargets, Canonical AtsTufMeta, Flate}.
Context `{JSON (gmap string ConfigFile), JSON config_request, Encoders, Payload, QueryParams}.
Context `{Bind Rollout, Bind (list string), Bind DeviceCodeRequest, Bind DeviceTokenRequest}.
Context {json_object : Type} `{JSON json_object}.
Context {P : Type} (depth : nat) (h : handlers).
Notation root := (h_root h).
Notation configs_dir := (FsConfig_ConfigsDir (h_root h)).
Notation UH := (user_handler P).

(** ** Updates *)

Definition updateList : UH := λ _ r,
  updates ← or_error (ListUpdates (c_QueryParam r "tag")) 500 "Failed to look up updates";
  c_JSON 200 updates.
Definition updateSummary_handler : UH := λ _ r,
  summary ← or_error (api_UpdateSummary root (c_Param r "update")) 500 "Failed to get update summary";
  c_JSON 200 summary.
Definition updateQuery : UH := λ _ r,
  devices ← or_error (UpdateStateFor root (c_Param r "update") (c_QueryParam r "status")) 500 "Failed to get update query";
  c_JSON 200 devices.
Definition updateRolloutSummary : UH := λ _ r,
  summary ← or_error (RolloutSummary root (c_Param r "update") (c_Param r "rollout")) 500 "Failed to get rollout report";
  c_JSON 200 summary.
Definition updateRolloutQuery : UH := λ _ r,
  devices ← or_error (RolloutStateFor root (c_Param r "update") (c_Param r "rollout") (c_QueryParam r "status"))
              500 "Failed to get rollout query";
  c_JSON 200 devices.
Definition updateTail : UH := λ _ r,
  lines ← io (TailRolloutsLog root (c_Param r "update"));
  streamUpdateLogs r lines.
Definition upload_options (r : request) (version : Z) : TargetOptions :=
  {| AppVersion := version; HardwareId := c_QueryParam r "hardware-id"; to_Name := c_QueryParam r "name";
     OstreeHash := c_QueryParam r "ostree-hash"; to_Tag := ""; to_Apps := parseAppsParam (default [] (rq_query r !! "apps"));
     BaseUrl := rq_host r |}.
Definition updateCreate : UH := λ user r,
  let tag := c_Param r "tag" in
  let v := c_QueryParam r "version" in
  match (if String.eqb v "" then Some 0 else Atoi v) with
  | None => EchoError 400 "invalid version parameter"
  | Some n =>
      res ← try (io (CreateUpdate root (tuf_create (h_tuf h) depth tag (upload_options r n)) tag (c_Param r "update")
                       (Username user) (request_tarball r)));
      match res with
      | Err err =>
          if errors_Is err ErrInvalidUpdate then EchoErr 400 err
          else if errors_Is err ErrDbConstraintUnique then EchoError 409 "Update with this name and tag already exists"
          else EchoErr 500 err
      | Ok _ => c_NoContent 201
      end
  end.
Definition updateDelete : UH := λ _ r,
  res ← try (io (DeleteUpdate root (c_Param r "update")));
  match res with
  | Err err =>
      if errors_Is err ErrUpdateInUse then EchoError 409 "Update has devices assigned and cannot be deleted"
      else if errors_Is err ErrNotExist then c_NoContent 404
      else EchoError 500 "Failed to delete update"
  | Ok _ => c_NoContent 204
  end.
Definition updateGetTuf : UH := λ _ r,
  metas ← or_error (GetUpdateTufMetadata (json_object:=json_object) root (c_Param r "update")) 500 "failed to get update TUF metadata";
  c_JSON 200 metas.
Definition updateGetTufFile : UH := λ _ r,
  let file := c_Param r "file" in
  if negb (validTufFile file) then EchoError 404 ("unknown TUF metadata file " +:+ file) else
  meta ← or_error (GetUpdateTufMetadataFile (json_object:=json_object) root (c_Param r "update") file)
           500 "failed to get update TUF metadata";
  c_JSON 200 meta.

(** ** Rollouts *)

Definition rolloutList : UH := λ _ r,
  rollouts ← or_error (ListRollouts root (c_Param r "update")) 500 "Failed to look up update rollouts";
  c_JSON 200 rollouts.
Definition lookup_rollout (r : request) : H P Rollout :=
  rollout ← try (io (GetRollout root (c_Param r "update") (c_Param r "rollout")));
  match rollout with
  | Err err => if errors_Is err ErrNotExist then EchoError 404 "Not found rollout"
               else EchoError 500 "Failed to look up update rollout"
  | Ok rollout => mret rollout
  end.
Definition rolloutGet : UH := λ _ r, rollout ← lookup_rollout r; c_JSON 200 rollout.
Definition rolloutPut : UH := λ _ r,
  let updateName := c_Param r "update" in
  let rolloutName := c_Param r "rollout" in
  match bind_request r with
  | Err _ => EchoError 400 "Bad JSON body"
  | Ok rollout =>
      if (Z.of_nat (length (Uuids rollout)) =? 0) && (Z.of_nat (length (Groups rollout)) =? 0)
      then c_String 400 "Either uuids or groups must be set" else
      if 0 <? Z.of_nat (length (Effect rollout)) then c_String 400 "Effective uuids are readonly" else
      update ← or_error (GetUpdate updateName) 500 "Failed to look up update";
      match update with
      | None => c_String 404 "Update with this name does not exist"
      | Some update =>
          existing ← try (io (GetRollout root updateName rolloutName));
          match existing with
          | Ok _ => c_String 409 "Rollout with this name already exists"
          | Err err =>
              if negb (errors_Is err ErrNotExist) then EchoError 500 "Failed to check if rollout exists" else
              now ← io time_now_unix;
              let rollout := {| ro_CreatedAt := now; Uuids := Uuids rollout; Groups := Groups rollout;
                                Effect := Effect rollout; Commit := Commit rollout |} in
              or_error (CreateRollout root (u_Tag update) updateName rolloutName rollout) 500 "Failed to save rollout to disk";;
              put_out (Go (CommitRollout root (u_Tag update) updateName rolloutName rollout));;
              c_NoContent 202
          end
      end
  end.
Definition rolloutTail : UH := λ _ r,
  rollout ← lookup_rollout r;
  if negb (Commit rollout) then streamUpdateLogs r [Err (ErrMsg "Rollout was not yet committed")]
  else
    lines ← io (TailRolloutsLog root (c_Param r "update"));
    streamUpdateLogs r (filterUpdateLogs (Effect rollout) lines).

(** ** Configurations *)

Definition validateConfigSet (r : request) (denySotaOverride : bool) : H P (string * string) :=
  match body ← rq_body r; json_Unmarshal body with
  | Err _ => EchoError 400 "Failed to parse request body"
  | Ok configs =>
      if negb (ValidConfigsReasonRegex (cq_Reason configs)) then EchoError 400 "reason must match pattern" else
      let files := if denySotaOverride then Some (default ∅ (cq_Files configs)) else cq_Files configs in
      if denySotaOverride && bool_decide (is_Some (default ∅ files !! ConfigSotaOverride))
      then EchoError 400 ("a '" +:+ ConfigSotaOverride +:+ "' is not allowed for global configs") else
      mret (cq_Reason configs, match files with Some m => json_Marshal m | None => "null" end)
  end.
Definition validateConfigHistoryParams (r : request) : H P (Z * bool) :=
  let showFiles := query_bool_or r "show-files" false in
  match query_int_or r "limit" 0 with
  | Err err => EchoErr 400 (ErrWrap "invalid limit parameter" err)
  | Ok limit =>
      let limit := if limit <? 1 then ConfigHistoryLimit else limit in
      if ConfigHistoryLimit <? limit
      then EchoError 400 ("invalid limit parameter: " +:+ Itoa limit +:+ " exceeds the maximum allowed limit " +:+ Itoa ConfigHistoryLimit)
      else match showFiles with
           | Err err => EchoErr 400 (ErrWrap "invalid show-files parameter" err)
           | Ok showFiles => mret (limit, showFiles)
           end
  end.
(** The latest entry, or the answer when there is none. *)
Definition answer_latest (history : list ConfigFileSet) (otherwise : H P unit) : H P unit :=
  match history with cfg :: _ => c_JSON 200 cfg | [] => otherwise end.
(** A new entry, unless it is what the latest one holds. *)
Definition save_config (history : list ConfigFileSet) (content : string) (save : IO unit) (msg : string) : H P unit :=
  if (match history with cfg :: _ => String.eqb content (RawFiles cfg) | [] => false end) then c_NoContent 204
  else or_error save 500 msg;; c_NoContent 204.

Definition factory_read := "Failed to read factory config history".
Definition factoryConfigsGet : UH := λ _ r,
  history ← or_error (ReadFactoryConfigHistory configs_dir 1 true) 500 factory_read;
  answer_latest history (c_NoContent 204).
Definition factoryConfigsHistory : UH := λ _ r,
  p ← validateConfigHistoryParams r;
  history ← or_error (ReadFactoryConfigHistory configs_dir p.1 p.2) 500 factory_read;
  c_JSON 200 history.
Definition factoryConfigsPut : UH := λ user r,
  c ← validateConfigSet r true;
  history ← or_error (ReadFactoryConfigHistory configs_dir 1 true) 500 factory_read;
  save_config history c.2 (SaveFactoryConfig root c.2 (Username user) c.1) "Failed to save factory config history".
Definition group_read := "Failed to read group config history".
(** No configuration of the group: is there such a group at all? *)
Definition known_group (group : string) (yes : H P unit) : H P unit :=
  knownGroups ← or_error (GetKnownDeviceGroupNames root) 500 "Failed to get known group names";
  if bool_decide (group ∈ knownGroups) then yes else c_NoContent 404.
Definition groupConfigsGet : UH := λ _ r,
  let group := c_Param r "name" in
  history ← or_error (ReadGroupConfigHistory configs_dir group 1 true) 500 group_read;
  answer_latest history (known_group group (c_NoContent 204)).
Definition groupConfigsHistory : UH := λ _ r,
  let group := c_Param r "name" in
  p ← validateConfigHistoryParams r;
  history ← or_error (ReadGroupConfigHistory configs_dir group p.1 p.2) 500 group_read;
  match history with [] => known_group group (c_JSON 200 (@nil ConfigFileSet)) | _ => c_JSON 200 history end.
Definition groupConfigsPut : UH := λ user r,
  let group := c_Param r "name" in
  if negb (validateLabelValue group) then EchoError 400 "group value must match a given regexp" else
  c ← validateConfigSet r false;
  history ← or_error (ReadGroupConfigHistory configs_dir group 1 true) 500 group_read;
  save_config history c.2 (SaveGroupConfig root group c.2 (Username user) c.1) "Failed to save group config history".
Notation uuid_of d := (li_Uuid (ad_item d)).
Definition device_read := "Failed to read device config history".
Definition deviceConfigsGet : UH := λ _ r, handleDevice h r (λ device,
  history ← or_error (ReadDeviceConfigHistory configs_dir (uuid_of device) 1 true) 500 device_read;
  answer_latest history (c_NoContent 204)).
Definition deviceAppliedConfigsGet : UH := λ _ r, handleDevice h r (λ device,
  envelope ← or_error (ReadAppliedConfigs root (uuid_of device)) 500 "Failed to read applied config";
  match envelope with None => c_NoContent 204 | Some envelope => c_JSON 200 envelope end).
Definition deviceConfigsHistory : UH := λ _ r, handleDevice h r (λ device,
  p ← validateConfigHistoryParams r;
  history ← or_error (ReadDeviceConfigHistory configs_dir (uuid_of device) p.1 p.2) 500 device_read;
  c_JSON 200 history).
Definition deviceConfigsPut : UH := λ user r, handleDevice h r (λ device,
  c ← validateConfigSet r false;
  history ← or_error (ReadDeviceConfigHistory configs_dir (uuid_of device) 1 true) 500 device_read;
  save_config history c.2 (ApiSaveDeviceConfig root (uuid_of device) c.2 (Username user) c.1) "Failed to save device config history").
Definition configsUpload : UH := λ _ r,
  res ← try (io (UploadConfigs root (request_tarball r)));
  match res with
  | Ok _ => c_String 200 "Configs uploaded successfully"
  | Err err => if is_broken_pointer err then c_String 503 "Configs upload broke the configs directory."
               else EchoError 500 "Configs upload failed"
  end.

(** ** Certificates and TUF root metadata *)

(** Each certificate asked for by name. *)
Fixpoint read_certs (names : list string) (resp : gmap string string) : H P (gmap string string) :=
  match names with
  | [] => mret resp
  | name :: names' =>
      buf ← or_error (ReadCert root name) 500 ("Failed to read certificate: " +:+ name);
      read_certs names' (<[name := buf]> resp)
  end.
Definition pkiCert : UH := λ _ r,
  match bind_request r with
  | Err _ => EchoError 400 "Failed to parse query options"
  | Ok names =>
      match names with
      | [] => EchoError 400 "no certificate names specified"
      | _ => resp ← read_certs names ∅; c_JSON 200 resp
      end
  end.
Definition marshallTufRoot (version : Z) : H P unit :=
  data ← try (io (GetTufRoot (h_tuf h) version));
  match data with
  | Err err => if errors_Is err ErrNotExist then EchoError 404 "root metadata not found"
               else EchoError 500 "failed to read root metadata"
  | Ok data => put_out (Respond 200 data)
  end.
Definition tufRootLatest : UH := λ _ r, marshallTufRoot 0.
Definition tufRootVersion : UH := λ _ r,
  match cut_suffix (c_Param r "version") rootJsonSuffix with
  | None => EchoError 404 "not found"
  | Some digits =>
      match Atoi digits with
      | Some version => if version <? 1 then EchoError 404 "invalid root metadata version" else marshallTufRoot version
      | None => EchoError 404 "invalid root metadata version"
      end
  end.

(** ** The OAuth2 device flow, without a user *)

Definition oauth2_fail (error description : string) : H P unit :=
  c_JSON 400 {| oe_Error := error; ErrorDescription := description |}.
(** lmp-device-register sends [prefix:resource:level]. *)
Definition lmp_scopes (scopes : string) : string :=
  match Split scopes ":" with [_; resource; level] => resource +:+ ":" +:+ level | _ => scopes end.
Definition oauth2DeviceCode : handler P := λ r,
  match bind_request r with
  | Err _ => oauth2_fail "invalid_request" "Invalid request body"
  | Ok req =>
      now ← io time_now_unix;
      let one := Z.of_nat (length (Split (dq_Scopes req) ",")) =? 1 in
      let scopes := if one then lmp_scopes (dq_Scopes req) else dq_Scopes req in
      let tokenExpires := if one && (dq_TokenExpires req =? 0) then now + 300 else dq_TokenExpires req in
      codes ← try (io (CreateDeviceAuth (h_users h) (now + 600) tokenExpires scopes));
      match codes with
      | Err err => EchoErr 400 err
      | Ok (deviceCode, userCode) =>
          let uri := base_url r +:+ "/auth/activate" in
          c_JSON 200 {| dcr_DeviceCode := deviceCode; dcr_UserCode := userCode; VerificationURI := uri;
                        VerificationURIComplete := uri +:+ "?user_code=" +:+ userCode; ExpiresIn := 600; Interval := 5 |}
      end
  end.
(** The authorization is there, has not expired and was granted by a user. *)
Definition check_device_auth (auth : OAuth2DeviceAuth) (now : Z) : result Z :=
  if da_ExpiresAt auth <? now then Err (ErrMsg "invalid_grant")
  else if Denied auth then Err (ErrMsg "access_denied")
  else if negb (Authorized auth) then Err (ErrMsg "authorization_pending")
  else match UserID auth with None => Err (ErrMsg "invalid_grant") | Some i => Ok i end.
Definition oauth2DeviceToken : handler P := λ r,
  match bind_request r with
  | Err _ => oauth2_fail "invalid_request" "Invalid request body"
  | Ok req =>
      if negb (String.eqb (GrantType req) "urn:ietf:params:oauth:grant-type:device_code")
      then oauth2_fail "unsupported_grant_type" "Only device_code grant type is supported" else
      if String.eqb (tq_DeviceCode req) "" then oauth2_fail "invalid_request" "device_code is required" else
      auth ← or_error (GetDeviceAuthByDeviceCode (tq_DeviceCode req)) 500 "Failed to get authorization";
      match auth with
      | None => oauth2_fail "invalid_grant" "Invalid device code"
      | Some auth =>
          now ← io time_now_unix;
          match check_device_auth auth now with
          | Err err => oauth2_fail (Error err) ""
          | Ok userID =>
              '(user, err) ← io (Storage_GetByID userID);
              match err, user with
              | Some _, _ => EchoError 500 "Failed to get user for authorization"
              | None, None => oauth2_fail "invalid_grant" "User for authorization not found"
              | None, Some user =>
                  match ScopesFromString (da_Scopes auth) with
                  | Err _ => EchoError 500 "Failed to parse scopes"
                  | Ok scopes =>
                      let description := if len (TokenDescription auth) =? 0 then "OAuth2 authorization" else TokenDescription auth in
                      let scopes := Z.land (AllowedScopes user) scopes in
                      or_error (DeleteDeviceAuth (DeviceCode auth)) 500 "Failed to consume device authorization";;
                      token ← or_error (GenerateToken (h_users h) user description (TokenExpires auth) scopes)
                                500 "Failed to generate token";
                      c_JSON 200 {| AccessToken := Value token; TokenType := "Bearer"; tr_Expires := TokenExpires auth;
                                    tr_Scopes := scopes_String scopes |}
                  end
              end
          end
      end
  end.
End UiUpdates.
