(* ===== verification/ReadOnly.v ===== *)
(** Which operations of the storage only read: they leave files, tables and
    time as they were ([same]), whatever fails. *)
From S2P Require Import Prelude GoStrings Bytes GoPath Schema World BaseFs Crypto Models Tar Configs Updates Ostree FsHandles Tuf TufFs ApiStorage ApiTuf ApiUpdate Http.

Lemma same_syscall {A} (op : IO A) : keeps same op any -> keeps same (syscall op) any.
Proof.
  intros Hop w r w' Hr. apply syscall_inv in Hr as [[l Hr]|(e & l & -> & ->)]; [|done].
  by apply Hop in Hr.
Qed.
(** A computation that inspects the world and answers. *)
Lemma same_look {A} (f : world -> result A) : keeps same (λ w, (f w, w)) any.
Proof. intros w r w' [= <- <-]. by destruct (f w). Qed.
Ltac same_look := apply same_syscall; intros w r w' Hr;
  repeat case_match; injection Hr as ? ?; subst; done.
Lemma same_ReadFile p : keeps same (os_ReadFile p) any. Proof. same_look. Qed.
Lemma same_ReadDir p : keeps same (os_ReadDir p) any. Proof. same_look. Qed.
Lemma same_Stat p : keeps same (os_Stat p) any. Proof. same_look. Qed.
#[export] Hint Resolve same_ReadFile same_ReadDir same_Stat : keeps.

Ltac reads := repeat first [solve [eauto with keeps] | keeps_step].

Lemma same_readFile root name b : keeps same (readFile root name b) any.
Proof. unfold readFile. reads. Qed.
Lemma same_readFileLines root name b : keeps same (readFileLines root name b) any.
Proof. unfold readFileLines. reads. Qed.
Lemma same_matchFiles root prefix b : keeps same (matchFiles root prefix b) any.
Proof. unfold matchFiles. reads. Qed.
#[export] Hint Resolve same_readFile same_readFileLines same_matchFiles : keeps.

(** ** Files of devices, updates, configurations, certificates *)
Lemma same_Devices_ReadFile root u n : keeps same (Devices_ReadFile root u n) any.
Proof. unfold Devices_ReadFile, dev_localHandle. reads. Qed.
Lemma same_Devices_ReadFileStream root u n : keeps same (Devices_ReadFileStream root u n) any.
Proof. unfold Devices_ReadFileStream, dev_localHandle. reads. Qed.
Lemma same_Devices_ListFiles root u p b : keeps same (Devices_ListFiles root u p b) any.
Proof. unfold Devices_ListFiles, dev_localHandle. reads. Qed.
Lemma same_Updates_ReadFile root c u n : keeps same (Updates_ReadFile root c u n) any.
Proof. unfold Updates_ReadFile, upd_localHandle. reads. Qed.
Lemma same_LatestRoot root c u : keeps same (LatestRootMetaName root c u) any.
Proof. unfold LatestRootMetaName, upd_localHandle. reads. Qed.
Lemma same_TailFileLines root c u n : keeps same (TailFileLines root c u n) any.
Proof. unfold TailFileLines, upd_localHandle. reads. Qed.
Lemma same_Rollouts_ListFiles root u : keeps same (Rollouts_ListFiles root u) any.
Proof. unfold Rollouts_ListFiles, upd_localHandle. reads. Qed.
Lemma same_Certs_ReadFile root n : keeps same (Certs_ReadFile root n) any.
Proof. unfold Certs_ReadFile. reads. Qed.
Lemma same_readHistory root n b : keeps same (readHistory root n b) any.
Proof. unfold readHistory, readJournal, readConfigFiles. reads. Qed.
Lemma same_ReadGroupNames root : keeps same (ReadGroupNames root) any.
Proof. unfold ReadGroupNames. reads. Qed.
#[export] Hint Resolve same_Devices_ReadFile same_Devices_ReadFileStream same_Devices_ListFiles same_Updates_ReadFile
  same_LatestRoot same_TailFileLines same_Rollouts_ListFiles same_Certs_ReadFile same_readHistory same_ReadGroupNames : keeps.
Lemma same_ReadFactoryConfigHistory root n b : keeps same (ReadFactoryConfigHistory root n b) any.
Proof. unfold ReadFactoryConfigHistory, factoryLocalHandle. reads. Qed.
Lemma same_ReadGroupConfigHistory root g n b : keeps same (ReadGroupConfigHistory root g n b) any.
Proof. unfold ReadGroupConfigHistory, groupLocalHandle. reads. Qed.
Lemma same_ReadDeviceConfigHistory root u n b : keeps same (ReadDeviceConfigHistory root u n b) any.
Proof. unfold ReadDeviceConfigHistory, configs_deviceLocalHandle. reads. Qed.
#[export] Hint Resolve same_ReadFactoryConfigHistory same_ReadGroupConfigHistory same_ReadDeviceConfigHistory : keeps.

(** ** Reports of the API storage *)
Section ApiReads.
Context `{HD : Digest, J1 : JSON DeviceUpdateEvent, J2 : JSON AppliedConfigs, J3 : JSON AppsStates, J4 : JSON Rollout, J5 : JSON DeviceStatus, J6 : JSON TargetTest}.
Context `{K1 : JSON AtsTufTargets, K3 : JSON target_custom, K4 : JSON json_string}.
Context {json_object : Type} `{L3 : JSON json_object} (root : string).

Lemma same_ApiDeviceGet u : keeps same (ApiDeviceGet root u) any.
Proof. unfold ApiDeviceGet, apiDeviceGet_run. reads. Qed.
Lemma same_Device_Updates u : keeps same (Device_Updates root u) any.
Proof. unfold Device_Updates. reads. Qed.
Lemma same_Device_Events u i : keeps same (Device_Events root u i) any.
Proof. unfold Device_Events. reads. Qed.
Lemma same_Device_AppsStates u : keeps same (Device_AppsStates root u) any.
Proof. unfold Device_AppsStates. reads. Qed.
Lemma same_DevicesList o : keeps same (DevicesList o) any.
Proof. unfold DevicesList, stmtDeviceCount_run, stmtDeviceList_run. reads. Qed.
Lemma same_DeniedDevicesList : keeps same DeniedDevicesList any.
Proof. unfold DeniedDevicesList, stmtDeniedDeviceList_run. reads. Qed.
Lemma same_ReadAppliedConfigs u : keeps same (ReadAppliedConfigs root u) any.
Proof. unfold ReadAppliedConfigs. reads. Qed.
Lemma same_GroupNames : keeps same (GetKnownDeviceGroupNames root) any.
Proof. unfold GetKnownDeviceGroupNames, stmtDeviceGetGroups_run. reads. Qed.
Lemma same_LabelNames : keeps same GetKnownDeviceLabelNames any.
Proof. unfold GetKnownDeviceLabelNames, stmtDeviceGetLabels_run. reads. Qed.
Lemma same_ListUpdates t : keeps same (ListUpdates t) any.
Proof. unfold ListUpdates, stmtUpdateList_run. reads. Qed.
Lemma same_GetUpdate n : keeps same (GetUpdate n) any.
Proof. unfold GetUpdate, stmtUpdateGet_run. reads. Qed.
Lemma same_TufMetadataFile u f : keeps same (GetUpdateTufMetadataFile (json_object:=json_object) root u f) any.
Proof. unfold GetUpdateTufMetadataFile. reads. Qed.
Lemma same_TufMetadata u : keeps same (GetUpdateTufMetadata (json_object:=json_object) root u) any.
Proof.
  unfold GetUpdateTufMetadata. keeps_step; [auto with keeps|]. keeps_step; [|by keeps_step].
  apply keeps_mapM. intros x _. keeps_step; [apply same_TufMetadataFile|by keeps_step].
Qed.
Lemma same_ListRollouts u : keeps same (ListRollouts root u) any.
Proof. unfold ListRollouts. reads. Qed.
Lemma same_GetRollout u n : keeps same (GetRollout root u n) any.
Proof. unfold GetRollout. reads. Qed.
Lemma same_Tail u : keeps same (TailRolloutsLog root u) any.
Proof. unfold TailRolloutsLog. reads. Qed.
Lemma same_GetTests u : keeps same (GetTests root u) any.
Proof. unfold GetTests. reads. Qed.
Lemma same_GetTest u i : keeps same (GetTest root u i) any.
Proof. unfold GetTest. reads. Qed.
Lemma same_GetTestArtifact u i n : keeps same (GetTestArtifact root u i n) any.
Proof. unfold GetTestArtifact. reads. Qed.
Lemma same_ReadCert n : keeps same (ReadCert root n) any.
Proof. unfold ReadCert. reads. Qed.
Lemma same_ReadRoot h v : keeps same (ReadRoot h v) any.
Proof. unfold ReadRoot, rootMetaNames. reads. Qed.
Hint Resolve same_GetUpdate same_Tail same_GetRollout : keeps.
Lemma same_latestUpdateTargets n : keeps same (latestUpdateTargets root n) any.
Proof. unfold latestUpdateTargets, ReadTufMeta. reads. Qed.
Hint Resolve same_latestUpdateTargets : keeps.
Lemma same_lastKnownStates n f : keeps same (lastKnownStates root n f) any.
Proof. unfold lastKnownStates. reads. Qed.
Hint Resolve same_lastKnownStates : keeps.
Lemma same_updateSummary n f : keeps same (updateSummary root n f) any.
Proof. unfold updateSummary. reads. Qed.
Lemma same_updateStateFor n st f : keeps same (updateStateFor root n st f) any.
Proof. unfold updateStateFor. reads. Qed.
Hint Resolve same_updateSummary same_updateStateFor : keeps.
Lemma same_UpdateSummary n : keeps same (api_UpdateSummary root n) any.
Proof. unfold api_UpdateSummary. reads. Qed.
Lemma same_UpdateStateFor n st : keeps same (UpdateStateFor root n st) any.
Proof. unfold UpdateStateFor. reads. Qed.
Lemma same_RolloutSummary n r : keeps same (RolloutSummary root n r) any.
Proof. unfold RolloutSummary. reads. Qed.
Lemma same_RolloutStateFor n r st : keeps same (RolloutStateFor root n r st) any.
Proof. unfold RolloutStateFor. reads. Qed.
End ApiReads.
#[export] Hint Resolve same_ApiDeviceGet same_Device_Updates same_Device_Events same_Device_AppsStates same_DevicesList
  same_DeniedDevicesList same_ReadAppliedConfigs same_GroupNames same_LabelNames same_ListUpdates same_GetUpdate
  same_TufMetadataFile same_TufMetadata same_ListRollouts same_GetRollout same_Tail same_GetTests same_GetTest
  same_GetTestArtifact same_ReadCert same_ReadRoot same_UpdateSummary same_UpdateStateFor same_RolloutSummary
  same_RolloutStateFor : keeps.
