(* ===== verification/UiRoutes.v ===== *)
(** server/ui/api/handlers.go: the routes of the operator API, with the theorem
    that nothing is changed through it without the scope of the route. *)
From S2P Require Import Prelude GoStrings Bytes GoPath Schema World BaseFs Crypto Encoding Models Tar Configs Updates Ostree FsHandles Tuf TufFs ApiStorage ApiTuf ApiUpdate Http Scopes Users UserOps Auth UiApi UiUpdates ReadOnly.

Section Routes.
Context `{HD : Digest, HT : TimeFormat, HQ : SqliteJson, J1 : JSON DeviceUpdateEvent, J2 : JSON AppliedConfigs, J3 : JSON AppsStates, J4 : JSON Rollout, J5 : JSON DeviceStatus, J6 : JSON TargetTest}.
Context `{K1 : JSON AtsTufTargets, K2 : JSON AtsTufMeta, K3 : JSON target_custom, K4 : JSON json_string, K5 : JSON version_custom, K6 : JSON generatedTargetCustom, K7 : JSON targets_file}.
Context `{HE : Ed25519, C1 : Canonical TargetsMeta, C2 : Canonical MetaMeta, C3 : Canonical AtsTufTargets, C4 : Canonical AtsTufMeta, HF : Flate}.
Context `{L1 : JSON (gmap string ConfigFile), L2 : JSON config_request, HN : Encoders, HP : Payload, HQP : QueryParams, HCC : CertCodec, HCS : CsrCodec}.
Context `{B1 : BindOnto DeviceListOpts, B2 : Bind LabelsReq, B3 : Bind LabelsPutReq, B4 : Bind DeviceCreateRequest, B5 : Bind Rollout, B6 : Bind (list string), B7 : Bind DeviceCodeRequest, B8 : Bind DeviceTokenRequest}.
Context {json_object : Type} `{L3 : JSON json_object}.
Context {P : Type} (depth : nat) (version : string) (h : handlers) (provider : Provider P).
(** echo's in-memory limiter in front of the creation of devices. *)
Context (allow_create : request -> bool).
Notation UH := (user_handler P).

Record route := { rt_method : http_method; rt_path : string; rt_scope : option Scopes; rt_handler : UH }.
Definition R (m : http_method) (path : string) (scope : Scopes) (handler : UH) : route :=
  {| rt_method := m; rt_path := path; rt_scope := Some scope; rt_handler := handler |}.
Definition limited (next : UH) : UH := λ user r,
  if allow_create r then next user r else EchoError 429 "rate limit exceeded".

Definition device_scope_w := Z.lor ScopeDevicesRU ScopeUpdatesRU.
Definition device_routes : list route :=
  [R PUT "/configs" device_scope_w (gzipContentTypeAsContentEncoding (configsUpload h));
   R GET "/configs/factory" ScopeDevicesR (factoryConfigsGet h);
   R PUT "/configs/factory" device_scope_w (factoryConfigsPut h);
   R GET "/configs/factory/history" ScopeDevicesR (factoryConfigsHistory h);
   R GET "/configs/group/:name" ScopeDevicesR (groupConfigsGet h);
   R PUT "/configs/group/:name" device_scope_w (groupConfigsPut h);
   R GET "/configs/group/:name/history" ScopeDevicesR (groupConfigsHistory h);
   R GET "/configs/device/:uuid" ScopeDevicesR (deviceConfigsGet h);
   R PUT "/configs/device/:uuid" device_scope_w (deviceConfigsPut h);
   R GET "/configs/device/:uuid/applied" ScopeDevicesR (deviceAppliedConfigsGet h);
   R GET "/configs/device/:uuid/history" ScopeDevicesR (deviceConfigsHistory h);
   R GET "/devices" ScopeDevicesR deviceList] ++
  match h_ca h with
  | Some ca => [R POST "/devices" ScopeDevicesC (limited (deviceCreate h ca))]
  | None => []
  end ++
  [R GET "/devices/:uuid" ScopeDevicesR (deviceGet h);
   R DELETE "/devices/:uuid" ScopeDevicesD (deviceDelete h);
   R GET "/denied-devices" ScopeDevicesR deniedDevicesList;
   R DELETE "/denied-devices/:uuid" ScopeDevicesD undenyDevice;
   R GET "/devices/:uuid/apps-states" ScopeDevicesR (deviceAppsStatesGet h);
   R GET "/devices/:uuid/tests" ScopeDevicesR (deviceTestsList h);
   R GET "/devices/:uuid/tests/:testid" ScopeDevicesR (deviceTestGet h);
   R GET "/devices/:uuid/tests/:testid/:artifact" ScopeDevicesR (deviceTestArtifact h);
   R GET "/devices/:uuid/updates" ScopeDevicesR (deviceUpdatesList h);
   R GET "/devices/:uuid/updates/:id" ScopeDevicesR (deviceUpdatesGet h);
   R PATCH "/devices/:uuid/labels" ScopeDevicesRU (deviceLabelsPatch h);
   R PUT "/devices/:uuid/labels" ScopeDevicesRU (deviceLabelsPut h);
   R GET "/known-labels/devices" ScopeDevicesR deviceKnownLabelsGet;
   R GET "/known-labels/device-groups" ScopeDevicesR (deviceKnownGroupsGet h)].
(** The group [/updates], with its own middleware. *)
Definition U (m : http_method) (path : string) (scope : Scopes) (handler : UH) : route := R m ("/updates" +:+ path) scope handler.
Definition update_routes : list route :=
  [U GET "" ScopeUpdatesR updateList;
   U POST "/:tag/:update" ScopeUpdatesRU (gzipContentTypeAsContentEncoding (updateCreate depth h));
   U DELETE "/:update" ScopeUpdatesD (updateDelete h);
   U GET "/:update/summary" ScopeUpdatesR (updateSummary_handler h);
   U GET "/:update/query" ScopeUpdatesR (updateQuery h);
   U GET "/:update/tuf" ScopeUpdatesR (updateGetTuf (json_object:=json_object) h);
   U GET "/:update/tuf/:file" ScopeUpdatesR (updateGetTufFile (json_object:=json_object) h);
   U GET "/:update/rollouts" ScopeUpdatesR (rolloutList h);
   U GET "/:update/rollouts/:rollout" ScopeUpdatesR (rolloutGet h);
   U PUT "/:update/rollouts/:rollout" ScopeUpdatesRU (rolloutPut h);
   U GET "/:update/rollouts/:rollout/summary" ScopeUpdatesR (updateRolloutSummary h);
   U GET "/:update/rollouts/:rollout/query" ScopeUpdatesR (updateRolloutQuery h);
   U GET "/:update/rollouts/:rollout/tail" ScopeUpdatesR (rolloutTail h);
   U GET "/:update/tail" ScopeUpdatesR (updateTail h)].
Definition tail_routes : list route :=
  [R GET "/tuf/root.json" ScopeUpdatesR (tufRootLatest h);
   R GET "/tuf/:version" ScopeUpdatesR (tufRootVersion h);
   {| rt_method := GET; rt_path := "/pki/cert"; rt_scope := None; rt_handler := pkiCert h |}].
Definition scoped (rt : route) : UH :=
  match rt_scope rt with Some scope => requireScope scope (rt_handler rt) | None => rt_handler rt end.
(** The group [/v1]: every route with the handler that echo runs for it. *)
Definition v1 : list (route * handler P) :=
  map (λ rt, (rt, authUser version provider (scoped rt))) (device_routes ++ tail_routes) ++
  map (λ rt, (rt, authUser version provider (validateUpdateParams (scoped rt)))) update_routes.
Definition oauth2_routes : list (http_method * string * handler P) :=
  [(POST, "/oauth2/authorization/device/", GetRateLimiterMiddleware provider (oauth2DeviceCode h));
   (POST, "/oauth2/token/", GetRateLimiterMiddleware provider (oauth2DeviceToken h))].

(** ** Reading routes change nothing *)

Definition read_only (next : UH) : Prop := ∀ user r, keeps (on_world same) (next user r) any.
Lemma read_handleDevice r next :
  (∀ d, keeps (on_world same) (next d) any) -> keeps (on_world same) (handleDevice (P:=P) h r next) any.
Proof. intros Hn. unfold handleDevice. keeps_handler. Qed.
Lemma read_streamUpdateLogs r lines : keeps (on_world same) (streamUpdateLogs (P:=P) r lines) any.
Proof. unfold streamUpdateLogs. keeps_handler. Qed.
Lemma read_lookup_rollout r : keeps (on_world same) (lookup_rollout (P:=P) h r) any.
Proof. unfold lookup_rollout. keeps_handler. Qed.
Lemma read_params r : keeps (on_world same) (validateConfigHistoryParams (P:=P) r) any.
Proof. unfold validateConfigHistoryParams. keeps_handler. Qed.
Lemma read_known_group g (yes : H P unit) : keeps (on_world same) yes any -> keeps (on_world same) (known_group h g yes) any.
Proof. intros Hy. unfold known_group. keeps_handler. Qed.
Lemma read_answer hist (o : H P unit) : keeps (on_world same) o any -> keeps (on_world same) (answer_latest hist o) any.
Proof. intros Ho. unfold answer_latest. keeps_handler. Qed.
Lemma read_certs_read names resp : keeps (on_world same) (read_certs (P:=P) h names resp) any.
Proof. revert resp. induction names as [|n names IH]; intros resp; simpl; keeps_handler. Qed.
Lemma read_TufRoot v : keeps (on_world same) (marshallTufRoot (P:=P) h v) any.
Proof. unfold marshallTufRoot, GetTufRoot. keeps_handler. Qed.
Lemma read_pagination r opts total : keeps (on_world same) (setPaginationHeaders (P:=P) r opts total) any.
Proof. unfold setPaginationHeaders. keeps_handler. Qed.
Hint Resolve read_streamUpdateLogs read_lookup_rollout read_params read_known_group read_answer read_certs_read
  read_TufRoot read_pagination : keeps.
Ltac head t := lazymatch t with ?f _ => head f | _ => t end.
Ltac read_handler :=
  lazymatch goal with |- read_only ?f => let g := head f in unfold g end;
  intros user r; cbv beta; try (apply read_handleDevice; intros ?); keeps_handler.

Lemma GET_read_only rt : rt ∈ device_routes ++ tail_routes ++ update_routes -> rt_method rt = GET -> read_only (rt_handler rt).
Proof.
  assert (Forall (λ rt, rt_method rt = GET -> read_only (rt_handler rt)) (device_routes ++ tail_routes ++ update_routes)) as Hall.
  { unfold device_routes, tail_routes, update_routes. rewrite !Forall_app.
    destruct (h_ca h); rewrite ?Forall_app, ?Forall_cons, ?Forall_nil; split_and!; try done;
      cbn [rt_method R U rt_handler]; try discriminate; intros _.
    all: read_handler. }
  intros Hin. by eapply Forall_forall in Hall.
Qed.

(** ** Changes need a scope *)

(** The bits that stand for updating, creating and deleting. *)
Definition write_bits : Scopes :=
  let w := Z.lor scopeU (Z.lor scopeC scopeD) in
  Z.lor (Z.shiftl w scopeShiftDevices) (Z.lor (Z.shiftl w scopeShiftUpdates) (Z.shiftl w scopeShiftUsers)).
Definition writes (s : Scopes) : bool := negb (Z.land s write_bits =? 0).
Lemma other_scoped rt :
  rt ∈ device_routes ++ tail_routes ++ update_routes -> rt_method rt <> GET ->
  ∃ scope, rt_scope rt = Some scope ∧ writes scope = true.
Proof.
  assert (Forall (λ rt, rt_method rt <> GET -> ∃ scope, rt_scope rt = Some scope ∧ writes scope = true)
            (device_routes ++ tail_routes ++ update_routes)) as Hall.
  { unfold device_routes, tail_routes, update_routes. rewrite !Forall_app.
    destruct (h_ca h); rewrite ?Forall_app, ?Forall_cons, ?Forall_nil; split_and!; try done;
      cbn [rt_method R U rt_scope]; intros Hm; first [done | by eexists]. }
  intros Hin. by eapply Forall_forall in Hall.
Qed.
Lemma v1_inv rt f :
  (rt, f) ∈ v1 -> rt ∈ device_routes ++ tail_routes ++ update_routes ∧
  (f = authUser version provider (scoped rt) \/ f = authUser version provider (validateUpdateParams (scoped rt))).
Proof.
  unfold v1. rewrite !list_elem_of_In, !in_app_iff, !in_map_iff.
  intros [(x & [= -> <-] & Hin)|(x & [= -> <-] & Hin)]; [apply in_app_iff in Hin|]; tauto.
Qed.
Lemma same_validateUpdateParams (next : UH) user r :
  keeps (on_world same) (next user r) any -> keeps (on_world same) (validateUpdateParams next user r) any.
Proof. intros Hn. unfold validateUpdateParams. keeps_handler. Qed.
Lemma same_scoped rt user r :
  (∀ scope, rt_scope rt = Some scope -> Has (AllowedScopes user) scope = true -> keeps (on_world same) (rt_handler rt user r) any) ->
  (rt_scope rt = None -> keeps (on_world same) (rt_handler rt user r) any) ->
  keeps (on_world same) (scoped rt user r) any.
Proof.
  intros Hs Hn. unfold scoped, requireScope. destruct (rt_scope rt) as [scope|] eqn:Es; [|by apply Hn].
  destruct (Has (AllowedScopes user) scope) eqn:Eh; cbn [negb]; [by eapply Hs|]. keeps_handler.
Qed.
Context (Hprovider : ∀ r, keeps (on_world same) (GetUser provider r) any).

(** C3. Whatever a request to the operator API changes in the files or the tables, it
    is no GET, and its user, as the provider of authentication finds it, has the
    scope of its route, which allows more than reading. *)
Theorem api_change_needs_scope rt f r s res s' :
  (rt, f) ∈ v1 -> f r s = (res, s') -> ~ same (sv_world s) (sv_world s') ->
  rt_method rt <> GET ∧
  ∃ u s1 scope, GetUser provider r s = (Ok (Some u), s1) ∧ rt_scope rt = Some scope ∧
    Has (AllowedScopes u) scope = true ∧ writes scope = true.
Proof.
  intros (Hin & Hf)%v1_inv Hr Hch.
  assert (∃ next, f = authUser version provider next ∧
          ∀ u, keeps (on_world same) (scoped rt u r) any -> keeps (on_world same) (next u r) any) as (next & -> & Hnext).
  { destruct Hf as [-> | ->]; eexists; (split; [done|]); intros u Hk; [done|by apply same_validateUpdateParams]. }
  unfold authUser in Hr. apply bind_inv in Hr as [([u|] & s1 & Eu & Hr)|(e & Eu & _)].
  - pose proof (Hprovider _ _ _ _ Eu) as [Hs1 _]. cbn iota in Hr.
    assert (~ keeps (on_world same) (scoped rt u r) any) as Hno.
    { intros Hk%Hnext. apply Hch. apply bind_inv in Hr as [(x & s2 & E2 & Hr)|(e & E2 & _)].
      - injection E2 as _ <-. apply Hk in Hr as [Hr _]. unfold on_world in *. simpl in Hr. by etrans.
      - discriminate E2. }
    assert (rt_method rt <> GET) as Hm.
    { intros Hg. apply Hno. apply same_scoped; intros; by apply GET_read_only. }
    split; [done|]. destruct (other_scoped rt Hin Hm) as (scope & Hsc & Hw). exists u, s1, scope. split_and!; try done.
    destruct (Has (AllowedScopes u) scope) eqn:Eh; [done|]. destruct Hno. apply same_scoped.
    + intros sc Hsc'. rewrite Hsc in Hsc'. injection Hsc' as <-. congruence.
    + congruence.
  - minv Hr. apply Hprovider in Eu as [Eu _]. done.
  - apply Hprovider in Eu as [Eu _]. done.
Qed.
End Routes.
