(* ===== verification/UiSpec.v ===== *)
(** What the handlers of the operator API promise: the creation of rollouts
    follows the protocol of the watchdog, an interrupted stream of events
    resumes where it stopped, and stored labels are well formed. *)
From S2P Require Import Prelude GoStrings Bytes GoPath Schema World BaseFs Crypto Encoding Models Tar Configs Updates Ostree FsHandles Tuf TufFs ApiStorage ApiTuf ApiUpdate Rollouts Http Scopes Users UserOps Auth UiApi UiUpdates ReadOnly.

(** ** Creating rollouts *)

Section CreatingRollouts.
Context `{J4 : JSON Rollout, B5 : Bind Rollout}.
Context {P : Type} (h : handlers).
Notation root := (h_root h).
Notation U := (FsConfig_UpdatesDir (h_root h)).

Lemma GetUpdate_found n w u w' :
  GetUpdate n w = (Ok (Some u), w') -> ∃ row, updates (db w) !! n = Some row ∧ u_Tag u = up_tag row.
Proof.
  unfold GetUpdate, stmtUpdateGet_run. intros Hr. apply bind_try_inv in Hr as (q & w1 & E & Hr).
  unfold sql_query in E. apply sql_inv in E as [(l & -> & E)|(e & l & -> & ->)].
  - simpl in E. destruct (updates (db w) !! n) as [row|]; subst q; [|discriminate Hr].
    injection Hr as <- _. eauto.
  - cbn iota in Hr. by destruct (errors_Is e ErrNoRows).
Qed.
Lemma fs_only_GetRollout u n : keeps fs_only (GetRollout root u n) any.
Proof. unfold GetRollout, Updates_ReadFile, upd_localHandle, readFile. keeps_auto. Qed.
Lemma db_only_GetUpdate n : keeps db_only (GetUpdate n) any.
Proof. unfold GetUpdate, stmtUpdateGet_run, sql_query. keeps_auto. Qed.

Notation go j s := (In (Go j) (sv_out s)).
(** The reads before the creation. *)
Definition looked (w w' : world) : Prop := fs w' = fs w ∧ faults w' `suffix_of` faults w.
Lemma looked_step w w' first ph cr :
  honest w -> looked w w' -> step root (Sys w first ph cr) (Sys w' first ph cr).
Proof. intros Hh [Hf Hs]. apply step_other; [by intros; rewrite Hf|by eapply honest_suffix]. Qed.
Lemma CreateRollout_steps t u r ro w res w' first ph cr :
  entry_ok (t, u, r) -> CreateRollout root t u r ro w = (res, w') ->
  rtc (step root) (Sys w first ph cr) (Sys w' first ph cr).
Proof.
  intros He Hr. unfold CreateRollout in Hr. apply bind_inv in Hr as [([] & w1 & E1 & E2)|(e & E1 & ->)].
  - eapply rtc_l; [by apply (step_append root (t, u, r) ro _ first ph cr _ _ He E1)|]. cbn [is_Ok].
    eapply rtc_l; [|done]. eapply step_write; [done|exact E2].
  - eapply rtc_l; [by apply (step_append root (t, u, r) ro _ first ph cr _ _ He E1)|]. done.
Qed.

(** C14. A request that creates a rollout makes, whatever fails, exactly the steps of
    the protocol under which no rollout is lost: it looks, appends the line of the
    rollout to the journal, and then writes its file; and the commit it leaves
    behind is a commit step whenever it runs. *)
Theorem rolloutPut_protocol user r (s : server P) res s' :
  rolloutPut h user r s = (res, s') -> honest (sv_world s) ->
  (∀ row, updates (db (sv_world s)) !! c_Param r "update" = Some row ->
     entry_ok (up_tag row, c_Param r "update", c_Param r "rollout")) ->
  ∀ first ph cr,
    rtc (step root) (Sys (sv_world s) first ph cr) (Sys (sv_world s') first ph cr) ∧
    ∀ job, go job s' -> go job s \/
      ∀ w v w' f p c, job w = (v, w') -> step root (Sys w f p c) (Sys w' f p c).
Proof.
  intros Hr Hh He first ph cr. unfold rolloutPut in Hr.
  assert (∀ o (s1 : server P) res s', put_out o s1 = (res, s') -> sv_world s' = sv_world s1 ∧ sv_out s' = sv_out s1 ++ [o]) as Hput
    by by intros o s1 res0 s0 [= <- <-].
  destruct (bind_request r) as [ro|]; [|unfold EchoError in Hr; minv Hr; by split; [|left]].
  destruct (_ && _); [apply Hput in Hr as [-> ->]; split; [done|]; intros job; rewrite in_app_iff; simpl; naive_solver|].
  destruct (0 <? _); [apply Hput in Hr as [-> ->]; split; [done|]; intros job; rewrite in_app_iff; simpl; naive_solver|].
  apply bind_inv in Hr as [(up & s1 & E & Hr)|(e & E & ->)]; apply or_error_inv in E as (r0 & w1 & E & -> & Hr0);
    apply db_only_GetUpdate in E as Hdb; destruct Hdb as [(Hc1 & Hfs1 & _ & _ & Hsf1) _].
  2: { split; [|auto]. apply rtc_once, looked_step; [done|by split]. }
  destruct up as [up|].
  2: { apply Hput in Hr as [-> ->]. split; [apply rtc_once, looked_step; [done|by split]|].
       intros job. rewrite in_app_iff. simpl. naive_solver. }
  destruct r0 as [o|]; [|done]. injection Hr0 as <-. apply GetUpdate_found in E as (row & Hrow & Htag).
  apply He in Hrow. rewrite <-Htag in Hrow. clear He.
  apply bind_try_inv in Hr as (existing & s2 & E & Hr). apply io_inv in E as (w2 & E & ->).
  pose proof (same_GetRollout _ _ _ _ _ _ E) as [(Hfs2 & _) _]. apply fs_only_GetRollout in E as [(_ & _ & _ & _ & Hsf2) _].
  cbn [sv_world with_world] in *.
  assert (looked (sv_world s) w2) as Hl by (split; [by rewrite Hfs2|by etrans]).
  pose proof (looked_step _ _ first ph cr Hh Hl) as Hstep.
  destruct existing as [?|e].
  { apply Hput in Hr as [-> ->]. split; [by apply rtc_once|]. intros job. rewrite in_app_iff. simpl. naive_solver. }
  destruct (errors_Is e ErrNotExist); cbn [negb] in Hr; [|unfold EchoError in Hr; minv Hr; split; [by apply rtc_once|auto]].
  apply bind_inv in Hr as [(now & s3 & E3 & Hr)|(e3 & E3 & _)]; [|discriminate E3]. injection E3 as <- <-.
  apply bind_inv in Hr as [([] & s4 & E4 & Hr)|(e4 & E4 & ->)]; apply or_error_inv in E4 as (r4 & w4 & E4 & -> & Hr4);
    cbn [sv_world with_world sv_out] in *; apply (CreateRollout_steps _ _ _ _ _ _ _ first ph cr Hrow) in E4.
  2: { split; [by eapply rtc_l|auto]. }
  apply bind_inv in Hr as [([] & s5 & E5 & Hr)|(e5 & E5 & _)]; [|discriminate E5].
  apply Hput in E5 as [Hw5 Ho5]. apply Hput in Hr as [Hw Ho]. rewrite Hw, Hw5, Ho, Ho5. cbn [sv_world with_world sv_out].
  split; [by eapply rtc_l|]. intros job. rewrite !in_app_iff. simpl. intros [[Hj|[Hj|[]]]|[Hj|[]]]; [by left| |discriminate Hj].
  right. injection Hj as <-. intros w v w' f p c Ej. eapply step_commit; [exact Hrow|exact Ej].
Qed.
End CreatingRollouts.

(** ** Resuming a stream *)

Lemma event_stream_skip ls rest i lastId :
  i + Z.of_nat (length ls) <= lastId ->
  event_stream lastId i (map Ok ls ++ rest) = event_stream lastId (i + Z.of_nat (length ls)) rest.
Proof.
  revert i. induction ls as [|l ls IH]; intros i Hi; cbn [map app event_stream length] in *; [by rewrite Z.add_0_r|].
  destruct (Z.leb_spec (i + 1) lastId); [|lia]. rewrite IH by lia. f_equal. lia.
Qed.
Lemma event_stream_pass ls rest i lastId :
  lastId <= i ->
  event_stream lastId i (map Ok ls ++ rest) =
    imap (λ k l, log_event (i + Z.of_nat k + 1) l) ls ++ event_stream lastId (i + Z.of_nat (length ls)) rest.
Proof.
  revert i. induction ls as [|l ls IH]; intros i Hi; cbn [map app event_stream length imap] in *; [by rewrite Z.add_0_r|].
  destruct (Z.leb_spec (i + 1) lastId); [lia|]. rewrite IH by lia. f_equal; [f_equal; lia|]. f_equal.
  - apply imap_ext. intros k x _. simpl. f_equal. lia.
  - f_equal. lia.
Qed.
Lemma event_stream_alike rest i a b : a <= i -> b <= i -> event_stream a i rest = event_stream b i rest.
Proof.
  revert i. induction rest as [|[l|e] rest IH]; intros i Ha Hb; cbn [event_stream]; try done.
  destruct (Z.leb_spec (i + 1) a); [lia|]. destruct (Z.leb_spec (i + 1) b); [lia|]. f_equal. apply IH; lia.
Qed.
Lemma bind_put_out {P A} o (f : unit -> H P A) (s : server P) :
  (put_out o ≫= f) s = f tt (Server (sv_world s) (sv_front s) (sv_out s ++ [o])).
Proof. done. Qed.
Lemma write_chunks {P} (chunks : list string) (s : server P) :
  forM chunks (λ c, put_out (Write c)) s = (Ok tt, Server (sv_world s) (sv_front s) (sv_out s ++ map Write chunks)).
Proof.
  revert s. induction chunks as [|c chunks IH]; intros s; simpl; [by rewrite app_nil_r; destruct s|].
  rewrite bind_put_out, IH. cbn [sv_out sv_world sv_front]. by rewrite <-app_assoc.
Qed.
Definition stream_headers : list output :=
  [SetHeader "Content-Type" "text/event-stream"; SetHeader "Cache-Control" "no-cache"; SetHeader "X-Accel-Buffering" "no"].
Lemma streamUpdateLogs_run {P} r lines (s : server P) :
  streamUpdateLogs r lines s = (Ok tt, Server (sv_world s) (sv_front s)
    (sv_out s ++ stream_headers ++ map Write (event_stream (parseLastEventId r) 0 lines))).
Proof.
  unfold streamUpdateLogs, Header_Set. rewrite !bind_put_out, write_chunks.
  cbn [sv_out sv_world sv_front]. by rewrite <-!app_assoc.
Qed.

(** C35. A client that comes back with the id of the last event it has received gets
    exactly the rest: what the first connection sent up to there, followed by what
    the second one sends, is the stream without the interruption, ids included. *)
Theorem stream_resumes {P} r r' ls rest (s s' : server P) :
  Header_Get r "last-event-id" = "" -> Header_Get r' "last-event-id" = Itoa (Z.of_nat (length ls)) ->
  in_int64 (Z.of_nat (length ls)) ->
  ∃ first later, first = imap (λ k l, log_event (Z.of_nat k + 1) l) ls ∧
    streamUpdateLogs r (map Ok ls ++ rest) s =
      (Ok tt, Server (sv_world s) (sv_front s) (sv_out s ++ stream_headers ++ map Write (first ++ later))) ∧
    streamUpdateLogs r' (map Ok ls ++ rest) s' =
      (Ok tt, Server (sv_world s') (sv_front s') (sv_out s' ++ stream_headers ++ map Write later)).
Proof.
  intros Hr Hr' Hin. eexists _, (event_stream 0 (Z.of_nat (length ls)) rest). split; [done|].
  rewrite !streamUpdateLogs_run. unfold parseLastEventId. rewrite Hr, Hr'. cbn [len String.length Z.of_nat Z.eqb].
  split; [do 5 f_equal; by apply (event_stream_pass ls rest 0 0)|].
  destruct (Z.eqb_spec (len (Itoa (Z.of_nat (length ls)))) 0) as [Hl|_].
  { pose proof (Atoi_Itoa _ Hin) as Ha. destruct (Itoa (Z.of_nat (length ls))); [done|unfold len in Hl; simpl in Hl; lia]. }
  rewrite Atoi_Itoa by done. rewrite event_stream_skip by lia. do 5 f_equal. apply event_stream_alike; lia.
Qed.

(** ** Labels *)

Definition label_ok (k v : string) : Prop :=
  len k <= maxLabelName ∧ validateLabelName k = true ∧ len v <= maxLabelValue ∧ validateLabelValue v = true.
(** Every label stored for a device. *)
Definition labels_typed (d : database) : Prop :=
  ∀ dev row k v, devices d !! dev = Some row -> d_labels row !! k = Some v -> label_ok k v.
Definition keeps_typed (w w' : world) : Prop := labels_typed (db w) -> labels_typed (db w').
#[global] Instance keeps_typed_preorder : PreOrder keeps_typed.
Proof. split; [by intros w Hw|]. intros w1 w2 w3 Hw1 Hw2 Ht. by apply Hw2, Hw1. Qed.
Lemma same_typed {A} (m : IO A) Q : keeps same m Q -> keeps keeps_typed m Q.
Proof. intros Hm w r w' Hr. apply Hm in Hr as [(_ & Hd & _) HQ]. split; [|done]. unfold keeps_typed. by rewrite Hd. Qed.

Lemma validate_list_ok l k v : validate_list l = Ok tt -> In (k, Some v) l -> label_ok k v.
Proof.
  induction l as [|[k0 o0] l IH]; [done|]. cbn [validate_list]. intros Hv [[= -> ->]|Hin].
  - destruct (validate_label (k, Some v)) as [[]|e] eqn:E; [|done]. unfold validate_label in E. unfold label_ok.
    destruct (Z.ltb_spec maxLabelName (len k)); [done|]. destruct (Z.ltb_spec maxLabelValue (len v)); [done|].
    destruct (validateLabelName k); [|done]. by destruct (validateLabelValue v).
  - destruct (validate_label (k0, o0)) as [[]|e]; [|done]. by apply IH.
Qed.
Definition patch_ok (labels : gmap string (option string)) : Prop := ∀ k v, labels !! k = Some (Some v) -> label_ok k v.
Lemma validateLabels_ok labels : validateLabels labels = Ok tt -> patch_ok labels.
Proof.
  intros Hv k v Hk. eapply validate_list_ok; [exact Hv|]. by apply list_elem_of_In, elem_of_map_to_list.
Qed.
Lemma parseLabels_ok req labels : parseLabels req = Ok labels -> patch_ok labels.
Proof.
  unfold parseLabels. destruct (_ && _); [done|]. destruct (add_deletes _ _) as [l|]; [|done]. cbn [mbind result_bind].
  destruct (validateLabels l) as [[]|] eqn:Ev; [|done]. intros [= <-]. by apply validateLabels_ok.
Qed.
Lemma add_missing_ok have labels l : patch_ok (default ∅ labels) -> add_missing have labels = Ok l -> patch_ok l.
Proof.
  unfold add_missing. destruct labels as [m|]; simpl.
  - intros Hm [= <-] k v Hk. apply lookup_union_Some_raw in Hk as [Hk|[_ Hk]]; [by apply Hm|].
    rewrite lookup_fmap in Hk. by destruct (have !! k).
  - intros _. case_bool_decide; [|done]. intros [= <-] k v Hk. by rewrite lookup_empty in Hk.
Qed.
Lemma typed_patch labels uuids : patch_ok labels -> keeps keeps_typed (PatchDeviceLabels labels uuids) any.
Proof.
  intros Hl w r w' Hr. split; [|by destruct r]. unfold PatchDeviceLabels, stmtDeviceSetLabels_run in Hr. intros Ht.
  apply sql_now_inv in Hr as [(l & -> & _)|(e & l & _ & ->)]; [|done]. cbn zeta. destruct (negb (names_uniqueb _)); [done|].
  intros dev row k v. simpl. rewrite map_lookup_imap. destruct (devices (db w) !! dev) as [row0|] eqn:Ed; [|done].
  simpl. intros [= <-]. destruct (bool_decide _); [|by apply Ht with dev]. simpl. unfold patch_labels. rewrite lookup_merge.
  unfold diag_None. destruct (labels !! k) as [[v0|]|] eqn:El, (d_labels row0 !! k) as [v1|] eqn:E1; intros [=]; subst; eauto.
Qed.

Section Labels.
Context `{HD : Digest, J1 : JSON DeviceUpdateEvent, HN : Encoders, B2 : Bind LabelsReq, B3 : Bind LabelsPutReq}.
Context {P : Type} (h : handlers).
Notation kt := (@on_world P keeps_typed).

Lemma typed_io {A} (m : IO A) : keeps same m any -> keeps kt (io m) any.
Proof. intros Hm. apply keeps_io. by apply same_typed. Qed.
Lemma typed_save labels uuid : patch_ok labels -> keeps kt (save_labels labels uuid) any.
Proof.
  intros Hl. unfold save_labels. eapply (keeps_bind _ _ any).
  - eapply (keeps_try _ any); [|done]. apply keeps_io. by apply typed_patch.
  - intros r _. destruct r as [[]|e]; [apply keeps_put_out; apply _|]. destruct (errors_Is _ _); apply keeps_fail.
Qed.
Lemma typed_handleDevice r next : (∀ d, keeps kt (next d) any) -> keeps kt (handleDevice h r next) any.
Proof.
  intros Hn. unfold handleDevice. eapply (keeps_bind _ _ any).
  - apply keeps_or_error. apply same_typed, same_ApiDeviceGet.
  - intros d _. destruct d as [d|]; [apply Hn|]. apply keeps_put_out; apply _.
Qed.
Lemma typed_delete u : keeps keeps_typed (Device_Delete (h_root h) u) any.
Proof.
  unfold Device_Delete. eapply (keeps_bind _ _ any).
  - eapply (keeps_try _ any); [|done]. intros w r w' Hr. split; [|by destruct r]. intros Ht.
    unfold stmtDeviceDelete_run in Hr. apply sql_now_inv in Hr as [(l & -> & _)|(e & l & _ & ->)]; [|done].
    intros dev row k v. simpl. rewrite lookup_alter. case_decide as Hu; [|by apply Ht].
    destruct (devices (db w) !! u) as [row0|]; [|done]. intros [= <-]. simpl. by rewrite lookup_empty.
  - intros e1 _. eapply (keeps_bind _ _ any).
    + eapply (keeps_try _ any); [|done]. intros w r w' Hr. split; [|by destruct r]. intros Ht.
      assert (keeps fs_only (Devices_Delete (FsConfig_DevicesDir (h_root h)) u) any) as Hk
        by (unfold Devices_Delete, dev_localHandle; keeps_auto).
      apply Hk in Hr as [(_ & Hd & _) _]. by rewrite Hd.
    + intros e2 _. destruct e1, e2; first [apply keeps_fail | by apply keeps_ret].
Qed.
Lemma typed_undeny u : keeps keeps_typed (UndenyDevice u) any.
Proof.
  intros w r w' Hr. split; [|by destruct r]. intros Ht. unfold UndenyDevice, stmtUndenyDevice_run in Hr.
  apply sql_inv in Hr as [(l & -> & _)|(e & l & _ & ->)]; [|done]. simpl.
  destruct (devices (db w) !! u) as [row0|] eqn:Ed; [|done]. destruct (d_deleted row0); [|done].
  intros dev row k v. simpl. destruct (decide (u = dev)) as [->|Hne].
  - rewrite lookup_insert_eq. intros [= <-]. simpl. by apply Ht with dev.
  - rewrite lookup_insert_ne by done. by apply Ht.
Qed.

End Labels.
