(* ===== verification/WebPages.v ===== *)
(** server/ui/web: what the pages of the operators show, computed from what the
    API answers: branding (branding.go), the scopes of accounts
    (handlers_users.go, handlers_settings.go), devices (handlers_devices.go,
    handlers_device_apps.go), updates (handlers_updates.go) and certificates
    (handlers_pki.go). *)
From stdpp Require Import fin_maps.
From S2P Require Import Prelude GoStrings Bytes GoPath Schema World BaseFs Crypto Encoding Models Tar Configs Updates FsHandles Tuf TufFs ApiStorage ApiUpdate Http Scopes Users Auth Gateway.

Definition max_int64 : Z := 2 ^ 63 - 1.
Definition min_int64 : Z := - 2 ^ 63.
Definition dquote : string := str1 (byte 34).

(** ** Branding *)

Record Branding := {
  br_Title : string; Logo : string; Favicon : string; Primary : string; Accent : string; Surface : string;
  SurfaceAlt : string; br_Text : string; SurfaceDark : string; SurfaceAltDark : string; TextDark : string
}.
Record brandingColors := { bc_Primary : string; bc_Accent : string; bc_Surface : string; bc_SurfaceAlt : string; bc_Text : string }.
Record brandingFile := { bf_Title : string; bf_Logo : string; bf_Favicon : string; bf_Colors : brandingColors; ColorsDark : brandingColors }.
Definition defaultBranding : Branding :=
  {| br_Title := "Foundries Update Server"; Logo := ""; Favicon := ""; Primary := "rgb(2, 11, 64)"; Accent := "#a3b4ff";
     Surface := "#f2f2f2"; SurfaceAlt := "#ffffff"; br_Text := "#000000"; SurfaceDark := "#11191f";
     SurfaceAltDark := "#1a2632"; TextDark := "#eef1f4" |}.
(** [^[#a-zA-Z0-9(),.%\s/-]+$] *)
Definition cssColor (s : string) : bool :=
  non_empty s && str_all (λ c, is_alnum c || one_of "#(),.%/-" c || one_of (bytes [9; 10; 12; 13; 32]%nat) c) s.
Definition faviconExts : list string := [".svg"; ".ico"; ".png"].
(** filepath.Base. *)
Definition filepath_Base (s : string) : string :=
  if String.eqb s "" then "." else
  let cs := filter (λ c, c <> "") (Split s "/") in
  default "/" (last cs).
Definition set_value (dst src : string) : string := if String.eqb src "" then dst else src.
Definition setColor (dst src : string) : string := if negb (String.eqb src "") && cssColor src then src else dst.
Definition favicon_ok (f : string) : bool :=
  String.eqb (filepath_Base f) f && bool_decide (ToLower (filepath_Ext f) ∈ faviconExts).
Definition LoadBranding `{JSON brandingFile} (data : string) : Branding :=
  let b := defaultBranding in
  if len data =? 0 then b else
  match json_Unmarshal data with
  | Err _ => b
  | Ok f =>
      {| br_Title := set_value (br_Title b) (bf_Title f); Logo := set_value (Logo b) (bf_Logo f);
         Favicon := if negb (String.eqb (bf_Favicon f) "") && favicon_ok (bf_Favicon f) then bf_Favicon f else Favicon b;
         Primary := setColor (Primary b) (bc_Primary (bf_Colors f)); Accent := setColor (Accent b) (bc_Accent (bf_Colors f));
         Surface := setColor (Surface b) (bc_Surface (bf_Colors f)); SurfaceAlt := setColor (SurfaceAlt b) (bc_SurfaceAlt (bf_Colors f));
         br_Text := setColor (br_Text b) (bc_Text (bf_Colors f)); SurfaceDark := setColor (SurfaceDark b) (bc_Surface (ColorsDark f));
         SurfaceAltDark := setColor (SurfaceAltDark b) (bc_SurfaceAlt (ColorsDark f)); TextDark := setColor (TextDark b) (bc_Text (ColorsDark f)) |}
  end.

(** ** Scopes of accounts *)

Definition devicesLabel := "Devices".
Definition updatesLabel := "Updates".
Definition usersLabel := "Users".
Record directoryPermissions := { IsLocalAuth : bool; CanCreateUser : bool; CanManageScopes : bool; CanDelete : bool }.
Record scopeGroup := { Resource : string; Capabilities : list string }.
Record userDirectoryEntry := {
  de_Username : string; de_Email : string; de_CreatedAt : Z; de_Scopes : list string; ScopeGroups : list scopeGroup; ResourceCount : Z;
  IsCurrent : bool; de_CanManageScopes : bool; CanResetPassword : bool; de_CanDelete : bool
}.
Definition directoryPermissionsFor (providerName : string) (sessionScopes : Scopes) : directoryPermissions :=
  let isLocalAuth := String.eqb providerName "local" in
  {| IsLocalAuth := isLocalAuth; CanCreateUser := isLocalAuth && Has sessionScopes ScopeUsersC;
     CanManageScopes := Has sessionScopes ScopeUsersRU; CanDelete := Has sessionScopes ScopeUsersD |}.
(** unicode.ToUpper of the first character of a text. *)
Class Unicode := { upper_first : string -> string }.

Section ScopesOfAccounts.
Context `{Unicode}.
Definition scopeResourceLabel (resource : string) : string :=
  if String.eqb resource "devices" then devicesLabel
  else if String.eqb resource "updates" then updatesLabel
  else if String.eqb resource "users" then usersLabel
  else upper_first resource.
Definition scopeCapabilityLabel (capability : string) : string :=
  if String.eqb capability "read" then "Read"
  else if String.eqb capability "read-update" then "Read + update"
  else if String.eqb capability "create" then "Create"
  else if String.eqb capability "delete" then "Delete"
  else capability.
(** Known texts first, in the order given, then the others by their bytes. *)
Fixpoint index_in (l : list string) (s : string) : option Z :=
  match l with [] => None | x :: l' => if String.eqb x s then Some 0 else Z.succ <$> index_in l' s end.
Definition known_cmp (known : list string) (a b : string) : Z :=
  match index_in known a, index_in known b with
  | Some i, Some j => i - j
  | Some _, None => -1
  | None, Some _ => 1
  | None, None => str_cmp a b
  end.
Definition scopeResourceOrder : list string := [devicesLabel; updatesLabel; usersLabel].
Definition scopeCapabilityOrder : list string := ["Read + update"; "Read"; "Create"; "Delete"].
Definition group_scope (grouped : gmap string (list string)) (scope : string) : gmap string (list string) :=
  match Cut scope ":" with
  | None => grouped
  | Some (resource, capability) =>
      if String.eqb resource "" || String.eqb capability "" then grouped else
      let resource := scopeResourceLabel resource in
      <[resource := default [] (grouped !! resource) ++ [scopeCapabilityLabel capability]]> grouped
  end.
Definition groupScopes (scopes : list string) : list scopeGroup :=
  let grouped := foldl group_scope ∅ scopes in
  sort_by (λ a b, known_cmp scopeResourceOrder (Resource a) (Resource b))
    ((λ kv, {| Resource := kv.1; Capabilities := sort_by (known_cmp scopeCapabilityOrder) kv.2 |}) <$> map_to_list grouped).
Definition buildUserDirectoryEntries (l : list User) (currentUsername : string) (permissions : directoryPermissions) : list userDirectoryEntry :=
  (λ user : User,
     let scopes := ToSlice (AllowedScopes user) in
     let groups := groupScopes scopes in
     let isCurrent := String.eqb (Username user) currentUsername in
     {| de_Username := Username user; de_Email := Email user; de_CreatedAt := Users.CreatedAt user; de_Scopes := scopes;
        ScopeGroups := groups; ResourceCount := Z.of_nat (length groups); IsCurrent := isCurrent;
        de_CanManageScopes := CanManageScopes permissions;
        CanResetPassword := IsLocalAuth permissions && CanManageScopes permissions && negb isCurrent;
        de_CanDelete := CanDelete permissions && negb isCurrent |}) <$> l.
End ScopesOfAccounts.

Record settingsScopeGroup := { sg_Resource : string; Operations : string; ScopeNames : list string }.
Record settingsScopeGroupBuilder := { sb_resource : string; sb_operations : gset string; sb_scopeNames : list string }.
Definition settingsScopeOperationOrder : list string := ["create"; "delete"; "read"; "update"; "unrecognized"].
Fixpoint ReplaceAll_char (a b : ascii) (s : string) : string :=
  match s with "" => "" | String c s' => String (if Ascii.eqb c a then b else c) (ReplaceAll_char a b s') end.
Definition settingsScopeOperations (operation : string) (valid : bool) : list string :=
  if negb valid || String.eqb operation "" then ["unrecognized"]
  else if String.eqb operation "read" then ["read"]
  else if String.eqb operation "read-update" then ["read"; "update"]
  else if String.eqb operation "create" then ["create"]
  else if String.eqb operation "delete" then ["delete"]
  else [ReplaceAll_char "_" " " (ReplaceAll_char "-" " " operation)].
(** The resource, the operation and the validity of the name of a scope. *)
Definition parse_scope (scopeName : string) : string * string * bool :=
  match Cut scopeName ":" with
  | Some (resource, operation) =>
      if String.eqb resource "" then (scopeName, "", true)
      else if String.eqb operation "" then (resource, "", true) else (resource, operation, true)
  | None => (if String.eqb scopeName "" then "(empty)" else scopeName, "", false)
  end.
Fixpoint add_scope (resource scopeName : string) (operations : list string) (builders : list settingsScopeGroupBuilder) : list settingsScopeGroupBuilder :=
  match builders with
  | [] => [{| sb_resource := resource; sb_operations := list_to_set operations; sb_scopeNames := [scopeName] |}]
  | b :: builders' =>
      if String.eqb (sb_resource b) resource
      then {| sb_resource := resource; sb_operations := sb_operations b ∪ list_to_set operations;
              sb_scopeNames := sb_scopeNames b ++ [scopeName] |} :: builders'
      else b :: add_scope resource scopeName operations builders'
  end.
(** strings.ToUpper of the first byte: a byte that is no character of its own
    becomes the replacement character. *)
Definition upper_byte (c : ascii) : string :=
  if is_lower c then str1 (ascii_of_nat (nat_of_ascii c - 32))
  else if (nat_of_ascii c <? 128)%nat then str1 c else bytes [239; 191; 189]%nat.
Definition settingsScopeSentenceCase (value : string) : result string :=
  match value with "" => Err (ErrPanic "slice bounds out of range") | String c value' => Ok (upper_byte c +:+ value') end.
Definition settingsScopeOperationSummary (operations : gset string) : result string :=
  let summary := sort_by (known_cmp settingsScopeOperationOrder) (elements operations) in
  match last summary with
  | None => Ok "Unrecognized"
  | Some final =>
      match removelast summary with
      | [] => settingsScopeSentenceCase final
      | others => first ← settingsScopeSentenceCase (Join others ", "); Ok (first +:+ " or " +:+ final)
      end
  end.
Definition scope_builders (scopes : list string) : list settingsScopeGroupBuilder :=
  foldl (λ bs scopeName, let '(resource, operation, valid) := parse_scope scopeName in
                         add_scope resource scopeName (settingsScopeOperations operation valid) bs) [] scopes.
Fixpoint summaries (builders : list settingsScopeGroupBuilder) : result (list settingsScopeGroup) :=
  match builders with
  | [] => Ok []
  | b :: builders' =>
      ops ← settingsScopeOperationSummary (sb_operations b);
      rest ← summaries builders';
      Ok ({| sg_Resource := sb_resource b; Operations := ops; ScopeNames := sb_scopeNames b |} :: rest)
  end.
Definition groupSettingsScopes (scopes : list string) : result (list settingsScopeGroup) := summaries (scope_builders scopes).

(** ** Devices *)

(** The value of [strconv.Atoi] when its error is ignored: 0 for what is no
    number, the bound for one out of range. *)
Definition Atoi_value (s : string) : Z :=
  let n := match s with
    | String "-" s' => option_map Z.opp (parse_uint 10 s')
    | String "+" s' => parse_uint 10 s'
    | _ => parse_uint 10 s
    end in
  match n with Some n => Z.max min_int64 (Z.min max_int64 n) | None => 0 end.
Definition linkHasRel (linkHeader rel : string) : bool :=
  let target := "rel=" +:+ dquote +:+ rel +:+ dquote in
  existsb (λ part, Contains (TrimSpace part) target) (Split linkHeader ",").
(** strings.Index of a character. *)
Fixpoint Index_char (s : string) (c : ascii) : option nat :=
  match s with "" => None | String x s' => if Ascii.eqb x c then Some O else S <$> Index_char s' c end.
(** The first [offset] among the parameters that is a number. *)
Fixpoint offset_param (pageSize : Z) (params : list string) : option Z :=
  match params with
  | [] => None
  | p :: params' =>
      if HasPrefix p "offset=" then
        match Atoi (TrimPrefix p "offset=") with
        | Some offset => if 0 <? pageSize then Some (wrap64 (offset ÷ pageSize + 1)) else offset_param pageSize params'
        | None => offset_param pageSize params'
        end
      else offset_param pageSize params'
  end.
(** What one part of the header decides, if anything. *)
Definition last_page (pageSize : Z) (part : string) : option Z :=
  let part := TrimSpace part in
  if negb (Contains part ("rel=" +:+ dquote +:+ "last" +:+ dquote)) then None else
  match Index_char part "<", Index_char part ">" with
  | Some start, Some stop =>
      if (stop <=? start)%nat then Some 1 else
      let url := str_take (stop - S start) (str_drop (S start) part) in
      let query := match Index_char url "?" with Some i => str_drop (S i) url | None => url end in
      offset_param pageSize (Split query "&")
  | _, _ => Some 1
  end.
Definition linkTotalPages (linkHeader : string) (pageSize : Z) : Z :=
  default 1 (head (omap (last_page pageSize) (Split linkHeader ","))).
Definition pageSize : Z := 50.
(** The page asked for, and the resource of the API it is read from. *)
Definition page_of (r : request) : Z := let page := Atoi_value (c_QueryParam r "page") in if page <? 1 then 1 else page.
Definition sort_of (r : request) : string :=
  let sort := c_QueryParam r "sort" in if String.eqb sort "" then "created-at-desc" else sort.
Definition devices_resource (page : Z) (sort : string) : string :=
  "/v1/devices?limit=" +:+ Itoa pageSize +:+ "&offset=" +:+ Itoa (wrap64 (wrap64 (page - 1) * pageSize)) +:+ "&order-by=" +:+ sort.

Record ipInfo := { ip_Hostname : string; IP : string; ip_Mac : string }.

(** Times in nanoseconds; those that do not parse are the zero time. *)
Class PageTimes := {
  parse_ns : string -> option Z;                             (* time.Parse(time.RFC3339) *)
  clock_text : Z -> string;                                  (* 15:04:05 *)
  short_text : Z -> string; full_text : Z -> string          (* of seconds: Jan 2, 15:04:05 and RFC 3339 *)
}.
Record updateStep := { up_Event : DeviceUpdateEvent; us_Failed : bool; Elapsed : string; us_Time : string }.

Section Devices.
Context `{PageTimes}.
Definition zero_time_ns : Z := -62135596800 * 10 ^ 9.
Definition parseDeviceTime (s : string) : Z := default zero_time_ns (parse_ns s).
(** [t.Sub(u)] saturates. *)
Definition time_Sub (t u : Z) : Z := Z.max min_int64 (Z.min max_int64 (t - u)).
(** [d.Round(time.Second).String()] of a duration that is not negative. *)
Definition seconds_text (n : Z) : string :=
  (if 3600 <=? n then Itoa (n / 3600) +:+ "h" else "") +:+
  (if 60 <=? n then Itoa (n / 60 `mod` 60) +:+ "m" else "") +:+ Itoa (n `mod` 60) +:+ "s".
(** Half a second is rounded up, but where that would overflow. *)
Definition round_seconds (d : Z) : option Z :=
  let s := 10 ^ 9 in
  let r := d `mod` s in
  if r + r <? s then Some (d / s) else if max_int64 <? d - r + s then None else Some (d / s + 1).
(** The largest duration is shown to the nanosecond. *)
Definition formatDuration (d : Z) : string :=
  match round_seconds (Z.max 0 d) with Some n => seconds_text n | None => "2562047h47m16.854775807s" end.
Definition step_failed (ev : DeviceUpdateEvent) : bool := bool_decide (Success (Event ev) = Some false).
Fixpoint update_steps (prev : Z) (events : list DeviceUpdateEvent) : list updateStep :=
  match events with
  | [] => []
  | ev :: events' =>
      let t := parseDeviceTime (DeviceTime ev) in
      {| up_Event := ev; us_Failed := step_failed ev; Elapsed := "+" +:+ formatDuration (time_Sub t prev); us_Time := clock_text t |}
      :: update_steps t events'
  end.
(** Without any event the first index is out of range. *)
Definition buildUpdateSteps (events : list DeviceUpdateEvent) : result (list updateStep * string * bool) :=
  match events, last events with
  | first :: _, Some final =>
      let start := parseDeviceTime (DeviceTime first) in
      Ok (update_steps start events, formatDuration (time_Sub (parseDeviceTime (DeviceTime final)) start), existsb step_failed events)
  | _, _ => Err (ErrPanic "index out of range [0] with length 0")
  end.

Record appSnapshot := { as_States : AppsStates; Changed : bool; RefTs : string }.
Fixpoint app_snapshots (previous : option AppsStates) (refTs : string) (states : list AppsStates) : list appSnapshot :=
  match states with
  | [] => []
  | s :: states' =>
      let changed := match previous with None => true | Some p => negb (String.eqb (Ostree s) (Ostree p)) end in
      let refTs := if changed then as_DeviceTime s else refTs in
      {| as_States := s; Changed := changed; RefTs := refTs |} :: app_snapshots (Some s) refTs states'
  end.
Definition buildAppSnapshots (states : list AppsStates) : list appSnapshot := app_snapshots None "" states.

Record testRow := {
  row_Test : TargetTest; CreatedShort : string; CreatedFull : string; CompletedShort : string; CompletedFull : string; row_Duration : string
}.
(** [%02d]. *)
Definition two_digits (n : Z) : string := if n <? 10 then "0" +:+ Itoa n else Itoa n.
Definition formatTestDuration (seconds : Z) : string :=
  let seconds := if seconds <? 0 then 0 else seconds in two_digits (seconds / 60) +:+ ":" +:+ two_digits (seconds `mod` 60).
Definition test_row (t : TargetTest) : testRow :=
  {| row_Test := t; CreatedShort := short_text (CreatedOn t); CreatedFull := full_text (CreatedOn t);
     CompletedShort := match CompletedOn t with Some ts => short_text ts | None => "" end;
     CompletedFull := match CompletedOn t with Some ts => full_text ts | None => "" end;
     row_Duration := match CompletedOn t with Some ts => formatTestDuration (wrap64 (ts - CreatedOn t)) | None => "" end |}.
Definition buildTestRows (tests : list TargetTest) : list testRow := test_row <$> tests.
Definition count_test (n : Z * Z * Z) (t : TargetTest) : Z * Z * Z :=
  let '(total, passed, failed) := n in
  if String.eqb (tt_Status t) "PASSED" then (total, passed + 1, failed)
  else if String.eqb (tt_Status t) "FAILED" then (total, passed, failed + 1)
  else (total, passed, failed).
Definition buildTestStats (tests : list TargetTest) : Z * Z * Z := foldl count_test (Z.of_nat (length tests), 0, 0) tests.
(** The rates of the page. *)
Definition test_rate (n total : Z) : Z := if 0 <? total then (n * 100) ÷ total else 0.
End Devices.

(** ** Tag and apps of a device *)

Record target := { tg_version : Z; tg_tags : list string; tg_apps : list string }.
(** What is decoded of the custom metadata of a target; [rt_Apps] are the keys. *)
Record raw_target := { rt_Version : string; rt_Tags : list string; rt_Apps : list string }.
Record sota_override := { so_Tag : option string; so_Apps : option string }.
(** go-toml into the two keys of the section pacman. *)
Class SotaToml := { sota_Unmarshal : string -> result sota_override }.

Definition parse_target `{JSON raw_target} (t : TargetFileMeta) : option target :=
  match json_Unmarshal (Custom t) with
  | Err _ => None
  | Ok raw =>
      match Atoi (rt_Version raw) with
      | None => None
      | Some version => Some {| tg_version := version; tg_tags := sort_strings (rt_Tags raw); tg_apps := sort_strings (rt_Apps raw) |}
      end
  end.
Definition parseTufTargetsForAppsConfig `{JSON raw_target} (targets : gmap string TargetFileMeta) : gmap string target := omap parse_target targets.
Definition tag_apps (tgt : target) (acc : gmap string (list string) * gmap string Z) (tag : string) : gmap string (list string) * gmap string Z :=
  let '(res, versions) := acc in
  match versions !! tag with
  | Some v => if v <? tg_version tgt then (<[tag := tg_apps tgt]> res, <[tag := tg_version tgt]> versions) else acc
  | None => (<[tag := tg_apps tgt]> res, <[tag := tg_version tgt]> versions)
  end.
Definition latest_apps (targets : list target) : gmap string (list string) * gmap string Z :=
  foldl (λ acc tgt, foldl (tag_apps tgt) acc (tg_tags tgt)) (∅, ∅) targets.
Definition getAppsForLatestTagsVersions (targets : gmap string target) : gmap string (list string) := (latest_apps (map_to_list targets).*2).1.
(** An empty list of apps switches all of them off; none at all inherits them. *)
Definition getTagAndAppsFromConfigs `{SotaToml} (files : gmap string ConfigFile) : result (string * option (list string)) :=
  match files !! ConfigSotaOverride with
  | None => Ok ("", None)
  | Some sotaFile =>
      sota ← sota_Unmarshal (cf_Value sotaFile);
      Ok (default "" (so_Tag sota), (λ apps, sort_strings (filter (λ app, app <> "") (Split apps ","))) <$> so_Apps sota)
  end.

(** ** Updates *)

(** What encoding/json decodes into an [any]; numbers keep their text. *)
Inductive json_any :=
  | JNull
  | JBool (b : bool)
  | JNumber (text : string)
  | JString (s : string)
  | JArray (l : list json_any)
  | JObject (m : gmap string json_any).
Notation UpdateTufResp := (gmap string (gmap string json_any)).
Definition as_object (o : option json_any) : option (gmap string json_any) := match o with Some (JObject m) => Some m | _ => None end.
Definition as_string (o : option json_any) : option string := match o with Some (JString s) => Some s | _ => None end.
Definition as_array (o : option json_any) : option (list json_any) := match o with Some (JArray l) => Some l | _ => None end.

Record releaseApplication := { ra_Name : string; ra_URI : string }.
Record latestTarget := {
  lt_Name : string; lt_Version : string; lt_Sha256 : string; Architecture : string; HardwareIDs : list string; lt_Tags : list string;
  lt_Apps : list releaseApplication
}.
Definition customStrings (custom : gmap string json_any) (field : string) : list string :=
  omap (λ v, match v with JString s => if String.eqb s "" then None else Some s | _ => None end) (default [] (as_array (custom !! field))).
Definition release_apps (custom : gmap string json_any) : list releaseApplication :=
  sort_by (λ a b, str_cmp (ra_Name a) (ra_Name b))
    (omap (λ kv, (λ uri, {| ra_Name := kv.1; ra_URI := uri |}) <$> (m ← as_object (Some kv.2); as_string (m !! "uri")))
       (map_to_list (default ∅ (as_object (custom !! "docker_compose_apps"))))).
(** A target with a version that is a number. *)
Definition target_version (t : json_any) : option (gmap string json_any * gmap string json_any * string * Z) :=
  t ← as_object (Some t);
  custom ← as_object (t !! "custom");
  versionStr ← as_string (custom !! "version");
  version ← Atoi versionStr;
  Some (t, custom, versionStr, version).
Definition latest_target (name : string) (t custom : gmap string json_any) (versionStr : string) : latestTarget :=
  {| lt_Name := name; lt_Version := versionStr;
     lt_Sha256 := default "" (hashes ← as_object (t !! "hashes"); as_string (hashes !! "sha256"));
     Architecture := default "" (as_string (custom !! "arch")); HardwareIDs := customStrings custom "hardwareIds";
     lt_Tags := customStrings custom "tags"; lt_Apps := release_apps custom |}.
Definition later_target (acc : option latestTarget * Z) (kv : string * json_any) : option latestTarget * Z :=
  match target_version kv.2 with
  | None => acc
  | Some (t, custom, versionStr, version) =>
      if version <=? acc.2 then acc else (Some (latest_target kv.1 t custom versionStr), version)
  end.
Definition tuf_targets (tuf : UpdateTufResp) : option (gmap string json_any) :=
  targetsJson ← tuf !! "targets.json";
  signed ← as_object (targetsJson !! "signed");
  as_object (signed !! "targets").
Definition findLatestTarget (tuf : UpdateTufResp) : option latestTarget :=
  match tuf_targets tuf with None => None | Some targets => (foldl later_target (None, -1) (map_to_list targets)).1 end.

Record tufMetadataItem := { tm_Name : string; tm_Expires : string }.
Definition releaseTufMetadata (tuf : UpdateTufResp) : list tufMetadataItem :=
  (λ role : string * string,
     let signed := as_object (default ∅ (tuf !! role.2) !! "signed") in
     {| tm_Name := role.1; tm_Expires := default "" (signed ← signed; as_string (signed !! "expires")) |})
  <$> [("Root", "root.json"); ("Timestamp", "timestamp.json"); ("Snapshot", "snapshot.json"); ("Targets", "targets.json")].

Record rolloutSummary := { rs_Name : string; rs_State : string; rs_DeviceCount : Z }.
Definition rolloutSummaryFrom (name : string) (rollout : Rollout) : rolloutSummary :=
  {| rs_Name := name; rs_State := if Commit rollout then "Scheduled" else "Preparing"; rs_DeviceCount := Z.of_nat (length (Effect rollout)) |}.

(** ** Configurations *)

(** A set of files with the files decoded; [None] is the nil map. *)
Record config_set := { cs_CreatedAt : Z; cs_CreatedBy : string; cs_Reason : string; cs_Files : option (gmap string ConfigFile) }.
Definition zero_configs : config_set := {| cs_CreatedAt := 0; cs_CreatedBy := ""; cs_Reason := ""; cs_Files := None |}.
Record historyRevision := { hr_ConfigFileSet : config_set; Current : bool }.
Definition buildHistoryRevisions (history : list config_set) : list historyRevision :=
  imap (λ i rev, {| hr_ConfigFileSet := rev; Current := Nat.eqb i 0 |}) history.
(** strings.FieldsFunc at newlines. *)
Definition lines_of (s : string) : list string := filter (λ l, l <> "") (Split s (byte 10)).

(** crypto/x509 and crypto/ecdsa: the type of the key of a certificate, and for
    one of the elliptic curve its curve and the bytes of the point. *)
Inductive cert_key := KeyEcdsa (curve bytes : string) | KeyEcdsaInvalid (err : error) | KeyOther (type : string).
Class CertKeys := { cert_public_key : Certificate -> cert_key; base64_RawURL : string -> string }.
Definition parseDevicePublicKey `{CertCodec, CertKeys} (certPem : string) : result string :=
  let certPem := TrimSpace certPem in
  if len certPem =? 0 then Ok "" else
  cert ← PemBytesToCertificate certPem;
  match cert_public_key cert with
  | KeyOther t => Err (ErrMsg ("unsupported device certificate key type " +:+ t +:+ ", must be ecdsa"))
  | KeyEcdsaInvalid err => Err (ErrWrap "failed to initialize ECDH key exchange" err)
  | KeyEcdsa curve bytes =>
      if negb (String.eqb curve "P-256")
      then Err (ErrMsg ("unsupported device certificate key curve " +:+ curve +:+ ", must be P256"))
      else Ok (base64_RawURL bytes)
  end.

(** ** Certificates *)

Record pkiCertificateRecord := {
  pk_Title : string; pk_Description : string; Subject : string; Issuer : string; pk_Expires : string; Serial : string;
  pk_Raw : string; pk_ExpiresAt : option Z; Configured : bool
}.
Record pkiRegistrySummary := { TrustItems : Z; ps_Configured : Z; NotConfigured : Z; EarliestExpiry : string }.
Record pkiRegistryData := { Summary : pkiRegistrySummary; Records : list pkiCertificateRecord }.
Record pkiCertificateSource := { src_title : string; src_description : string; src_resource : string }.
Definition pkiCertificateSources : list pkiCertificateSource :=
  [{| src_title := "Root CA"; src_description := "Server trust anchor"; src_resource := "root.crt" |};
   {| src_title := "Gateway TLS Certificate"; src_description := "Gateway server identity"; src_resource := "tls.crt" |};
   {| src_title := "Device CA"; src_description := "Device identity authority"; src_resource := "device-ca.crt" |};
   {| src_title := "CA Bundle"; src_description := "Trusted certificate bundle"; src_resource := "cas.pem" |}].
(** encoding/pem and crypto/x509: the next block of a text with what follows it;
    a certificate with its names, the end of its validity (in seconds) and serial
    number. *)
Record pem_item := { pi_Type : string; pi_Bytes : string; pi_Raw : string }.
Class PkiCodec := {
  pem_next : string -> option (pem_item * string);
  parse_cert : string -> result (string * string * Z * string);
  time_text : Z -> string
}.
(** Documented: a block is found in the text, and the rest is what comes after. *)
Class PkiCodecLaws `{PkiCodec} := { pem_next_shorter s b rest : pem_next s = Some (b, rest) -> (String.length rest < String.length s)%nat }.

Fixpoint hex_parts (s : string) : list string :=
  match s with "" => [] | String c s' => hex (str1 c) :: hex_parts s' end.
Definition formatSerial (b : string) : string := if len b =? 0 then "0" else Join (hex_parts b) ":".

Section Pki.
Context `{PkiCodec}.
Fixpoint parse_certs (fuel : nat) (rest : string) : result (list pkiCertificateRecord) :=
  match fuel with
  | O => Err (ErrMsg "out of fuel")
  | S fuel =>
      match pem_next rest with
      | None => Ok []
      | Some (block, rest) =>
          if negb (String.eqb (pi_Type block) "CERTIFICATE") then parse_certs fuel rest else
          '(subject, issuer, notAfter, serial) ← parse_cert (pi_Bytes block);
          records ← parse_certs fuel rest;
          Ok ({| pk_Title := ""; pk_Description := ""; Subject := subject; Issuer := issuer; pk_Expires := time_text notAfter;
                 Serial := formatSerial serial; pk_Raw := pi_Raw block; pk_ExpiresAt := Some notAfter; Configured := true |} :: records)
      end
  end.
Definition parsePkiCertificates (pemBytes : string) : result (list pkiCertificateRecord) :=
  records ← parse_certs (S (String.length pemBytes)) pemBytes;
  if (Z.of_nat (length records) =? 0) && negb (len (TrimSpace pemBytes) =? 0)
  then Err (ErrMsg "no PEM CERTIFICATE block found") else Ok records.

Definition record_titled (source : pkiCertificateSource) (n : nat) (index : nat) (record : pkiCertificateRecord) : pkiCertificateRecord :=
  {| pk_Title := if (1 <? n)%nat then src_title source +:+ " " +:+ Itoa (Z.of_nat index + 1) +:+ " of " +:+ Itoa (Z.of_nat n)
                 else src_title source;
     pk_Description := src_description source; Subject := Subject record; Issuer := Issuer record; pk_Expires := pk_Expires record;
     Serial := Serial record; pk_Raw := pk_Raw record; pk_ExpiresAt := pk_ExpiresAt record; Configured := Configured record |}.
Definition placeholder (source : pkiCertificateSource) : pkiCertificateRecord :=
  {| pk_Title := src_title source; pk_Description := src_description source; Subject := ""; Issuer := ""; pk_Expires := "";
     Serial := ""; pk_Raw := ""; pk_ExpiresAt := None; Configured := false |}.
Fixpoint pki_records (certs : gmap string string) (sources : list pkiCertificateSource) : result (list pkiCertificateRecord) :=
  match sources with
  | [] => Ok []
  | source :: sources' =>
      match parsePkiCertificates (default "" (certs !! src_resource source)) with
      | Err err => Err (ErrWrap ("parse " +:+ src_resource source) err)
      | Ok records =>
          rest ← pki_records certs sources';
          Ok ((match records with [] => [placeholder source] | _ => imap (record_titled source (length records)) records end) ++ rest)
      end
  end.
Definition earliest (acc t : option Z) : option Z :=
  match acc, t with None, _ => t | _, None => acc | Some a, Some b => Some (if b <? a then b else a) end.
Definition buildPkiRegistryData (certs : gmap string string) : result pkiRegistryData :=
  records ← pki_records certs pkiCertificateSources;
  let configured := Z.of_nat (length (filter (λ r, Configured r = true) records)) in
  let total := Z.of_nat (length records) in
  Ok {| Summary := {| TrustItems := total; ps_Configured := configured; NotConfigured := total - configured;
                      EarliestExpiry := match foldl earliest None (pk_ExpiresAt <$> records) with
                                        | Some t => time_text t
                                        | None => bytes [226; 128; 148]%nat
                                        end |};
        Records := records |}.
End Pki.
