(* ===== verification/Web.v ===== *)
(** server/ui/web: the pages and forms of the operators.  A page is read from
    the API of the same server by an HTTP client that carries the cookie of the
    session; accounts, tokens and the activation of devices are changed in the
    storage directly. *)
From S2P Require Import Prelude GoStrings Bytes GoPath Schema World BaseFs Crypto Encoding Models Tar Configs Updates FsHandles Tuf TufFs ApiStorage ApiUpdate Http Scopes Users UserOps Auth Gateway WebPages.

(** ** The HTTP client *)

Record response := { rs_status : Z; rs_headers : gmap string (list string); rs_body : result string }.
(** net/http: the request goes out, something answers it. *)
Class HttpClient (P : Type) := { http_Do : request -> H P response }.
Definition new_request (m : http_method) (url body : string) : request :=
  {| rq_method := m; rq_path := url; rq_route := ""; rq_ip := ""; rq_scheme := ""; rq_host := ""; rq_headers := ∅; rq_cookies := ∅;
     rq_params := ∅; rq_query := ∅; rq_form := ∅; rq_body := Ok body; rq_csrf := None |}.

Section Client.
Context {P : Type} `{HttpClient P}.
(** [None]: an answer without content, which leaves the result as it was. *)
Definition reqJsonWithHeaders {A} (decode : string -> result A) (s : Session) (req : request) : H P (gmap string (list string) * option A) :=
  resp ← http_Do (RoundTrip (Client s) req);
  if rs_status resp =? 200 then
    v ← lift (body ← rs_body resp; decode body); mret (rs_headers resp, Some v)
  else if rs_status resp =? 204 then mret (rs_headers resp, None)
  else fail (ErrMsg ("unexpected status code: HTTP_" +:+ Itoa (rs_status resp) +:+ ": " +:+
                     match rs_body resp with Ok body => body | Err _ => "" end)).
Definition getJsonWithHeaders {A} `{JSON A} (s : Session) (resource : string) : H P (gmap string (list string) * option A) :=
  reqJsonWithHeaders json_Unmarshal s (new_request GET (session_BaseUrl s +:+ resource) "").
Definition getJson {A} `{JSON A} (s : Session) (resource : string) : H P (option A) :=
  r ← getJsonWithHeaders s resource; mret r.2.
(** The result of the answer is skipped; [ctx] is the request being handled. *)
Definition putJson {A} `{JSON A} (ctx : request) (s : Session) (resource : string) (data : A) : H P unit :=
  reqJsonWithHeaders (λ _, Ok tt) s
    (PassCsrfCookie ctx (set_header "content-type" "application/json"
       (new_request PUT (session_BaseUrl s +:+ resource) (json_Marshal data +:+ str1 (byte 10)))));;
  mret tt.
End Client.

(** ** Pages *)

Record navItem := { ni_Title : string; Href : string; Selected : bool }.
Record Base := {
  pg_User : option User; pg_Title : string; BrandName : string; LogoPath : string; NavItems : list navItem; CsrfToken : string; pg_Version : string
}.
Definition genNavItems (selected : string) : list navItem :=
  (λ i : string * string * string, {| ni_Title := i.1.1; Href := i.1.2; Selected := String.eqb selected i.2 |}) <$>
    [(devicesLabel, "/devices", "devices"); ("Configs", "/configs", "configs"); (updatesLabel, "/updates", "updates");
     (usersLabel, "/users", "users"); ("PKI", "/pki", "pki")].
Definition base_page (branding : Branding) (version : string) (session : option Session) (r : request) (title selected : string) : Base :=
  {| pg_User := session_User <$> session; pg_Title := title; BrandName := br_Title branding;
     LogoPath := if String.eqb (Logo branding) "" then "" else "/branding/" +:+ Logo branding;
     NavItems := match session with Some _ => genNavItems selected | None => [] end;
     CsrfToken := default "" (c_Cookie r CsrfCookieName); pg_Version := version |}.

(** ** Request bodies *)

Record scopesRequest := { sr_Scopes : list string }.
Record TokenRequest := { tk_Description : string; tkr_Scopes : list string; tk_Expires : string }.
Record TokenUpdateRequest := { tu_Description : string; tu_Scopes : list string }.
Record configPatch := { cp_Reason : string; FileName : string; cp_OnChanged : string; Encrypted : bool; cp_Value : string }.
Record configDelete := { cd_FileName : string; cd_Reason : string }.
Record appState := { ap_States : list AppsStates }.

(** embed.FS and os.Stat of the favicon. *)
Record handlers := {
  h_storage : Storage; h_provider_name : string; styleEtag : string; h_branding : Branding; brandingDir : string;
  h_version : string; favicon_svg : option string
}.

Section Web.
Context `{HD : Digest, HT : TimeFormat, HQ : SqliteJson, HCC : CertCodec, HN : Encoders, HPT : PageTimes, HU : Unicode, HK : CertKeys, HPC : PkiCodec, HST : SotaToml, HQP : QueryParams}.
Context `{B1 : Bind scopesRequest, B2 : Bind TokenRequest, B3 : Bind TokenUpdateRequest, B4 : Bind configPatch, B5 : Bind configDelete}.
Context `{J1 : JSON (list DeviceListItem), J2 : JSON ApiDevice, J3 : JSON (list string), J4 : JSON (list DeviceUpdateEvent), J5 : JSON appState}.
Context `{J6 : JSON (list TargetTest), J7 : JSON TargetTest, J8 : JSON (gmap string string), J9 : JSON config_set, J10 : JSON (list config_set)}.
Context `{J11 : JSON AppliedConfigs, J12 : JSON (list Update), J13 : JSON UpdateSummary, J14 : JSON UpdateTufResp, J15 : JSON Rollout}.
Context `{J16 : JSON AtsTufTargets, J17 : JSON raw_target, J18 : JSON ipInfo, J19 : JSON (gmap string json_any)}.
Context {P : Type} `{HC : HttpClient P} (h : handlers) (provider : Provider P).
Notation HW := (H P).
Notation users := (h_storage h).
(** A handler behind [requireSession]: the context of the request has the session. *)
Definition session_handler : Type := Session -> handler P.

Definition baseCtx (s : Session) (r : request) (title selected : string) : Base :=
  base_page (h_branding h) (h_version h) (Some s) r title selected.
(** templates.ExecuteTemplate: written to the response as it is rendered. *)
Definition page {A} (name : string) (data : A) : HW unit := put_out (Render name (any_json data)).
(** c.Render: rendered first, then sent with its status. *)
Definition c_Render {A} (code : Z) (name : string) (data : A) : HW unit := c_JSON code (name, any_json data).
Definition handleError (s : Session) (r : request) (statusCode : Z) (err : error) : HW unit :=
  c_Render statusCode "error.html" (baseCtx s r "Unexpected Error" "", statusCode, Error err).
Definition handleUnexpected (s : Session) (r : request) (err : error) : HW unit := handleError s r 500 err.
(** [if err := m; err != nil { return h.handleUnexpected(c, err) }]. *)
Definition or_unexpected {A} (s : Session) (r : request) (m : HW A) (k : A -> HW unit) : HW unit :=
  v ← try m; match v with Err err => handleUnexpected s r err | Ok v => k v end.
(** The same for a resource of the API, [zero] being what it is decoded into. *)
Definition with_json {A} `{JSON A} (s : Session) (r : request) (resource : string) (zero : A) (k : A -> HW unit) : HW unit :=
  or_unexpected s r (getJson s resource) (λ v, k (default zero v)).

(** ** Middleware *)

Definition web_requireSession (next : session_handler) : handler P := λ r,
  session ← try (GetSession provider r);
  match session with
  | Err err => EchoErr 500 err
  | Ok None => mret tt
  | Ok (Some session) => next session r
  end.
Definition web_requireScope (scope : Scopes) (next : session_handler) : session_handler := λ s r,
  if negb (Has (AllowedScopes (session_User s)) scope)
  then handleError s r 403 (ErrMsg ("user missing required scope: " +:+ scopes_String scope))
  else next s r.
(** Behind the session, for the routes that name it themselves. *)
Definition web_csrf (next : session_handler) : session_handler := λ s r, CsrfCheck (next s) r.

(** ** Assets *)

Definition css : handler P := λ r,
  if String.eqb (Header_Get r "if-none-match") (styleEtag h) then c_NoContent 304 else
  Header_Set "ETag" (styleEtag h);;
  Header_Set "Cache-Control" "public, max-age=3600";;
  Header_Set "Content-Type" "text/css";;
  page (c_Param r "filename") (h_branding h).
Definition index : session_handler := λ _ r, c_Redirect 307 "/devices".
Definition brandingAsset : handler P := λ r,
  let logo := Logo (h_branding h) in
  if String.eqb logo "" || negb (String.eqb (c_Param r "filename") logo) || negb (String.eqb (filepath_Base logo) logo)
  then fail (ErrHTTP 404 "Not Found")
  else c_File (filepath_Join [brandingDir h; logo]).
Definition favicon_embedded : HW unit :=
  match favicon_svg h with
  | None => fail (ErrHTTP 404 "Not Found")
  | Some b => Header_Set "Cache-Control" "public, max-age=3600";; c_String 200 b
  end.
Definition favicon : handler P := λ r,
  let f := Favicon (h_branding h) in
  if negb (String.eqb f "") && String.eqb (filepath_Base f) f then
    let p := filepath_Join [brandingDir h; f] in
    st ← try (io (os_Stat p));
    match st with Ok _ => c_File p | Err _ => favicon_embedded end
  else favicon_embedded.
Definition authLogout : session_handler := λ s r, DropSession provider r s;; c_Redirect 307 "/".

(** ** Accounts (handlers_users.go) *)

(** A method on the user that was looked up; an unknown name gave a nil pointer. *)
Definition found_user (s : Session) (r : request) (k : User -> HW unit) : HW unit :=
  '(user, err) ← io (Storage_Get (c_Param r "username"));
  match err, user with
  | Some err, _ => handleError s r 404 err
  | None, None => fail nil_dereference
  | None, Some user => k user
  end.
Definition usersList : session_handler := λ s r,
  or_unexpected s r (io Storage_List) (λ userList,
    let viewerScopes := AllowedScopes (session_User s) in
    let permissions := directoryPermissionsFor (h_provider_name h) viewerScopes in
    page "users.html" (baseCtx s r usersLabel "users", buildUserDirectoryEntries userList (Username (session_User s)) permissions,
                       ScopesAvailable, CanCreateUser permissions, IsLocalAuth permissions, h_provider_name h)).
Definition userDelete : session_handler := λ s r, found_user s r (λ user,
  if String.eqb (Username (session_User s)) (Username user) then EchoError 400 "users cannot delete themselves"
  else or_unexpected s r (io (User_Delete users user)) (λ _, mret tt)).
Definition usersAuditLog : session_handler := λ s r, found_user s r (λ user,
  or_unexpected s r (io (User_GetAuditLog users user)) (λ log, c_String 200 log)).
Definition userScopesUpdate : session_handler := λ s r,
  if negb (Has (AllowedScopes (session_User s)) ScopeUsersRU)
  then EchoError 403 ("user missing required scope: " +:+ scopes_String ScopeUsersRU) else
  match bind_request r with
  | Err _ => EchoError 400 "Could not parse request"
  | Ok req =>
      if Z.of_nat (length (sr_Scopes req)) =? 0 then EchoError 400 "at least one scope is required" else
      match ScopesFromSlice (sr_Scopes req) with
      | Err err => EchoError 400 ("Invalid scope: " +:+ Error err)
      | Ok scopes =>
          found_user s r (λ user,
            or_unexpected s r (io (User_Update users (with_AllowedScopes scopes user) ("Scopes changed by " +:+ Username (session_User s))))
              (λ _, c_NoContent 204))
      end
  end.
(** What creation and change of a token check of the fields alike. *)
Definition token_fields (description : string) (scopes : list string) (k : Scopes -> HW unit) : HW unit :=
  if len description =? 0 then EchoError 400 "token description is required" else
  if Z.of_nat (length scopes) =? 0 then EchoError 400 "at least one scope is required" else
  match ScopesFromSlice scopes with
  | Err err => EchoError 400 ("Invalid scope: " +:+ Error err)
  | Ok scopes => k scopes
  end.
(** The name in the path is not looked at: tokens are those of the session's user. *)
Definition userTokenCreate : session_handler := λ s r,
  match bind_request r with
  | Err _ => EchoError 400 "Could not parse request"
  | Ok req =>
      token_fields (tk_Description req) (tkr_Scopes req) (λ scopes,
        match parse_ns (tk_Expires req) with
        | None => EchoError 400 ("Invalid date format. Expected ISO date string. Got" +:+ tk_Expires req)
        | Some expires =>
            now ← gets (λ s, clock (sv_world s) * 10 ^ 6);
            if expires <? now then EchoError 400 ("expiration date must be in the future. Got: " +:+ tk_Expires req) else
            tok ← try (io (GenerateToken users (session_User s) (tk_Description req) (expires / 10 ^ 9) scopes));
            match tok with
            | Err err => EchoErr 400 err
            | Ok tok => c_String 201 (Value tok)
            end
        end)
  end.
Definition userTokenDelete : session_handler := λ s r,
  match Atoi (c_Param r "tokenID") with
  | None => EchoError 400 "Invalid token ID format"
  | Some tokenID => or_error (DeleteToken users (session_User s) tokenID) 500 "Failed to delete token";; c_NoContent 204
  end.

(** ** Settings (handlers_settings.go) *)

Definition settings : session_handler := λ s r,
  or_unexpected s r (io (ListTokens (session_User s))) (λ tokens,
    let scopes := ToSlice (AllowedScopes (session_User s)) in
    groups ← lift (groupSettingsScopes scopes);
    c_Render 200 "settings.html"
      (baseCtx s r "Settings" "settings", tokens, scopes, Grantable (AllowedScopes (session_User s)), groups,
       String.eqb (h_provider_name h) "local", base_url r +:+ "/v1/devices", base_url r +:+ "/oauth2")).
Definition settingsTokenUpdate : session_handler := λ s r,
  match Atoi (c_Param r "tokenID") with
  | None => EchoError 400 "Invalid token ID format"
  | Some tokenID =>
      match bind_request r with
      | Err _ => EchoError 400 "Could not parse request"
      | Ok req =>
          let description := TrimSpace (tu_Description req) in
          token_fields description (tu_Scopes req) (λ scopes,
            u ← try (io (UpdateToken users (session_User s) tokenID description scopes));
            match u with Err err => EchoErr 400 err | Ok _ => c_NoContent 204 end)
      end
  end.

(** ** Activation of devices (handlers_oauth2.go) *)

Definition web_authDevice : session_handler := λ s r,
  c_Render 200 "device_auth.html" (baseCtx s r "API Activation" "settings", c_QueryParam r "user_code").
Definition errDeviceAuthInvalidCode := ErrMsg "invalid user code".
Definition errDeviceAuthExpired := ErrMsg "authorization code expired".
Definition errDeviceAuthAlreadyHandled := ErrMsg "this device has already been authorized or denied".
(** The authorization of a code that is still to be decided; [refuse] answers. *)
Definition pending_auth (userCode : string) (refuse : Z -> error -> HW unit) (failed : error) (k : OAuth2DeviceAuth -> HW unit) : HW unit :=
  if String.eqb userCode "" then EchoError 400 "user_code is required" else
  auth ← try (io (GetDeviceAuthByUserCode userCode));
  match auth with
  | Err _ => refuse 500 failed
  | Ok None => refuse 404 errDeviceAuthInvalidCode
  | Ok (Some auth) =>
      now ← io time_now_unix;
      if da_ExpiresAt auth <? now then refuse 400 errDeviceAuthExpired
      else if Authorized auth || Denied auth then refuse 400 errDeviceAuthAlreadyHandled
      else k auth
  end.
Definition lookup_failed := ErrMsg "Failed to get device authorization".
Definition authDeviceConfirm : session_handler := λ s r,
  let userCode := c_QueryParam r "user_code" in
  pending_auth userCode EchoErr lookup_failed (λ auth,
    match ScopesFromString (da_Scopes auth) with
    | Err _ => EchoError 500 ("Failed to parse requested scopes: " +:+ da_Scopes auth)
    | Ok scopes =>
        let allowedScopes := Z.land scopes (AllowedScopes (session_User s)) in
        if allowedScopes =? 0 then EchoError 403 ("user is missing required scope(s): " +:+ scopes_String scopes) else
        c_Render 200 "device_auth_confirm.html"
          (baseCtx s r "API Activation" "settings", userCode, scopes_String allowedScopes, TokenExpires auth)
    end).
Definition activation_page (s : Session) (r : request) (message : string) : HW unit :=
  c_Render 200 "device_auth_success.html" (baseCtx s r "API Activation" "settings", message).
Definition authDeviceAuthorize : session_handler := λ s r,
  pending_auth (c_FormValue r "user_code") EchoErr lookup_failed (λ auth,
    match ScopesFromString (da_Scopes auth) with
    | Err _ => EchoError 500 ("Failed to parse requested scopes: " +:+ da_Scopes auth)
    | Ok scopes =>
        let allowedScopes := Z.land scopes (AllowedScopes (session_User s)) in
        or_unexpected s r (io (ApproveAuthorization users (session_User s) (DeviceCode auth) (c_FormValue r "token_description") allowedScopes)) (λ _,
          activation_page s r "Activation successful! You can close this window and return to your device.")
    end).
Definition authDeviceDeny : session_handler := λ s r,
  pending_auth (c_FormValue r "user_code") (handleError s r) (ErrMsg "failed to get device authorization") (λ auth,
    or_unexpected s r (io (DenyDeviceAuth users (session_User s) (DeviceCode auth))) (λ _,
      activation_page s r "Activation denied. You can close this window.")).

(** ** Configurations (handlers_configs.go, handlers_device_apps.go) *)

Definition configsEditable (s : Session) : bool := Has (AllowedScopes (session_User s)) (Z.lor ScopeDevicesRU ScopeUpdatesRU).
Definition configsList : session_handler := λ s r,
  with_json s r "/v1/configs/factory" zero_configs (λ configs,
  with_json s r "/v1/known-labels/device-groups" [] (λ groups : list string,
    page "configs_list.html" (baseCtx s r "Global Configs" "configs", configs, groups, configsEditable s, ""))).
Definition configsGlobalHistory : session_handler := λ s r,
  with_json s r "/v1/configs/factory/history?show-files=true" [] (λ history : list config_set,
    page "configs_global_history.html" (baseCtx s r "Global Configs History" "configs", buildHistoryRevisions history)).
(** The first of the history is the current set. *)
Definition current_configs (history : list config_set) : config_set := default zero_configs (head history).
Definition configsGroupItem : session_handler := λ s r,
  let group := c_Param r "name" in
  with_json s r ("/v1/configs/group/" +:+ group +:+ "/history?show-files=true") [] (λ history : list config_set,
    page "configs_item.html" (baseCtx s r ("Group " +:+ dquote +:+ group +:+ dquote +:+ " Configs") "configs", group, current_configs history,
                              buildHistoryRevisions history, configsEditable s, "")).
Definition zero_device : ApiDevice :=
  {| ad_item := {| li_Uuid := ""; li_CreatedAt := 0; li_LastSeen := 0; li_Target := ""; li_Tag := ""; li_Labels := ∅ |};
     ad_Apps := []; ad_OstreeHash := ""; ad_Cert := ""; ad_UpdateName := ""; Aktoml := ""; HwInfo := ""; NetInfo := ""; ad_Status := None |}.
Definition with_device (s : Session) (r : request) (k : ApiDevice -> HW unit) : HW unit :=
  with_json s r ("/v1/devices/" +:+ c_Param r "uuid") zero_device k.
Definition device_title (r : request) (what : string) : string := "Device " +:+ dquote +:+ c_Param r "uuid" +:+ dquote +:+ what.
Definition configsDeviceItem : session_handler := λ s r, with_device s r (λ device,
  with_json s r ("/v1/configs/device/" +:+ c_Param r "uuid" +:+ "/history?show-files=true") [] (λ history : list config_set,
    match parseDevicePublicKey (ad_Cert device) with
    | Err err => handleUnexpected s r err
    | Ok pubkey =>
        page "configs_device_item.html" (baseCtx s r (device_title r " Configs") "devices", device, current_configs history,
                                         buildHistoryRevisions history, configsEditable s, pubkey)
    end)).
Definition zero_applied : AppliedConfigs := {| ac_Files := ∅; AppliedAt := 0; AuditTrail := [] |}.
Definition configsDeviceItemApplied : session_handler := λ s r, with_device s r (λ device,
  with_json s r ("/v1/configs/device/" +:+ c_Param r "uuid" +:+ "/applied") zero_applied (λ applied,
    page "applied_configs_item.html" (baseCtx s r (device_title r " Applied Config") "devices", device, applied))).
Definition configsDeviceItemHistory : session_handler := λ s r,
  match query_int_or r "open" (-1) with
  | Err err => handleUnexpected s r err
  | Ok openIndex =>
      with_json s r ("/v1/configs/device/" +:+ c_Param r "uuid" +:+ "/history?show-files=" +:+ (if 0 <=? openIndex then "true" else "false"))
        [] (λ history : list config_set,
        page "configs_history.html" (baseCtx s r (device_title r " Configs History") "devices", history, openIndex))
  end.
Definition with_files (reason : string) (files : gmap string ConfigFile) (c : config_set) : config_set :=
  {| cs_CreatedAt := cs_CreatedAt c; cs_CreatedBy := cs_CreatedBy c; cs_Reason := reason; cs_Files := Some files |}.
Definition patched_file (patch : configPatch) : ConfigFile :=
  {| cf_Value := cp_Value patch; Unencrypted := negb (Encrypted patch); OnChanged := lines_of (cp_OnChanged patch) |}.
Definition configsPatchConfigFile (apiUrl : request -> string) : session_handler := λ s r,
  match bind_request r with
  | Err _ => EchoError 400 "Could not parse request"
  | Ok patch =>
      if len (FileName patch) =? 0 then EchoError 400 "File name is mandatory" else
      with_json s r (apiUrl r) zero_configs (λ configs,
        let files := <[FileName patch := patched_file patch]> (default ∅ (cs_Files configs)) in
        or_unexpected s r (putJson r s (apiUrl r) (with_files (cp_Reason patch) files configs)) (λ _, c_NoContent 200))
  end.
Definition configsDeleteConfigFile (apiUrl : request -> string) : session_handler := λ s r,
  match bind_request r with
  | Err _ => EchoError 400 "Could not parse request"
  | Ok patch =>
      with_json s r (apiUrl r) zero_configs (λ configs,
        match cs_Files configs with
        | None => c_NoContent 200
        | Some files =>
            or_unexpected s r (putJson r s (apiUrl r) (with_files (cd_Reason patch) (delete (cd_FileName patch) files) configs))
              (λ _, c_NoContent 200)
        end)
  end.
Definition factory_url (_ : request) : string := "/v1/configs/factory".
Definition group_url (r : request) : string := "/v1/configs/group/" +:+ c_Param r "name".
Definition device_url (r : request) : string := "/v1/configs/device/" +:+ c_Param r "uuid".
Definition configsGlobalPatch : session_handler := configsPatchConfigFile factory_url.
Definition configsGlobalDelete : session_handler := configsDeleteConfigFile factory_url.
Definition configsGroupItemPatch : session_handler := configsPatchConfigFile group_url.
Definition configsGroupItemDelete : session_handler := configsDeleteConfigFile group_url.
Definition configsDeviceItemPatch : session_handler := configsPatchConfigFile device_url.
Definition configsDeviceItemDelete : session_handler := configsDeleteConfigFile device_url.

Definition zero_targets : AtsTufTargets :=
  {| targets_Signatures := []; targets_Signed := {| tm_Common := {| sc_Type := ""; Expires := 0; Version := 0 |}; Targets := ∅ |} |}.
Definition configsDeviceItemApps : session_handler := λ s r, with_device s r (λ device,
  with_json s r (device_url r) zero_configs (λ configs,
    match getTagAndAppsFromConfigs (default ∅ (cs_Files configs)) with
    | Err err => handleUnexpected s r err
    | Ok (sotaTag, sotaApps) =>
        let tag := li_Tag (ad_item device) in
        let update := ad_UpdateName device in
        let show (tagsToApps : gmap string (list string)) :=
          page "device_apps.html"
            (baseCtx s r (device_title r " Tag & Apps") "devices", device, update, negb (String.eqb sotaTag ""), bool_decide (is_Some sotaApps),
             tag, sotaTag, default [] sotaApps, sort_strings (map_to_list tagsToApps).*1, tagsToApps, ConfigSotaOverride, configsEditable s) in
        if negb (String.eqb tag "") && negb (String.eqb update "") then
          with_json s r ("/v1/updates/" +:+ update +:+ "/tuf/targets.json") zero_targets (λ tufTargets,
            show (getAppsForLatestTagsVersions (parseTufTargetsForAppsConfig (Targets (targets_Signed tufTargets)))))
        else show ∅
    end)).

(** ** Devices (handlers_devices.go) *)

Definition devicesList : session_handler := λ s r,
  let page_no := page_of r in
  or_unexpected s r (getJsonWithHeaders s (devices_resource page_no (sort_of r))) (λ res : gmap string (list string) * option (list DeviceListItem),
    let link := first_of res.1 "Link" in
    page "devices_list.html"
      (baseCtx s r devicesLabel "devices", default [] res.2, Has (AllowedScopes (session_User s)) ScopeDevicesD, page_no,
       linkTotalPages link pageSize, linkHasRel link "next", 1 <? page_no, sort_of r)).
(** The text of the hardware information, indented when it is an object. *)
Definition indented (device : ApiDevice) : option (gmap string json_any) :=
  match json_Unmarshal (HwInfo device) with Ok hw => Some hw | Err _ => None end.
Definition net_info (device : ApiDevice) : option ipInfo := match json_Unmarshal (NetInfo device) with Ok info => Some info | Err _ => None end.
Definition with_updates (s : Session) (r : request) (k : list string -> HW unit) : HW unit :=
  with_json s r ("/v1/devices/" +:+ c_Param r "uuid" +:+ "/updates") [] k.
Definition devicesGet : session_handler := λ s r, with_device s r (λ device, with_updates s r (λ updates,
  page "device.html" (baseCtx s r ("Device - " +:+ li_Uuid (ad_item device)) "devices", device, net_info device, indented device, take 5 updates,
                      Z.of_nat (length updates)))).
Definition devicesUpdatesGet : session_handler := λ s r, with_device s r (λ device, with_updates s r (λ updates,
  page "device_updates.html" (baseCtx s r ("Device - " +:+ li_Uuid (ad_item device)) "devices", device, updates))).
Definition devicesUpdateGet : session_handler := λ s r,
  with_json s r ("/v1/devices/" +:+ c_Param r "uuid" +:+ "/updates/" +:+ c_Param r "update") [] (λ events : list DeviceUpdateEvent,
    '(steps, duration, failed) ← lift (buildUpdateSteps events);
    page "device_update.html"
      (baseCtx s r ("Update " +:+ c_Param r "update") "devices", events, steps, (λ ev, ev_TargetName (Event ev)) <$> head events,
       DeviceTime <$> head events, DeviceTime <$> last events, duration, (c_Param r "uuid", c_Param r "update", failed : bool))).
Definition devicesAppsStates : session_handler := λ s r, with_device s r (λ device,
  with_json s r ("/v1/devices/" +:+ c_Param r "uuid" +:+ "/apps-states") {| ap_States := [] |} (λ states,
    page "device_apps_states.html" (baseCtx s r ("Device - " +:+ c_Param r "uuid" +:+ " Apps States") "devices", device,
                                    buildAppSnapshots (ap_States states)))).
Definition devicesTests : session_handler := λ s r, with_device s r (λ device,
  with_json s r ("/v1/devices/" +:+ c_Param r "uuid" +:+ "/tests") [] (λ tests : list TargetTest,
    let '(total, passed, failed) := buildTestStats tests in
    page "device_tests.html" (baseCtx s r ("Device - " +:+ c_Param r "uuid" +:+ " Tests") "devices", device, buildTestRows tests, total, passed,
                              failed, test_rate passed total, test_rate failed total))).
Definition zero_test : TargetTest :=
  {| tt_Uuid := ""; tt_Name := ""; tt_TargetName := ""; tt_Status := ""; CreatedOn := 0; CompletedOn := None; tt_Details := "";
     Artifacts := []; Results := [] |}.
Definition devicesTestGet : session_handler := λ s r,
  with_json s r ("/v1/devices/" +:+ c_Param r "uuid" +:+ "/tests/" +:+ c_Param r "testid") zero_test (λ test,
    page "device_test.html" (baseCtx s r ("Device - " +:+ c_Param r "uuid" +:+ " Test - " +:+ tt_Name test) "devices", c_Param r "uuid",
                             test_row test)).
Definition devicesLabelsGet : session_handler := λ s r, with_device s r (λ device,
  with_json s r "/v1/known-labels/devices" [] (λ knownLabels : list string,
  with_json s r "/v1/known-labels/device-groups" [] (λ knownGroups : list string,
    page "device_labels.html" (baseCtx s r ("Manage labels for - " +:+ li_Uuid (ad_item device)) "devices", device, knownLabels, knownGroups)))).

(** ** Updates (handlers_updates.go) *)

Definition updatesList : session_handler := λ s r,
  with_json s r "/v1/updates" [] (λ updates : list Update,
    page "updates.html" (baseCtx s r updatesLabel "updates", updates, Has (AllowedScopes (session_User s)) ScopeUpdatesD)).
Definition zero_rollout : Rollout := {| ro_CreatedAt := 0; Uuids := []; Groups := []; Effect := []; Commit := false |}.
Definition zero_summary : UpdateSummary := {| us_Status := ∅; us_Tag := "" |}.
Definition update_url (r : request) : string := "/v1/updates/" +:+ c_Param r "name".
Fixpoint rollout_summaries (s : Session) (r : request) (names : list string) (k : list rolloutSummary -> HW unit) : HW unit :=
  match names with
  | [] => k []
  | name :: names' =>
      with_json s r (update_url r +:+ "/rollouts/" +:+ name) zero_rollout (λ rollout,
        rollout_summaries s r names' (λ rest, k (rolloutSummaryFrom name rollout :: rest)))
  end.
(** Rollouts come in the order of their files' times: the last is the latest. *)
Definition updatesGet : session_handler := λ s r,
  with_json s r (update_url r +:+ "/rollouts") [] (λ rollouts : list string,
  with_json s r (update_url r +:+ "/summary") zero_summary (λ summary,
  with_json s r "/v1/known-labels/device-groups" [] (λ groups : list string,
    tuf ← try (getJson s (update_url r +:+ "/tuf"));
    let '(tuf, tufErr) := match tuf with
                          | Ok tuf => (default (∅ : UpdateTufResp) tuf, "")
                          | Err _ => (∅, "Unable to look up the TUF metadata")
                          end in
    rollout_summaries s r rollouts (λ summaries,
      page "update.html"
        (baseCtx s r "Update Details" "updates", us_Tag summary, c_Param r "name", summary, summaries, last summaries, groups, tuf,
         (findLatestTarget tuf, releaseTufMetadata tuf, tufErr)))))).
Definition updatesRollout : session_handler := λ s r,
  let url := update_url r +:+ "/rollouts/" +:+ c_Param r "rollout" in
  details ← try (getJson s url);
  match details with
  | Err err => EchoErr 500 err
  | Ok details =>
      with_json s r (url +:+ "/summary") zero_summary (λ summary,
        page "update_rollout.html" (baseCtx s r "Rollout Details" "updates", us_Tag summary, c_Param r "name", c_Param r "rollout",
                                    default zero_rollout details, summary))
  end.
Definition updatesTail : session_handler := λ s r,
  page "update_tail.html" (baseCtx s r "Update Progress" "updates", c_Param r "name", "", update_url r +:+ "/tail").
Definition updatesRolloutTail : session_handler := λ s r,
  page "rollout_tail.html" (baseCtx s r "Rollout Progress" "updates", c_Param r "name", c_Param r "rollout",
                            update_url r +:+ "/rollouts/" +:+ c_Param r "rollout" +:+ "/tail").

(** ** Certificates (handlers_pki.go) *)

Definition pki : session_handler := λ s r,
  with_json s r "/v1/pki/cert?name=root.crt&name=tls.crt&name=device-ca.crt&name=cas.pem" ∅ (λ certs : gmap string string,
    match buildPkiRegistryData certs with
    | Err err => handleUnexpected s r err
    | Ok registry => c_Render 200 "pki.html" (baseCtx s r "PKI" "pki", Summary registry, Records registry)
    end).

(** ** Routes *)

Definition moved (suffix : string) : handler P := λ r, c_Redirect 301 ("/devices/" +:+ c_Param r "uuid" +:+ suffix).
Definition open_routes : list (http_method * string * handler P) :=
  [(GET, "/healthz", λ _, c_String 200 "ok"); (GET, "/css/:filename", css); (GET, "/branding/:filename", brandingAsset);
   (GET, "/favicon", favicon); (GET, "/configs/device/:uuid", moved "/configs"); (GET, "/configs/device/:uuid/applied", moved "/applied-configs");
   (GET, "/configs/device/:uuid/apps", moved "/configs/apps"); (GET, "/configs/device/:uuid/history", moved "/configs/history")].
(** The routes behind the session that fetch and show, with their scope. *)
Definition page_routes : list (string * option Scopes * session_handler) :=
  [("/", None, index); ("/auth/activate", None, web_authDevice); ("/configs", Some ScopeDevicesR, configsList);
   ("/configs/global/history", Some ScopeDevicesR, configsGlobalHistory); ("/configs/group/:name", Some ScopeDevicesR, configsGroupItem);
   ("/devices", Some ScopeDevicesR, devicesList); ("/devices/:uuid", Some ScopeDevicesR, devicesGet);
   ("/devices/:uuid/apps-states", Some ScopeDevicesR, devicesAppsStates); ("/devices/:uuid/labels", Some ScopeDevicesR, devicesLabelsGet);
   ("/devices/:uuid/tests", Some ScopeDevicesR, devicesTests); ("/devices/:uuid/tests/:testid", Some ScopeDevicesR, devicesTestGet);
   ("/devices/:uuid/updates", Some ScopeDevicesR, devicesUpdatesGet); ("/devices/:uuid/updates/:update", Some ScopeDevicesR, devicesUpdateGet);
   ("/pki", None, pki); ("/devices/:uuid/configs", Some ScopeDevicesR, configsDeviceItem);
   ("/devices/:uuid/applied-configs", Some ScopeDevicesR, configsDeviceItemApplied);
   ("/devices/:uuid/configs/apps", Some ScopeDevicesR, configsDeviceItemApps);
   ("/devices/:uuid/configs/history", Some ScopeDevicesR, configsDeviceItemHistory); ("/settings", None, settings);
   ("/updates", Some ScopeUpdatesR, updatesList); ("/updates/:name", Some ScopeUpdatesR, updatesGet);
   ("/updates/:name/tail", Some ScopeUpdatesR, updatesTail); ("/updates/:name/rollouts/:rollout", Some ScopeUpdatesR, updatesRollout);
   ("/updates/:name/rollouts/:rollout/tail", Some ScopeUpdatesR, updatesRolloutTail); ("/users", Some ScopeUsersR, usersList);
   ("/users/:username/audit-log", Some ScopeUsersR, usersAuditLog)].
Definition web_scoped (scope : option Scopes) (next : session_handler) : session_handler :=
  match scope with Some scope => web_requireScope scope next | None => next end.
Definition config_scope := Z.lor ScopeDevicesRU ScopeUpdatesRU.
(** Those that change something: the configurations through the API, accounts in
    the storage. *)
Definition config_routes : list (http_method * string * session_handler) :=
  [(PATCH, "/configs/global", configsGlobalPatch); (DELETE, "/configs/global", configsGlobalDelete);
   (PATCH, "/configs/group/:name", configsGroupItemPatch); (DELETE, "/configs/group/:name", configsGroupItemDelete);
   (PATCH, "/devices/:uuid/configs", configsDeviceItemPatch); (DELETE, "/devices/:uuid/configs", configsDeviceItemDelete)].
Definition account_routes : list (http_method * string * session_handler) :=
  [(DELETE, "/users/:username", web_requireScope ScopeUsersD userDelete); (POST, "/users/:username/tokens", userTokenCreate);
   (PUT, "/users/:username/scopes", userScopesUpdate); (PATCH, "/users/:username/tokens/:tokenID", settingsTokenUpdate);
   (DELETE, "/users/:username/tokens/:tokenID", userTokenDelete)].
(** Behind the session and then the rate limiter. *)
Definition limited_session (next : session_handler) : session_handler := λ s, GetRateLimiterMiddleware provider (next s).
Definition activation_routes : list (http_method * string * session_handler) :=
  [(GET, "/auth/confirm-activation", authDeviceConfirm); (POST, "/auth/authorize-activation", authDeviceAuthorize);
   (POST, "/auth/deny-activation", authDeviceDeny)].
Definition web_routes : list (http_method * string * handler P) :=
  open_routes ++
  map (λ x, (GET, x.1.1, web_requireSession (web_scoped x.1.2 x.2))) page_routes ++
  [(GET, "/auth/logout", web_requireSession authLogout)] ++
  map (λ x, (x.1.1, x.1.2, web_requireSession (limited_session x.2))) activation_routes ++
  map (λ x, (x.1.1, x.1.2, web_requireSession (web_requireScope config_scope (web_csrf x.2)))) config_routes ++
  map (λ x, (x.1.1, x.1.2, web_requireSession x.2)) account_routes.
(** server.go puts the CSRF check in front of every route. *)
Definition ui_routes : list (http_method * string * handler P) := map (λ x, (x.1.1, x.1.2, CsrfCheck x.2)) web_routes.
End Web.
