(* ===== verification/WebSpec.v ===== *)
(** What the pages of the operators promise: the page numbers agree with the
    links that the API prints, what a request to the web interface can change and
    what it takes, and what the pages compute. *)
From stdpp Require Import fin_maps.
From S2P Require Import Prelude GoStrings Bytes GoPath Schema World BaseFs Crypto Encoding Models Tar Configs Updates FsHandles Tuf TufFs ApiStorage ApiUpdate Http Scopes Users UserOps Auth AuthLocal UiApi ReadOnly Gateway WebPages Web.

(** ** Pages of devices: the header the API prints is read back *)

Section Pages.
Notation dq := (byte 34).

Fixpoint str_last (s : string) : option ascii :=
  match s with "" => None | String c "" => Some c | String _ s' => str_last s' end.
Lemma str_last_app a p : p <> "" -> str_last (a +:+ p) = str_last p.
Proof.
  intros Hp. induction a as [|c a IH]; [done|]. change (String c a +:+ p) with (String c (a +:+ p)). cbn [str_last].
  rewrite IH. destruct (a +:+ p) eqn:E; [|done]. destruct a; [done|discriminate E].
Qed.
(** A text between an opening angle and a closing quote has nothing to trim. *)
Lemma trim_right_quote fuel a : trim_right fuel (a +:+ str1 dq) = a +:+ str1 dq.
Proof.
  destruct fuel as [|f]; [done|]. cbn [trim_right].
  assert (List.find (HasSuffix (a +:+ str1 dq)) space_seqs = None) as ->; [|done].
  assert (forallb (λ p, negb (String.eqb p "") && negb (bool_decide (str_last p = Some dq))) space_seqs = true) as Hall by (vm_compute; reflexivity).
  destruct (List.find _ _) as [p|] eqn:Ef; [exfalso|done]. apply find_some in Ef as [Hin [b Hs]%HasSuffix_spec].
  rewrite forallb_forall in Hall. apply Hall, andb_true_iff in Hin as [H1 H2].
  apply negb_true_iff in H1, H2. apply String.eqb_neq in H1. apply bool_decide_eq_false in H2. apply H2.
  rewrite <-(str_last_app b p H1), <-Hs. by apply str_last_app.
Qed.
Lemma trim_left_angle fuel s : trim_left fuel (String "<" s) = String "<" s.
Proof. by destruct fuel. Qed.
Lemma TrimSpace_link a : TrimSpace (String "<" (a +:+ str1 dq)) = String "<" (a +:+ str1 dq).
Proof.
  unfold TrimSpace. rewrite trim_left_angle. apply (trim_right_quote _ (String "<" a)).
Qed.
Lemma TrimSpace_space_link a : TrimSpace (" " +:+ String "<" (a +:+ str1 dq)) = String "<" (a +:+ str1 dq).
Proof.
  unfold TrimSpace. change (" " +:+ ?x) with (String " " x).
  change (trim_left (String.length (String " " (String "<" (a +:+ str1 dq)))) (String " " (String "<" (a +:+ str1 dq))))
    with (trim_left (S (String.length (a +:+ str1 dq))) (String "<" (a +:+ str1 dq))).
  rewrite trim_left_angle. apply (trim_right_quote _ (String "<" a)).
Qed.

(** One link of the header, and the search for its relation. *)
Definition link_text (url rel : string) : string := "<" +:+ url +:+ ">; rel=" +:+ q rel.
Lemma link_text_shape url rel : link_text url rel = String "<" ((url +:+ ">; rel=" +:+ str1 dq +:+ rel) +:+ str1 dq).
Proof. unfold link_text, q. by rewrite <-!str_app_assoc. Qed.
Fixpoint quotes (s : string) : nat :=
  match s with "" => O | String c s' => ((if Ascii.eqb c dq then 1 else 0) + quotes s')%nat end.
Lemma quotes_app a b : quotes (a +:+ b) = (quotes a + quotes b)%nat.
Proof. induction a as [|c a IH]; [done|]. change (String c a +:+ b) with (String c (a +:+ b)). cbn [quotes]. rewrite IH. lia. Qed.
Lemma quotes_none s : quotes s = O ↔ no_char dq s = true.
Proof.
  unfold no_char. induction s as [|c s IH]; [done|]. cbn [quotes str_all]. rewrite andb_true_iff, <-IH.
  destruct (Ascii.eqb c dq); cbn [negb]; split; [lia|by intros []|by split|by intros []].
Qed.
Lemma Contains_rel A x y :
  no_char dq A = true -> no_char dq x = true -> no_char dq y = true -> HasSuffix A "rel=" = true ->
  Contains (A +:+ str1 dq +:+ x +:+ str1 dq) ("rel=" +:+ str1 dq +:+ y +:+ str1 dq) = String.eqb x y.
Proof.
  intros HA Hx Hy [A0 ->]%HasSuffix_spec. apply eq_true_iff_eq. rewrite Contains_spec, String.eqb_eq. split.
  2: { intros ->. exists A0, "". by rewrite !str_app_assoc, str_app_nil_r. }
  intros (a & b & E).
  assert (∀ s t, no_char dq s = true -> Cut (s +:+ str1 dq +:+ t) dq = Some (s, t)) as Hcut by (intros s t; apply Cut_app).
  assert (no_char dq a = true) as Ha.
  { apply quotes_none. apply (f_equal quotes) in E. rewrite !quotes_app in E. apply quotes_none in HA, Hx, Hy.
    rewrite quotes_app in HA. change (quotes "rel=") with O in *. change (quotes (str1 dq)) with 1%nat in E. lia. }
  pose proof (f_equal (λ s, Cut s dq) E) as E1. cbv beta in E1. rewrite Hcut in E1 by done.
  rewrite !str_app_assoc in E1. rewrite <-(str_app_assoc a "rel=") in E1.
  rewrite Hcut in E1 by by rewrite no_char_app, Ha. injection E1 as _ E1.
  pose proof (f_equal (λ s, Cut s dq) E1) as E2. cbv beta in E2.
  rewrite <-(str_app_nil_r (str1 dq)) in E2 at 1. rewrite !Hcut in E2 by done. by injection E2.
Qed.

(** The parts of the header. *)
Lemma Split_Join_space x l :
  Forall (λ y, no_char "," y = true) (x :: l) -> Split (Join (x :: l) ", ") "," = x :: map (λ y, " " +:+ y) l.
Proof.
  revert x. induction l as [|y l IH]; intros x [Hx Hl]%Forall_cons; [by apply Split_no_char|].
  change (Join (x :: y :: l) ", ") with (x +:+ String "," (String " " (Join (y :: l) ", "))).
  rewrite Split_app by done. cbn [Split Ascii.eqb Bool.eqb]. rewrite IH by done. done.
Qed.
Lemma Index_char_app a b c : no_char c a = true -> Index_char (a +:+ String c b) c = Some (String.length a).
Proof.
  unfold no_char. induction a as [|x a IH]; intros Ha.
  - change ("" +:+ String c b) with (String c b). cbn [Index_char]. by rewrite Ascii.eqb_refl.
  - change (String x a +:+ String c b) with (String x (a +:+ String c b)). cbn [Index_char]. cbn [str_all] in Ha.
    apply andb_true_iff in Ha as [Hx Ha]. apply negb_true_iff in Hx. by rewrite Hx, IH.
Qed.
Lemma Itoa_no_char c n : negb (is_hexdigit c) && negb (Ascii.eqb c "-") = true -> no_char c (Itoa n) = true.
Proof. apply format_int_no_char. lia. Qed.

(** The link to an offset: free of the characters that delimit links. *)
Definition paging_ok (path : string) (opts : DeviceListOpts) : Prop :=
  no_char "?" path = true ∧ Forall (λ c, no_char c path = true ∧ no_char c (lo_OrderBy opts) = true) [","%char; ">"%char; dq].
Lemma paging_link_free path opts off c :
  paging_ok path opts -> c ∈ [","%char; ">"%char; dq] -> no_char c (paging_link path opts off) = true.
Proof.
  intros [_ Hok] Hc. rewrite Forall_forall in Hok. destruct (Hok _ Hc) as [Hp Ho]. unfold paging_link.
  rewrite !no_char_app, Hp, Ho. rewrite !elem_of_cons, elem_of_nil in Hc.
  destruct_or! Hc; subst c; by rewrite !Itoa_no_char.
Qed.
Lemma paging_link_query path opts off L : paging_ok path opts -> in_int64 off -> 0 < L ->
  offset_param L (Split (match Index_char (paging_link path opts off) "?" with
    Some i => str_drop (S i) (paging_link path opts off) | None => paging_link path opts off end) "&") = Some (wrap64 (off ÷ L + 1)).
Proof.
  intros [Hp _] Hoff HL.
  assert (paging_link path opts off = path +:+ String "?" ("offset=" +:+ Itoa off +:+ String "&" ("limit=" +:+ Itoa (Limit opts) +:+ "&order-by=" +:+ lo_OrderBy opts))) as -> by done.
  rewrite Index_char_app by done.
  replace (S (String.length path)) with (String.length (path +:+ str1 "?")) by (rewrite str_length_app; simpl; lia).
  match goal with |- context [str_drop _ (path +:+ String "?" ?t)] => change (String "?" t) with (str1 "?" +:+ t) end.
  rewrite <-str_app_assoc, str_drop_app, <-str_app_assoc.
  rewrite Split_app by by rewrite no_char_app, Itoa_no_char.
  cbn [offset_param]. rewrite HasPrefix_app. unfold TrimPrefix. rewrite HasPrefix_app, str_drop_app, Atoi_Itoa by done.
  by rewrite (proj2 (Z.ltb_lt 0 L) HL).
Qed.
Lemma link_trim url rel : TrimSpace (link_text url rel) = link_text url rel ∧ TrimSpace (" " +:+ link_text url rel) = link_text url rel.
Proof. rewrite link_text_shape. split; [apply TrimSpace_link|apply TrimSpace_space_link]. Qed.
Lemma link_has_rel url rel x :
  no_char dq url = true -> no_char dq rel = true -> no_char dq x = true ->
  Contains (link_text url rel) ("rel=" +:+ dquote +:+ x +:+ dquote) = String.eqb rel x.
Proof.
  intros Hu Hr Hx. unfold link_text, q, dquote. rewrite <-(str_app_assoc "<"), <-(str_app_assoc ("<" +:+ url)).
  apply Contains_rel; [by rewrite !no_char_app, Hu|done..|].
  change ">; rel=" with (">; " +:+ "rel="). rewrite <-str_app_assoc. apply HasSuffix_app.
Qed.
(** What a link decides of the number of pages. *)
Lemma last_page_link path opts off L rel part :
  paging_ok path opts -> in_int64 off -> 0 < L -> no_char dq rel = true ->
  TrimSpace part = link_text (paging_link path opts off) rel ->
  last_page L part = if String.eqb rel "last" then Some (wrap64 (off ÷ L + 1)) else None.
Proof.
  intros Hok Hoff HL Hr Ht. unfold last_page. rewrite Ht.
  rewrite link_has_rel; [|by apply paging_link_free; [|set_solver]|done|done]. destruct (String.eqb rel "last"); [|done]. cbn [negb].
  set (url := paging_link path opts off).
  assert (link_text url rel = ("<" +:+ url) +:+ String ">" ("; rel=" +:+ q rel)) as -> by (unfold link_text; by rewrite str_app_assoc).
  rewrite Index_char_app.
  2: { rewrite no_char_app. apply (paging_link_free _ _ off ">"); [done|set_solver]. }
  change (Index_char (("<" +:+ url) +:+ ?t) "<") with (Some O). cbv iota beta.
  change (String.length ("<" +:+ url)) with (S (String.length url)). cbn [Nat.leb Nat.sub].
  change (str_drop 1 (("<" +:+ url) +:+ ?t)) with (url +:+ t). rewrite Nat.sub_0_r, str_take_app_exact.
  by apply paging_link_query.
Qed.

(** The header for a listing, and what the pages make of it. *)
Definition link_header (path : string) (opts : DeviceListOpts) (total : Z) : string :=
  Join (map (λ l, link_text (paging_link path opts l.1) l.2) (pagination_links path opts total)) ", ".
Lemma link_header_parts path opts total : paging_ok path opts ->
  ∃ parts, Split (link_header path opts total) "," = parts ∧
    Forall2 (λ part l, TrimSpace part = link_text (paging_link path opts l.1) l.2) parts (pagination_links path opts total).
Proof.
  intros Hok. eexists. split; [reflexivity|]. unfold link_header.
  assert (Forall (λ l : Z * string, no_char "," l.2 = true) (pagination_links path opts total)) as Hf.
  { unfold pagination_links. case_match; by repeat constructor. }
  destruct (pagination_links path opts total) as [|l ls] eqn:E; [done|]. cbn [map]. rewrite Split_Join_space.
  - constructor; [apply link_trim|]. rewrite Forall2_fmap_l, Forall2_fmap_l. apply Forall_Forall2_diag, Forall_true. intros y. apply link_trim.
  - clear E. change (Forall (λ y, no_char "," y = true) ((λ l, link_text (paging_link path opts l.1) l.2) <$> (l :: ls))).
    rewrite Forall_fmap. eapply Forall_impl; [exact Hf|]. intros [o rel] Hr. unfold compose. cbn [fst snd] in *. unfold link_text, q.
    rewrite !no_char_app, Hr. rewrite paging_link_free; [done|done|set_solver].
Qed.

Lemma existsb_Forall2 {A B} (f : A -> bool) (g : B -> bool) l k : Forall2 (λ x y, f x = g y) l k -> existsb f l = existsb g k.
Proof. induction 1 as [|x y l k E _ IH]; [done|]. cbn. by rewrite E, IH. Qed.
Lemma omap_Forall2 {A B C} (f : A -> option C) (g : B -> option C) l k : Forall2 (λ x y, f x = g y) l k -> omap f l = omap g k.
Proof. induction 1 as [|x y l k E _ IH]; [done|]. cbn. by rewrite E, IH. Qed.
Lemma link_header_has path opts total x : paging_ok path opts -> no_char dq x = true ->
  linkHasRel (link_header path opts total) x = existsb (λ l : Z * string, String.eqb l.2 x) (pagination_links path opts total).
Proof.
  intros Hok Hx. destruct (link_header_parts path opts total Hok) as (parts & Ep & Hf). unfold linkHasRel. rewrite Ep.
  apply existsb_Forall2. assert (Forall (λ l : Z * string, no_char dq l.2 = true) (pagination_links path opts total)) as Hr.
  { unfold pagination_links. case_match; by repeat constructor. }
  clear Ep. revert Hr. induction Hf as [|part l parts' ls Ht _ IH]; intros Hr; [done|]. apply Forall_cons in Hr as [Hr Hrs].
  constructor; [|by apply IH]. rewrite Ht, link_has_rel; [done| |done|done]. apply paging_link_free; [done|set_solver].
Qed.
Lemma link_header_last path opts total L : paging_ok path opts -> 0 < L -> Forall (λ l : Z * string, in_int64 l.1) (pagination_links path opts total) ->
  linkTotalPages (link_header path opts total) L =
  default 1 (head (omap (λ l : Z * string, if String.eqb l.2 "last" then Some (wrap64 (l.1 ÷ L + 1)) else None) (pagination_links path opts total))).
Proof.
  intros Hok HL Hin. destruct (link_header_parts path opts total Hok) as (parts & Ep & Hf). unfold linkTotalPages. rewrite Ep.
  do 2 f_equal. apply omap_Forall2. assert (Forall (λ l : Z * string, no_char dq l.2 = true) (pagination_links path opts total)) as Hr.
  { unfold pagination_links. case_match; by repeat constructor. }
  clear Ep. revert Hr Hin. induction Hf as [|part l parts' ls Ht _ IH]; intros Hr Hin; [done|].
  apply Forall_cons in Hr as [Hr Hrs], Hin as [Hi His]. constructor; [|by apply IH]. by eapply last_page_link.
Qed.
Lemma pages_count total L : 0 < L -> 0 <= total ->
  (if L <? total then ((total - 1) / L * L) / L + 1 else 1) = Z.max 1 ((total + L - 1) / L).
Proof.
  intros HL Ht. replace (total + L - 1) with (total - 1 + 1 * L) by lia. rewrite Z.div_add by lia.
  case_match eqn:E; [apply Z.ltb_lt in E|apply Z.ltb_ge in E].
  - rewrite Z.div_mul by lia. pose proof (Z.div_pos (total - 1) L). lia.
  - pose proof (Z.div_lt_upper_bound (total - 1) L 1). lia.
Qed.
End Pages.

(** C38. The page numbers of the devices page agree with the links that the API
    prints: whatever a listing is told to start at and to be limited to, the
    [Link] header set for it is read back by [linkTotalPages] as the number of
    pages of the listing (at least one), and by [linkHasRel] as having a next
    page exactly when there are entries past this one; for a page that starts on
    a multiple of the limit, there is a next page exactly when the page is not
    the last. *)
Theorem pages_agree (P : Type) (r : request) (opts : DeviceListOpts) (total : Z) (s : server P)
  (Hlimit : 0 < Limit opts) (Hend : in_int64 (Offset opts + Limit opts)) (Hint : in_int64 (Limit opts)) (Htotal : 0 <= total < 2 ^ 63)
  (Hok : paging_ok (rq_path r) opts) :
  ∃ header s', setPaginationHeaders r opts total s = (Ok tt, s') ∧ sv_out s' = sv_out s ++ [SetHeader "Link" header] ∧
    linkTotalPages header (Limit opts) = Z.max 1 ((total + Limit opts - 1) / Limit opts) ∧
    linkHasRel header "next" = (Offset opts + Limit opts <? total) ∧
    (∀ page, 1 <= page -> Offset opts = (page - 1) * Limit opts -> linkHasRel header "next" = (page <? linkTotalPages header (Limit opts))).
Proof.
  set (L := Limit opts) in *.
  assert (linkTotalPages (link_header (rq_path r) opts total) L = Z.max 1 ((total + L - 1) / L)) as Hpages.
  { assert (0 <= total - 1 -> 0 <= (total - 1) / L * L <= total - 1 ∧ (total - 1) / L <= total - 1) as Hd.
    { intros H0. pose proof (Z.mul_div_le (total - 1) L). pose proof (Z.div_pos (total - 1) L). nia. }
    assert (in_int64 (if L <? total then wrap64 ((total - 1) / L * L) else 0)) as Hlast by (case_match; [apply wrap64_range|done]).
    rewrite link_header_last; [|done..|].
    2: { apply Forall_cons. split; [done|]. apply Forall_app. split; [|by apply Forall_singleton].
         destruct (wrap64 _ <? total); [apply Forall_singleton, wrap64_range|apply Forall_nil_2]. }
    rewrite <-pages_count by lia. unfold pagination_links. fold L. destruct (L <? total) eqn:E; [apply Z.ltb_lt in E|];
      (destruct (wrap64 (Offset opts + L) <? total); cbn -[wrap64 Z.quot Z.div Z.mul]).
    1,2: rewrite (wrap64_small ((total - 1) / L * L)) by (unfold in_int64; lia);
      rewrite Z.quot_div_nonneg, Z.div_mul by lia; apply wrap64_small; unfold in_int64; lia.
    all: by rewrite Z.quot_0_l by lia. }
  assert (linkHasRel (link_header (rq_path r) opts total) "next" = (Offset opts + L <? total)) as Hnext.
  { rewrite link_header_has by done. unfold pagination_links. fold L. rewrite wrap64_small by done. by destruct (Offset opts + L <? total). }
  exists (link_header (rq_path r) opts total). eexists. split_and!; [..|done|done|].
  - unfold setPaginationHeaders. fold L. rewrite (proj2 (Z.leb_gt L 0) Hlimit). reflexivity.
  - reflexivity.
  - intros page Hp Ho. rewrite Hnext, Hpages, Ho. replace ((page - 1) * L + L) with (page * L) by lia.
    apply eq_true_iff_eq. rewrite !Z.ltb_lt. pose proof (Z.div_le_lower_bound (total + L - 1) L (page + 1)).
    pose proof (Z.mul_div_le (total + L - 1) L). nia.
Qed.

(** ** What a request to the pages can change *)

(** The routes that change something and the scope that they take. *)
Definition write_routes : list (http_method * string * option Scopes) :=
  [(GET, "/auth/logout", None); (POST, "/auth/authorize-activation", None); (POST, "/auth/deny-activation", None);
   (PATCH, "/configs/global", Some config_scope); (DELETE, "/configs/global", Some config_scope);
   (PATCH, "/configs/group/:name", Some config_scope); (DELETE, "/configs/group/:name", Some config_scope);
   (PATCH, "/devices/:uuid/configs", Some config_scope); (DELETE, "/devices/:uuid/configs", Some config_scope);
   (DELETE, "/users/:username", Some ScopeUsersD); (PUT, "/users/:username/scopes", Some ScopeUsersRU);
   (POST, "/users/:username/tokens", None); (PATCH, "/users/:username/tokens/:tokenID", None);
   (DELETE, "/users/:username/tokens/:tokenID", None)].
(** [r'] is what the CSRF check hands on for [r]. *)
Definition csrf_passed (r r' : request) : Prop :=
  r' = r ∧ (safe_method (rq_method r) = true ∨ non_empty (Header_Get r "authorization") || non_empty (Header_Get r "osf-token") = true) ∨
  ∃ cookie, c_Cookie r CsrfCookieName = Some cookie ∧ cookie <> "" ∧ csrf_token r = cookie ∧ r' = set_csrf cookie r.

Lemma CsrfCheck_passed {P} (f : handler P) r (s : server P) res s' :
  CsrfCheck f r s = (res, s') -> rq_route r <> "/oauth2/authorization/device/" -> rq_route r <> "/oauth2/token/" ->
  same (sv_world s) (sv_world s') ∨ ∃ r', csrf_passed r r' ∧ f r' s = (res, s').
Proof.
  intros Hr Hd Ht. unfold CsrfCheck in Hr. apply String.eqb_neq in Hd, Ht. rewrite Hd, Ht in Hr. cbn [orb] in Hr.
  destruct (safe_method _) eqn:Es; [right; exists r; split; [left|]; tauto|].
  destruct (non_empty _ || _) eqn:Ea; [right; exists r; split; [left|]; tauto|].
  assert (∀ code msg (s0 : server P) res s', c_String code msg s0 = (res, s') -> same (sv_world s0) (sv_world s')) as Hsame by by intros code msg s0 res0 s1 [= <- <-].
  destruct (c_Cookie r CsrfCookieName) as [cookie|] eqn:Ec; [|left; by eapply Hsame].
  destruct (String.eqb_spec cookie "") as [->|Hne]; [left; by eapply Hsame|].
  destruct (String.eqb (csrf_token r) ""); [left; by eapply Hsame|].
  destruct (String.eqb_spec cookie (csrf_token r)) as [Heq|]; cbn [negb] in Hr; [|left; by eapply Hsame].
  right. eexists. split; [|exact Hr]. right. by exists cookie.
Qed.

Section Changes.
Context `{HD : Digest, HT : TimeFormat, HQ : SqliteJson, HCC : CertCodec, HN : Encoders, HPT : PageTimes, HU : Unicode, HK : CertKeys, HPC : PkiCodec, HST : SotaToml, HQP : QueryParams}.
Context `{B1 : Bind scopesRequest, B2 : Bind TokenRequest, B3 : Bind TokenUpdateRequest, B4 : Bind configPatch, B5 : Bind configDelete}.
Context `{J1 : JSON (list DeviceListItem), J2 : JSON ApiDevice, J3 : JSON (list string), J4 : JSON (list DeviceUpdateEvent), J5 : JSON appState}.
Context `{J6 : JSON (list TargetTest), J7 : JSON TargetTest, J8 : JSON (gmap string string), J9 : JSON config_set, J10 : JSON (list config_set)}.
Context `{J11 : JSON AppliedConfigs, J12 : JSON (list Update), J13 : JSON UpdateSummary, J14 : JSON UpdateTufResp, J15 : JSON Rollout}.
Context `{J16 : JSON AtsTufTargets, J17 : JSON raw_target, J18 : JSON ipInfo, J19 : JSON (gmap string json_any)}.
Context {P : Type} `{HC : HttpClient P} (h : handlers) (provider : Provider P).
Notation reads_only m := (keeps (on_world same) m any).
Context (Hsession : ∀ r, reads_only (GetSession provider r)).
Context (Hlimiter : ∀ next r, reads_only (next r) -> reads_only (GetRateLimiterMiddleware provider next r)).
Context (Hget : ∀ r, rq_method r = GET -> reads_only (http_Do (P:=P) r)).

Lemma read_c_Render {A} code name (data : A) : reads_only (c_Render (P:=P) code name data).
Proof. unfold c_Render. keeps_handler. Qed.
Lemma read_page {A} name (data : A) : reads_only (page (P:=P) name data).
Proof. unfold page. keeps_handler. Qed.
Lemma read_handleError s r code err : reads_only (handleError (P:=P) h s r code err).
Proof. apply read_c_Render. Qed.
Hint Resolve read_c_Render read_page read_handleError : keeps.
Lemma read_unexpected s r err : reads_only (handleUnexpected (P:=P) h s r err).
Proof. apply read_handleError. Qed.
Hint Resolve read_unexpected : keeps.
Lemma read_or_unexpected {A} s r (m : H P A) k : reads_only m -> (∀ v, reads_only (k v)) -> reads_only (or_unexpected h s r m k).
Proof. intros Hm Hk. unfold or_unexpected. keeps_handler. Qed.
Lemma read_reqJson {A} (decode : string -> result A) s req : rq_method req = GET -> reads_only (reqJsonWithHeaders (P:=P) decode s req).
Proof.
  intros Hm. unfold reqJsonWithHeaders. assert (rq_method (RoundTrip (Client s) req) = GET) by (by unfold RoundTrip; destruct (Client s)).
  keeps_step; [auto|]. keeps_handler.
Qed.
Lemma read_getJsonWithHeaders {A} `{JSON A} s resource : reads_only (getJsonWithHeaders (P:=P) (A:=A) s resource).
Proof. by apply read_reqJson. Qed.
Hint Resolve read_getJsonWithHeaders : keeps.
Lemma read_getJson {A} `{JSON A} s resource : reads_only (getJson (P:=P) (A:=A) s resource).
Proof. unfold getJson. keeps_handler. Qed.
Hint Resolve read_getJson : keeps.
Lemma read_with_json {A} `{JSON A} s r resource zero k : (∀ v, reads_only (k v)) -> reads_only (with_json (P:=P) (A:=A) h s r resource zero k).
Proof. intros Hk. apply read_or_unexpected; auto with keeps. Qed.
Lemma read_with_device s r k : (∀ v, reads_only (k v)) -> reads_only (with_device (P:=P) h s r k).
Proof. apply read_with_json. Qed.
Lemma read_with_updates s r k : (∀ v, reads_only (k v)) -> reads_only (with_updates (P:=P) h s r k).
Proof. apply read_with_json. Qed.
Lemma same_Storage_Get name : keeps same (Storage_Get name) any.
Proof. unfold Storage_Get, stmtUserGetByName_run. keeps_auto. Qed.
Lemma same_List : keeps same Storage_List any.
Proof. unfold Storage_List, stmtUserList_run. keeps_auto. Qed.
Lemma same_ListTokens u : keeps same (ListTokens u) any.
Proof. unfold ListTokens, stmtTokenList_run. keeps_auto. Qed.
Lemma same_GetAuditLog u : keeps same (User_GetAuditLog (h_storage h) u) any.
Proof. unfold User_GetAuditLog, ReadEvents. keeps_auto. Qed.
Lemma same_GetDeviceAuth c : keeps same (GetDeviceAuthByUserCode c) any.
Proof. unfold GetDeviceAuthByUserCode, stmtOAuth2DeviceAuthGetByUserCode_run. keeps_auto. Qed.
Hint Resolve same_Storage_Get same_List same_ListTokens same_GetAuditLog same_GetDeviceAuth : keeps.

Lemma read_rollout_summaries s r names k : (∀ v, reads_only (k v)) -> reads_only (rollout_summaries (P:=P) h s r names k).
Proof. revert k. induction names as [|n names IH]; intros k Hk; [apply Hk|]. apply read_with_json. intros ro. apply IH. intros rest. apply Hk. Qed.
Lemma read_found_user s r k : (∀ u, reads_only (k u)) -> reads_only (found_user (P:=P) h s r k).
Proof. intros Hk. unfold found_user. keeps_handler. Qed.
Lemma read_pending_auth c refuse err k :
  (∀ code e, reads_only (refuse code e)) -> (∀ a, reads_only (k a)) -> reads_only (pending_auth (P:=P) c refuse err k).
Proof. intros Hrefuse Hk. unfold pending_auth, time_now_unix, time_now_ms. keeps_handler. Qed.

(** The handlers that only read. *)
Definition looks (next : session_handler (P:=P)) : Prop := ∀ s r, reads_only (next s r).
Ltac name_of t := lazymatch t with ?f _ => name_of f | _ => t end.
Ltac read_step := first
  [ apply read_with_device; intros ? | apply read_with_updates; intros ? | apply read_with_json; intros ? | apply read_or_unexpected; [|intros ?]
  | apply read_rollout_summaries; intros ? | apply read_found_user; intros ? | apply read_pending_auth; [intros ? ?|intros ?]
  | progress keeps_handler ].
Ltac looks_page := let s := fresh "s" in let r := fresh "r" in intros s r;
  lazymatch goal with |- keeps _ (?f _ _) _ => let g := name_of f in unfold g end; cbv beta; cbv zeta; repeat read_step.

Lemma page_looks : Forall (λ x : string * option Scopes * session_handler (P:=P), looks x.2) (page_routes h).
Proof.
  unfold page_routes. rewrite !Forall_cons, Forall_nil. cbn [fst snd]. split_and!; [..|done].
  all: looks_page.
Qed.
Lemma confirm_looks : looks (authDeviceConfirm (P:=P) h).
Proof. looks_page. Qed.
Lemma open_looks : Forall (λ x : http_method * string * handler P, ∀ r, reads_only (x.2 r)) (open_routes h).
Proof.
  unfold open_routes. rewrite !Forall_cons, Forall_nil. cbn [fst snd]. split_and!; [..|done]; intros r; try solve [keeps_handler].
  - unfold css. keeps_handler.
  - unfold brandingAsset. keeps_handler.
  - unfold favicon, favicon_embedded. keeps_handler.
Qed.
Lemma read_requireSession g r : looks g -> reads_only (web_requireSession provider g r).
Proof.
  intros Hg. unfold web_requireSession. keeps_handler; auto.
Qed.
Lemma requireScope_refuses scope g s r : (Has (AllowedScopes (session_User s)) scope = true -> reads_only (g s r)) ->
  reads_only (web_requireScope (P:=P) h scope g s r).
Proof.
  intros Hg. unfold web_requireScope. destruct (Has _ scope) eqn:E; cbn [negb]; [auto|]. apply read_handleError.
Qed.

(** A route, without the check in front: it changes nothing, or it is one of
    those that do and changes nothing for a session without the scope. *)
Definition guarded (m : http_method) (p : string) (f : handler P) : Prop :=
  (∀ r, reads_only (f r)) ∨
  ∃ scope g, (m, p, scope) ∈ write_routes ∧ f = web_requireSession provider g ∧
    ∀ s r sc, scope = Some sc -> Has (AllowedScopes (session_User s)) sc = false -> reads_only (g s r).
Ltac write_route := right; do 2 eexists;
  split; [unfold write_routes; rewrite !elem_of_cons; intuition reflexivity|split; [reflexivity|]]; intros s r sc [= <-] Hno.
Lemma looks_guarded m p g : looks g -> guarded m p (web_requireSession provider g).
Proof. intros Hg. left. intros r. by apply read_requireSession. Qed.
Lemma web_guarded : Forall (λ x : http_method * string * handler P, guarded x.1.1 x.1.2 x.2) (web_routes h provider).
Proof.
  unfold web_routes. rewrite !Forall_app. split_and!.
  - eapply Forall_impl; [exact open_looks|]. intros x Hx. by left.
  - apply Forall_fmap. eapply Forall_impl; [exact page_looks|]. intros [[p scope] g] Hg. apply looks_guarded.
    intros s r. destruct scope as [sc|]; [|apply Hg]. apply requireScope_refuses. intros _. apply Hg.
  - apply Forall_singleton. write_route.
  - unfold activation_routes. cbn [map fst snd]. rewrite !Forall_cons, Forall_nil. split_and!; [..|done].
    + apply looks_guarded. intros s r. apply Hlimiter, confirm_looks.
    + write_route.
    + write_route.
  - unfold config_routes. cbn [map fst snd]. rewrite !Forall_cons, Forall_nil. split_and!; [..|done].
    all: write_route; apply requireScope_refuses; by rewrite Hno.
  - unfold account_routes. cbn [map fst snd]. rewrite !Forall_cons, Forall_nil. split_and!; [..|done].
    all: write_route.
    + apply requireScope_refuses. by rewrite Hno.
    + unfold userScopesUpdate. rewrite Hno. cbn [negb]. keeps_handler.
Qed.
Lemma web_names : Forall (λ x : http_method * string * handler P,
    x.1.2 <> "/oauth2/authorization/device/" ∧ x.1.2 <> "/oauth2/token/") (web_routes h provider).
Proof.
  apply (Forall_impl (λ x, negb (String.eqb x.1.2 "/oauth2/authorization/device/" || String.eqb x.1.2 "/oauth2/token/") = true)).
  - apply Forall_forall. intros x Hx. assert (forallb (λ x, negb (String.eqb x.1.2 "/oauth2/authorization/device/" || String.eqb x.1.2 "/oauth2/token/"))
      (web_routes h provider) = true) as Hall by reflexivity.
    rewrite forallb_forall in Hall. apply Hall. by apply list_elem_of_In.
  - intros x. rewrite negb_true_iff, orb_false_iff, !String.eqb_neq. tauto.
Qed.

(** C4. Whatever a request to the web interface changes in the files or the
    tables, its route is one of those that are meant to change something: there is a
    session for it, the check against forged requests has let it pass (a safe
    method, a token of the API, or the token of the cookie repeated), and the user
    of the session has the scope of the route, where it takes one: deletion and
    rights of users, and configurations.  The pages change nothing, as long as
    neither the lookup of sessions nor the API's GET requests do. *)
Theorem web_change_needs_session m p f r s res s' :
  (m, p, f) ∈ ui_routes h provider -> rq_route r = p -> f r s = (res, s') -> ~ same (sv_world s) (sv_world s') ->
  ∃ scope r' session s1, (m, p, scope) ∈ write_routes ∧ csrf_passed r r' ∧
    GetSession provider r' s = (Ok (Some session), s1) ∧
    (∀ sc, scope = Some sc -> Has (AllowedScopes (session_User session)) sc = true).
Proof.
  intros Hin Hp Hr Hch. unfold ui_routes in Hin. apply list_elem_of_fmap in Hin as ([[m0 p0] g] & [= -> -> ->] & Hin).
  pose proof (proj1 (Forall_forall _ _) web_guarded _ Hin) as Hg. pose proof (proj1 (Forall_forall _ _) web_names _ Hin) as [Hn1 Hn2].
  cbn [fst snd] in *. subst p0. apply CsrfCheck_passed in Hr as [Hs|(r' & Hpass & Hr)]; [done| |done..].
  destruct Hg as [Hg|(scope & g' & Hw & -> & Hg)]; [by apply Hg in Hr as [Hr _]|].
  unfold web_requireSession in Hr. apply bind_try_inv in Hr as (q & s1 & Es & Hr). pose proof (Hsession _ _ _ _ Es) as [Hs1 _].
  destruct q as [[session|]|err].
  - exists scope, r', session, s1. split_and!; [done..|]. intros sc Hsc.
    destruct (Has (AllowedScopes (session_User session)) sc) eqn:Eh; [done|]. destruct Hch.
    apply (Hg _ _ _ Hsc Eh) in Hr as [Hr _]. unfold on_world in *. by etrans.
  - injection Hr as _ <-. done.
  - unfold EchoErr, EchoError in Hr. injection Hr as _ <-. done.
Qed.

(** C37. The rights of accounts change on the page of users as they were asked for,
    and nothing else does: a request that alters the database came from a session
    with users:read-update, names at least one scope and only known ones, and stores
    exactly these for the account of its path, which is not deleted; password, name,
    email and every other account and table stay.  The scopes of the one who asks
    put no bound on them. *)
Theorem rights_change_exact session r (s : server P) res s' :
  userScopesUpdate h session r s = (res, s') -> db (sv_world s') <> db (sv_world s) ->
  let d := db (sv_world s) in
  Has (AllowedScopes (session_User session)) ScopeUsersRU = true ∧
  ∃ req scopes i row stored,
    bind_request r = Ok req ∧ sr_Scopes req <> [] ∧ ScopesFromSlice (sr_Scopes req) = Ok scopes ∧
    users d !! i = Some row ∧ u_username row = c_Param r "username" ∧ u_deleted row = false ∧
    sqlite_json (u_auth_provider_data row) = Some stored ∧
    db (sv_world s') = with_users (<[i := UserRow (u_username row) (u_password row) (u_email row) (u_created_at row) false
                                              (scopes_String scopes) stored]> (users d)) (users_seq d) d.
Proof.
  intros Hr Hdb d.
  assert (∀ (m : H P unit) s1, m s1 = (res, s') -> reads_only m -> db (sv_world s1) = d -> False) as Hread.
  { intros m s1 E Hm Hd. apply Hm in E as [(_ & Hd' & _) _]. apply Hdb. unfold d in Hd. congruence. }
  unfold userScopesUpdate in Hr. destruct (Has _ ScopeUsersRU) eqn:Eh; cbn [negb] in Hr; [split; [done|]|].
  2: { exfalso. eapply Hread; [exact Hr|keeps_handler|done]. }
  destruct (bind_request r) as [req|] eqn:Eb; [|exfalso; eapply Hread; [exact Hr|keeps_handler|done]].
  destruct (Z.eqb_spec (Z.of_nat (length (sr_Scopes req))) 0) as [|Hl]; [exfalso; eapply Hread; [exact Hr|keeps_handler|done]|].
  destruct (ScopesFromSlice (sr_Scopes req)) as [scopes|] eqn:Es; [|exfalso; eapply Hread; [exact Hr|keeps_handler|done]].
  unfold found_user in Hr. apply bind_inv in Hr as [([user err] & s1 & E & Hr)|(e & E & ->)]; apply io_inv in E as (w & E & ->).
  2: { apply same_Storage_Get in E as [(_ & Hd & _) _]. by destruct Hdb. }
  pose proof (same_Storage_Get _ _ _ _ E) as [(_ & Hd & _) _].
  destruct err as [err|]; [exfalso; eapply Hread; [exact Hr|apply read_handleError|exact Hd]|].
  destruct user as [user|]; [|exfalso; eapply Hread; [exact Hr|keeps_handler|exact Hd]].
  apply getByName_some in E as ((row & Hrow & Hdel & Hname & Hpw & Hem & Hca & Hud & Hdata) & Hu & _).
  unfold or_unexpected in Hr. apply bind_try_inv in Hr as (q & s2 & E & Hr). apply io_inv in E as (w2 & E & ->).
  assert (db (sv_world s') = db w2) as Hs'.
  { destruct q as [[]|e].
    - assert (reads_only (c_NoContent (P:=P) 204)) as Hk by keeps_handler. by apply Hk in Hr as [(_ & Hd' & _) _].
    - by apply read_unexpected in Hr as [(_ & Hd' & _) _]. }
  cbn [sv_world with_world] in *. unfold User_Update in E.
  assert (∃ v w3, stmtUserUpdate_run (with_AllowedScopes scopes user) w = (v, w3) ∧ db w2 = db w3) as (v & w3 & E3 & H23).
  { apply bind_inv in E as [([] & w3 & E3 & E)|(e & E3 & _)]; [|eauto]. apply audit_inv in E as [(_ & Hd2 & _) _]. eauto. }
  apply userUpdate_exact in E3 as (_ & _ & [Hsame|(_ & row' & stored & Hrow' & Hj & Hd3)]).
  { exfalso. apply Hdb. by rewrite Hs', H23, Hsame, Hd. }
  rewrite Hd in Hrow', Hd3. cbn [with_AllowedScopes id Username Password Email Deleted AllowedScopes AuthProviderData] in *.
  rewrite Hdata in Hj. rewrite Hrow in Hrow'. injection Hrow' as <-.
  exists req, scopes, (id user), row, stored. split_and!; try done.
  - intros Hn. apply Hl. by rewrite Hn.
  - by rewrite <-Hname.
  - rewrite Hs', H23, Hd3, Hname, Hpw, Hem, Hud. done.
Qed.
End Changes.

(** ** The release that is shown as the latest *)

Definition readable_version (targets : list (string * json_any)) (v : Z) : Prop :=
  ∃ name tj t custom text, (name, tj) ∈ targets ∧ target_version tj = Some (t, custom, text, v).
Definition latest_so_far (seen : list (string * json_any)) (acc : option latestTarget * Z) : Prop :=
  (∀ v, readable_version seen v -> v <= acc.2) ∧
  match acc.1 with
  | None => acc.2 = -1
  | Some lt => 0 <= acc.2 ∧ ∃ name tj t custom text, (name, tj) ∈ seen ∧ target_version tj = Some (t, custom, text, acc.2) ∧
                                          lt = latest_target name t custom text
  end.
Lemma latest_fold rest seen acc :
  latest_so_far seen acc -> -1 <= acc.2 -> latest_so_far (seen ++ rest) (foldl later_target acc rest).
Proof.
  revert seen acc. induction rest as [|[name tj] rest IH]; intros seen acc Hs Hlow; [by rewrite app_nil_r|].
  cbn [foldl]. replace (seen ++ (name, tj) :: rest) with ((seen ++ [(name, tj)]) ++ rest) by by rewrite <-app_assoc.
  unfold later_target at 2. cbn [fst snd]. destruct Hs as [Hmax Hlt].
  assert (∀ acc' : option latestTarget * Z, acc.2 <= acc'.2 -> (∀ t custom text v, target_version tj = Some (t, custom, text, v) -> v <= acc'.2) ->
            ∀ v, readable_version (seen ++ [(name, tj)]) v -> v <= acc'.2) as Hall.
  { intros acc' Hle Hn v (n & tj' & t & c & x & Hin & Hv). rewrite elem_of_app, list_elem_of_singleton in Hin.
    destruct Hin as [Hin|[= -> ->]]; [|by eapply Hn]. etrans; [apply Hmax; by do 5 eexists|done]. }
  assert (∀ x, x ∈ seen -> x ∈ seen ++ [(name, tj)]) as Hsub by (intros x; rewrite elem_of_app; auto).
  assert (latest_so_far (seen ++ [(name, tj)]) acc -> latest_so_far ((seen ++ [(name, tj)]) ++ rest) (foldl later_target acc rest)) as Hkeep by auto.
  assert ((∀ t custom text v, target_version tj = Some (t, custom, text, v) -> v <= acc.2) -> latest_so_far (seen ++ [(name, tj)]) acc) as Hstay.
  { intros Hn. split; [by apply Hall|]. destruct acc.1 as [lt|]; [|done]. destruct Hlt as (H0 & n & tj' & t & c & x & Hin & Hv & ->).
    split; [done|]. exists n, tj', t, c, x. auto. }
  destruct (target_version tj) as [[[[t custom] text] v]|] eqn:Ev; [|apply Hkeep, Hstay; done].
  destruct (Z.leb_spec v acc.2); [apply Hkeep, Hstay; intros ? ? ? ? [= <- <- <- <-]; done|].
  apply IH; [|cbn; lia]. split; cbn [fst snd].
  - apply (Hall (None, v)); cbn; [lia|]. intros ? ? ? ? [= <- <- <- <-]. done.
  - split; [lia|]. exists name, tj, t, custom, text. split_and!; [|done..]. rewrite elem_of_app, list_elem_of_singleton. auto.
Qed.

(** The release of an update that its page shows is the latest, in whatever
    order the targets are gone through: none is shown exactly when no target has a
    readable version of at least zero, and the one shown is a target of the
    document whose version is no less than that of any other, shown with the version
    it is stored with. *)
Theorem latest_release_is_latest (tuf : gmap string (gmap string json_any)) targets (order : list (string * json_any)) :
  tuf_targets tuf = Some targets -> order ≡ₚ map_to_list targets ->
  match (foldl later_target (None, -1) order).1 with
  | None => ∀ v, readable_version (map_to_list targets) v -> v < 0
  | Some lt => ∃ name tj t custom text v,
      targets !! name = Some tj ∧ target_version tj = Some (t, custom, text, v) ∧ lt = latest_target name t custom text ∧
      (∀ v', readable_version (map_to_list targets) v' -> v' <= v)
  end ∧
  (findLatestTarget tuf = None ↔ (foldl later_target (None, -1) order).1 = None).
Proof.
  intros Htuf Hperm.
  assert (∀ l, l ≡ₚ map_to_list targets -> latest_so_far (map_to_list targets) (foldl later_target (None, -1) l)) as Hl.
  { intros l Hp. destruct (latest_fold l [] (None, -1)) as [Hmax Hlt]; [|done|].
    - split; [|done]. intros v (n & tj & t & c & x & Hin & _). by apply elem_of_nil in Hin.
    - cbn [app] in *. split.
      + intros v (n & tj & t & c & x & Hin & Hv). apply Hmax. exists n, tj, t, c, x. by rewrite Hp.
      + destruct (foldl later_target (None, -1) l).1 as [lt|]; [|done].
        destruct Hlt as (H0 & n & tj & t & c & x & Hin & Hv & ->). split; [done|]. exists n, tj, t, c, x. by rewrite <-Hp. }
  destruct (Hl order Hperm) as [Hmax Hlt]. split.
  - destruct (foldl later_target (None, -1) order).1 as [lt|].
    + destruct Hlt as (_ & n & tj & t & c & x & Hin & Hv & ->). apply elem_of_map_to_list in Hin. by exists n, tj, t, c, x, (foldl later_target (None, -1) order).2.
    + intros v Hv. apply Hmax in Hv. lia.
  - unfold findLatestTarget. rewrite Htuf. destruct (Hl (map_to_list targets)) as [Hmax' Hlt']; [done|].
    destruct (foldl later_target (None, -1) order).1 as [lt|], (foldl later_target (None, -1) (map_to_list targets)).1 as [lt'|]; try done.
    + split; [|done]. intros _. destruct Hlt as (H0 & n & tj & t & c & x & Hin & Hv & _).
      assert (readable_version (map_to_list targets) (foldl later_target (None, -1) order).2) as Hv' by by do 5 eexists. apply Hmax' in Hv'. lia.
    + split; [done|]. intros _. destruct Hlt' as (H0 & n & tj & t & c & x & Hin & Hv & _).
      assert (readable_version (map_to_list targets) (foldl later_target (None, -1) (map_to_list targets)).2) as Hv' by by do 5 eexists.
      apply Hmax in Hv'. lia.
Qed.
