(* ===== verification/GatewaySpec.v ===== *)
(** What the gateway lets a device do: who it is taken for, which rows its
    requests can change, and which files it can be sent. *)
From S2P Require Import Prelude GoStrings Bytes GoPath Schema World BaseFs Crypto Encoding Models Tar Configs Updates FsHandles Tuf TufFs GatewayStorage Http Gateway ReadOnly.

(** ** Files only: the tables stay *)

Definition tables (w w' : world) : Prop := db w' = db w.
#[global] Instance tables_preorder : PreOrder tables.
Proof. split; [done|]. unfold tables. congruence. Qed.
Lemma tables_fs_only {A} (m : IO A) Q : keeps fs_only m Q -> keeps tables m Q.
Proof. intros Hm w r w' Hr. by apply Hm in Hr as [(_ & Hd & _) HQ]. Qed.
Lemma tables_same {A} (m : IO A) Q : keeps same m Q -> keeps tables m Q.
Proof. intros Hm w r w' Hr. by apply Hm in Hr as [(_ & Hd & _) HQ]. Qed.
Lemma tables_sleep ms : keeps tables (time_sleep ms) any.
Proof. by intros w r w' [= <- <-]. Qed.
#[export] Hint Resolve tables_sleep : keeps.
Ltac keeps_tables := repeat first
  [ solve [eauto with keeps]
  | match goal with
    | |- keeps tables (Devices_WriteFile _ _ _ _) _ => apply tables_fs_only; unfold Devices_WriteFile, dev_localHandle; keeps_auto
    | |- keeps tables (Devices_WriteFileStream _ _ _ _) _ => apply tables_fs_only; unfold Devices_WriteFileStream, dev_localHandle; keeps_auto
    | |- keeps tables (Devices_AppendFile _ _ _ _) _ => apply tables_fs_only; unfold Devices_AppendFile, dev_localHandle; keeps_auto
    | |- keeps tables (Devices_RolloverFiles _ _ _ _) _ => apply tables_fs_only; unfold Devices_RolloverFiles, dev_localHandle; keeps_auto
    | |- keeps tables (Devices_ReadFile _ _ _) _ => apply tables_fs_only; unfold Devices_ReadFile, dev_localHandle; keeps_auto
    | |- keeps tables (Updates_AppendFile _ _ _ _ _) _ => apply tables_fs_only; unfold Updates_AppendFile, upd_localHandle; keeps_auto
    end
  | keeps_step ].

Section GatewayFiles.
Context `{HD : Digest, HT : TimeFormat, HCC : CertCodec}.
Context `{J1 : JSON DeviceUpdateEvent, J2 : JSON DeviceStatus, J3 : JSON AppliedConfigs, J4 : JSON (option (gmap string ConfigFile)), J5 : JSON TargetTest}.
Context (gw : GwStorage) (d : Device).

Lemma tables_process_events corr evs : keeps tables (process_events gw d corr evs) any.
Proof. revert corr. induction evs as [|e evs IH]; intros corr; simpl; keeps_tables. Qed.
Lemma tables_ProcessEvents evs : keeps tables (ProcessEvents gw d evs) any.
Proof. apply tables_process_events. Qed.
Lemma tables_PutFile n c : keeps tables (PutFile gw d n c) any.
Proof. unfold PutFile. keeps_tables. Qed.
Lemma tables_SaveAppsStates c : keeps tables (SaveAppsStates gw d c) any.
Proof. unfold SaveAppsStates, time_now_ms. keeps_tables. Qed.
Lemma tables_SaveAppliedConfigs c : keeps tables (SaveAppliedConfigs gw d c) any.
Proof. unfold SaveAppliedConfigs. keeps_tables. Qed.
Lemma tables_SaveDeviceConfig a b : keeps tables (SaveDeviceConfig gw d a b) any.
Proof.
  apply tables_fs_only. unfold SaveDeviceConfig, WriteDeviceConfig, PurgeDeviceConfigHistory, configs_deviceLocalHandle, writeConfig, purgeHistory, readJournalNames, readJournal, time_now_unix.
  keeps_auto.
Qed.
Lemma tables_TestCreate a b c : keeps tables (TestCreate gw d a b c) any.
Proof. unfold TestCreate, time_now_unix. keeps_tables. Qed.
Lemma tables_TestComplete a b c l : keeps tables (TestComplete gw d a b c l) any.
Proof. unfold TestComplete, time_now_unix. keeps_tables. Qed.
Lemma tables_TestStoreArtifact a b c : keeps tables (TestStoreArtifact gw d a b c) any.
Proof. unfold TestStoreArtifact. keeps_tables. Qed.
Lemma same_GetConfigs : keeps same (GetConfigs gw d) any.
Proof. unfold GetConfigs. reads. Qed.
Lemma same_GetDeviceConfig : keeps same (GetDeviceConfig gw d) any.
Proof. unfold GetDeviceConfig. reads. Qed.
Lemma same_GetTufMeta f : keeps same (GetTufMeta gw d f) any.
Proof. unfold GetTufMeta, ReadDefaultMeta. reads. Qed.
End GatewayFiles.
#[export] Hint Resolve tables_ProcessEvents tables_PutFile tables_SaveAppsStates tables_SaveAppliedConfigs tables_SaveDeviceConfig
  tables_TestCreate tables_TestComplete tables_TestStoreArtifact same_GetConfigs same_GetDeviceConfig same_GetTufMeta : keeps.

(** ** Rows of the device *)

(** What a device cannot change of its row: whether it is denied, its labels
    (and so its group), the update it is assigned, and the times of those. *)
Definition same_rights (r r' : device_row) : Prop :=
  d_deleted r' = d_deleted r ∧ d_labels r' = d_labels r ∧ d_update_name r' = d_update_name r ∧
  d_created_at r' = d_created_at r ∧ d_group_name_modified_at r' = d_group_name_modified_at r.
Definition no_rights (r : device_row) : Prop := d_deleted r = false ∧ d_labels r = ∅ ∧ d_update_name r = "".
Definition row_change (own : Prop) (o o' : option device_row) : Prop :=
  match o, o' with
  | None, None => True
  | Some r, Some r' => same_rights r r' ∧ (~ own -> r' = r)
  | None, Some r' => own ∧ no_rights r'
  | Some _, None => False
  end.
(** At most the row of [u] changed, and nothing but what devices report;
    certificates can be retired, the other tables stay. *)
Definition own_row (u : option string) (w w' : world) : Prop :=
  (∀ v, row_change (u = Some v) (devices (db w) !! v) (devices (db w') !! v)) ∧
  (u = None -> old_certs (db w') = old_certs (db w)) ∧
  (∀ c t, old_certs (db w) !! c = Some t -> old_certs (db w') !! c = Some t) ∧
  db w' = with_old_certs (old_certs (db w')) (with_devices (devices (db w')) (db w)).
Lemma row_change_refl own o : row_change own o o.
Proof. destruct o; [|done]. by split. Qed.
Lemma row_change_trans own o1 o2 o3 : row_change own o1 o2 -> row_change own o2 o3 -> row_change own o1 o3.
Proof.
  destruct o1 as [r1|], o2 as [r2|], o3 as [r3|]; simpl; try tauto; unfold same_rights, no_rights.
  - intros [Hs1 H1] [Hs2 H2]. split; [intuition congruence|]. intros Hn. by rewrite H2, H1.
  - intros [Ho Hn] [Hs2 _]. split; [done|]. intuition congruence.
Qed.
#[global] Instance own_row_preorder u : PreOrder (own_row u).
Proof.
  split.
  - intros w. split_and!; try done; [intros v; apply row_change_refl|by destruct w as [??? []]].
  - intros w1 w2 w3 (Hr1 & Ho1 & Hc1 & Hd1) (Hr2 & Ho2 & Hc2 & Hd2). split_and!.
    + intros v. by eapply row_change_trans.
    + intros Hu. by rewrite Ho2, Ho1.
    + auto.
    + rewrite Hd2 at 1. rewrite Hd1 at 1. done.
Qed.
Lemma own_row_tables u w w' : tables w w' -> own_row u w w'.
Proof.
  intros Ht. unfold own_row. rewrite Ht. split_and!; try done; [intros v; apply row_change_refl|by destruct (db w)].
Qed.
Lemma own_tables {A} u (m : IO A) Q : keeps tables m Q -> keeps (own_row u) m Q.
Proof. intros Hm w r w' Hr. apply Hm in Hr as [Ht HQ]. split; [by apply own_row_tables|done]. Qed.
(** One statement that changes the row of [u]. *)
Lemma own_row_alter u f w l c' :
  (∀ r, same_rights r (f r)) -> (∀ c t, old_certs (db w) !! c = Some t -> c' !! c = Some t) ->
  own_row (Some u) w (with_faults l (with_db (with_devices (alter f u (devices (db w))) (with_old_certs c' (db w))) w)).
Proof.
  intros Hf Hc. unfold own_row. simpl. split_and!; try done. intros v. destruct (decide (u = v)) as [->|Hne].
  - rewrite lookup_alter_eq. destruct (devices (db w) !! v) as [r|]; simpl; [|done]. by split.
  - rewrite lookup_alter_ne by done. apply row_change_refl.
Qed.

Section Isolation.
Context `{HD : Digest, HT : TimeFormat, HCC : CertCodec}.
Context `{J1 : JSON DeviceUpdateEvent, J2 : JSON DeviceStatus}.
Context (gw : GwStorage).

Lemma own_CheckIn d a b c e : keeps (own_row (Some (Uuid d))) (CheckIn d a b c e) (λ p, Uuid p.1 = Uuid d).
Proof.
  unfold CheckIn, time_now_unix. eapply (keeps_bind _ _ any); [by apply keeps_gets|]. intros now _.
  destruct (_ && _); [by apply keeps_ret|]. cbv zeta. eapply (keeps_bind _ _ any).
  - eapply (keeps_try _ any); [|done]. intros w r w' Hr. split; [|by destruct r]. unfold stmtDeviceCheckIn_run, sql_exec in Hr.
    apply sql_inv in Hr as [(l & -> & _)|(e0 & l & _ & ->)]; [|by apply own_row_tables]. cbn [snd Uuid].
    replace (db w) with (with_old_certs (old_certs (db w)) (db w)) at 2 by by destruct (db w).
    by apply own_row_alter.
  - intros r _. apply keeps_ret. done.
Qed.
Lemma own_DeviceCreate u cert : keeps (own_row (Some u)) (DeviceCreate u cert) any.
Proof.
  unfold DeviceCreate, time_now_unix. eapply (keeps_bind _ _ any); [by apply keeps_gets|]. intros now _.
  eapply (keeps_bind _ _ any); [|intros; by apply keeps_ret].
  intros w r w' Hr. split; [|by destruct r]. unfold stmtDeviceCreate_run in Hr.
  apply sql_inv in Hr as [(l & -> & _)|(e0 & l & _ & ->)]; [|by apply own_row_tables].
  destruct (devices (db w) !! u) as [r0|] eqn:E; cbn [snd]; [by apply own_row_tables|].
  unfold own_row. simpl. split_and!; try done. intros v. destruct (decide (u = v)) as [->|Hne].
  - by rewrite lookup_insert_eq, E.
  - rewrite lookup_insert_ne by done. apply row_change_refl.
Qed.
Lemma own_RotateCert d cur next : keeps (own_row (Some (Uuid d))) (RotateCert gw d cur next) any.
Proof.
  unfold RotateCert, time_now_unix, time_now_ms. eapply (keeps_bind _ _ any); [by apply keeps_gets|]. intros now _. cbv zeta.
  eapply (keeps_bind _ _ any).
  - eapply (keeps_try _ any); [|done]. intros w r w' Hr. split; [|by destruct r]. apply rotate_inv in Hr.
    destruct r as [[]|e]; [|by apply own_row_tables]. destruct Hr as (Hn & Hc & Hdb).
    assert (own_row (Some (Uuid d)) w (with_faults [] (with_db (db w') w))) as Ho; [|exact Ho].
    rewrite Hdb. unfold update_cert. apply own_row_alter; [done|]. intros c t Hct. rewrite lookup_insert_ne; [done|congruence].
  - intros err _. eapply (keeps_bind _ _ any); [by apply keeps_gets|]. intros ms _. eapply (keeps_bind _ _ any).
    + apply own_tables. keeps_tables.
    + intros [] _. by apply keeps_ret.
Qed.
End Isolation.

(** ** Every route *)

Section GatewayRoutes.
Context `{HD : Digest, HT : TimeFormat, HCC : CertCodec, HN : Encoders, HTP : TimeParse, HTL : Toml, HL : GatewayLibs, HAJ : AnyJson}.
Context `{J1 : JSON DeviceUpdateEvent, J2 : JSON DeviceStatus, J3 : JSON AppliedConfigs, J4 : JSON (option (gmap string ConfigFile)), J5 : JSON TargetTest}.
Context `{J6 : JSON (list DeviceUpdateEvent), J7 : JSON ConfigCreate, J8 : JSON AppsStates, J9 : JSON NetworkInfo, J10 : JSON testCreateBody, J11 : JSON testCompleteBody}.
Context {C : Type} `{HC : TokenCache C} (h : handlers).
Notation DH := (device_handler C).
Notation on R := (@on_world C R).

Lemma keeps_cache_get R `{!PreOrder R} t : keeps (on R) (cache_get t) any.
Proof. intros s r s'. unfold cache_get. destruct (cache_Get _ _ _) as [v c]. intros [= <- <-]. split; [by unfold on_world|done]. Qed.
Lemma keeps_cache_set R `{!PreOrder R} t u : keeps (on R) (cache_set t u) any.
Proof. intros s r s' [= <- <-]. split; [by unfold on_world|done]. Qed.
Hint Resolve keeps_cache_get keeps_cache_set : keeps.
Hint Extern 2 (keeps tables _ _) => apply tables_same; solve [eauto with keeps] : keeps.
Hint Extern 1 (keeps _ time_now_ms _) => unfold time_now_ms : keeps.
Hint Extern 1 (keeps _ time_now_unix _) => unfold time_now_unix : keeps.

Lemma merge_files_tables cfg m : keeps (on tables) (merge_files (C:=C) m cfg) any.
Proof. revert m. induction cfg as [|[k v] cfg IH]; intros m; simpl; unfold merge_file; keeps_handler. Qed.
Hint Resolve merge_files_tables : keeps.
Lemma merge_config_tables d i c m : keeps (on tables) (merge_config (C:=C) d i c m) any.
Proof. unfold merge_config. keeps_handler. Qed.
Lemma merge_sota_tables m : keeps (on tables) (merge_sota (C:=C) m) any.
Proof. unfold merge_sota. keeps_handler. Qed.
Hint Resolve merge_config_tables merge_sota_tables : keeps.

Definition writes_no_row (f : DH) : Prop := ∀ d r, keeps (on tables) (f d r) any.
Lemma metaHandler_tables role file : writes_no_row (metaHandler h role file).
Proof. intros d r. unfold metaHandler. keeps_handler. Qed.
Ltac head t := lazymatch t with ?f _ => head f | _ => t end.
Lemma mtls_tables m p f : (m, p, f) ∈ mtls_routes (C:=C) h -> writes_no_row f.
Proof.
  assert (Forall (λ x, writes_no_row x.2) (mtls_routes (C:=C) h)) as Hall.
  { unfold mtls_routes. rewrite !Forall_cons, Forall_nil. split_and!; try done; cbn [snd].
    all: try apply metaHandler_tables.
    all: lazymatch goal with |- writes_no_row ?f => let g := head f in unfold g end; intros d r; unfold new_token.
    all: keeps_handler; first [by apply keeps_gets | apply metaHandler_tables]. }
  intros Hin. eapply Forall_forall in Hall; [|exact Hin]. exact Hall.
Qed.

Lemma GW_DeviceGet_inv u w r w' :
  GW_DeviceGet u w = (r, w') -> same w w' ∧
  match r with Ok (Some d) => ∃ row, devices (db w) !! u = Some row ∧ d = device_of u row | _ => True end.
Proof.
  intros Hr. unfold GW_DeviceGet in Hr. apply bind_try_inv in Hr as (r0 & w1 & E & Hr).
  assert (w' = w1) as -> by (destruct r0 as [d|e]; [|destruct (errors_Is e ErrNoRows)]; by injection Hr as ? ?).
  split; [by apply same_query in E as [E _]|]. unfold stmtDeviceGet_run, sql_query in E.
  apply sql_inv in E as [(l & -> & E)|(e & l & -> & ->)]; cbn [fst snd] in *.
  - destruct (devices (db w) !! u) as [row|]; subst r0; [injection Hr as <-; by exists row|].
    change (errors_Is ErrNoRows ErrNoRows) with true in Hr. by injection Hr as <-.
  - destruct (errors_Is e ErrNoRows); by injection Hr as <-.
Qed.
Lemma own_GW_DeviceGet u : keeps tables (GW_DeviceGet u) (λ o, ∀ d, o = Some d -> Uuid d = u).
Proof.
  intros w r w' Hr. apply GW_DeviceGet_inv in Hr as [(_ & Hd & _) Hr]. split; [done|].
  destruct r as [[d|]|e]; [|done|done]. destruct Hr as (row & _ & ->). by intros d' [= <-].
Qed.
Definition own_next (u : string) (next : DH) : Prop := ∀ d r, Uuid d = u -> keeps (on (own_row (Some u))) (next d r) any.
Lemma own_authDevice (next : DH) r cert certs :
  PeerCertificates r = cert :: certs -> own_next (CommonName cert) next ->
  keeps (on (own_row (Some (CommonName cert)))) (authDevice h next r) any.
Proof.
  intros Hc Hn. unfold authDevice. rewrite Hc. cbv zeta.
  eapply (keeps_bind _ _ (λ o, ∀ d, o = Ok (Some d) -> Uuid d = CommonName cert)).
  { eapply keeps_try; [apply keeps_io, own_tables, own_GW_DeviceGet|]. intros [o|e] Ho d; [|done]. intros [= ->]. by apply Ho. }
  intros [[d|]|e] Hd; [| |apply keeps_put_out; apply _].
  - specialize (Hd d eq_refl). destruct (dv_Deleted d); [apply keeps_put_out; apply _|].
    destruct (negb _); [|by apply Hn]. destruct (PemBytesToCertificate _) as [cur|e]; [|apply keeps_put_out; apply _].
    eapply (keeps_bind _ _ (λ p, p.2 = None -> Uuid p.1 = CommonName cert)).
    + apply keeps_io. rewrite <-Hd. intros w r0 w' Hr. pose proof Hr as Ho. apply own_RotateCert in Ho as [Ho _].
      split; [done|]. destruct r0 as [[d' o]|]; [|done]. intros Hsome. cbn [fst snd] in *. subst o.
      unfold RotateCert, time_now_unix, time_now_ms in Hr. apply bind_gets_inv in Hr. cbv zeta in Hr.
      apply bind_try_inv in Hr as (e1 & w1 & _ & Hr). apply bind_gets_inv in Hr.
      apply bind_ignore_inv in Hr as (e2 & w2 & _ & Hr). destruct e1; [|by injection Hr]. by injection Hr as <- _.
    + intros [d' [e|]] Hd'; [apply keeps_put_out; apply _|]. by apply Hn, Hd'.
  - eapply (keeps_bind _ _ (λ r0, ∀ d, r0 = Ok d -> Uuid d = CommonName cert)).
    + eapply (keeps_try _ (λ d, Uuid d = CommonName cert)); [|intros [d|e] Hq d' [= <-]; done].
      apply keeps_io. intros w r0 w' Hr. pose proof Hr as Ho. apply own_DeviceCreate in Ho as [Ho _]. split; [done|].
      destruct r0 as [d|]; [|done]. unfold DeviceCreate, time_now_unix in Hr. apply bind_gets_inv in Hr.
      apply bind_inv_Ok in Hr as (x & w1 & _ & Hr). by injection Hr as <- _.
    + intros [d|e] Hq; [|apply keeps_put_out; apply _]. by apply Hn, Hq.
Qed.
Lemma own_checkin u (next : DH) : own_next u next -> own_next u (checkinDevice next).
Proof.
  intros Hn d r Hd. unfold checkinDevice. cbv zeta. eapply (keeps_bind _ _ (λ p, Uuid p.1 = u)).
  - apply keeps_io. rewrite <-Hd. apply own_CheckIn.
  - intros [d' e] Hd'. by apply Hn.
Qed.
Lemma own_bodyLimit u (next : DH) : own_next u next -> own_next u (bodyLimit next).
Proof.
  intros Hn d r Hd. unfold bodyLimit. destruct (String.eqb _ _); [by apply Hn|].
  destruct (limit_body r); [by apply Hn|]. apply keeps_fail.
Qed.
Lemma own_no_row u f : writes_no_row f -> own_next u f.
Proof. intros Hf d r _ s r' s' Hr. apply Hf in Hr as [Hr Ha]. split; [by apply own_row_tables|done]. Qed.
Lemma tables_lookup t (next : DH) r : writes_no_row next -> keeps (on tables) (lookupTokenDevice t next r) any.
Proof.
  intros Hn. unfold lookupTokenDevice. eapply (keeps_bind _ _ any); [apply keeps_cache_get; apply _|]. intros [u|] _; [|keeps_handler].
  eapply (keeps_bind _ _ any).
  - eapply (keeps_try _ any); [|done]. eapply keeps_io, keeps_any, own_GW_DeviceGet.
  - intros [[d|]|e] _; [destruct (dv_Deleted d); [keeps_handler|apply Hn]|keeps_handler|keeps_handler].
Qed.
Lemma tables_own_row u {A} (m : H C A) : keeps (on tables) m any -> keeps (on (own_row u)) m any.
Proof. intros Hm s r s' Hr. apply Hm in Hr as [Hr Ha]. split; [by apply own_row_tables|done]. Qed.
Lemma ostree_tables : writes_no_row (ostreeFileStream h).
Proof. intros d r. unfold ostreeFileStream. keeps_handler. Qed.
Lemma blobGet_tables : writes_no_row (blobGet h).
Proof. intros d r. unfold blobGet. keeps_handler. Qed.
Lemma blobHead_tables : writes_no_row blobHead.
Proof. intros d r. unfold blobHead. keeps_handler. Qed.

(** The device that the certificate of the connection names, if there is one. *)
Definition presented (r : gw_request) : option string := CommonName <$> head (PeerCertificates r).

(** C2. Whatever a device sends to whatever route of the gateway, and whatever fails:
    the only row that changes is the one its certificate names, and not its
    denial, its labels and group, or the update assigned to it; a row that is
    created has none of these.  Users, tokens, sessions, updates and sign-ins
    stay, and no retired certificate is forgotten.  Without a certificate the
    tables do not change at all. *)
Theorem gateway_isolation m p f r s res s' :
  (m, p, f) ∈ gateway_routes (C:=C) h -> f r s = (res, s') ->
  own_row (presented r) (sv_world s) (sv_world s').
Proof.
  intros Hin Hr. assert (keeps (on (own_row (presented r))) (f r) any) as Hk; [|by apply Hk in Hr as [Hr _]].
  clear Hr. unfold gateway_routes in Hin. apply elem_of_app in Hin as [Hin|[Hin|Hin]%elem_of_app].
  - apply list_elem_of_singleton in Hin. injection Hin as -> -> ->. apply keeps_put_out; apply _.
  - apply list_elem_of_fmap in Hin as ([[m' p'] f'] & [= -> -> ->] & Hin). apply mtls_tables in Hin. unfold mtls, presented.
    destruct (PeerCertificates r) as [|cert certs] eqn:Hc.
    + unfold authDevice. rewrite Hc. apply keeps_put_out; apply _.
    + eapply own_authDevice; [done|]. by apply own_bodyLimit, own_checkin, own_no_row.
  - repeat (apply elem_of_cons in Hin as [[= -> -> ->]|Hin]); [..|by apply elem_of_nil in Hin].
    + unfold authDeviceOrBearer, presented. destruct (PeerCertificates r) as [|cert certs] eqn:Hc.
      * apply tables_own_row. cbv zeta. destruct (negb _); [keeps_handler|]. apply tables_lookup, ostree_tables.
      * eapply own_authDevice; [done|]. apply own_checkin, own_no_row, ostree_tables.
    + apply tables_own_row. unfold authToken. cbv zeta. destruct (_ =? 0); [keeps_handler|]. apply tables_lookup, blobHead_tables.
    + apply tables_own_row. unfold authToken. cbv zeta. destruct (_ =? 0); [keeps_handler|]. apply tables_lookup, blobGet_tables.
Qed.

(** ** Who a request is taken for *)

Lemma RotateCert_inv gw d cur next w d' w' :
  RotateCert gw d cur next w = (Ok (d', None), w') ->
  ~ retired (Raw next) w ∧
  (∃ c t, db w' = update_cert (Uuid d) (pem_cert (Raw next)) (with_old_certs (<[c := t]> (old_certs (db w))) (db w))) ∧
  d' = mkDevice (Uuid d) (Apps d) (dv_Deleted d) (GroupName d) (LastSeen d) (OstreeHash d) (pem_cert (Raw next))
         (TargetName d) (Tag d) (UpdateName d) (groupNameModifiedAt d).
Proof.
  intros Hr. unfold RotateCert, time_now_unix, time_now_ms in Hr. apply bind_gets_inv in Hr. cbv zeta in Hr.
  apply bind_try_inv in Hr as (e1 & w1 & E1 & Hr). apply bind_gets_inv in Hr.
  apply bind_ignore_inv in Hr as (e2 & w2 & E2 & Hr). apply tables_ProcessEvents in E2 as [Et _].
  apply rotate_inv in E1. destruct e1 as [[]|e]; [|by injection Hr]. injection Hr as <- <-. destruct E1 as (Hn & Hc & Hdb).
  split_and!; [|eexists _, _; by rewrite Et|done]. unfold retired. rewrite Hn. by intros [].
Qed.
Lemma DeviceCreate_inv u cert w d w' :
  DeviceCreate u cert w = (Ok d, w') ->
  devices (db w) !! u = None ∧ ∃ row, devices (db w') !! u = Some row ∧ d = device_of u row ∧ d_deleted row = false ∧ d_cert row = cert.
Proof.
  unfold DeviceCreate, time_now_unix. intros Hr%bind_gets_inv. apply bind_inv_Ok in Hr as (x & w1 & E & Hr).
  injection Hr as <- <-. unfold stmtDeviceCreate_run in E. apply sql_inv in E as [(l & -> & E)|(e0 & l & ? & ->)]; [|done].
  destruct (devices (db w) !! u) as [r0|]; [done|]. split; [done|]. eexists. split; [apply lookup_insert_eq|]. done.
Qed.

(** C12. A request passes the check of the client certificate only as the device that
    its certificate names: with that device's row as it is then stored, which is
    not denied and has this very certificate; and if the stored one was another,
    the new one had not been retired.  Otherwise the answer is 403 or 502 and the
    handler is not run. *)
Theorem authDevice_sound (next : DH) r s res s' :
  authDevice h next r s = (res, s') ->
  (∃ code msg, res = Ok tt ∧ sv_out s' = sv_out s ++ [Respond code msg] ∧ (code = 403 \/ code = 502) ∧ sv_front s' = sv_front s) \/
  (∃ cert certs row s1, PeerCertificates r = cert :: certs ∧
     devices (db (sv_world s1)) !! CommonName cert = Some row ∧ d_deleted row = false ∧ d_cert row = pem_cert (Raw cert) ∧
     sv_out s1 = sv_out s ∧ sv_front s1 = sv_front s ∧ next (device_of (CommonName cert) row) r s1 = (res, s') ∧
     (∀ row0, devices (db (sv_world s)) !! CommonName cert = Some row0 ->
        d_deleted row0 = false ∧ (d_cert row0 = pem_cert (Raw cert) \/ ~ retired (Raw cert) (sv_world s)))).
Proof.
  unfold authDevice. destruct (PeerCertificates r) as [|cert certs] eqn:Hc.
  { intros [= <- <-]. left. by exists 403, "no client certificate provided"; auto. }
  cbv zeta. intros Hr. apply bind_try_inv in Hr as (r0 & s1 & E & Hr).
  apply io_inv in E as (w1 & E & ->). apply GW_DeviceGet_inv in E as [(_ & Hdb & _) E].
  assert (∀ msg s2 code, (code = 403 \/ code = 502) -> sv_out s2 = sv_out s -> sv_front s2 = sv_front s ->
    c_String code msg s2 = (res, s') -> ∃ code msg, res = Ok tt ∧ sv_out s' = sv_out s ++ [Respond code msg] ∧
      (code = 403 \/ code = 502) ∧ sv_front s' = sv_front s) as Hno.
  { intros msg s2 code Hcode Ho Hf [= <- <-]. exists code, msg. simpl. by rewrite Ho, Hf. }
  destruct r0 as [[d|]|e].
  - destruct E as (row & Hrow & ->). cbn [dv_Deleted Cert device_of] in Hr. destruct (d_deleted row) eqn:Hd; [left; eapply Hno; [..|exact Hr]; auto|].
    destruct (String.eqb_spec (pem_cert (Raw cert)) (d_cert row)) as [Hcert|Hcert]; cbn [negb] in Hr.
    + right. exists cert, certs, row, (with_world w1 s). split_and!; try done; [by simpl; rewrite Hdb|]. intros row0 Hrow0.
      assert (row0 = row) as -> by congruence. auto.
    + destruct (PemBytesToCertificate _) as [cur|e]; [|left; eapply Hno; [..|exact Hr]; auto].
      apply bind_inv in Hr as [([d' err] & s2 & E2 & Hr)|(e & E2 & ->)].
      * apply io_inv in E2 as (w2 & E2 & ->). destruct err as [e|]; [left; eapply Hno; [..|exact Hr]; auto|].
        apply RotateCert_inv in E2 as (Hret & (c & t & Hdb2) & ->). right.
        set (row' := DeviceRow (pem_cert (Raw cert)) (d_deleted row) (d_created_at row) (d_last_seen row) (d_tag row) (d_labels row)
          (d_update_name row) (d_target_name row) (d_ostree_hash row) (d_apps row) (d_group_name_modified_at row)).
        assert (devices (db w2) !! CommonName cert = Some row') as Hrow'.
        { rewrite Hdb2. unfold update_cert. cbn. by rewrite Hdb, lookup_alter_eq, Hrow. }
        exists cert, certs, row', (with_world w2 (with_world w1 s)). split_and!; try done.
        intros row0 Hrow0. assert (row0 = row) as -> by congruence. split; [done|]. right. unfold retired in *. cbn in Hret. by rewrite Hdb in Hret.
      * apply io_inv in E2 as (w2 & E2 & ->). unfold RotateCert, time_now_unix, time_now_ms in E2. apply bind_gets_inv in E2. cbv zeta in E2.
        apply bind_try_inv in E2 as (e1 & w3 & _ & E2). apply bind_gets_inv in E2.
        apply bind_ignore_inv in E2 as (e2 & w4 & _ & E2). by destruct e1.
  - apply bind_try_inv in Hr as (r1 & s2 & E2 & Hr). apply io_inv in E2 as (w2 & E2 & ->).
    destruct r1 as [d|e]; [|left; eapply Hno; [..|exact Hr]; auto]. apply DeviceCreate_inv in E2 as (Hnone & row & Hrow & -> & Hd & Hcert).
    right. exists cert, certs, row, (with_world w2 (with_world w1 s)). split_and!; try done.
    intros row0 Hrow0. cbn in Hnone. rewrite Hdb in Hnone. congruence.
  - left. eapply Hno; [..|exact Hr]; auto.
Qed.
End GatewayRoutes.

(** ** Which files are sent *)

Lemma foldl_no_dots r l stk :
  Forall (λ c, c <> ".." ∧ no_char slash c = true) l ->
  ∃ names, foldl (comp_step r) stk l = reverse names ++ stk ∧ Forall name_ok names.
Proof.
  revert stk. induction l as [|c l IH]; intros stk Hl; [by exists []|]. apply Forall_cons in Hl as [[Hc Hs] Hl]. simpl.
  destruct (decide (c = "" \/ c = ".")) as [Hskip|Hkeep].
  - destruct (IH stk Hl) as (names & E & Hn). exists names. split; [|done]. rewrite <-E. f_equal. unfold comp_step.
    by rewrite bool_decide_eq_true_2.
  - assert (name_ok c) as Hok by (unfold name_ok; split_and!; naive_solver).
    rewrite comp_step_name by done. destruct (IH (c :: stk) Hl) as (names & -> & Hn). exists (c :: names).
    split; [by rewrite reverse_cons, <-app_assoc|]. by constructor.
Qed.
(** A relative path without [..] resolves below the directory. *)
Lemma Clean_below dir b :
  dir_ok dir -> Forall (λ c, c <> "..") (Split b slash) -> under dir (Clean (dir +:+ "/" +:+ b)) = true.
Proof.
  intros Hd Hb. pose proof (dir_ok_nonempty _ Hd) as Hne. destruct Hd as [Hcl Hcs].
  destruct (foldl_no_dots (rooted dir) (Split b slash) (reverse (comps dir))) as (names & E & Hn).
  { pose proof (Split_no_slash b) as Hs. apply Forall_forall. intros c Hc. split; [by eapply Forall_forall in Hb|by eapply Forall_forall in Hs]. }
  unfold Clean. rewrite comps_app, E, rooted_app by done. rewrite reverse_app, !reverse_involutive.
  destruct names as [|n names]; [rewrite app_nil_r; change (under dir (Clean dir) = true); rewrite Hcl; apply under_refl|].
  rewrite render_app by done. change (render (rooted dir) (comps dir)) with (Clean dir). rewrite Hcl.
  unfold under, dir_prefix. apply orb_true_iff. right. destruct (String.eqb_spec dir "/") as [->|]; [by destruct Hcs|].
  rewrite <-str_app_assoc. apply HasPrefix_app.
Qed.
Lemma Contains_no_dots b : Contains b ".." = false -> Forall (λ c, c <> "..") (Split b slash).
Proof.
  intros Hb. apply Forall_forall. intros c Hc ->. enough (Contains b ".." = true) by congruence. clear Hb.
  apply Contains_spec. revert Hc. assert (∀ l, ".." ∈ l -> ∃ a z, Join l "/" = a +:+ ".." +:+ z) as Hj.
  { induction l as [|x l IH]; [by intros ?%elem_of_nil|]. intros [<-|Hin]%elem_of_cons.
    - destruct l as [|y l]; [by exists "", ""|]. by exists "", ("/" +:+ Join (y :: l) "/").
    - destruct (IH Hin) as (a & z & E). destruct l as [|y l]; [by apply elem_of_nil in Hin|].
      exists (x +:+ "/" +:+ a), z. change (Join (x :: y :: l) "/") with (x +:+ "/" +:+ Join (y :: l) "/"). by rewrite E, !str_app_assoc. }
  intros Hc. apply Hj in Hc as (a & z & E). exists a, z. rewrite <-E. symmetry. apply Join_Split.
Qed.

Section SentFiles.
Context `{HN : Encoders} {C : Type} (h : handlers) (d : Device).
Hypothesis Hroot : dir_ok (gw_root (hg_storage h)).
Hypothesis Hupdate : name_ok (UpdateName d).
Notation update_dir := (path_of (updates_root (hg_storage h)) (UpdateName d)).

Lemma updates_root_eq : updates_root (hg_storage h) = gw_root (hg_storage h) +:+ "/updates" ∧ dir_ok (updates_root (hg_storage h)).
Proof.
  assert (name_ok UpdatesDir) as Hn by by apply (bool_decide_unpack _). unfold updates_root, FsConfig_UpdatesDir.
  rewrite Join_entry by done. split; [done|by apply entry_dir_ok].
Qed.
Lemma FilePath_eq cat file : name_ok cat ->
  Updates_FilePath (updates_root (hg_storage h)) cat (UpdateName d) file = Clean (path_of (path_of update_dir cat) file) ∧
  dir_ok (path_of update_dir cat).
Proof.
  intros Hc. destruct updates_root_eq as [_ Hd]. split; [|by repeat apply entry_dir_ok].
  pose proof (dir_ok_nonempty _ Hd) as Hne. unfold Updates_FilePath, filepath_Join.
  destruct (String.eqb_spec (updates_root (hg_storage h)) ""); [done|]. cbn [Join]. by rewrite !str_app_assoc.
Qed.

(** What the registry sends for a blob lies among the blobs of the update that
    is assigned to the device, whatever path is asked for. *)
Theorem blobGet_stays_inside (r : gw_request) (s : server C) res s' :
  blobGet h d r s = (res, s') ->
  res = Ok tt ∧ ∃ o, sv_out s' = sv_out s ++ [o] ∧ sv_world s' = sv_world s ∧
    (o = Respond 404 "Not Found" \/
     ∃ p, o = SendFile p ∧ under (update_dir +:+ "/apps/blobs/sha256") p = true).
Proof.
  unfold blobGet. cbv zeta. destruct (negb _); [intros [= <- <-]; split; [done|eexists; split_and!; [done..|by left]]|].
  set (hash := parseRegistryHash _). destruct (_ || _) eqn:E; [intros [= <- <-]; split; [done|eexists; split_and!; [done..|by left]]|].
  apply orb_false_iff in E as [_ E]. intros [= <- <-]. split; [done|]. eexists. split_and!; [done..|]. right. eexists. split; [done|].
  unfold GetAppsFilePath. assert (name_ok UpdatesAppsDir) as Ha by by apply (bool_decide_unpack _).
  destruct (FilePath_eq UpdatesAppsDir ("blobs/sha256/" +:+ hash) Ha) as [-> Hd].
  assert (dir_ok (path_of (path_of (path_of update_dir UpdatesAppsDir) "blobs") "sha256")) as Hb.
  { apply entry_dir_ok; [apply entry_dir_ok; [done|]|]; by apply (bool_decide_unpack _). }
  replace (path_of (path_of update_dir UpdatesAppsDir) ("blobs/sha256/" +:+ hash))
    with (path_of (path_of (path_of (path_of update_dir UpdatesAppsDir) "blobs") "sha256") hash) by by rewrite !str_app_assoc.
  replace (update_dir +:+ "/apps/blobs/sha256") with (path_of (path_of (path_of update_dir UpdatesAppsDir) "blobs") "sha256")
    by by rewrite !str_app_assoc.
  apply Clean_below; [done|]. by apply Contains_no_dots.
Qed.

(** The files of the OSTree repository are not confined in the same way: a path
    that climbs out of it passes the check that it is clean, and any file of the
    data directory is sent, to every device that is assigned an update. *)
Theorem ostree_path_escapes (r : gw_request) (s : server C) dir file :
  name_ok dir -> name_ok file -> rq_path r = "/ostree/../../../" +:+ dir +:+ "/" +:+ file ->
  ostreeFileStream h d r s = (Ok tt, Server (sv_world s) (sv_front s)
    (sv_out s ++ [SetHeader "Content-Type" "application/octet-stream";
                  SendFile (gw_root (hg_storage h) +:+ "/" +:+ dir +:+ "/" +:+ file)])).
Proof.
  intros Hn Hf Hp. set (sub := "../../../" +:+ dir +:+ "/" +:+ file). assert (rq_path r = "/ostree/" +:+ sub) as Hpath by exact Hp.
  assert (Split sub slash = [".."; ".."; ".."; dir; file]) as Hsplit.
  { change sub with (".." +:+ "/" +:+ ".." +:+ "/" +:+ ".." +:+ "/" +:+ dir +:+ "/" +:+ file).
    rewrite !Split_app_slash, (Split_no_char dir), (Split_no_char file) by (apply Hn || apply Hf). done. }
  assert (slice (rq_path r) (len "/ostree/") (len (rq_path r)) = Ok sub) as Hslice.
  { pose proof (slice_app "/ostree/" sub "") as Hs. rewrite str_app_nil_r in Hs. rewrite Hpath, len_app. exact Hs. }
  assert (Clean sub = sub) as Hclean.
  { unfold Clean, comps. rewrite Hsplit. change (rooted sub) with false. rewrite clean_comps_fixed; [done|].
    exists 3%nat, [dir; file]. split_and!; [done|by rewrite !Forall_cons|done]. }
  unfold ostreeFileStream, mbind, M_bind, lift. rewrite Hslice, Hclean, String.eqb_refl. cbn [negb].
  destruct (Z.eqb_spec (len (UpdateName d)) 0) as [Hl|_].
  { destruct Hupdate as [Hne _]. destruct (UpdateName d); [done|unfold len in Hl; simpl in Hl; lia]. }
  replace (GetOstreeFilePath (hg_storage h) d sub) with (gw_root (hg_storage h) +:+ "/" +:+ dir +:+ "/" +:+ file).
  { change (ostreeContentType sub) with "application/octet-stream". unfold Header_Set, c_File, put_out, modify.
    cbn [sv_out sv_world sv_front]. by rewrite <-app_assoc. }
  unfold GetOstreeFilePath. assert (name_ok UpdatesOstreeDir) as Ho by by apply (bool_decide_unpack _).
  destruct (FilePath_eq UpdatesOstreeDir sub Ho) as [-> Hd]. pose proof (dir_ok_nonempty _ Hroot) as Hne.
  assert (dir_ok (path_of (path_of (gw_root (hg_storage h)) dir) file)) as Hout by by repeat apply entry_dir_ok.
  rewrite !str_app_assoc in Hout. apply comps_inj; [apply Hout|apply Clean_idemp| |].
  - rewrite rooted_Clean. destruct updates_root_eq as [-> _]. by rewrite !str_app_assoc, !(rooted_app (gw_root _)) by done.
  - assert (comps (gw_root (hg_storage h) +:+ "/" +:+ dir +:+ "/" +:+ file) = comps (gw_root (hg_storage h)) ++ [dir; file]) as ->.
    { pose proof (comps_app_name (path_of (gw_root (hg_storage h)) dir) file) as E. rewrite !str_app_assoc in E.
      rewrite E by (done || by apply dir_ok_nonempty, entry_dir_ok). rewrite comps_app_name by done. by rewrite <-app_assoc. }
    rewrite comps_Clean, (comps_app _ sub), Hsplit by by apply dir_ok_nonempty.
    destruct updates_root_eq as [Hu Hud].
    assert (update_dir <> "") as Hud' by (apply dir_ok_nonempty; by apply entry_dir_ok).
    apply dir_ok_nonempty in Hud. rewrite (comps_app_name _ UpdatesOstreeDir), (comps_app_name _ (UpdateName d)) by done.
    rewrite Hu. change (gw_root (hg_storage h) +:+ "/updates") with (path_of (gw_root (hg_storage h)) UpdatesDir).
    rewrite comps_app_name by (done || by apply (bool_decide_unpack _)).
    rewrite !reverse_snoc. cbn [foldl].
    rewrite !comp_step_pop, !comp_step_name by (done || apply Hupdate || by apply (bool_decide_unpack _)).
    by rewrite !reverse_cons, reverse_involutive, <-app_assoc.
Qed.
End SentFiles.
