(* ===== verification/GatewayCfg.v ===== *)
(** What the gateway answers: the configuration a device is given, layer over
    layer, when it is told that nothing changed, which of its events are kept,
    and how long the tokens it is handed are good for. *)
From S2P Require Import Prelude GoStrings Bytes GoPath Schema World BaseFs Crypto Encoding Models Tar Configs Updates FsHandles Tuf TufFs GatewayStorage Http Gateway ReadOnly GatewaySpec.

(** ** Folding the entries of a map over another one *)

Lemma foldl_insert_lookup {V} (l : list (string * V)) (m : gmap string V) k :
  NoDup l.*1 ->
  foldl (λ m kv, <[kv.1 := kv.2]> m) m l !! k = ((list_to_map l : gmap string V) ∪ m) !! k.
Proof.
  revert m. induction l as [|[k0 v0] l IH]; intros m Hn; cbn [foldl list_to_map foldr]; [by rewrite left_id_L by apply _|].
  apply NoDup_cons in Hn as [Hk Hn]. rewrite IH by done. cbn [fst snd uncurry]. rewrite <-insert_union_l, lookup_union.
  apply not_elem_of_list_to_map_1 in Hk; cbn [fst] in Hk. destruct (decide (k = k0)) as [->|Hne].
  - rewrite Hk, !lookup_insert_eq. done.
  - rewrite !lookup_insert_ne, lookup_union by done. done.
Qed.

Section Merging.
Context `{HTL : Toml}.

(** The reference for the merging of two tables: section by section, the newer
    value of a key in front of the older one. *)
Definition toml_over (p data : pacmanConfig) : pacmanConfig :=
  union_with (λ old new, Some (new ∪ old)) p data.

Lemma merge_values_over old values : merge_values old values = values ∪ old.
Proof.
  apply map_eq. intros k. unfold merge_values. rewrite foldl_insert_lookup by apply NoDup_fst_map_to_list.
  by rewrite list_to_map_to_list.
Qed.
Lemma merge_sections_lookup l (p : pacmanConfig) k :
  NoDup l.*1 -> foldl merge_section p l !! k = toml_over p (list_to_map l) !! k.
Proof.
  unfold toml_over. revert p. induction l as [|[s v] l IH]; intros p Hn; cbn [foldl list_to_map foldr fst snd uncurry].
  { rewrite lookup_union_with, lookup_empty. by destruct (p !! k). }
  apply NoDup_cons in Hn as [Hs Hn]. apply not_elem_of_list_to_map_1 in Hs; cbn [fst] in Hs. rewrite IH by done. rewrite !lookup_union_with.
  unfold merge_section. cbn [fst snd]. destruct (decide (k = s)) as [->|Hne].
  - rewrite Hs, lookup_insert_eq. destruct (p !! s) as [old|]; rewrite lookup_insert_eq; [|done]. by rewrite merge_values_over.
  - rewrite (lookup_insert_ne (list_to_map l)) by done. destruct (p !! s); by rewrite lookup_insert_ne.
Qed.
(** The loop over the parsed document computes the reference. *)
Lemma pacman_merge_over p text : pacman_merge p text = (data ← toml_Decode text; Ok (toml_over p data)).
Proof.
  unfold pacman_merge. destruct (toml_Decode text) as [data|e]; [|done]. cbn. f_equal. apply map_eq. intros k.
  rewrite merge_sections_lookup by apply NoDup_fst_map_to_list. by rewrite list_to_map_to_list.
Qed.
Lemma toml_over_empty_l data : toml_over ∅ data = data.
Proof. apply map_eq. intros k. unfold toml_over. rewrite lookup_union_with, lookup_empty. by destruct (data !! k). Qed.
Lemma toml_over_empty_r p : toml_over p ∅ = p.
Proof. apply map_eq. intros k. unfold toml_over. rewrite lookup_union_with, lookup_empty. by destruct (p !! k). Qed.

(** The files of a configuration set and the table in its override of sota.toml. *)
Definition files_of `{JSON (option (gmap string ConfigFile))} (c : option ConfigFileSet) : result (gmap string ConfigFile) :=
  match c with
  | None => Ok ∅
  | Some src => if len (RawFiles src) =? 0 then Ok ∅ else (cfg ← json_Unmarshal (RawFiles src); Ok (default ∅ cfg))
  end.
Definition override_of (files : gmap string ConfigFile) : result pacmanConfig :=
  match files !! ConfigSotaOverride with Some f => toml_Decode (cf_Value f) | None => Ok ∅ end.
End Merging.

Section Answers.
Context `{HD : Digest, HT : TimeFormat, HCC : CertCodec, HN : Encoders, HTP : TimeParse, HTL : Toml}.
Context `{J1 : JSON DeviceUpdateEvent, J2 : JSON DeviceStatus, J3 : JSON AppliedConfigs, J4 : JSON (option (gmap string ConfigFile)), J6 : JSON (list DeviceUpdateEvent)}.
Context {C : Type} `{HC : TokenCache C} (h : handlers).
Notation gw := (hg_storage h).

Lemma merge_file_inv m kv (s : server C) r s' :
  merge_file m kv s = (Ok r, s') ->
  s' = s ∧ r.1 = <[kv.1 := kv.2]> m.1 ∧
  (if String.eqb kv.1 ConfigSotaOverride then ∃ data, toml_Decode (cf_Value kv.2) = Ok data ∧ r.2 = toml_over m.2 data else r.2 = m.2).
Proof.
  destruct kv as [k v]. unfold merge_file. cbn [fst snd]. destruct (String.eqb k ConfigSotaOverride).
  - rewrite pacman_merge_over. destruct (toml_Decode (cf_Value v)) as [data|e]; [|done]. intros [= <- <-]. eauto.
  - intros [= <- <-]. eauto.
Qed.
Lemma merge_files_inv l m (s : server C) r s' :
  NoDup l.*1 -> merge_files m l s = (Ok r, s') ->
  s' = s ∧ r.1 = (list_to_map l : gmap string ConfigFile) ∪ m.1 ∧
  ∃ data, override_of (list_to_map l) = Ok data ∧ r.2 = toml_over m.2 data.
Proof.
  unfold override_of. revert m. induction l as [|[k v] l IH]; intros m Hn Hr; cbn [merge_files list_to_map foldr] in *.
  - injection Hr as <- <-. rewrite lookup_empty. split_and!; [done|by rewrite left_id_L by apply _|].
    exists ∅. by rewrite toml_over_empty_r.
  - apply NoDup_cons in Hn as [Hk Hn]. apply not_elem_of_list_to_map_1 in Hk; cbn [fst] in Hk.
    apply bind_inv_Ok in Hr as (m1 & s1 & E & Hr). apply merge_file_inv in E as (-> & E1 & E2). cbn [fst snd uncurry] in *.
    apply IH in Hr as (-> & -> & data & Hdata & Hp); [|done]. split; [done|]. rewrite E1. split.
    { apply map_eq. intros j. rewrite <-insert_union_l, lookup_union. destruct (decide (j = k)) as [->|Hj].
      - by rewrite Hk, !lookup_insert_eq.
      - by rewrite !lookup_insert_ne, lookup_union by done. }
    destruct (String.eqb_spec k ConfigSotaOverride) as [->|Hs].
    + destruct E2 as (d0 & Hd0 & E2). rewrite Hk in Hdata. injection Hdata as <-. rewrite toml_over_empty_r in Hp.
      exists d0. rewrite lookup_insert_eq. by rewrite Hp.
    + exists data. rewrite lookup_insert_ne, Hp, E2 by done. done.
Qed.
Lemma merge_config_inv d i c m (s : server C) m' s' :
  merge_config d i c m s = (Ok m', s') ->
  s' = s ∧ ∃ f data, files_of c = Ok f ∧ override_of f = Ok data ∧ mg_files m' = f ∪ mg_files m ∧ mg_pacman m' = toml_over (mg_pacman m) data.
Proof.
  unfold merge_config, files_of. destruct c as [src|].
  2: { intros [= <- <-]. split; [done|]. exists ∅, ∅. rewrite toml_over_empty_r, (left_id_L ∅ (∪)). done. }
  cbv zeta. destruct (len (RawFiles src) =? 0).
  { intros [= <- <-]. split; [done|]. exists ∅, ∅. cbn. rewrite toml_over_empty_r, (left_id_L ∅ (∪)). done. }
  destruct (json_Unmarshal (RawFiles src)) as [cfg|e]; [|done]. intros ([files p] & s1 & E & Hr)%bind_inv_Ok. cbn iota in Hr.
  apply merge_files_inv in E as (-> & Hf & data & Hd & Hp); [|apply NoDup_fst_map_to_list]. cbn [fst snd] in *. injection Hr as <- <-.
  split; [done|]. rewrite list_to_map_to_list in *. exists (default ∅ cfg), data. done.
Qed.
Lemma merge_sota_inv m (s : server C) files s' :
  merge_sota m s = (Ok files, s') ->
  s' = s ∧ (mg_pacman m = ∅ -> files = mg_files m) ∧
  (mg_pacman m <> ∅ -> ∃ text, pacman_encode (mg_pacman m) = Ok text ∧ cf_Value <$> files !! ConfigSotaOverride = Some text ∧
     ∀ k, k <> ConfigSotaOverride -> files !! k = mg_files m !! k).
Proof.
  unfold merge_sota. destruct (Z.eqb_spec (Z.of_nat (size (mg_pacman m))) 0) as [Hz|Hz].
  - intros [= <- <-]. assert (mg_pacman m = ∅) as He by (apply map_size_empty_inv; lia). split_and!; done.
  - destruct (pacman_encode (mg_pacman m)) as [text|e]; [|done]. intros [= <- <-]. split_and!; [done| |].
    + intros He. rewrite He, map_size_empty in Hz. done.
    + intros _. exists text. rewrite lookup_insert_eq. split_and!; [done..|]. intros k Hk. by rewrite lookup_insert_ne.
Qed.

(** C16. What a device is given is the newest factory, group and device sets, a file of
    the later ones in front of one of the earlier ones; only the overrides of
    sota.toml are merged, key by key, in the same order.  There is no answer body when
    there is no configuration at all, or nothing newer than the device says it has. *)
Theorem configGet_layers d (r : gw_request) (s s' : server C) :
  configGet h d r s = (Ok tt, s') ->
  ∃ c0 c1 c2 t w, GetConfigs gw d (sv_world s) = (Ok (c0, c1, c2, t), w) ∧
   ((t = 0 ∧ sv_out s' = sv_out s ++ [Respond 204 ""]) \/
    (t <> 0 ∧ not_modified r t = true ∧ sv_out s' = sv_out s ++ [Respond 304 ""]) \/
    (t <> 0 ∧ not_modified r t = false ∧ ∃ f0 f1 f2 p0 p1 p2 (files : gmap string ConfigFile),
       files_of c0 = Ok f0 ∧ files_of c1 = Ok f1 ∧ files_of c2 = Ok f2 ∧
       override_of f0 = Ok p0 ∧ override_of f1 = Ok p1 ∧ override_of f2 = Ok p2 ∧
       sv_out s' = sv_out s ++ [SetHeader "Date" (rfc1123 t); Respond 200 (any_json files)] ∧
       let p := toml_over (toml_over p0 p1) p2 in
       (∀ k, k <> ConfigSotaOverride \/ p = ∅ -> files !! k = (f2 ∪ (f1 ∪ f0)) !! k) ∧
       (p <> ∅ -> ∃ text, pacman_encode p = Ok text ∧ cf_Value <$> files !! ConfigSotaOverride = Some text))).
Proof.
  unfold configGet. intros ([[[c0 c1] c2] t] & s1 & E & Hr)%bind_inv_Ok. apply or_error_inv in E as (r0 & w & E & -> & Hr0).
  destruct r0 as [q|]; [|done]. injection Hr0 as <-. exists c0, c1, c2, t, w. split; [done|].
  destruct (Z.eqb_spec t 0) as [Ht|Ht]; [left; by injection Hr as <-|]. right.
  destruct (not_modified r t); [left; by injection Hr as <-|]. right. split_and!; [done..|].
  apply bind_inv_Ok in Hr as (m0 & s2 & E0 & Hr). apply merge_config_inv in E0 as (-> & f0 & p0 & F0 & O0 & M0 & P0).
  apply bind_inv_Ok in Hr as (m1 & s2 & E1 & Hr). apply merge_config_inv in E1 as (-> & f1 & p1 & F1 & O1 & M1 & P1).
  apply bind_inv_Ok in Hr as (m2 & s2 & E2 & Hr). apply merge_config_inv in E2 as (-> & f2 & p2 & F2 & O2 & M2 & P2).
  apply bind_inv_Ok in Hr as (files & s2 & E3 & Hr). apply merge_sota_inv in E3 as (-> & He & Hne).
  cbn [mg_files mg_pacman merged_nothing] in M0, P0. rewrite (right_id_L ∅ (∪)) in M0. rewrite toml_over_empty_l in P0. subst f0.
  rewrite P1, P0 in P2. rewrite M1 in M2. rewrite P2, M2 in *. exists (mg_files m0), f1, f2, p0, p1, p2, files. split_and!; try done.
  - apply bind_inv_Ok in Hr as ([] & s3 & E4 & Hr). injection E4 as <-. apply bind_inv_Ok in Hr as (now & s4 & E5 & Hr).
    injection E5 as <- <-. apply bind_ignore_inv in Hr as (r4 & s4 & E6 & Hr). apply io_inv in E6 as (w6 & _ & ->).
    injection Hr as <-. cbn [sv_out with_world]. by rewrite <-app_assoc.
  - intros k Hk. destruct (decide (toml_over (toml_over p0 p1) p2 = ∅)) as [Hz|Hz]; [by rewrite He|].
    destruct Hk as [Hk|Hk]; [|done]. destruct (Hne Hz) as (text & _ & _ & Hrest). by apply Hrest.
  - intros Hz. destruct (Hne Hz) as (text & Ht1 & Ht2 & _). eauto.
Qed.

(** A device that sends back the date of an answer is told that nothing changed
    exactly when the latest change is not of a later second. *)
Theorem configGet_not_modified d (r : gw_request) (s : server C) c t t' w :
  (∀ x, parse_rfc1123 (rfc1123 x) = Some x) -> (∀ x, rfc1123 x <> "") -> t' <> 0 ->
  Header_Get r "if-modified-since" = rfc1123 t -> GetConfigs gw d (sv_world s) = (Ok (c, t'), w) ->
  (configGet h d r s = (Ok tt, Server w (sv_front s) (sv_out s ++ [Respond 304 ""]))) ↔ t' <= t.
Proof.
  intros Hp Hne Ht' Hh E. assert (not_modified r t' = (t' <=? t)) as Hnm.
  { unfold not_modified. rewrite Hh, Hp. destruct (Z.ltb_spec 0 (len (rfc1123 t))) as [_|Hl]; [done|].
    specialize (Hne t). destruct (rfc1123 t); [done|]. unfold len in Hl. simpl in Hl. lia. }
  destruct c as [[c0 c1] c2]. assert (or_error (GetConfigs gw d) 500 "failed to fetch config" s = (Ok (c0, c1, c2, t'), with_world w s)) as Eo.
  { unfold or_error, io. erewrite bind_try by by rewrite E. done. }
  unfold configGet. rewrite (bind_Ok _ _ _ _ _ Eo). cbv beta iota. apply Z.eqb_neq in Ht'. rewrite Ht', Hnm.
  destruct (Z.leb_spec t' t) as [Hle|Hlt]; [by split|]. split; [|lia]. intros Hr. exfalso.
  apply bind_inv_Ok in Hr as (m0 & s2 & E0 & Hr). apply merge_config_inv in E0 as (-> & _).
  apply bind_inv_Ok in Hr as (m1 & s2 & E1 & Hr). apply merge_config_inv in E1 as (-> & _).
  apply bind_inv_Ok in Hr as (m2 & s2 & E2 & Hr). apply merge_config_inv in E2 as (-> & _).
  apply bind_inv_Ok in Hr as (files & s2 & E3 & Hr). apply merge_sota_inv in E3 as (-> & _).
  apply bind_inv_Ok in Hr as ([] & s3 & E4 & Hr). injection E4 as <-. apply bind_inv_Ok in Hr as (now & s4 & E5 & Hr).
  injection E5 as <- <-. apply bind_ignore_inv in Hr as (r4 & s4 & E6 & Hr). apply io_inv in E6 as (w6 & _ & ->).
  injection Hr as _ Ho. apply (f_equal List.length) in Ho. cbn in Ho. rewrite !length_app in Ho. simpl in Ho. lia.
Qed.

(** ** Events *)

(** An event that can be stored and shown: it has an id, a correlation id that
    is a file name, and a time that parses. *)
Definition storable (e : DeviceUpdateEvent) : Prop :=
  Id e <> "" ∧ ValidCorrelationId (CorrelationId (Event e)) = true ∧ is_Some (parse_rfc3339 (DeviceTime e)).
(** The same event, but for a time of the device that does not parse. *)
Definition same_event (e e' : DeviceUpdateEvent) : Prop :=
  Id e' = Id e ∧ Event e' = Event e ∧ EventType e' = EventType e ∧ (is_Some (parse_rfc3339 (DeviceTime e)) -> e' = e).
Lemma len_zero s : (len s =? 0) = String.eqb s "".
Proof. destruct s; [done|]. unfold len. by destruct (Z.eqb_spec (Z.of_nat (String.length (String a s))) 0). Qed.
Lemma valid_events_storable now events :
  (∀ x, is_Some (parse_rfc3339 (rfc3339_utc x))) -> Forall storable (valid_events now events).
Proof.
  intros Hp. induction events as [|e events IH]; [by constructor|]. cbn [valid_events]. destruct (valid_event e) eqn:Ev; [|done].
  constructor; [|done]. unfold valid_event in Ev. apply andb_true_iff in Ev as [[Hi _]%andb_true_iff Hv]. rewrite len_zero in Hi.
  unfold with_valid_time, storable. destruct (parse_rfc3339 (DeviceTime e)) as [t|] eqn:Et; cbn [Id Event DeviceTime].
  - rewrite Et. split_and!; [|done|done]. intros Hz. by rewrite Hz in Hi.
  - split_and!; [|done|apply Hp]. intros Hz. by rewrite Hz in Hi.
Qed.
Lemma valid_events_same now events :
  Forall2 same_event (List.filter valid_event events) (valid_events now events).
Proof.
  induction events as [|e events IH]; [by constructor|]. cbn [valid_events List.filter]. destruct (valid_event e); [|done].
  constructor; [|done]. unfold with_valid_time, same_event. by destruct (parse_rfc3339 (DeviceTime e)) as [t|].
Qed.

Lemma ReadJsonBody_Ok {A} `{JSON A} (r : request) (v : A) (s : server C) :
  (body ← rq_body r; json_Unmarshal body) = Ok v -> ReadJsonBody r s = (Ok v, s).
Proof.
  intros Hb. unfold ReadJsonBody, ReadBody, ParseJsonBody, mbind, M_bind. destruct (rq_body r) as [body|]; [|done].
  cbn in *. by rewrite Hb.
Qed.

(** An upload of events that parses never fails for what is in it: the events that
    cannot be stored are skipped, the rest go to the files in their order, the
    same but for times that do not parse.  Every one that is stored has a
    correlation id that names a file in the directory of the device. *)
Theorem eventsUpload_keeps_valid d (r : gw_request) (s s' : server C) res events :
  (∀ x, is_Some (parse_rfc3339 (rfc3339_utc x))) -> (body ← rq_body r; json_Unmarshal body) = Ok events ->
  eventsUpload h d r s = (res, s') ->
  ∃ kept, Forall2 same_event (List.filter valid_event events) kept ∧ Forall storable kept ∧
    (kept = [] -> res = Ok tt ∧ sv_world s' = sv_world s) ∧
    (kept <> [] -> ∃ r0, ProcessEvents gw d kept (sv_world s) = (r0, sv_world s') ∧
       res = match r0 with Ok _ => Ok tt | Err _ => Err (ErrHTTP 500 "Failed to save events") end).
Proof.
  intros Hp Hb Hr. exists (valid_events (clock (sv_world s)) events). split; [apply valid_events_same|]. split; [by apply valid_events_storable|].
  unfold eventsUpload in Hr. rewrite (bind_Ok _ _ _ _ _ (ReadJsonBody_Ok r events s Hb)) in Hr. destruct s as [w f o].
  rewrite (bind_Ok (io time_now_ms) _ _ (clock w) (Server w f o)) in Hr by done. cbn [sv_world] in *.
  destruct (valid_events (clock w) events) as [|e kept].
  - injection Hr as <- <-. by split.
  - split; [done|]. intros _. apply bind_inv in Hr as [(x & s1 & E & Hr)|(err & E & ->)].
    + apply or_error_inv in E as (r0 & w1 & E & -> & Hx). injection Hr as <- <-. exists r0. destruct r0; [|done]. by split.
    + apply or_error_inv in E as (r0 & w1 & E & -> & Hx). exists r0. destruct r0; [done|]. injection Hx as ->. by split.
Qed.

(** ** Tokens *)

Lemma GW_DeviceGet_run u w :
  faults w = [] -> GW_DeviceGet u w = (Ok (device_of u <$> devices (db w) !! u), w).
Proof.
  intros Hf. unfold GW_DeviceGet, stmtDeviceGet_run. rewrite bind_try_query by done.
  by destruct (devices (db w) !! u).
Qed.
Lemma ostreeUrls_inv d r (s s1 : server C) :
  ostreeUrls h d r s = (Ok tt, s1) ->
  ∃ token, sv_front s1 = cache_Set (clock (sv_world s)) token (Uuid d) (sv_front s) ∧
    sv_out s1 = sv_out s ++ [Respond 200 (any_json [{| DownloadUrl := hg_url h +:+ "/ostree"; AccessToken := token |}])].
Proof.
  unfold ostreeUrls, new_token. intros (token & s2 & E & Hr)%bind_inv_Ok.
  apply bind_inv_Ok in E as (t & s3 & E3 & E). injection E3 as <- <-. apply lift_inv in E as [_ ->]. injection Hr as <-.
  exists token. done.
Qed.

End Answers.
