(* ===== verification/Daemons.v ===== *)
(** server/ui/daemons: the goroutines of the server that work on a timer.  The
    watchdog of the rollouts is in Rollouts.v; here are the collection of
    expired certificates, the collection of expired tokens, sessions and
    sign-ins, and the refresh of the TUF timestamps, with what they achieve
    together with the requests that run between their rounds. *)
From stdpp Require Import relations.
From S2P Require Import Prelude GoStrings Bytes GoPath Schema World BaseFs Crypto Models Tar Configs Updates Ostree FsHandles Tuf TufFs GatewayStorage ApiStorage ApiTuf TufSpec TufLife ApiUpdate Rollouts Users UserOps Http Gateway GatewaySpec.

Definition minute_ms : Z := 60 * 1000.
(** [New]: the intervals, which the options can set. *)
Record daemons := { rolloutOptions_interval : Z; certGcOptions_interval : Z; tufOptions_interval : Z }.
Definition default_daemons : daemons :=
  {| rolloutOptions_interval := 5 * minute_ms; certGcOptions_interval := 60 * minute_ms; tufOptions_interval := 4 * 60 * minute_ms |}.
Definition WithRolloverInterval (interval : Z) (d : daemons) : daemons :=
  {| rolloutOptions_interval := interval; certGcOptions_interval := certGcOptions_interval d; tufOptions_interval := tufOptions_interval d |}.
Definition WithCertGcInterval (interval : Z) (d : daemons) : daemons :=
  {| rolloutOptions_interval := rolloutOptions_interval d; certGcOptions_interval := interval; tufOptions_interval := tufOptions_interval d |}.
Definition WithTufRefreshInterval (interval : Z) (d : daemons) : daemons :=
  {| rolloutOptions_interval := rolloutOptions_interval d; certGcOptions_interval := certGcOptions_interval d; tufOptions_interval := interval |}.

(** One round of the loop of each daemon; errors are logged. *)
Definition certGc_round : IO unit := now ← time_now_unix; ignore (DeleteExpiredCerts now).
Section Rounds.
Context `{Digest, Ed25519, TimeFormat, JSON AtsTufTargets, JSON AtsTufMeta, Canonical TargetsMeta, Canonical MetaMeta} (tuf : TufFsHandle).
Definition tufRefresh_round : IO unit := ignore (RefreshTufTimestamps tuf).
End Rounds.
(** The loops.  Each wait in [select] lets the rest of the server run: [env] has
    what runs during each of them, and ends with the signal to stop. *)
Definition wait (interval : Z) (e : IO unit) : IO unit := ignore e;; time_sleep interval.
Fixpoint work_then_wait (round : IO unit) (interval : Z) (env : list (IO unit)) : IO unit :=
  round;; match env with [] => mret tt | e :: env' => wait interval e;; work_then_wait round interval env' end.
Fixpoint wait_then_work (round : IO unit) (interval : Z) (env : list (IO unit)) : IO unit :=
  match env with [] => mret tt | e :: env' => wait interval e;; round;; wait_then_work round interval env' end.
Definition certGcDaemon (d : daemons) : list (IO unit) -> IO unit := work_then_wait certGc_round (certGcOptions_interval d).
Definition userGcDaemon : list (IO unit) -> IO unit := wait_then_work Storage_RunGc (5 * minute_ms).
Definition tufRefreshDaemon `{Digest, Ed25519, TimeFormat, JSON AtsTufTargets, JSON AtsTufMeta, Canonical TargetsMeta, Canonical MetaMeta}
    (tuf : TufFsHandle) (d : daemons) : list (IO unit) -> IO unit :=
  work_then_wait (tufRefresh_round tuf) (tufOptions_interval d).

(** ** Retired certificates *)

Section Certificates.
Context `{HD : Digest, HT : TimeFormat, HCC : CertCodec}.
Context `{J1 : JSON DeviceUpdateEvent, J2 : JSON DeviceStatus}.
Context (gw : GwStorage).

(** Rotations of devices, rounds of the collection, and anything else that leaves
    the table of retired certificates alone, while time passes. *)
Inductive cert_step (w w' : world) : Prop :=
  | cert_rotate d current next r : RotateCert gw d current next w = (r, w') -> cert_step w w'
  | cert_collect r : certGc_round w = (r, w') -> cert_step w w'
  | cert_other : old_certs (db w') = old_certs (db w) -> clock w <= clock w' -> cert_step w w'.

Definition retired_till (raw : string) (till : Z) (w : world) : Prop := ∃ t, old_certs (db w) !! fnv128a raw = Some t ∧ till <= t.
Definition later (w w' : world) : Prop := clock w <= clock w'.
#[local] Instance later_preorder : PreOrder later.
Proof. split; unfold later; [intros x; lia|intros x y z; lia]. Qed.
Lemma later_fs_only {A} (m : IO A) Q : keeps fs_only m Q -> keeps later m Q.
Proof. intros Hm w r w' Hr. apply Hm in Hr as [(Hc & _) HQ]. split; [unfold later; lia|done]. Qed.
Lemma later_sleep ms : 0 <= ms -> keeps later (time_sleep ms) any.
Proof. intros Hms w r w' [= <- <-]. split; [unfold later; simpl; lia|done]. Qed.
Lemma later_process_events d corr evs : keeps later (process_events gw d corr evs) any.
Proof.
  revert corr. induction evs as [|e evs IH]; intros corr; simpl.
  - apply later_fs_only. unfold Devices_RolloverFiles, dev_localHandle. keeps_auto.
  - eapply (keeps_bind _ _ any); [destruct (_ && _); [by apply later_sleep|by apply keeps_ret]|]. intros _ _.
    eapply (keeps_bind _ _ any); [apply later_fs_only; unfold Devices_AppendFile, dev_localHandle; keeps_auto|]. intros _ _.
    eapply (keeps_bind _ _ any); [|intros _ _; apply IH].
    destruct (_ && _); [apply later_fs_only; unfold Updates_AppendFile, upd_localHandle; keeps_auto|by apply keeps_ret].
Qed.
Lemma later_syscall {A} (op : IO A) : keeps later op any -> keeps later (syscall op) any.
Proof.
  intros Hop w r w' Hr. apply syscall_inv in Hr as [[l Hr]|(e & l & -> & ->)]; [|split; [by unfold later|done]].
  by apply Hop in Hr.
Qed.
Lemma later_rotate_run u pem a b exp : keeps later (stmtDeviceRotateCert_run u pem a b exp) any.
Proof.
  unfold stmtDeviceRotateCert_run. keeps_auto.
  - apply later_syscall. by apply keeps_ret.
  - apply later_syscall. by apply keeps_lift.
  - apply later_syscall. by apply keeps_ret.
  - intros w r w' Hr. split; [|by destruct r]. unfold sql_exec in Hr. apply sql_inv in Hr as [(l & -> & _)|(e & l & _ & ->)]; by unfold later.
Qed.
Lemma rotate_keeps d cur next w r w' :
  RotateCert gw d cur next w = (r, w') ->
  later w w' ∧ (∀ c t, old_certs (db w) !! c = Some t -> old_certs (db w') !! c = Some t).
Proof.
  intros Hr. split.
  - assert (keeps later (RotateCert gw d cur next) any) as Hk; [|by apply Hk in Hr as [Hr _]].
    unfold RotateCert, time_now_unix, time_now_ms. eapply (keeps_bind _ _ any); [by apply keeps_gets|]. intros now _. cbv zeta.
    eapply (keeps_bind _ _ any); [eapply (keeps_try _ any); [apply later_rotate_run|done]|]. intros e1 _.
    eapply (keeps_bind _ _ any); [by apply keeps_gets|]. intros ms _.
    eapply (keeps_bind _ _ any); [|intros; by apply keeps_ret]. eapply (keeps_ignore _ any); [|done]. apply later_process_events.
  - apply (own_RotateCert gw d cur next) in Hr as [(_ & _ & Hc & _) _]. apply Hc.
Qed.
Lemma collect_run w r w' :
  certGc_round w = (r, w') ->
  clock w' = clock w ∧ ∀ c t, old_certs (db w) !! c = Some t -> clock w / 1000 < t -> old_certs (db w') !! c = Some t.
Proof.
  unfold certGc_round, time_now_unix. intros Hr%bind_gets_inv. apply ignore_inv in Hr as (r0 & Hr & _).
  unfold DeleteExpiredCerts, stmtOldCertDeleteExpired_run, sql_exec in Hr.
  apply sql_inv in Hr as [(l & -> & _)|(e & l & _ & ->)]; (split; [done|]); intros c t Ht Hlt; simpl; [|done].
  apply map_lookup_filter_Some. split; [done|]. simpl. lia.
Qed.
Lemma cert_step_later w w' : cert_step w w' -> later w w'.
Proof.
  intros [d cur next r Hr|r Hr|_ Hc]; [by apply rotate_keeps in Hr as [Hr _]| |done].
  apply collect_run in Hr as [Hr _]. unfold later. lia.
Qed.
Lemma cert_steps_later w w' : rtc cert_step w w' -> later w w'.
Proof. induction 1 as [w|w w1 w2 Hs _ IH]; [done|]. apply cert_step_later in Hs. by etrans. Qed.
Lemma later_seconds w w' : later w w' -> clock w / 1000 <= clock w' / 1000.
Proof. intros Hl. by apply Z.div_le_mono. Qed.
Lemma cert_step_keeps raw till w w' :
  cert_step w w' -> clock w / 1000 < till -> retired_till raw till w -> retired_till raw till w'.
Proof.
  intros Hs Hlt (t & Ht & Hle). destruct Hs as [d cur next r Hr|r Hr|Ho _].
  - apply rotate_keeps in Hr as [_ Hk]. exists t. auto.
  - apply collect_run in Hr as [_ Hk]. exists t. split; [|done]. apply Hk; [done|lia].
  - exists t. by rewrite Ho.
Qed.
Lemma cert_steps_keep raw till w w' :
  rtc cert_step w w' -> clock w' / 1000 < till -> retired_till raw till w -> retired_till raw till w'.
Proof.
  induction 1 as [w|w w1 w2 Hs Hrtc IH]; [done|]. intros Hlt Hret. apply IH; [done|]. eapply cert_step_keeps; [done| |done].
  pose proof (later_seconds _ _ (cert_step_later _ _ Hs)). pose proof (later_seconds _ _ (cert_steps_later _ _ Hrtc)). lia.
Qed.
Lemma rotate_records d cur next d' w w' :
  RotateCert gw d cur next w = (Ok (d', None), w') -> retired_till (Raw cur) (NotAfter cur) w'.
Proof.
  intros Hr. unfold RotateCert, time_now_unix, time_now_ms in Hr. apply bind_gets_inv in Hr. cbv zeta in Hr.
  apply bind_try_inv in Hr as (e1 & w0 & E1 & Hr). apply bind_gets_inv in Hr.
  apply bind_ignore_inv in Hr as (e2 & w3 & E2 & Hr). apply tables_ProcessEvents in E2 as [Et _].
  apply rotate_inv in E1. destruct e1 as [[]|e]; [|by injection Hr]. injection Hr as _ <-. destruct E1 as (_ & _ & Hdb).
  unfold retired_till. rewrite Et, Hdb. simpl. rewrite lookup_insert_eq. eexists. split; [done|].
  destruct (Z.ltb_spec (NotAfter cur) (clock w / 1000)); lia.
Qed.

(** C25. The certificate a device was rotated away from stays on record until it expires
    by itself, through any rotations, rounds of the collection and other work of
    the server: so long no device is rotated back to it, and the collection
    forgets only certificates that TLS refuses anyway. *)
Theorem retired_until_expiry d cur next d' w w1 w2 :
  RotateCert gw d cur next w = (Ok (d', None), w1) -> rtc cert_step w1 w2 -> clock w2 / 1000 < NotAfter cur ->
  retired_till (Raw cur) (NotAfter cur) w2 ∧
  ∀ d2 cur2 d2' w3, RotateCert gw d2 cur2 cur w2 <> (Ok (d2', None), w3).
Proof.
  intros Hr%rotate_records Hsteps Hlt. pose proof (cert_steps_keep _ _ _ _ Hsteps Hlt Hr) as Hret. split; [done|].
  intros d2 cur2 d2' w3 H2. apply RotateCert_inv in H2 as (Hn & _). apply Hn. destruct Hret as (t & Ht & _). by exists t.
Qed.
End Certificates.

(** ** Timestamps *)

Section Timestamps.
Context `{HD : Digest, HE : Ed25519, !Ed25519Laws, HT : TimeFormat}.
Context `{J1 : JSON AtsTufTargets, J2 : JSON AtsTufMeta, !JSONLaws AtsTufMeta}.
Context `{C1 : Canonical TargetsMeta, C2 : Canonical MetaMeta}.
Context (tuf : TufFsHandle).
Hypothesis updates_ok : dir_ok (tuf_updates tuf).
(** The longest that the daemon waits between two rounds, delays included. *)
Context (pause : Z).

(** The state of the server with the time before which the next round begins. *)
Record refreshing := Refreshing { rf_world : world; rf_next : Z }.
Definition healthy (w : world) : Prop :=
  faults w = [] ∧ ∀ name, is_Some (updates (db w) !! name) -> refreshable tuf w name.
(** A round, or the rest of the server: time passes, updates come with a timestamp
    that holds until the next round, or go, and nobody else touches a timestamp. *)
Inductive refresh_step (s s' : refreshing) : Prop :=
  | refresh_round r :
      tufRefresh_round tuf (rf_world s) = (r, rf_world s') -> rf_next s' = clock (rf_world s') + pause -> refresh_step s s'
  | refresh_other :
      rf_next s' = rf_next s -> clock (rf_world s) <= clock (rf_world s') <= rf_next s -> healthy (rf_world s') ->
      (∀ name ts, is_Some (updates (db (rf_world s')) !! name) -> is_Some (updates (db (rf_world s)) !! name) ->
         timestamp_of tuf (rf_world s) name ts -> timestamp_of tuf (rf_world s') name ts) ->
      (∀ name, is_Some (updates (db (rf_world s')) !! name) -> updates (db (rf_world s)) !! name = None ->
         ∃ ts, timestamp_of tuf (rf_world s') name ts ∧ rf_next s < expiry ts) ->
      refresh_step s s'.
Definition covered (s : refreshing) : Prop :=
  healthy (rf_world s) ∧ clock (rf_world s) <= rf_next s ∧
  ∀ name, is_Some (updates (db (rf_world s)) !! name) -> ∃ ts, timestamp_of tuf (rf_world s) name ts ∧ rf_next s < expiry ts.

Lemma covered_step s s' :
  can_sign tuf -> 24 * hour_ms + 1000 <= TimestampExpiration tuf -> 0 <= pause <= 24 * hour_ms ->
  refresh_step s s' -> covered s -> covered s'.
Proof.
  intros Hsign Hexp Hp Hs (Hh & Hc & Hts). destruct Hs as [r Hr Hn|Hn Hc' Hh' Hkeep Hnew].
  - pose proof Hh as [Hf Href]. destruct (ListUpdates_all _ Hf) as (l & El & Hl).
    destruct (refresh_all tuf updates_ok l (rf_world s) Hsign Hexp Hf) as (w' & E & Hall & _ & Hfs & Hr').
    { intros u Hu. apply Href, Hl. by exists u. }
    assert (rf_world s' = w') as Hw.
    { unfold tufRefresh_round, ignore, RefreshTufTimestamps in Hr. rewrite (bind_Ok _ _ _ _ _ El), E in Hr. by injection Hr. }
    unfold covered, healthy. rewrite Hn, Hw. destruct Hfs as (Hcl & Hdb & _ & _ & Hsuf). rewrite Hdb. split_and!.
    + by eapply suffix_no_faults.
    + intros name Hname. apply Hr', Href, Hname.
    + lia.
    + intros name Hname. destruct (Hts name Hname) as (ts0 & Hts0 & _). apply Hl in Hname as (u & Hu & <-).
      destruct (Hall u Hu) as (ts & Ht & Hlt); [by exists ts0|]. exists ts. split; [done|]. lia.
  - split; [done|]. rewrite Hn. split; [lia|]. intros name Hname. destruct (updates (db (rf_world s)) !! name) as [row|] eqn:E.
    + destruct (Hts name) as (ts & Ht & Hlt); [by exists row|]. exists ts. split; [|done]. by apply Hkeep; [|exists row|].
    + by apply Hnew.
Qed.
Lemma covered_steps s s' :
  can_sign tuf -> 24 * hour_ms + 1000 <= TimestampExpiration tuf -> 0 <= pause <= 24 * hour_ms ->
  rtc refresh_step s s' -> covered s -> covered s'.
Proof. intros Hsign Hexp Hp. induction 1 as [s|s s1 s2 Hs _ IH]; [done|]. intros Hcov. apply IH. by eapply covered_step. Qed.

End Timestamps.
