(* ===== verification/Witnesses.v ===== *)
(** Concrete runs: for the theorems that have hypotheses, an input on which
    they all hold, with the theorem applied to it. *)
From S2P Require Import Prelude GoStrings GoPath Schema World BaseFs Crypto Models Tar Configs Updates FsHandles Tuf TufFs GatewayStorage ApiStorage ApiUpdate Rollouts ApiSpec Integration Scopes Users UserOps.
(* The names the storage packages share. *)
Import Users.

(** ** Files and archives *)

Module FileRuns.
Definition w0 : world :=
  World {["/d" := Dir; "/d/a" := File "old" 416 5; "/d/b" := File "new" 416 9]} 1000 [] empty_db (λ _, "") 0.
Definition name_a : name_ok "a". Proof. by apply (bool_decide_unpack _). Defined.
Lemma dir_d : dir_ok "/d". Proof. vm_compute. by split. Qed.
Lemma root_d : root_ok "/d".
Proof. split; [reflexivity|]. right. exists "d". vm_compute. by split. Qed.
(** The rename of the write fails. *)
Definition w_faulty : world := with_faults [None; None; None; None; Some ErrIO] w0.

Definition item (name data : string) : result tar_item :=
  Ok {| it_hdr := {| h_Name := name; h_Typeflag := TypeReg; h_Size := len data |}; it_data := data; it_data_err := None |}.
Definition archive : tarball := {| tb_bytes := ""; tb_read_err := None; tb_items := [item "x/../y" "hello"; item "z" ""] |}.
Definition config : tarUnpackConfig unit := default_config unit.
Definition unpacked : result () * world := _unpackTar config tt archive "/d" w0.
Lemma limits : limits_ok config. Proof. vm_compute. intuition discriminate. Qed.
Definition calls : list (string * Z) := [("a/b", 5); ("a/c", 7)].
Lemma calls_ok : Forall (λ c : string * Z, 0 <= c.2 < 2 ^ 63) calls.
Proof. repeat constructor; vm_compute; intuition discriminate. Qed.
End FileRuns.

Lemma writeFile_atomic_witness :
  file_at (writeFile "/d" "a" "text" 416 FileRuns.w_faulty).2 "/d/a" = Some "old" ∧
  file_at (writeFile "/d" "a" "text" 416 FileRuns.w0).2 "/d/a" = Some "text".
Proof.
  split.
  - destruct (writeFile_atomic "/d" "a" "text" 416 FileRuns.w_faulty _ _ FileRuns.dir_d FileRuns.name_a (surjective_pairing _)) as [H _].
    refine (eq_trans H _). vm_compute. reflexivity.
  - destruct (writeFile_atomic "/d" "a" "text" 416 FileRuns.w0 _ _ FileRuns.dir_d FileRuns.name_a (surjective_pairing _)) as [H _].
    refine (eq_trans H _). vm_compute. reflexivity.
Defined.

Lemma rolloverFiles_spec_witness :
  ∃ removed kept w', rolloverFiles "/d" "" 1 FileRuns.w0 = (Ok tt, w') ∧ removed ++ kept ≡ₚ ["a"; "b"] ∧ List.length kept = 1%nat.
Proof.
  destruct (rolloverFiles_spec "/d" "" 1 FileRuns.w0) as (removed & kept & w' & H1 & H2 & H3 & _).
  - apply FileRuns.dir_d.
  - reflexivity.
  - vm_compute. reflexivity.
  - intros k. simpl. rewrite !lookup_insert, lookup_singleton. by repeat case_decide.
  - intros n Hn. change (n ∈ ["a"; "b"]) in Hn. rewrite !elem_of_cons, elem_of_nil in Hn.
    destruct Hn as [->|[->|[]]]; vm_compute; reflexivity.
  - exists removed, kept, w'. split; [exact H1|]. split; [exact H2|exact H3].
Defined.

Lemma AbsPathNoEscape_confines_witness :
  under "/d" "/d/y" = true ∧ AbsPathNoEscape "/d" "x/../y" = Ok "/d/y" ∧ is_Ok (AbsPathNoEscape "/d" "../y") = false.
Proof.
  pose proof (AbsPathNoEscape_confines "/d" "x/../y" FileRuns.root_d) as H.
  split; [|split; vm_compute; reflexivity].
  destruct (AbsPathNoEscape "/d" "x/../y") as [abs|e] eqn:E; vm_compute in E; [|discriminate E].
  injection E as <-. apply H.
Defined.

Lemma unpackTar_confined_witness : confined "/d" FileRuns.w0 FileRuns.unpacked.2.
Proof.
  apply (unpackTar_confined FileRuns.config tt FileRuns.archive "/d" FileRuns.w0 FileRuns.unpacked.1);
    [apply FileRuns.root_d|reflexivity|reflexivity|apply surjective_pairing].
Defined.


Lemma limiter_sound_witness :
  ∃ l, run_limiter FileRuns.config FileRuns.calls new_limiter = Some l ∧
       Forall (λ c, c.1 ∈ uniqueDirEntries l) FileRuns.calls.
Proof.
  destruct (run_limiter FileRuns.config FileRuns.calls new_limiter) as [l|] eqn:E; [|vm_compute in E; discriminate E].
  exists l. split; [reflexivity|].
  destruct (limiter_sound FileRuns.config FileRuns.calls l FileRuns.limits FileRuns.calls_ok E) as (_ & _ & H).
  eapply Forall_impl; [exact H|]. intros c (_ & _ & Hc). exact Hc.
Defined.

Lemma diskSizeLimiter_terminates_witness :
  (_diskSizeLimiter FileRuns.config "y" 5 new_limiter).1 <> Err (ErrMsg "out of fuel").
Proof.
  assert (AbsPathNoEscape "/d" "x/../y" = Ok "/d/y") as Ha by (vm_compute; reflexivity).
  assert (filepath_Rel "/d" "/d/y" = Ok "y") as Hr by (vm_compute; reflexivity).
  destruct (_diskSizeLimiter FileRuns.config "y" 5 new_limiter) as [r l'] eqn:E.
  exact (diskSizeLimiter_terminates FileRuns.config "/d" "x/../y" "/d/y" "y" 5 new_limiter r l' FileRuns.root_d Ha Hr E).
Defined.

(** ** Users and credentials *)

Module UserRuns.
#[export] Instance digest : Digest := toy_digest.
#[export] Instance time_format : TimeFormat := {| rfc3339 := Itoa; rfc3339_utc := Itoa |}.
#[export] Instance sqlite : SqliteJson := {| sqlite_json s := Some s |}.
Definition auth_config : AuthConfig :=
  {| AuthType := "local"; SessionTimeoutHours := 1; MaxTokenLifetimeDays := 30; NewUserDefaultScopes := [];
     RateLimits := {| AttemptsPerSecond := 0; AttemptsBlockDurationSec := 0; BadAuthLimit := 0; BadAuthBlockDurationSec := 0 |};
     AuthRawConfig := "" |}.
Definition h : Storage := {| hmacSecret := "secret"; authConfig := auth_config; audit_root := "/d/audit" |}.
Definition secret : string := "ABCDEFGHIJKLMNOPQR".
Definition hashed : string := match hashToken h secret with Ok x => x | Err _ => "" end.
(** Account 1 may read devices and users; its token and its session carry
    the permissions to read and update devices. *)
Definition ann : user_row := UserRow "ann" "" "" 0 false "devices:read,users:read" "{}".
Definition database : database :=
  with_sessions {[hashed := SessionRow 1 "ip" 0 2000 "devices:read-update"]}
    (with_tokens {[1 := TokenRow 1 0 2000 "ci" "devices:read-update" hashed]} 1
      (with_users {[1 := ann]} 1 empty_db)).
Definition w : world := World {["/d" := Dir; "/d/audit" := Dir]} 1000000 [] database (λ _, secret) 0.
Definition w_gone : world := with_db (with_users ∅ 1 database) w.
Definition user : User := mkUser 1 "ann" "" "" 0 false (Z.lor ScopeDevicesR ScopeUsersR) (Some "{}").
(** The same account before it had a token. *)
Definition w_fresh : world := with_db (with_users {[1 := ann]} 1 empty_db) w.
Definition expect : User := mkUser 1 "ann" "" "" 0 false ScopeDevicesR (Some "{}").
Lemma valid_read : valid ScopeDevicesR.
Proof. apply validb_spec. vm_compute. reflexivity. Qed.
Definition flow : list flow_op :=
  [FCreate 2000 3000 "devices:read"; FApprove user secret "laptop" ScopeDevicesR; FDeny user secret; FExpire 1500].
End UserRuns.
Import UserRuns.

Lemma GetByToken_sound_witness :
  (GetByToken h secret UserRuns.w).1 = Ok (Some expect, None) ∧ token_granted UserRuns.database 1000 hashed expect.
Proof.
  assert (GetByToken h secret UserRuns.w = (Ok (Some expect, None), UserRuns.w)) as E by (vm_compute; reflexivity).
  split; [rewrite E; reflexivity|]. destruct (GetByToken_sound h secret UserRuns.w expect UserRuns.w E) as (x & Hx & Hg).
  vm_compute in Hx. injection Hx as <-. exact Hg.
Defined.

Lemma GetBySession_sound_witness :
  (GetBySession h secret UserRuns.w).1 = Ok (Some expect, None) ∧ session_granted UserRuns.database 1000 hashed expect.
Proof.
  assert (GetBySession h secret UserRuns.w = (Ok (Some expect, None), UserRuns.w)) as E by (vm_compute; reflexivity).
  split; [rewrite E; reflexivity|]. destruct (GetBySession_sound h secret UserRuns.w expect UserRuns.w E) as (x & Hx & Hg).
  vm_compute in Hx. injection Hx as <-. exact Hg.
Defined.

Lemma escalation_refused_witness : ∃ e, GenerateToken h UserRuns.user "ci" 2000 ScopeDevicesD UserRuns.w = (Err e, UserRuns.w).
Proof.
  destruct (escalation_refused h UserRuns.user "ci" 2000 ScopeDevicesD 1 "ip" UserRuns.w) as [H _]; [|exact H].
  intros H. vm_compute in H. discriminate H.
Defined.

Lemma GenerateToken_lifetime_witness : ∃ t w1,
  GenerateToken h UserRuns.user "ci" 2000 ScopeDevicesR UserRuns.w_fresh = (Ok t, w1) ∧ ExpiresAt t <= 1000 + 30 * 86400.
Proof.
  destruct (GenerateToken h UserRuns.user "ci" 2000 ScopeDevicesR UserRuns.w_fresh) as [[t|e] w1] eqn:E;
    [|exfalso; vm_compute in E; discriminate E].
  exists t, w1. split; [reflexivity|].
  assert (0 < MaxTokenLifetimeDays (authConfig h) <= 106751) as Hd by (vm_compute; split; [reflexivity|discriminate]).
  exact (GenerateToken_lifetime h UserRuns.user "ci" 2000 ScopeDevicesR UserRuns.w_fresh t w1 Hd E).
Defined.

Lemma GenerateToken_GetByToken_witness : ∃ t w1,
  GenerateToken h UserRuns.user "ci" 2000 ScopeDevicesR UserRuns.w_fresh = (Ok t, w1) ∧
  (GetByToken h (Value t) (with_faults [] (with_clock 1500000 w1))).1 = Ok (Some expect, None) ∧
  (GetByToken h (Value t) (with_faults [] (with_clock 3000000 w1))).1 = Ok (None, None).
Proof.
  destruct (GenerateToken h UserRuns.user "ci" 2000 ScopeDevicesR UserRuns.w_fresh) as [[t|e] w1] eqn:E;
    [|exfalso; vm_compute in E; discriminate E].
  exists t, w1. split; [reflexivity|].
  pose proof (λ now, GenerateToken_GetByToken h UserRuns.user "ci" 2000 ScopeDevicesR UserRuns.w_fresh t w1
    UserRuns.ann (Z.lor ScopeDevicesR ScopeUsersR) now) as H.
  split.
  - refine (eq_trans (H 1500000 _ _ _ eq_refl _ E) _); [|discriminate|vm_compute; reflexivity..].
    apply UserRuns.valid_read.
  - refine (eq_trans (H 3000000 _ _ _ eq_refl _ E) _); [|discriminate|vm_compute; reflexivity..].
    apply UserRuns.valid_read.
Defined.

Lemma User_Delete_spec_witness : ∃ w', User_Delete h UserRuns.user UserRuns.w = (Ok tt, w') ∧ ∀ s, ~ user_grants (db w') 1 s.
Proof.
  destruct (User_Delete h UserRuns.user UserRuns.w) as [[[]|e] w'] eqn:E; [|exfalso; vm_compute in E; discriminate E].
  exists w'. split; [reflexivity|]. apply (User_Delete_spec h UserRuns.user UserRuns.w w' E).
Defined.

Lemma deleted_user_session_witness :
  GetBySession h secret UserRuns.w_gone = (Ok (Some (with_AllowedScopes 0 zero_user), Some ErrNoRows), UserRuns.w_gone).
Proof.
  refine (deleted_user_session h secret hashed (SessionRow 1 "ip" 0 2000 "devices:read-update") 3 UserRuns.w_gone
            _ _ _ _ _ _); [vm_compute; (reflexivity || discriminate)..|].
  intros urow H. vm_compute in H. discriminate H.
Defined.

Lemma RunGc_spec_witness : ∃ w', Storage_RunGc (with_clock 3000000 UserRuns.w) = (Ok tt, w') ∧ tokens (db w') !! 1 = None.
Proof.
  destruct (RunGc_spec (with_clock 3000000 UserRuns.w) eq_refl) as (w' & E & Ht & _). exists w'. split; [exact E|].
  destruct (tokens (db w') !! 1) as [row|] eqn:Er; [|reflexivity]. exfalso.
  apply Ht in Er as [Er Hle]. vm_compute in Er. injection Er as <-. vm_compute in Hle. apply Hle. reflexivity.
Defined.


Lemma scopes_print_parse_witness : ScopesFromString (scopes_String 0x303) = Ok 0x303.
Proof.
  apply (scopes_print_parse ["devices:read-update"; "devices:read"; "users:read-update"] 0x303);
    [vm_compute; reflexivity|discriminate].
Defined.

(** ** Devices *)

Module DeviceRuns.
#[export] Instance codec : CertCodec :=
  {| pem_cert raw := raw; pem_decode s := Some (s, ""); ParseCertificate s := Err ErrIO |}.
Definition cert (raw : string) : Certificate := {| Raw := raw; NotAfter := 9000; CommonName := "dev1" |}.
Definition row (name tag update : string) : device_row :=
  DeviceRow (if String.eqb name "one" then "old" else "other") false 1 1 tag {["name" := name; "group" := "lab"]} update "t1" "h1" "a1" 0.
Definition database : Schema.database :=
  with_updates {["u1" := UpdateRow "main" 5 "ann"; "u2" := UpdateRow "main" 6 "ann"]}
    (with_devices {["dev1" := row "one" "main" "u1"; "dev2" := row "two" "main" ""]} empty_db).
Definition w : world := World {["/d" := Dir; "/d/devices" := Dir; "/d/updates" := Dir]} 1000000 [] database (λ _, "") 0.
Definition dev1 : Device := device_of "dev1" (row "one" "main" "u1").
Definition rotation1 : rotation :=
  {| ro_uuid := "dev1"; ro_current := cert "old"; ro_next := cert "new"; ro_expires := 9000 |}.
Definition rotation2 : rotation :=
  {| ro_uuid := "dev1"; ro_current := cert "new"; ro_next := cert "old"; ro_expires := 9000 |}.
Definition w1 : world := (rotate rotation1 w).2.
Definition rollout : Rollout :=
  {| ro_CreatedAt := 1; Uuids := ["dev2"]; Groups := []; Effect := []; Commit := false |}.
Definition metas : world :=
  World {["/d/tuf" := Dir; "/d/tuf/9.root.json" := File "" 0 0; "/d/tuf/10.root.json" := File "" 0 0]} 0 [] empty_db (λ _, "") 0.
Lemma pem_inj (a b : string) : pem_cert a = pem_cert b -> a = b. Proof. exact (λ H, H). Qed.
End DeviceRuns.
Import DeviceRuns.

Lemma CheckIn_spec_witness :
  CheckIn dev1 "t1" "main" "h1" "a1" (with_clock 30000 DeviceRuns.w) = (Ok (dev1, None), with_clock 30000 DeviceRuns.w) ∧
  ∃ d' w', CheckIn dev1 "t1" "main" "h1" "a1" DeviceRuns.w = (Ok (d', None), w') ∧ LastSeen d' = 1000.
Proof.
  split.
  - apply (CheckIn_spec dev1 "t1" "main" "h1" "a1" (with_clock 30000 DeviceRuns.w) (row "one" "main" "u1"));
      vm_compute; intuition (reflexivity || discriminate).
  - destruct (CheckIn_spec dev1 "t1" "main" "h1" "a1" DeviceRuns.w (row "one" "main" "u1")) as [_ H];
      [vm_compute; reflexivity|vm_compute; reflexivity|vm_compute; intuition discriminate|].
    destruct H as (d' & w' & E & Hs & _); [vm_compute; intros (_ & _ & _ & _ & H); discriminate H|].
    exists d', w'. split; [exact E|exact Hs].
Defined.

Lemma rotate_retires_witness : ∃ row', devices (db DeviceRuns.w1) !! "dev1" = Some row' ∧ d_cert row' = "new".
Proof.
  assert (stmtDeviceRotateCert_run "dev1" (pem_cert "new") (fnv128a "old") (fnv128a "new") 9000 DeviceRuns.w =
          (Ok tt, DeviceRuns.w1)) as E by (vm_compute; reflexivity).
  destruct (rotate_retires "dev1" (cert "old") (cert "new") 9000 DeviceRuns.w _ _ E) as (_ & _ & _ & H & _).
  apply (H (row "one" "main" "u1")). vm_compute. reflexivity.
Defined.

Lemma retired_cert_never_returns_witness :
  retired "old" (forM [rotation2; rotation2] rotate DeviceRuns.w1).2 ∧
  ~ in_use "old" (forM [rotation2; rotation2] rotate DeviceRuns.w1).2.
Proof.
  apply (retired_cert_never_returns "old" [rotation2; rotation2] DeviceRuns.w1 _ _ DeviceRuns.pem_inj (surjective_pairing _)).
  - vm_compute. eexists. reflexivity.
  - intros (u & r & Hu & Hc). 
    assert (map_Forall (λ _ x, d_cert x <> "old") (devices (db DeviceRuns.w1))) as Hall
      by (apply (bool_decide_unpack _); vm_compute; exact I).
    exact (Hall u r Hu Hc).
Defined.

Lemma artifact_path_escapes_witness :
  filepath_Join [filepath_Join ["/d/devices"; "dev1"]; TestArtifactsPrefix +:+ "-" +:+ "0123" +:+ "_" +:+ "/../../dev2/aktoml"] =
  "/d/devices/dev2/aktoml".
Proof.
  refine (proj2 (artifact_path_escapes "/d/devices" "dev1" "dev2" "aktoml" "0123" _ _ _ _ _));
    [vm_compute; split; [reflexivity|discriminate]|apply (bool_decide_unpack _); vm_compute; exact I..|reflexivity].
Defined.

Lemma LatestRootMetaName_max_witness :
  (LatestRootMetaName "/d" "tuf" "" DeviceRuns.metas).1 = Ok "10.root.json" ∧
  ∃ v, "10.root.json" = root_meta v ∧ 9 <= v <= 999.
Proof.
  assert (LatestRootMetaName "/d" "tuf" "" DeviceRuns.metas = (Ok "10.root.json", DeviceRuns.metas)) as E by (vm_compute; reflexivity).
  split; [rewrite E; reflexivity|].
  destruct (LatestRootMetaName_max "/d" "tuf" "" "/d/tuf" DeviceRuns.metas "10.root.json" DeviceRuns.metas) as [_ H].
  - vm_compute. reflexivity.
  - vm_compute. split; [reflexivity|discriminate].
  - reflexivity.
  - vm_compute. reflexivity.
  - intros m Hm _. change (m ∈ ["10.root.json"; "9.root.json"]) in Hm. rewrite !elem_of_cons, elem_of_nil in Hm.
    destruct Hm as [->|[->|[]]]; [exists 10|exists 9]; (split; [lia|vm_compute; reflexivity]).
  - exact E.
  - apply (H 9); [lia|]. change (root_meta 9 ∈ ["10.root.json"; "9.root.json"]). vm_compute. right. left.
Defined.

(** ** Operators *)

Lemma CommitRollout_exact_witness : ∃ w' (effect : list string),
  @CommitRollout RolloutDemo.json "/d" "main" "u2" "r1" DeviceRuns.rollout DeviceRuns.w = (Ok tt, w') ∧
  (∀ k, k ∈ effect ↔ ∃ d, devices (db DeviceRuns.w) !! k = Some d ∧ selected_for "main" DeviceRuns.rollout k d).
Proof.
  destruct (@CommitRollout RolloutDemo.json "/d" "main" "u2" "r1" DeviceRuns.rollout DeviceRuns.w) as [[[]|e] w'] eqn:E;
    [|exfalso; vm_compute in E; discriminate E].
  destruct (@CommitRollout_exact RolloutDemo.json "/d" RolloutDemo.root_ok "main" "u2" "r1" DeviceRuns.rollout DeviceRuns.w w')
    as (effect & _ & _ & H & _);
    [apply (bool_decide_unpack _); vm_compute; exact I|apply (bool_decide_unpack _); vm_compute; exact I|exact E|].
  exists w', effect. split; [reflexivity|exact H].
Defined.

Lemma DeleteUpdate_in_use_witness :
  (DeleteUpdate "/d" "u1" DeviceRuns.w).1 = Err ErrUpdateInUse ∧ (DeleteUpdate "/d" "u1" DeviceRuns.w).2 = DeviceRuns.w.
Proof.
  destruct (DeleteUpdate_in_use "/d" "u1" (UpdateRow "main" 5 "ann") DeviceRuns.w) as (l & item & _ & _ & _ & H1 & H2);
    [reflexivity|vm_compute; reflexivity|].
  assert ((DeleteUpdate "/d" "u1" DeviceRuns.w).1 = Err ErrUpdateInUse) as E by (vm_compute; reflexivity).
  split; [exact E|]. apply H2, H1, E.
Defined.

Lemma DevicesList_pages_witness : ∃ l pages, length l = 2%nat ∧
  map (λ k, DevicesList {| lo_OrderBy := "uuid-asc"; Limit := 1; Offset := Z.of_nat (k * 1) |} DeviceRuns.w) (seq 0 2) =
  map (λ p, (Ok (p, 2), DeviceRuns.w)) pages ∧ concat pages = l.
Proof.
  destruct (DevicesList_pages "uuid-asc" OrderByDeviceUuidAsc 1 DeviceRuns.w) as (l & Hl & H); [reflexivity..|lia|].
  assert (length l = 2%nat) as Hn by (rewrite Hl; vm_compute; reflexivity).
  destruct (H 2%nat) as (pages & Hp & Hc). exists l, pages. rewrite Hn in Hp. split; [exact Hn|]. split; [exact Hp|].
  rewrite Hc. apply take_ge. rewrite Hn. simpl. lia.
Defined.

Lemma PatchDeviceLabels_spec_witness :
  names_unique (devices (db (PatchDeviceLabels {["name" := Some "two"]} ["dev1"] DeviceRuns.w).2)) ∧
  is_Ok (PatchDeviceLabels {["name" := Some "two"]} ["dev1"] DeviceRuns.w).1 = false.
Proof.
  split; [|vm_compute; reflexivity].
  apply (proj1 (PatchDeviceLabels_spec _ _ DeviceRuns.w _ _ (surjective_pairing _))).
  apply names_uniqueb_spec. vm_compute. reflexivity.
Defined.

(** ** Reports *)

Module ReportRuns.
Definition status_of (line : string) : result DeviceStatus :=
  match Split line "|" with
  | [u; t; s] => Ok {| st_Uuid := u; st_CorrelationId := ""; st_TargetName := t; Status := s; st_DeviceTime := "" |}
  | _ => Err (ErrMsg "invalid JSON")
  end.
#[export] Instance rollout_json : JSON Rollout := toy_json.
#[export] Instance status_json : JSON DeviceStatus := {| json_Marshal s := st_Uuid s; json_Unmarshal := status_of |}.
#[export] Instance targets_json : JSON AtsTufTargets :=
  {| json_Marshal _ := ""; json_Unmarshal s := Ok {| targets_Signatures := [];
       targets_Signed := {| tm_Common := {| sc_Type := "Targets"; Expires := 0; Version := 1 |};
                            Targets := {["t1" := {| Length := 0; tf_Hashes := ∅; Custom := s |}]} |} |} |}.
#[export] Instance custom_json : JSON target_custom :=
  {| json_Marshal _ := ""; json_Unmarshal s := Ok {| tc_Version := "7"; tc_Tags := [s]; tc_HardwareIds := ["hw"] |} |}.
#[export] Instance string_json : JSON json_string :=
  {| json_Marshal := js_value; json_Unmarshal s := Ok {| js_value := s |} |}.
Definition lines : list string :=
  ["dev1|t1|Installation completed; failed"; "broken"; "dev1|t0|Installation completed; succeeded"].
Definition rollout : Rollout :=
  {| ro_CreatedAt := 1; Uuids := []; Groups := ["lab"]; Effect := ["dev1"; "dev2"]; Commit := true |}.
Definition w : world :=
  World {["/d/updates/u1/tuf/targets.json" := File "main" 0 0;
          "/d/updates/u1/rollouts/r1" := File (json_Marshal rollout) 0 0;
          "/d/updates/u1/logs/rollouts.log" := File (Join lines (str1 (byte 10))) 0 0]} 0 [] DeviceRuns.database (λ _, "") 0.
Definition targets : option (gset string) := Some {["t1"]}.
Lemma rollout_run : GetRollout "/d" "u1" "r1" w = (Ok rollout, w). Proof. vm_compute. reflexivity. Qed.
Lemma targets_run : latestUpdateTargets "/d" "u1" w = (Ok targets, w). Proof. vm_compute. reflexivity. Qed.
Lemma lines_run : TailRolloutsLog "/d" "u1" w = (Ok (map Ok lines), w). Proof. vm_compute. reflexivity. Qed.
Lemma no_missing x : state_in targets lines x <> Some MissingState.
Proof.
  intros [Hx|(e & He & Hx)]%settle_values; [discriminate Hx|].
  rewrite elem_of_reverse in He. apply list_elem_of_In, List.filter_In in He as [He _]. vm_compute in He.
  destruct He as [<-|[<-|[]]]; discriminate Hx.
Qed.
End ReportRuns.
Import ReportRuns.

Lemma RolloutSummary_spec_witness : ∃ summary,
  RolloutSummary "/d" "u1" "r1" ReportRuns.w = (Ok summary, ReportRuns.w) ∧ total_count (us_Status summary) = 2.
Proof.
  destruct (RolloutSummary_spec "/d" "u1" "r1" ReportRuns.w (UpdateRow "main" 5 "ann") ReportRuns.rollout ReportRuns.targets
              ReportRuns.lines eq_refl eq_refl ReportRuns.rollout_run ReportRuns.targets_run ReportRuns.lines_run ReportRuns.no_missing)
    as (s & E & _ & Ht & _).
  exists s. split; [exact E|]. refine (eq_trans Ht _). vm_compute. reflexivity.
Defined.

Lemma RolloutStateFor_spec_witness : ∃ l,
  RolloutStateFor "/d" "u1" "r1" "Missing" ReportRuns.w = (Ok l, ReportRuns.w) ∧ "dev2" ∈ l.
Proof.
  destruct (RolloutStateFor_spec "/d" "u1" "r1" ReportRuns.w ReportRuns.rollout ReportRuns.targets
              ReportRuns.lines ReportRuns.rollout_run ReportRuns.targets_run ReportRuns.lines_run "Missing")
    as (l & E & _ & H).
  exists l. split; [exact E|]. apply H. split; [right; left|vm_compute; reflexivity].
Defined.

Lemma rolled_back_iff_witness : state_in ReportRuns.targets ReportRuns.lines "dev1" = Some RolledBackState.
Proof.
  apply rolled_back_iff.
  - intros e He. apply list_elem_of_In in He. vm_compute in He. destruct He as [<-|[<-|[]]]; discriminate.
  - eexists [], _, [_]. split; [vm_compute; reflexivity|]. split; [vm_compute; reflexivity|]. split; [reflexivity|].
    split; [intros x ->%list_elem_of_singleton; vm_compute; reflexivity|]. eexists. split; [left|reflexivity].
Defined.

Lemma UpdateSummary_unknown_update_witness : (api_UpdateSummary "/d" "u9" ReportRuns.w).1 = Err nil_dereference.
Proof.
  rewrite (UpdateSummary_unknown_update "/d" "u9" ReportRuns.w [Err ErrNotExist]); [reflexivity|reflexivity|vm_compute; reflexivity..|].
  intros e [= ->]%list_elem_of_singleton. reflexivity.
Defined.

(** ** A test from start to end *)

Module TestRuns.
#[export] Instance test_json : JSON TargetTest := toy_json.
Definition s : GwStorage := NewGwStorage "/d".
Definition id : string := "0123456789abcdef".
Definition result1 : TargetTestResult :=
  {| tr_Name := "boot"; tr_Status := "PASSED"; LocalTs := 1; tr_Details := ""; Metrics := [] |}.
Definition w1 : world := (TestCreate s dev1 "t1" "smoke" id DeviceRuns.w).2.
Definition w2 : world := (TestComplete s dev1 id "PASSED" "fine" [result1] w1).2.
Lemma create_run : TestCreate s dev1 "t1" "smoke" id DeviceRuns.w = (Ok tt, w1).
Proof. refine (eq_trans (surjective_pairing _) (f_equal (λ r, (r, _)) _)). vm_compute. reflexivity. Qed.
Lemma complete_run : TestComplete s dev1 id "PASSED" "fine" [result1] w1 = (Ok tt, w2).
Proof. refine (eq_trans (surjective_pairing _) (f_equal (λ r, (r, _)) _)). vm_compute. reflexivity. Qed.
Lemma uuid_ok : name_ok (Uuid dev1). Proof. by apply (bool_decide_unpack _). Qed.
End TestRuns.
Import TestRuns.

Lemma test_lifecycle_witness : ∃ t, GetTest "/d" "dev1" TestRuns.id TestRuns.w2 = (Ok (Some t), TestRuns.w2) ∧ tt_Status t = "PASSED".
Proof.
  assert (faults TestRuns.w1 = []) as Hf by (vm_compute; reflexivity).
  destruct (@test_lifecycle _ toy_json_laws TestRuns.s dev1 TestRuns.id FileRuns.dir_d TestRuns.uuid_ok eq_refl "t1" "smoke" "PASSED" "fine"
              [result1] DeviceRuns.w TestRuns.w1 TestRuns.w2 TestRuns.create_run TestRuns.complete_run Hf) as (_ & (arts & E) & _).
  eexists. split; [exact E|reflexivity].
Defined.

Lemma GetTest_missing_is_an_error_witness : ∃ e, GetTest "/d" "dev1" TestRuns.id DeviceRuns.w = (Err e, DeviceRuns.w).
Proof.
  eexists. refine (GetTest_missing_is_an_error TestRuns.s dev1 TestRuns.id FileRuns.dir_d TestRuns.uuid_ok eq_refl DeviceRuns.w
           (ErrMsg "invalid JSON") _ _ _ _); [reflexivity|vm_compute; reflexivity|vm_compute; discriminate|reflexivity].
Defined.
