(* ===== verification/WitnessesTuf.v ===== *)
(** Concrete runs for the theorems on OSTree repositories and on TUF: an input
    on which all hypotheses hold, with the theorem applied to it. *)
From S2P Require Import Prelude GoStrings Bytes GoPath Schema World BaseFs Crypto Models Tar Configs Updates Ostree FsHandles Tuf TufFs ApiStorage ApiTuf TufSpec TufLife TufKeys Toys Daemons.

(** ** A repository with one file, /etc/os *)

Module Repo.
Definition flate : Flate := {| inflate z := Ok z |}.
(** The checksums are made up: the reader does not verify them. *)
Definition sum (c : ascii) : string := string_of_list_ascii (replicate 32 c).
Definition files : list gv_elem := [GvElem "os" (sum "f") ""].
Definition dirs : list gv_elem := [GvElem "etc" (sum "e") (sum "m")].
Definition array (l : list gv_elem) : string := gv_body l +:+ gv_ends 1 0 l.
Definition etc_object : string := array files +:+ le_bytes 1 (len (array files)).
Definition root_object : string := array dirs +:+ le_bytes 1 0.
Definition body : string := "0123456789abcdef".
Definition commit : string :=
  body +:+ "" +:+ "timestmp" +:+ sum "r" +:+ sum "m" +:+ le_bytes 1 0 +:+ le_bytes 1 (len body) +:+ "abcd".
Definition head : string := hex (sum "c").
Definition object (raw ext : string) : string :=
  match objectPath "/r" (hex raw) ext with Ok p => p | Err _ => "" end.
Definition w : world :=
  World {["/r/refs/heads/main" := File (head +:+ str1 (byte 10)) 416 0;
          object (sum "c") ".commit" := File commit 416 0;
          object (sum "r") ".dirtree" := File root_object 416 0;
          object (sum "e") ".dirtree" := File etc_object 416 0;
          object (sum "f") ".file" := File "NAME=lmp" 416 0]} 0 [] empty_db (λ _, "") 0.

Lemma elem_ok_all l : forallb (λ e, no_char (byte 0) (ge_name e) && (len (ge_hash e) =? 32)) l = true -> Forall elem_ok l.
Proof.
  intros E. apply Forall_forall. intros e He. rewrite forallb_forall in E. apply list_elem_of_In, E in He.
  apply andb_true_iff in He as [H1 H2]. apply Z.eqb_eq in H2. by split.
Qed.
Lemma files_ok : gv_array files (array files).
Proof. split; [by apply elem_ok_all|]. split; [by vm_compute|]. by exists 1%nat. Qed.
Lemma dirs_ok : gv_array dirs (array dirs).
Proof. split; [by apply elem_ok_all|]. split; [by vm_compute|]. by exists 1%nat. Qed.
Lemma root_dir : @dir_at "/r" w (hex (sum "r")) [] dirs.
Proof.
  exists root_object. split; [by eexists; split; vm_compute|]. exists "", (array dirs), 1%nat. split.
  { split; [constructor|by vm_compute]. }
  split; [apply dirs_ok|]. by vm_compute.
Qed.
Lemma etc_dir : @dir_at "/r" w (hex (sum "e")) files [].
Proof.
  exists etc_object. split; [by eexists; split; vm_compute|]. exists (array files), "", 1%nat. split; [apply files_ok|]. split.
  { split; [constructor|by vm_compute]. }
  by vm_compute.
Qed.
Lemma repo_root_ok : @Ostree.root_at "/r" w "main" (hex (sum "r")).
Proof.
  exists head, (sum "r"), commit. split.
  { split; [by vm_compute|]. exists (head +:+ str1 (byte 10)). by vm_compute. }
  split; [by eexists; split; vm_compute|]. split; [|done].
  exists body, "", "timestmp", (sum "m"), (le_bytes 1 0), "abcd", 1%nat. by vm_compute.
Qed.
(** The same with bytes that are no directory at all. *)
Definition w_garbage : world := with_fs (<[object (sum "e") ".dirtree" := File "garbage" 416 0]> (fs w)) w.
End Repo.

Lemma ReadFile_spec_witness :
  @Repo_ReadFile Repo.flate "/r" "main" "/etc/os" Repo.w = (Ok "NAME=lmp", Repo.w).
Proof.
  pose proof (@ReadFile_spec Repo.flate "/r" Repo.w eq_refl "main" "/etc/os" (hex (Repo.sum "r")) (Some (hex (Repo.sum "f"))) Repo.repo_root_ok) as H.
  apply H.
  - change (resolves "/r" Repo.w (hex (Repo.sum "r")) ["etc"; "os"] (Some (hex (Repo.sum "f")))).
    eapply (resolves_dir "/r" Repo.w _ _ _ "etc" "os" [] (GvElem "etc" (Repo.sum "e") (Repo.sum "m"))).
    + apply Repo.root_dir.
    + reflexivity.
    + reflexivity.
    + apply (resolves_file "/r" Repo.w _ _ _ "os" Repo.etc_dir).
  - left. eexists. split; vm_compute; reflexivity.
Defined.

Lemma ReadFile_never_panics_witness :
  no_panic (@Repo_ReadFile Repo.flate "/r" "main" "/etc/os" Repo.w_garbage).1.
Proof.
  refine (@ReadFile_never_panics Repo.flate "/r" _ "main" "/etc/os" Repo.w_garbage _ _ _ (surjective_pairing _)).
  - intros z. reflexivity.
  - apply calm_no_faults. reflexivity.
Defined.

(** ** A server with its TUF keys *)

Module TufRuns.
#[export] Instance digest : Digest := toy_digest.
#[export] Instance ed : Ed25519 := toy_ed.
#[export] Instance ed_laws : Ed25519Laws := toy_ed_laws.
#[export] Instance encryption : KeyEncryption := toy_encryption.
#[export] Instance encryption_laws : KeyEncryptionLaws := toy_encryption_laws.
#[export] Instance time_format : TimeFormat := {| rfc3339 := Itoa; rfc3339_utc := Itoa |}.
#[export] Instance json_custom : JSON version_custom := toy_codec.
#[export] Instance json_generated : JSON generatedTargetCustom :=
  {| json_Marshal c := @json_Marshal version_custom toy_codec {| vc_Version := gc_Version c |}; json_Unmarshal _ := Err ErrIO |}.
#[export] Instance json_toy `{Tokens A} : JSON A | 100 := toy_codec.
#[export] Instance json_toy_laws `{TokensLaws A} : JSONLaws A := toy_codec_laws.
#[export] Instance canonical_toy `{Tokens A} : Canonical A := toy_canonical.
#[export] Instance canonical_toy_laws `{TokensLaws A} : CanonicalLaws A := toy_canonical_laws.
#[export] Instance indent_toy `{Tokens A} : JSONIndent A := toy_indent.
#[export] Instance indent_toy_laws `{TokensLaws A} : JSONIndentLaws A := toy_indent_laws.
#[export] Instance no_rsa : Rsa := {| ParsePKCS1PrivateKey _ := Err ErrIO; pkix_rsa _ := Err ErrIO; rsa_sign_pss _ _ _ := Err ErrIO |}.
#[export] Instance no_certs : CertCodec := {| pem_cert s := s; pem_decode _ := None; ParseCertificate _ := Err ErrIO |}.

Definition seed (n : Z) : string := pad32 ("seed" +:+ Itoa n).
Definition signer (n : Z) : Signer :=
  {| sg_Id := hex (seed n); keyType := tufKeyTypeEd25519; private := NewKeyFromSeed (seed n); public := seed n |}.
Definition sgs : gmap string Signer :=
  {[RoleRoot := signer 1; RoleTargets := signer 2; RoleSnapshot := signer 3; RoleTimestamp := signer 4]}.
Definition fresh : TufFsHandle := tuf_init "/d/tuf" "/d/auth" "/d/updates".
Definition h : TufFsHandle := with_signers sgs fresh.
Definition root : RootMeta := new_root sgs 1 0.
Lemma signer_good n : len (seed n) = 32 -> signer_ok (signer n).
Proof.
  intros Hl. split; [done|]. split.
  - unfold tufKeyID. cbn [pkix_ed25519 ed toy_ed public signer]. rewrite Hl. cbn [Z.eqb Pos.eqb].
    unfold sha256_hex. cbn [sha256 digest toy_digest]. rewrite pad32_id; [done|unfold len in Hl; lia].
  - exists (seed n). split_and!; [done|done|]. cbn [public signer ed_public ed toy_ed]. rewrite pad32_id; [done|unfold len in Hl; lia].
Qed.
Lemma root_trusts : trusts root (signers h).
Proof.
  apply (new_root_trusts fresh).
  - vm_compute. by split.
  - apply toy_key_ids.
  - intros role Hr. unfold tufRoles in Hr. rewrite !elem_of_cons, elem_of_nil in Hr.
    destruct Hr as [->|[->|[->|[->|[]]]]]; (eexists; split; [reflexivity|]); apply signer_good; by vm_compute.
Qed.
Definition opts : TargetOptions :=
  {| AppVersion := 0; HardwareId := "hw"; to_Name := "app"; OstreeHash := "aa"; to_Tag := "main"; to_Apps := ∅; BaseUrl := "https://o" |}.
(** An update that is there already: its metadata has version 4, its target
    version 7. *)
Definition old_targets : AtsTufTargets :=
  {| targets_Signatures := [];
     targets_Signed := {| tm_Common := {| sc_Type := "Targets"; Expires := 0; Version := 4 |};
       Targets := {["app-7" := {| Length := 0; tf_Hashes := ∅; Custom := json_Marshal {| vc_Version := "7" |} |}]} |} |}.
Definition db1 : database := with_updates {["u1" := {| up_tag := "main"; up_uploaded_at := 5; up_uploaded_by := "alice" |}]} empty_db.
Definition w : world :=
  World {["/d" := Dir; "/d/auth" := Dir; "/d/auth/hmac.secret" := File "hush" 384 0;
          "/d/updates" := Dir; "/d/updates/u1" := Dir; "/d/updates/u1/tuf" := Dir;
          "/d/updates/u1/tuf/targets.json" := File (json_Marshal old_targets) 416 0]}
    86400000 [] db1 (λ i, "seed" +:+ Itoa (Z.of_nat i)) 0.
Definition generated : result unit * world := GenerateTufMeta h "/d/updates/u2/tuf" opts w.
End TufRuns.
Import TufRuns.

Lemma run_Ok {A} (p : result A * world) a : p.1 = Ok a -> p = (Ok a, p.2).
Proof. destruct p as [r s]. by intros [= ->]. Qed.
Lemma generated_ok : generated = (Ok tt, generated.2).
Proof. apply run_Ok. vm_compute. reflexivity. Qed.
Lemma dir_computed d : bool_decide (Clean d = d) && negb (bool_decide (comps d = [])) = true -> dir_ok d.
Proof. intros E. apply andb_true_iff in E as [E1 E2]. apply bool_decide_eq_true in E1. apply negb_true_iff, bool_decide_eq_false in E2. by split. Qed.
Lemma tuf_dir2_ok : dir_ok "/d/updates/u2/tuf".
Proof. apply dir_computed. vm_compute. reflexivity. Qed.


Lemma old_targets_read T name : is_Some (updates (db w) !! name) -> targets_of h w name T -> name = "u1" ∧ T = old_targets.
Proof.
  intros [u Hu]. change (({["u1" := UpdateRow "main" 5 "alice"]} : gmap string update_row) !! name = Some u) in Hu.
  apply lookup_singleton_Some in Hu as [<- _]. intros HT. split; [done|].
  assert ((ReadTufMeta (A := AtsTufTargets) (tuf_updates h) "u1" TufTargetsFile w).1 = Ok old_targets) as E by (vm_compute; reflexivity).
  unfold targets_of in HT. rewrite HT in E. by injection E as ->.
Qed.
Lemma ReadTufMeta_computed name T : (ReadTufMeta (A := AtsTufTargets) (tuf_updates h) name TufTargetsFile w).1 = Ok T ->
  ReadTufMeta (tuf_updates h) name TufTargetsFile w = (Ok T, w).
Proof.
  intros E. destruct (ReadTufMeta_run (A := AtsTufTargets) (tuf_updates h) name TufTargetsFile w eq_refl) as [r Er].
  rewrite Er in E |- *. cbn [fst] in E. by subst r.
Qed.
Lemma generated_versions_increase_witness :
  ∃ chain, verify_chain root (meta_at generated.2 "/d/updates/u2/tuf" TufTimestampFile)
      (meta_at generated.2 "/d/updates/u2/tuf" TufSnapshotFile) (meta_at generated.2 "/d/updates/u2/tuf" TufTargetsFile) = Some chain ∧
    4 < Version (tm_Common (targets_Signed (v_targets chain))).
Proof.
  destruct (generated_versions_increase h root "/d/updates/u2/tuf" opts w generated.2 root_trusts tuf_dir2_ok eq_refl) as (chain & target & H1 & _ & _ & _ & H2).
  - intros name T Hu HT. destruct (old_targets_read T name Hu HT) as [_ ->]. vm_compute. by split.
  - exact generated_ok.
  - exists chain. split; [exact H1|]. refine (proj1 (H2 "u1" old_targets _ _)); [by eexists|].
    unfold targets_of. apply ReadTufMeta_computed. vm_compute. reflexivity.
Defined.

(** Six and a half days later. *)
Definition later : world :=
  with_db (with_updates {["u2" := UpdateRow "main" 5 "alice"]} empty_db) (with_clock (86400000 * 15 / 2) generated.2).
Definition u2 : Update := {| u_Tag := "main"; u_Name := "u2"; UploadedAt := 5; UploadedBy := "alice"; DeviceCount := 0 |}.
Lemma u2_ok : name_ok "u2". Proof. vm_compute. by split_and!. Qed.
Lemma h_updates_ok : dir_ok (tuf_updates h).
Proof. apply dir_computed. vm_compute. reflexivity. Qed.
Lemma refreshable_computed d k1 k2 :
  forallb (λ a, bool_decide (fs later !! a = Some Dir)) (ancestors d) = true ->
  fs later !! k1 <> Some Dir -> fs later !! k2 <> Some Dir ->
  dir_exists later d ∧ ∀ k, k ∈ [k1; k2] -> fs later !! k <> Some Dir.
Proof.
  intros E H1 H2. split.
  - intros a Ha. rewrite forallb_forall in E. apply list_elem_of_In, E in Ha. by apply bool_decide_eq_true in Ha.
  - intros k Hk. rewrite !elem_of_cons, elem_of_nil in Hk. by destruct Hk as [->|[->|[]]].
Qed.

Lemma later_chain :
  ∃ chain, chain_at h root later "u2" = Some chain ∧ expiry (v_timestamp chain) = 86400000 * 8.
Proof.
  assert (expiry <$> (v_timestamp <$> chain_at h root later "u2") = Some (86400000 * 8)) as E by (vm_compute; reflexivity).
  destruct (chain_at h root later "u2") as [chain|]; [|discriminate E]. injection E as E. by exists chain.
Qed.
Lemma refresh_keeps_chain_witness :
  ∃ chain, chain_at h root (refreshTufTimestamp h u2 later).2 "u2" = Some chain ∧
    expiry (v_timestamp chain) = 86400000 * 29 / 2.
Proof.
  destruct later_chain as (chain & H1 & H2).
  destruct (refresh_keeps_chain h h_updates_ok root u2 chain later (refreshTufTimestamp h u2 later).2 root_trusts u2_ok) as (chain' & H3 & _ & _ & _ & H4).
  - apply run_Ok. vm_compute. reflexivity.
  - exact H1.
  - exists chain'. split; [exact H3|]. rewrite H4, H2. vm_compute. reflexivity.
Defined.

Lemma later_refreshable : healthy h later.
Proof.
  split; [reflexivity|].
  intros name [u Hu]. change (({["u2" := UpdateRow "main" 5 "alice"]} : gmap string update_row) !! name = Some u) in Hu.
  apply lookup_singleton_Some in Hu as [<- _]. split; [exact u2_ok|].
  apply refreshable_computed; [vm_compute; reflexivity|vm_compute; discriminate..].
Qed.
Lemma later_timestamp : ∃ ts, timestamp_of h later "u2" ts ∧ expiry ts = 86400000 * 8.
Proof.
  destruct later_chain as (chain & H3 & H4).
  destruct (verify_chain_inv _ _ _ _ _ H3) as (f & _ & _ & Hf & _ & _ & Hj & _). exists (v_timestamp chain).
  split; [exists f; by split|exact H4].
Qed.
Lemma RefreshTufTimestamps_live_witness :
  ∃ w', RefreshTufTimestamps h later = (Ok tt, w') ∧ alive h w' "u2".
Proof.
  destruct later_refreshable as [Hf Hr].
  destruct (RefreshTufTimestamps_live h h_updates_ok later) as (w' & H1 & H2).
  - intros m. eexists. reflexivity.
  - vm_compute. discriminate.
  - exact Hf.
  - exact Hr.
  - exists w'. split; [exact H1|]. apply H2; [by eexists|]. destruct later_timestamp as (ts & Hts & _). by exists ts.
Defined.


Definition initialized_world : world := (InitTuf fresh w).2.
Lemma auth_ok : dir_ok (tuf_auth fresh) ∧ dir_ok (tuf_root fresh).
Proof. split; apply dir_computed; vm_compute; reflexivity. Qed.
Lemma auth_apart : tuf_auth fresh ∉ [tuf_root fresh; keysDir fresh; default_dir fresh].
Proof. apply (bool_decide_eq_true_1 (_ ∉ _)). vm_compute. reflexivity. Qed.

Lemma InitTuf_LoadTuf_witness :
  ∃ root sgs, LoadTuf fresh initialized_world = (Ok (with_signers sgs fresh), initialized_world) ∧ trusts (root_Signed root) sgs.
Proof.
  destruct (InitTuf_LoadTuf fresh (proj2 auth_ok) toy_key_ids (proj1 auth_ok) auth_apart w initialized_world) as (r & sgs & H & _).
  - unfold initialized_world. apply run_Ok. vm_compute. reflexivity.
  - vm_compute. reflexivity.
  - exists r, sgs. split; [exact (proj1 H)|exact (proj1 (proj2 (proj2 H)))].
Defined.

(** The keys of another setup: its first root is signed with the key of seed 1. *)
Definition old_root : AtsTufRoot := {| root_Signatures := []; root_Signed := root |}.
Definition old_key : AtsKey :=
  {| KeyType := tufKeyTypeEd25519; KeyValue := {| Private := hex (seed 1); Public := hex (seed 1) |} |}.
Definition imported_world : world := (ImportTuf fresh [json_Marshal old_root] [old_key] w).2.
Lemma parse_root_raw data i : parse_root data = Ok i -> raw i = data.
Proof. unfold parse_root. by repeat case_match; intros; simplify_eq. Qed.
Lemma old_root_raw roots imp :
  Forall2 (λ data i, parse_root data = Ok i) [json_Marshal old_root] roots -> imp ∈ roots -> raw imp = json_Marshal old_root.
Proof.
  intros HF Hin. apply Forall2_cons_inv_l in HF as (i & l & E & HF & ->). apply Forall2_nil_inv_l in HF as ->.
  apply list_elem_of_singleton in Hin as ->. by apply parse_root_raw.
Qed.
