(* ===== verification/WitnessesUi.v ===== *)
(** Concrete runs for the theorems on logins and on the API of operators: a
    request on which all hypotheses hold, with the theorem applied to it. *)
From S2P Require Import Prelude GoStrings GoPath Schema World BaseFs Crypto Models Tuf FsHandles TufFs Toys Http Limiter ApiStorage ApiUpdate ApiTuf Updates Rollouts Scopes Users UserOps Auth AuthLocal UiApi UiUpdates UiRoutes UiSpec Witnesses.
Import Users UserRuns.

(** ** Logins *)

Module LoginRuns.
(** A bucket that is never refilled. *)
#[export] Instance buckets : RateLimit :=
  {| bucket := Z; NewLimiter _ burst := burst; AllowN b _ n := (n <=? b, if n <=? b then b - n else b); no_tokens b _ := b <=? 0 |}.
#[export] Instance encoders : Encoders := {| any_json _ _ := "" |}.
#[export] Instance scrypt : Scrypt := {| scrypt_Key password salt := Ok (password +:+ salt) |}.
#[export] Instance user_data_tokens : Tokens localProviderUserData :=
  tokens_iso (λ u, (PasswordTimestamp u, ud_PasswordHistory u)) (λ p, mkUserData p.1 p.2).
#[export] Instance user_data : JSON localProviderUserData := toy_codec.
Definition request_with (headers : gmap string (list string)) (cookies params form : gmap string string) : request :=
  {| rq_method := POST; rq_path := "/"; rq_route := "/"; rq_ip := "10.0.0.1"; rq_scheme := "https"; rq_host := "host";
     rq_headers := headers; rq_cookies := cookies; rq_params := params; rq_query := ∅; rq_form := form;
     rq_body := Ok ""; rq_csrf := None |}.
Definition salt : string := str_take 10 secret.
Definition stored (password : string) : string := "0" +:+ salt +:+ hex (password +:+ salt).
(** Ann's password is "old", the one before it was "older". *)
Definition ann_local : user_row :=
  UserRow "ann" (stored "old") "" 0 false "devices:read,users:read" (json_Marshal (mkUserData 5 [stored "older"])).
Definition w_local : world := with_db (with_users {[1 := ann_local]} 1 UserRuns.database) UserRuns.w.
Definition w_no_session : world := with_db (with_users {[1 := ann_local]} 1 empty_db) UserRuns.w.
Definition limiter : authRateLimiter :=
  NewRateLimiter {| AttemptsPerSecond := 0; AttemptsBlockDurationSec := 0; BadAuthLimit := 1; BadAuthBlockDurationSec := 0 |} 0.
Definition server_on (w : world) : server authRateLimiter := Server w limiter [].
Definition provider : localProvider :=
  {| local_config := {| MinPasswordLength := 3; PasswordHistory := 3; PasswordAgeDays := 90;
       ComplexityRules := {| RequireUppercase := true; RequireLowercase := true; RequireDigit := false; RequireSpecialChar := "" |};
       DevelopmentCookies := false |};
     newUserScopes := 0; sessionTimeout := 3600 * 10 ^ 9 |}.
Definition bearer : request := request_with {["authorization" := ["Bearer " +:+ secret]]} ∅ ∅ ∅.
Definition login : request := request_with ∅ ∅ ∅ {["username" := "ann"; "password" := "old"]}.
Definition change : request :=
  request_with ∅ {[AuthCookieName := secret]} {["username" := "ann"]} {["currentPassword" := "old"; "newPassword" := "Newer"]}.
(** The first bad attempt takes the only token of the bucket. *)
Definition flagged : authRateLimiter := flagBadOperation limiter "10.0.0.1" 5.
End LoginRuns.
Import LoginRuns.

Lemma run_pair {A S} (p : result A * S) a : p.1 = Ok a -> p = (Ok a, p.2).
Proof. destruct p as [r s]. by intros [= ->]. Qed.

Lemma GetUser_sound_witness : ∃ s',
  common_GetUser UserRuns.h (renderLoginPage provider) bearer (server_on UserRuns.w) = (Ok (Some expect), s') ∧
  ∃ token hashed, presents bearer token ∧ hashToken UserRuns.h token = Ok hashed ∧
    token_granted UserRuns.database 1000 hashed expect.
Proof.
  destruct (common_GetUser UserRuns.h (renderLoginPage provider) bearer (server_on UserRuns.w)) as [r s'] eqn:E.
  assert (r = Ok (Some expect)) as -> by (refine (eq_trans (eq_sym (f_equal fst E)) _); vm_compute; reflexivity).
  exists s'. split; [reflexivity|].
  destruct (GetUser_sound UserRuns.h (renderLoginPage provider) bearer (server_on UserRuns.w) expect s' E) as [[(_ & Hh & _)|H] _].
  - vm_compute in Hh. discriminate Hh.
  - exact H.
Defined.

Lemma login_sound_witness : ∃ res s' (sid hashed : string),
  handleLogin UserRuns.h provider login (server_on w_no_session) = (res, s') ∧
  hashSessionID UserRuns.h sid = Ok hashed ∧
  is_Some (sessions (db (sv_world s')) !! hashed).
Proof.
  destruct (handleLogin UserRuns.h provider login (server_on w_no_session)) as [res s'] eqn:E.
  assert (db (sv_world s') <> db w_no_session) as Hd.
  { intros H. assert (size (sessions (db (sv_world s'))) = 1%nat) as Hn
      by (refine (eq_trans (f_equal (λ p, size (sessions (db (sv_world p.2)))) (eq_sym E)) _); vm_compute; reflexivity).
    rewrite H in Hn. vm_compute in Hn. discriminate Hn. }
  destruct (login_sound UserRuns.h provider login (server_on w_no_session) res s' E Hd)
    as (i & row & us & sid & hashed & _ & _ & _ & _ & _ & Hh & _ & H).
  exists res, s', sid, hashed. split; [reflexivity|]. split; [exact Hh|]. rewrite H. eexists. apply lookup_insert_eq.
Defined.


Lemma bad_auth_block_holds_witness :
  is_Some (allow (flagBadOperation flagged "10.0.0.1" 10) "10.0.0.1" (10 + 299 * 10 ^ 9)).1.
Proof.
  refine (bad_auth_block_holds flagged "10.0.0.1" 10 [] (10 + 299 * 10 ^ 9) _ _ _ _).
  - vm_compute. reflexivity.
  - vm_compute. discriminate.
  - constructor.
  - vm_compute. split; [discriminate|reflexivity].
Defined.

(** ** The API of operators *)

Module ApiRuns.
(** No document is read on these runs: codecs and libraries that know nothing. *)
#[export] Instance no_json A : JSON A | 1000 := {| json_Marshal _ := ""; json_Unmarshal _ := Err ErrIO |}.
#[export] Instance no_canonical A : Canonical A | 1000 := {| cjson_Encode _ := Err ErrIO |}.
#[export] Instance no_bind A : Bind A | 1000 := {| bind_request _ := Err ErrIO |}.
#[export] Instance no_bind_onto A : BindOnto A | 1000 := {| bind_onto _ _ := Err ErrIO |}.
#[export] Instance ed : Ed25519 := toy_ed.
#[export] Instance flate : Ostree.Flate := {| Ostree.inflate z := Ok z |}.
#[export] Instance payload : Payload := {| request_tarball _ := {| Tar.tb_bytes := ""; Tar.tb_read_err := None; Tar.tb_items := [] |} |}.
#[export] Instance query_params : QueryParams := {| query_int_or _ _ n := Ok n; query_bool_or _ _ b := Ok b |}.
#[export] Instance certs : CertCodec := {| pem_cert raw := raw; pem_decode s := Some (s, ""); ParseCertificate s := Err ErrIO |}.
#[export] Instance csrs : CsrCodec :=
  {| csr := unit; pem_block _ := None; ParseCertificateRequest _ := Err ErrIO; CheckSignature _ := Err ErrIO;
     csr_CommonName _ := ""; CreateCertificate _ _ := Err ErrIO |}.
(** Labels in a request are those of its query. *)
#[export] Instance bind_labels : Bind LabelsReq :=
  {| bind_request r := Ok {| Upserts := (λ l, default "" (head l)) <$> rq_query r; Deletes := [] |} |}.
#[export] Instance rollouts : JSON Rollout := RolloutDemo.json.
#[export] Instance bind_rollout : Bind Rollout := {| bind_request _ := Ok RolloutDemo.ro |}.

Definition handlers : handlers :=
  {| h_root := "/d"; h_tuf := tuf_init "/d/tuf" "/d/auth" "/d/updates"; h_users := UserRuns.h; h_ca := None |}.
(** A token of an account, both with the permission to delete devices. *)
Definition denied : device_row := DeviceRow "" true 1 1 "" ∅ "" "" "" "" 0.
Definition active : device_row := DeviceRow "" false 1 1 "main" {["group" := "lab"]} "" "" "" "" 0.
Definition database : Schema.database :=
  with_devices {["dev1" := denied; "dev2" := active]}
    (with_updates {["u1" := UpdateRow "main" 5 "ann"]}
      (with_tokens {[1 := TokenRow 1 0 2000 "ci" "devices:delete" hashed]} 1
        (with_users {[1 := UserRow "ann" "" "" 0 false "devices:delete" "{}"]} 1 empty_db))).
Definition w : world := World {["/d" := Dir; "/d/updates" := Dir]} 1000000 [] database (λ _, secret) 0.
Definition server_at : server authRateLimiter := Server w limiter [].
Definition with_params (params : gmap string string) (query : gmap string (list string)) (id : string) : request :=
  {| rq_method := PUT; rq_path := "/"; rq_route := "/"; rq_ip := "10.0.0.1"; rq_scheme := "https"; rq_host := "host";
     rq_headers := {["authorization" := ["Bearer " +:+ secret]; "last-event-id" := [id]]}; rq_cookies := ∅; rq_params := params;
     rq_query := query; rq_form := ∅; rq_body := Ok ""; rq_csrf := None |}.
Definition undeny : request := with_params {["uuid" := "dev1"]} ∅ "".
Definition rename : request := with_params {["uuid" := "dev2"]} {["name" := ["kitchen"]]} "".
Definition roll_out : request := with_params {["update" := "u1"; "rollout" := "r1"]} ∅ "".
Definition route_undeny : UiRoutes.route (P:=authRateLimiter) := R DELETE "/denied-devices/:uuid" ScopeDevicesD undenyDevice.
(** The handler that echo runs for the route. *)
Definition serve_undeny : request -> H authRateLimiter unit :=
  authUser "1" (local_provider UserRuns.h provider) (scoped route_undeny).
Lemma provider_same r : keeps (on_world same) (GetUser (local_provider UserRuns.h provider) r) any.
Proof. apply same_GetUser. intros r' reason. apply same_renderLoginPage. Qed.
Lemma undeny_listed :
  (route_undeny, serve_undeny) ∈ v1 (json_object:=unit) 4 "1" handlers (local_provider UserRuns.h provider) (λ _, true).
Proof. unfold v1. apply elem_of_app. left. apply list_elem_of_fmap. exists route_undeny. split; [reflexivity|]. cbn. do 13 right. repeat first [left | right]. Qed.
Lemma undeny_changes : ~ same w (sv_world (serve_undeny undeny server_at).2).
Proof.
  intros (_ & Hd & _). apply (f_equal (λ d, d_deleted <$> devices d !! "dev1")) in Hd. vm_compute in Hd. discriminate Hd.
Qed.
Lemma labels_typed_w : labels_typed database.
Proof.
  intros dev row k v. unfold database. cbn [devices with_devices].
  intros [[_ <-]|[_ [_ <-]%lookup_singleton_Some]]%lookup_insert_Some.
  - cbn. rewrite lookup_empty. discriminate.
  - cbn. intros [<- <-]%lookup_singleton_Some. vm_compute. intuition discriminate.
Qed.
End ApiRuns.
Import ApiRuns.

Lemma api_change_needs_scope_witness : ∃ res s' u s1,
  serve_undeny undeny server_at = (res, s') ∧
  GetUser (local_provider UserRuns.h provider) undeny server_at = (Ok (Some u), s1) ∧
  Has (AllowedScopes u) ScopeDevicesD = true.
Proof.
  destruct (serve_undeny undeny server_at) as [res s'] eqn:E.
  assert (~ same w (sv_world s')) as Hch by (pose proof undeny_changes as H; rewrite E in H; exact H).
  destruct (api_change_needs_scope (json_object:=unit) 4 "1" ApiRuns.handlers (local_provider UserRuns.h provider) (λ _, true)
    provider_same route_undeny serve_undeny undeny server_at res s' undeny_listed E Hch) as (_ & u & s1 & scope & Hu & Hs & Hh & _).
  injection Hs as <-. exists res, s', u, s1. split; [reflexivity|]. split; [exact Hu|exact Hh].
Defined.

Lemma rolloutPut_protocol_witness : ∃ res s',
  rolloutPut ApiRuns.handlers UserRuns.user roll_out server_at = (res, s') ∧
  rtc (step "/d") (Sys ApiRuns.w true Waiting []) (Sys (sv_world s') true Waiting []) ∧
  is_Some (file_at (sv_world s') "/d/updates/u1/rollouts/r1").
Proof.
  destruct (rolloutPut ApiRuns.handlers UserRuns.user roll_out server_at) as [res s'] eqn:E.
  exists res, s'. split; [reflexivity|]. split.
  - refine (proj1 (rolloutPut_protocol ApiRuns.handlers UserRuns.user roll_out server_at res s' E _ _ true Waiting [])).
    + constructor.
    + intros row Hrow. vm_compute in Hrow. injection Hrow as <-. apply (bool_decide_unpack _). vm_compute. exact I.
  - refine (eq_rect _ (λ p, is_Some (file_at (sv_world p.2) "/d/updates/u1/rollouts/r1")) _ _ E). vm_compute. eexists. reflexivity.
Defined.


(** A client that has the first of two lines comes back for the second. *)
Lemma stream_resumes_witness : ∃ later,
  streamUpdateLogs (with_params ∅ ∅ "1") [Ok "one"; Ok "two"] server_at =
    (Ok tt, Server (sv_world server_at) (sv_front server_at) (sv_out server_at ++ stream_headers ++ map Write later)) ∧
  later = [log_event 2 "two"].
Proof.
  destruct (stream_resumes (with_params ∅ ∅ "") (with_params ∅ ∅ "1") ["one"] [Ok "two"] server_at server_at)
    as (first & later & _ & _ & H); [vm_compute; (reflexivity || intuition discriminate)..|].
  exists later. split; [exact H|]. apply (f_equal (λ p, drop 3 (sv_out p.2))) in H. vm_compute in H.
  destruct later as [|x [|y later]]; [discriminate H| |discriminate H]. injection H as <-. vm_compute. reflexivity.
Defined.
