(* ===== verification/WitnessesWeb.v ===== *)
(** Concrete runs for the theorems on the pages: a listing with three pages, a
    change of rights by a session, and an update with two releases. *)
From S2P Require Import Prelude GoStrings Bytes GoPath Schema World BaseFs Crypto Encoding Models Tuf FsHandles TufFs Toys Http Limiter ApiStorage ApiUpdate Scopes Users UserOps Auth AuthLocal UiApi WebPages Web WebSpec Witnesses WitnessesUi.
Import UserRuns LoginRuns ApiRuns.

Lemma pages_agree_witness : ∃ header s',
  setPaginationHeaders undeny {| lo_OrderBy := "name-asc"; Limit := 50; Offset := 50 |} 120 server_at = (Ok tt, s') ∧
  sv_out s' = [SetHeader "Link" header] ∧ linkTotalPages header 50 = 3 ∧ linkHasRel header "next" = true.
Proof.
  destruct (pages_agree _ undeny {| lo_OrderBy := "name-asc"; Limit := 50; Offset := 50 |} 120 server_at)
    as (header & s' & Hr & Ho & Hp & Hn & _).
  - reflexivity.
  - vm_compute. split; [discriminate|reflexivity].
  - vm_compute. split; [discriminate|reflexivity].
  - vm_compute. split; [discriminate|reflexivity].
  - split; [reflexivity|]. repeat constructor.
  - exists header, s'. split; [exact Hr|]. split; [exact Ho|]. split; [exact Hp|exact Hn].
Defined.

Module WebRuns.
#[export] Instance page_times : PageTimes :=
  {| parse_ns _ := None; clock_text := Itoa; short_text := Itoa; full_text := Itoa |}.
#[export] Instance unicode : Unicode := {| upper_first s := s |}.
#[export] Instance cert_keys : CertKeys := {| cert_public_key _ := KeyOther ""; base64_RawURL s := s |}.
#[export] Instance pki_codec : PkiCodec := {| pem_next _ := None; parse_cert _ := Err ErrIO; time_text := Itoa |}.
#[export] Instance sota_toml : SotaToml := {| sota_Unmarshal _ := Err ErrIO |}.
(** The API is out of reach. *)
#[export] Instance http : HttpClient authRateLimiter := {| http_Do _ := fail ErrIO |}.
#[export] Instance bind_scopes : Bind scopesRequest := {| bind_request _ := Ok {| sr_Scopes := ["devices:delete"] |} |}.

Definition handlers : Web.handlers :=
  {| h_storage := UserRuns.h; h_provider_name := "local"; styleEtag := ""; h_branding := defaultBranding; brandingDir := "/d/branding";
     h_version := "1"; favicon_svg := None |}.
(** Ann manages users; Bob reads devices. *)
Definition ann : user_row := UserRow "ann" (stored "old") "" 0 false "users:read-update" (json_Marshal (mkUserData 5 [])).
Definition bob : user_row := UserRow "bob" "" "" 0 false "devices:read" "{}".
Definition d : Schema.database :=
  with_sessions {[UserRuns.hashed := SessionRow 1 "ip" 0 2000 "users:read-update"]} (with_users {[1 := ann; 2 := bob]} 2 empty_db).
Definition server_web : server authRateLimiter := Server (with_db d UserRuns.w) limiter [].
Definition grant : request :=
  {| rq_method := PUT; rq_path := "/users/bob/scopes"; rq_route := "/users/:username/scopes"; rq_ip := "10.0.0.1"; rq_scheme := "https";
     rq_host := "host"; rq_headers := {["x-csrf-token" := ["tok"]]};
     rq_cookies := {[AuthCookieName := UserRuns.secret; CsrfCookieName := "tok"]}; rq_params := {["username" := "bob"]};
     rq_query := ∅; rq_form := ∅; rq_body := Ok ""; rq_csrf := None |}.
Definition provider : Provider authRateLimiter := local_provider UserRuns.h LoginRuns.provider.
Definition serve : request -> H authRateLimiter unit := CsrfCheck (web_requireSession provider (userScopesUpdate handlers)).
Definition ann_session : Session :=
  mkSession_ "https://host" (mkUser 1 "ann" "" "" 0 false ScopeUsersRU (Some "{}")) (Some UserRuns.secret).
Lemma limiter_same (next : request -> H authRateLimiter unit) r :
  keeps (on_world same) (next r) any -> keeps (on_world same) (GetRateLimiterMiddleware provider next r) any.
Proof. intros Hn. cbn [GetRateLimiterMiddleware provider local_provider]. unfold rl_Middleware. keeps_handler. Qed.
Lemma get_same r : rq_method r = GET -> keeps (on_world same) (http_Do (P:=authRateLimiter) r) any.
Proof. intros _. apply keeps_fail. Qed.
Lemma grant_listed : (PUT, "/users/:username/scopes", serve) ∈ ui_routes handlers provider.
Proof.
  unfold ui_routes. apply list_elem_of_fmap. exists (PUT, "/users/:username/scopes", web_requireSession provider (userScopesUpdate handlers)). split; [reflexivity|]. unfold web_routes. rewrite !elem_of_app. do 5 right.
  unfold account_routes. cbn [map fst snd]. do 2 right. left.
Qed.
Definition releases : gmap string (gmap string json_any) :=
  let target v := JObject {["custom" := JObject {["version" := JString v]}]} in
  {["targets.json" := {["signed" := JObject {["targets" := JObject {["a" := target "9"; "b" := target "10"]}]}]}]}.
Definition release_targets : gmap string json_any := default ∅ (tuf_targets releases).
End WebRuns.
Import WebRuns.

Lemma web_change_needs_session_witness : ∃ res s' session s1,
  serve grant server_web = (res, s') ∧ csrf_passed grant (set_csrf "tok" grant) ∧
  GetSession WebRuns.provider (set_csrf "tok" grant) server_web = (Ok (Some session), s1) ∧
  Has (AllowedScopes (session_User session)) ScopeUsersRU = true.
Proof.
  destruct (serve grant server_web) as [res s'] eqn:E.
  assert (~ same (sv_world server_web) (sv_world s')) as Hch.
  { intros (_ & Hd & _). apply (f_equal (λ d, u_allowed_scopes <$> users d !! 2)) in Hd.
    refine (_ (eq_trans (f_equal (λ p, u_allowed_scopes <$> users (db (sv_world p.2)) !! 2) E) Hd)). vm_compute. discriminate. }
  destruct (web_change_needs_session WebRuns.handlers WebRuns.provider (same_local_GetSession UserRuns.h LoginRuns.provider) limiter_same get_same
    PUT "/users/:username/scopes" serve grant server_web res s' grant_listed eq_refl E Hch)
    as (scope & r' & session & s1 & Hin & Hpass & Hs & Hsc).
  assert (scope = Some ScopeUsersRU) as ->.
  { unfold write_routes in Hin. repeat (apply elem_of_cons in Hin as [Hin|Hin]; [first [discriminate Hin|by injection Hin]|]). by apply elem_of_nil in Hin. }
  assert (r' = set_csrf "tok" grant) as ->.
  { destruct Hpass as [[_ [H|H]]|(cookie & Hc & _ & _ & ->)]; [vm_compute in H; discriminate H..|]. vm_compute in Hc. by injection Hc as <-. }
  exists res, s', session, s1. split; [reflexivity|]. split; [exact Hpass|]. split; [exact Hs|exact (Hsc _ eq_refl)].
Defined.

Lemma rights_change_exact_witness : ∃ res s',
  userScopesUpdate WebRuns.handlers ann_session grant server_web = (res, s') ∧
  u_allowed_scopes <$> users (db (sv_world s')) !! 2 = Some "devices:delete".
Proof.
  destruct (userScopesUpdate WebRuns.handlers ann_session grant server_web) as [res s'] eqn:E. exists res, s'. split; [reflexivity|].
  assert (db (sv_world s') <> db (sv_world server_web)) as Hdb.
  { intros Hd. apply (f_equal (λ d, u_allowed_scopes <$> users d !! 2)) in Hd.
    refine (_ (eq_trans (f_equal (λ p, u_allowed_scopes <$> users (db (sv_world p.2)) !! 2) E) Hd)). vm_compute. discriminate. }
  destruct (rights_change_exact WebRuns.handlers ann_session grant server_web res s' E Hdb)
    as (_ & req & scopes & i & row & st & Hreq & _ & Hsc & Hrow & Hname & _ & _ & ->).
  injection Hreq as <-. vm_compute in Hsc. injection Hsc as <-.
  assert (i = 2) as ->.
  { change (users (db (sv_world server_web))) with ({[1 := ann; 2 := bob]} : gmap Z user_row) in Hrow.
    apply lookup_insert_Some in Hrow as [[_ <-]|[_ Hrow]]; [vm_compute in Hname; discriminate Hname|].
    apply lookup_singleton_Some in Hrow as [<- _]. reflexivity. }
  cbn [users with_users]. rewrite lookup_insert_eq. reflexivity.
Defined.

Lemma latest_release_is_latest_witness : ∃ t custom text,
  findLatestTarget releases = Some (latest_target "b" t custom text) ∧ text = "10".
Proof.
  pose proof (latest_release_is_latest releases release_targets (map_to_list release_targets) eq_refl (Permutation_refl _)) as [H _].
  change (findLatestTarget releases) with ((foldl later_target (None, -1) (map_to_list release_targets)).1).
  destruct (foldl later_target (None, -1) (map_to_list release_targets)).1 as [lt|] eqn:E; [|].
  - destruct H as (name & tj & t & custom & text & v & Hn & Hv & -> & Hmax). exists t, custom, text.
    assert (text = "10" ∧ name = "b") as [-> ->]; [|split; reflexivity].
    apply (f_equal (option_map (λ l, (lt_Version l, lt_Name l)))) in E. cbn [option_map latest_target lt_Version lt_Name] in E.
    vm_compute in E. injection E as <- <-. split; reflexivity.
  - vm_compute in E. discriminate E.
Defined.
