(* ===== verification/WitnessesGw.v ===== *)
(** Concrete runs for the theorems on the gateway of the devices and on the
    background daemons: a request or a run on which all hypotheses hold, with the
    theorem applied to it. *)
From S2P Require Import Prelude GoStrings GoPath Schema World BaseFs Crypto Models Configs FsHandles Tuf TufFs GatewayStorage ApiStorage ApiTuf TufSpec TufLife Toys Http Gateway GatewaySpec GatewayCfg Daemons WitnessesTuf.

(** ** Devices *)

Module GatewayRuns.
#[export] Instance digest : Digest := toy_digest.
#[export] Instance time_format : TimeFormat := {| rfc3339 t := "T" +:+ Itoa t; rfc3339_utc t := "T" +:+ Itoa t |}.
#[export] Instance time_parse : TimeParse :=
  {| parse_rfc3339 s := if HasPrefix s "T" then Some 0 else None; parse_rfc1123 s := Atoi s; rfc1123 := Itoa |}.
#[export] Instance certs : CertCodec :=
  {| pem_cert raw := raw; pem_decode s := Some (s, "");
     ParseCertificate raw := Ok {| Raw := raw; NotAfter := 9000; CommonName := "dev1" |} |}.
#[export] Instance encoders : Encoders := {| any_json _ _ := "" |}.
#[export] Instance libs : GatewayLibs :=
  {| uuid_String s := s; TypeByExtension _ := ""; limit_body r := Ok (rq_body r) |}.
#[export] Instance values : AnyJson := {| json_value := string; any_codec := toy_codec |}.
(** A table with one key, and the text of its first section. *)
#[export] Instance toml : Toml :=
  {| toml_value := string;
     toml_Decode s := match Cut s "=" with Some (k, v) => Ok {["pacman" := {[k := v]}]} | None => Err ErrIO end;
     toml_Encode m := Ok (Join ((λ kv, kv.1 +:+ "=" +:+ kv.2) <$> map_to_list (default ∅ (m !! "pacman"))) ",") |}.
(** A set of files is the text of its only file, an override of sota.toml. *)
Definition override (text : string) : ConfigFile := {| cf_Value := text; Unencrypted := true; OnChanged := [] |}.
#[export] Instance files_json : JSON (option (gmap string ConfigFile)) :=
  {| json_Marshal _ := ""; json_Unmarshal s := Ok (Some {[ConfigSotaOverride := override s]}) |}.
(** Events in a body: each line is an id and a correlation id. *)
Definition event_of (line : string) : DeviceUpdateEvent :=
  let '(i, c) := default (line, "") (Cut line " ") in
  {| Id := i; DeviceTime := ""; Event := {| CorrelationId := c; Ecu := ""; Success := None; ev_TargetName := ""; ev_Version := ""; Details := "" |};
     EventType := {| EventTypeId := "EcuDownloadStarted"; EventTypeVersion := 0 |} |}.
#[export] Instance events_json : JSON (list DeviceUpdateEvent) :=
  {| json_Marshal _ := ""; json_Unmarshal s := Ok (event_of <$> Split s ",") |}.
#[export] Instance no_json A : JSON A | 1000 := {| json_Marshal _ := ""; json_Unmarshal _ := Err ErrIO |}.

(** Tokens in a map with the end of their time. *)
Notation cache := (gmap string (string * Z)).
#[export] Instance token_cache : TokenCache cache :=
  {| cache_Set now k v c := <[k := (v, now + token_ttl)]> c;
     cache_Get now k c := match c !! k with Some (v, exp) => (if now <=? exp then Some v else None, c) | None => (None, c) end |}.
#[export] Instance token_cache_laws : TokenCacheLaws cache.
Proof.
  apply (Build_TokenCacheLaws _ _ (λ c : cache, c)); cbn [cache_Set cache_Get token_cache].
  - reflexivity.
  - intros now k c. destruct (c !! k) as [[v e]|]; reflexivity.
  - intros now k c v. destruct (c !! k) as [[v' e]|]; [|done]. cbn [fst].
    destruct (Z.leb_spec now e); [|done]. intros [= ->]. by exists e.
  - intros now k c v e -> Hlt. cbn [fst]. by destruct (Z.leb_spec now e); [|lia].
  - intros now k v c. by rewrite lookup_insert_eq.
Qed.

Definition h : handlers := {| hg_url := "https://gw"; hg_storage := NewGwStorage "/d" |}.
Definition row : device_row := DeviceRow "old" false 1 1 "main" {["group" := "lab"]} "u1" "t1" "h1" "a1" 0.
Definition other : device_row := DeviceRow "other" false 1 1 "main" ∅ "" "t1" "h1" "a1" 0.
Definition database : Schema.database :=
  with_updates {["u1" := UpdateRow "main" 5 "ann"]} (with_devices {["dev1" := row; "dev2" := other]} empty_db).
Definition w_bare : world :=
  World {["/d" := Dir; "/d/devices" := Dir; "/d/updates" := Dir; "/d/configs" := Dir]} 1000000 [] database (λ _, "0123456789abcdef0123") 0.
Definition dev1 : Device := device_of "dev1" row.
Definition cert (raw : string) : Certificate := {| Raw := raw; NotAfter := 9000; CommonName := "dev1" |}.
(** A set for all devices and one for this device. *)
Definition w : world :=
  (ApiSaveDeviceConfig "/d" "dev1" "packages=all" "ann" "why"
    (SaveFactoryConfig "/d" "tags=main" "ann" "why" w_bare).2).2.
Definition gw_server : server cache := Server w ∅ [].
Definition request_of (path route body : string) (headers : gmap string (list string)) (peers : list Certificate) : gw_request :=
  {| gr_request := {| rq_method := GET; rq_path := path; rq_route := route; rq_ip := "10.0.0.7"; rq_scheme := "https"; rq_host := "gw";
       rq_headers := headers; rq_cookies := ∅; rq_params := ∅; rq_query := ∅; rq_form := ∅; rq_body := Ok body; rq_csrf := None |};
     PeerCertificates := peers; gr_stream := (body, None) |}.
(** The device comes with a certificate it was given since. *)
Definition hello : gw_request := request_of "/device" "/device" "" {["x-ats-target" := ["t2"]]} [cert "new"].
Definition serve_device : gw_handler cache := mtls h deviceGet.
Definition get_config : gw_request := request_of "/config" "/config" "" ∅ [cert "old"].
Definition upload_events : gw_request := request_of "/events" "/events" "e1 corr-1,e2,e3 ../x" ∅ [cert "old"].
Definition ask_token : gw_request := request_of "/ostree/download-urls" "" "" ∅ [cert "old"].
Definition escape : gw_request := request_of "/ostree/../../../certs/root.key" "" "" ∅ [cert "old"].
Definition rotation_run : result (Device * option error) * world := RotateCert (hg_storage h) dev1 (cert "old") (cert "new") w.
Lemma configs_read c0 c1 c2 t w1 :
  GetConfigs (hg_storage h) dev1 w = (Ok (c0, c1, c2, t), w1) ->
  files_of c0 = Ok {[ConfigSotaOverride := override "tags=main"]} ∧ files_of c1 = Ok ∅ ∧
  files_of c2 = Ok {[ConfigSotaOverride := override "packages=all"]}.
Proof.
  intros Hg. assert ((λ p, match p.1 with Ok (c0, c1, c2, _) => (RawFiles <$> c0, RawFiles <$> c1, RawFiles <$> c2) | Err _ => (None, None, None) end)
    (GetConfigs (hg_storage h) dev1 w) = (Some "tags=main", None, Some "packages=all")) as E by (vm_compute; reflexivity).
  rewrite Hg in E. clear Hg. cbn [fst] in E. destruct c0 as [x0|]; [|done]. destruct c1 as [x1|]; [done|]. destruct c2 as [x2|]; [|done].
  injection E as E0 E2. unfold files_of. rewrite E0, E2. done.
Qed.
Definition table (k v : string) : gmap string (gmap string string) := {["pacman" := {[k := v]}]}.
Lemma override_read text k v :
  Cut text "=" = Some (k, v) -> override_of {[ConfigSotaOverride := override text]} = Ok (table k v).
Proof. intros Hc. unfold override_of. rewrite lookup_singleton_eq. cbn. by rewrite Hc. Qed.
Lemma override_merged :
  pacman_encode (toml_over (toml_over (table "tags" "main") ∅) (table "packages" "all")) = Ok "tags=main,packages=all".
Proof. vm_compute. reflexivity. Qed.
Lemma override_some : toml_over (toml_over (table "tags" "main") ∅) (table "packages" "all") <> ∅.
Proof. intros H. pose proof override_merged as E. rewrite H in E. vm_compute in E. discriminate E. Qed.
End GatewayRuns.
Import GatewayRuns.

Lemma gateway_isolation_witness : ∃ res s',
  serve_device hello gw_server = (res, s') ∧
  devices (db (sv_world s')) !! "dev2" = Some other ∧
  ((λ r, (d_cert r, d_target_name r, d_labels r)) <$> devices (db (sv_world s')) !! "dev1") = Some ("new", "t2", {["group" := "lab"]}).
Proof.
  destruct (serve_device hello gw_server) as [res s'] eqn:E. exists res, s'. split; [reflexivity|]. split.
  - assert ((GET, "/device", serve_device) ∈ gateway_routes GatewayRuns.h) as Hin
      by (unfold gateway_routes; apply elem_of_app; right; apply elem_of_app; left; apply list_elem_of_fmap;
          exists (GET, "/device", deviceGet); split; [reflexivity|repeat first [left | right]]).
    destruct (gateway_isolation GatewayRuns.h GET "/device" serve_device hello gw_server res s' Hin E) as [Hrow _].
    specialize (Hrow "dev2"). change (devices (db (sv_world gw_server)) !! "dev2") with (Some other) in Hrow.
    destruct (devices (db (sv_world s')) !! "dev2") as [r|]; [|destruct Hrow]. destruct Hrow as [_ H]. f_equal. apply H. discriminate.
  - refine (eq_rect _ (λ p, (λ r, (d_cert r, d_target_name r, d_labels r)) <$> devices (db (sv_world p.2)) !! "dev1" = _) _ _ E).
    vm_compute. reflexivity.
Defined.

Lemma authDevice_sound_witness : ∃ res s' row',
  authDevice GatewayRuns.h deviceGet hello gw_server = (res, s') ∧ d_cert row' = "new" ∧ d_deleted row' = false.
Proof.
  destruct (authDevice GatewayRuns.h deviceGet hello gw_server) as [res s'] eqn:E.
  destruct (authDevice_sound GatewayRuns.h deviceGet hello gw_server res s' E) as [(code & msg & _ & Ho & Hc & _)|H].
  - exfalso. assert (List.find commits (sv_out s') = Some (Respond 200 "")) as Hf
      by (refine (eq_rect _ (λ p, List.find commits (sv_out p.2) = _) _ _ E); vm_compute; reflexivity).
    rewrite Ho in Hf. injection Hf as Hf _. destruct Hc; congruence.
  - destruct H as (c & cs & row' & s1 & Hp & _ & Hd & Hcert & _). injection Hp as <- <-.
    exists res, s', row'. split; [reflexivity|]. split; [exact Hcert|exact Hd].
Defined.

Lemma configGet_layers_witness : ∃ s' (files : gmap string ConfigFile) text,
  configGet GatewayRuns.h dev1 get_config gw_server = (Ok tt, s') ∧ In (Respond 200 (any_json files)) (sv_out s') ∧
  cf_Value <$> files !! ConfigSotaOverride = Some text ∧ text = "tags=main,packages=all".
Proof.
  destruct (configGet GatewayRuns.h dev1 get_config gw_server) as [res s'] eqn:E.
  assert (res = Ok tt) as -> by (refine (eq_trans (eq_sym (f_equal fst E)) _); vm_compute; reflexivity).
  assert (http_status (Ok tt) s' = 200) as Hst by (refine (eq_rect _ (λ p, http_status (Ok tt) p.2 = 200) _ _ E); vm_compute; reflexivity).
  destruct (configGet_layers GatewayRuns.h dev1 get_config gw_server s' E) as (c0 & c1 & c2 & t & w1 & Hg & [(_ & Ho)|[(_ & _ & Ho)|H]]).
  - unfold http_status in Hst. rewrite Ho in Hst. discriminate Hst.
  - unfold http_status in Hst. rewrite Ho in Hst. discriminate Hst.
  - destruct H as (_ & _ & f0 & f1 & f2 & p0 & p1 & p2 & files & H0 & H1 & H2 & P0 & P1 & P2 & Ho & _ & Hp).
    assert (In (Respond 200 (any_json files)) (sv_out s')) as Hin by (rewrite Ho; right; left; reflexivity).
    assert (∃ text, cf_Value <$> files !! ConfigSotaOverride = Some text ∧ text = "tags=main,packages=all")
      as (text & Hv & Ht); [|exists s', files, text; split; [reflexivity|]; split; [exact Hin|]; split; [exact Hv|exact Ht]].
    destruct (configs_read c0 c1 c2 t w1 Hg) as (F0 & F1 & F2). rewrite F0 in H0. rewrite F1 in H1. rewrite F2 in H2.
    injection H0 as <-. injection H1 as <-. injection H2 as <-.
    rewrite (override_read "tags=main" "tags" "main" eq_refl) in P0. rewrite (override_read "packages=all" "packages" "all" eq_refl) in P2.
    injection P0 as <-. injection P1 as <-. injection P2 as <-.
    destruct (Hp override_some) as (text & Ht & Hv).
    exists text. split; [exact Hv|]. pose proof (eq_trans (eq_sym override_merged) Ht) as Hm. injection Hm as <-. reflexivity.
Defined.

Lemma eventsUpload_keeps_valid_witness : ∃ res s' kept,
  eventsUpload GatewayRuns.h dev1 upload_events gw_server = (res, s') ∧ Id <$> kept = ["e1"] ∧ Forall storable kept.
Proof.
  destruct (eventsUpload GatewayRuns.h dev1 upload_events gw_server) as [res s'] eqn:E.
  destruct (eventsUpload_keeps_valid GatewayRuns.h dev1 upload_events gw_server s' res
    [event_of "e1 corr-1"; event_of "e2"; event_of "e3 ../x"]) as (kept & Hk & Hs & _).
  - intros x. cbn [parse_rfc3339 rfc3339_utc time_parse time_format]. rewrite HasPrefix_app. exists 0. reflexivity.
  - vm_compute. reflexivity.
  - exact E.
  - exists res, s', kept. split; [reflexivity|]. split; [|exact Hs].
    assert (List.filter valid_event [event_of "e1 corr-1"; event_of "e2"; event_of "e3 ../x"] = [event_of "e1 corr-1"]) as Hf
      by (vm_compute; reflexivity).
    rewrite Hf in Hk. apply Forall2_cons_inv_l in Hk as (e & l & (Hi & _) & Hk & ->). apply Forall2_nil_inv_l in Hk as ->.
    cbn [fmap list_fmap]. rewrite Hi. reflexivity.
Defined.


Lemma ostree_path_escapes_witness :
  (ostreeFileStream GatewayRuns.h dev1 escape gw_server).1 = Ok tt ∧
  In (SendFile "/d/certs/root.key") (sv_out (ostreeFileStream GatewayRuns.h dev1 escape gw_server).2).
Proof.
  rewrite (ostree_path_escapes GatewayRuns.h dev1 (dir_computed "/d" eq_refl) ltac:(apply (bool_decide_unpack _); vm_compute; exact I)
    escape gw_server "certs" "root.key" ltac:(apply (bool_decide_unpack _); vm_compute; exact I)
    ltac:(apply (bool_decide_unpack _); vm_compute; exact I) eq_refl).
  split; [reflexivity|]. right. left. reflexivity.
Defined.

(** ** Background work *)

Lemma rotation_ok : ∃ d' w1, RotateCert (hg_storage GatewayRuns.h) dev1 (cert "old") (cert "new") GatewayRuns.w = (Ok (d', None), w1) ∧
  clock w1 = 1000000.
Proof.
  change (RotateCert (hg_storage GatewayRuns.h) dev1 (cert "old") (cert "new") GatewayRuns.w) with rotation_run.
  assert (match rotation_run.1 with Ok (_, None) => true | _ => false end = true) as H by (vm_compute; reflexivity).
  assert (clock rotation_run.2 = 1000000) as Hc by (vm_compute; reflexivity).
  destruct rotation_run as [[[d' [e|]]|e] w1]; try discriminate H. exists d', w1. split; [reflexivity|exact Hc].
Qed.
(** An hour later the collector comes round. *)
Lemma retired_until_expiry_witness : ∃ w1 w2, rtc (cert_step (hg_storage GatewayRuns.h)) w1 w2 ∧
  clock w1 < clock w2 ∧ retired_till "old" 9000 w2.
Proof.
  destruct rotation_ok as (d' & w1 & E & Hc).
  pose (w1' := with_clock (1000000 + 3600 * 1000) w1).
  destruct (certGc_round w1') as [res w2] eqn:Eg. pose proof (collect_run w1' res w2 Eg) as [Hc2 _]. cbn in Hc2.
  assert (rtc (cert_step (hg_storage GatewayRuns.h)) w1 w2) as Hs.
  { eapply rtc_l; [apply (cert_other _ _ w1'); [reflexivity|cbn; lia]|].
    eapply rtc_l; [exact (cert_collect _ _ _ res Eg)|apply rtc_refl]. }
  exists w1, w2. split; [exact Hs|]. split; [lia|].
  refine (proj1 (retired_until_expiry (hg_storage GatewayRuns.h) dev1 (cert "old") (cert "new") d' GatewayRuns.w w1 w2 E Hs _)).
  rewrite Hc2. vm_compute. reflexivity.
Defined.
