(* ===== verification/CliApi.v ===== *)
(** cli/api and cli/config: the command line client, up to the calls it makes.
    The client runs on a host of its own, against a server that it reaches over
    the network; it prints.  Requests and responses are those of net/http, the
    network and the server behind it are a parameter. *)
From S2P Require Import Prelude GoStrings Bytes GoPath Schema World BaseFs Crypto Encoding Models Tar Configs Updates FsHandles Tuf TufFs ApiStorage ApiUpdate Http Scopes Users Auth UiApi UiUpdates Gateway WebPages.

(** ** The client and what it can do *)

Inductive printed := Out (s : string) | ErrOut (s : string).
(** The host it runs on, the rest of the world, and what it has printed. *)
Record client (R : Type) := Client { cl_host : world; cl_remote : R; cl_out : list printed }.
Arguments Client {R}. Arguments cl_host {R}. Arguments cl_remote {R}. Arguments cl_out {R}.
Notation C R := (M (client R)).

(** The bytes of a reader, and the error that ends them when they are cut short. *)
Definition stream : Type := string * option error.
Definition ReadAll (st : stream) : result string := match st with (s, None) => Ok s | (_, Some e) => Err e end.

(** A request as it is sent and a response as it is received; header names are
    in lower case.  [hr_CloseErr] is the outcome of closing the body. *)
Record http_request := {
  hq_Method : http_method; hq_URL : string; hq_Header : gmap string (list string); hq_Body : option stream
}.
Record http_response := {
  hr_Status : Z; hr_Header : gmap string (list string); hr_ContentLength : Z; hr_Body : stream; hr_CloseErr : option error
}.
(** net/http.NewRequest refuses some URLs; a round trip, redirects included;
    what happens elsewhere while the client waits for some milliseconds. *)
Class Network (R : Type) := {
  NewRequest : string -> option error;
  round_trip : http_request -> R -> result http_response * R;
  remote_wait : Z -> R -> R
}.
(** [json.NewDecoder(body).Decode] into a zero value. *)
Class Decode (A : Type) := { json_Decode : stream -> result A }.

Section Client.
Context {R : Type}.

Definition on_host {A} (m : IO A) : C R A := λ s,
  let '(r, w) := m (cl_host s) in (r, Client w (cl_remote s) (cl_out s)).
Definition put_printed (p : printed) : C R unit := modify (λ s, Client (cl_host s) (cl_remote s) (cl_out s ++ [p])).
Definition Print (s : string) : C R unit := put_printed (Out s).
Definition Println (s : string) : C R unit := Print (s +:+ nl).
Definition Eprint (s : string) : C R unit := put_printed (ErrOut s).
(** time.Sleep, in nanoseconds: the remote side goes on meanwhile. *)
Definition sleep_ms (ns : Z) : Z := (Z.max 0 ns + 999999) / 10 ^ 6.
Definition Sleep `{Network R} (ns : Z) : C R unit :=
  on_host (time_sleep (sleep_ms ns));;
  modify (λ s, Client (cl_host s) (remote_wait (sleep_ms ns) (cl_remote s)) (cl_out s)).
Definition now_ns : C R Z := on_host (gets (λ w, clock w * 10 ^ 6)).
Definition round `{Network R} (q : http_request) : C R http_response := λ s,
  let '(r, rem) := round_trip q (cl_remote s) in (r, Client (cl_host s) rem (cl_out s)).
End Client.

(** ** cli/config/config.go *)

Record Context := { URL : string; Token : string }.
(** [None] is the nil map. *)
Record Config := { ActiveContext : string; Contexts : option (gmap string Context) }.
#[global] Instance Context_eq_dec : EqDecision Context.
Proof. solve_decision. Defined.
#[global] Instance Config_eq_dec : EqDecision Config.
Proof. solve_decision. Defined.
(** gopkg.in/yaml.v3 on the configuration, and [os.UserHomeDir]. *)
Class CliEnv := {
  yaml_Unmarshal : string -> result Config;
  yaml_Marshal : Config -> result string;
  UserHomeDir : result string
}.
Class CliEnvLaws `{CliEnv} := { yaml_roundtrip c data : yaml_Marshal c = Ok data -> yaml_Unmarshal data = Ok c }.

(** [os.IsNotExist], which does not look into wrapped errors. *)
Definition os_IsNotExist (e : error) : bool := bool_decide (e = ErrNotExist).

Section Config.
Context `{CliEnv}.

Definition getConfigPath : result string := home ← UserHomeDir; Ok (filepath_Join [home; ".config"; "fiocli.yaml"]).
(** The path given, or the default one; the file system knows cleaned paths. *)
Definition config_path (path : string) : result string :=
  if String.eqb path ""
  then match getConfigPath with Ok p => Ok (Clean p) | Err err => Err (ErrWrap "failed to get config path" err) end
  else Ok (Clean path).
Definition LoadConfig (path : string) : IO Config :=
  p ← lift (config_path path);
  data ← try (os_ReadFile p);
  match data with
  | Err err => if errors_Is err ErrNotExist then fail err else fail (ErrWrap "failed to read config file" err)
  | Ok data => wrap "failed to parse config file" (lift (yaml_Unmarshal data))
  end.
Definition GetContext (c : Config) (name : string) : result Context :=
  if String.eqb (ActiveContext c) "" && String.eqb name "" then Err (ErrMsg "no default context set") else
  let name := if String.eqb name "" then ActiveContext c else name in
  match default ∅ (Contexts c) !! name with
  | None => Err (ErrMsg ("context '" +:+ name +:+ "' not found"))
  | Some ctx =>
      if String.eqb (URL ctx) "" then Err (ErrMsg ("context '" +:+ name +:+ "' has no URL configured"))
      else if String.eqb (Token ctx) "" then Err (ErrMsg ("context '" +:+ name +:+ "' has no token configured"))
      else Ok ctx
  end.
Definition SaveConfig (path : string) (cfg : Config) : IO unit :=
  p ← lift (config_path path);
  data ← wrap "failed to marshal config" (lift (yaml_Marshal cfg));
  wrap "failed to write config file" (os_WriteFile p data secureFileAccess).
End Config.

(** ** cli/api/http.go and cli/api/client.go *)

(** A client of the API: where the server is, and the token that its transport
    adds to each request. *)
Record Api := { api_URL : string; api_Token : string }.
Definition NewClient (appCtx : Context) : Api := {| api_URL := URL appCtx; api_Token := Token appCtx |}.
(** [authTransport.RoundTrip], in front of the transport of net/http. *)
Definition authTransport_RoundTrip (token : string) (q : http_request) : http_request :=
  {| hq_Method := hq_Method q; hq_URL := hq_URL q; hq_Header := <["authorization" := ["Bearer " +:+ token]]> (hq_Header q);
     hq_Body := hq_Body q |}.

(** The options of a call: the headers they set, in their order. *)
Definition httpOptions_apply (opts : list (string * string)) : gmap string (list string) :=
  foldl (λ h nv, <[nv.1 := [nv.2]]> h) ∅ opts.

(** What comes before a character, and what is between the first [<] and the
    first [>] after it. *)
Definition link_target (part : string) : option string :=
  match Index_char part "<", Index_char part ">" with
  | Some start, Some stop => if (start <? stop)%nat then Some (str_take (stop - start - 1) (str_drop (S start) part)) else None
  | _, _ => None
  end.
Fixpoint find_link (target : string) (parts : list string) : option string :=
  match parts with
  | [] => None
  | part :: parts' =>
      let part := TrimSpace part in
      if negb (Contains part target) then find_link target parts' else
      match link_target part with Some url => Some url | None => find_link target parts' end
  end.
Definition parseLinkRel (linkHeader rel : string) : option string := find_link ("rel=" +:+ q rel) (Split linkHeader ",").
Definition ParseNextLink (linkHeader : string) : option string := parseLinkRel linkHeader "next".
Definition ParseLastLink (linkHeader : string) : option string := parseLinkRel linkHeader "last".

(** The body of a call: a reader, or a value marshalled to JSON. *)
Inductive api_body := BodyReader (st : stream) | BodyJson (text : string).
Definition handleRequestBody (body : api_body) (header : gmap string (list string)) : stream * gmap string (list string) :=
  let default_type t := if bool_decide (is_Some (header !! "content-type")) then header else <["content-type" := [t]]> header in
  match body with
  | BodyReader st => (st, default_type "application/octet-stream")
  | BodyJson text => ((text, None), default_type "application/json")
  end.
Definition handleHttpError (resp : http_response) : error :=
  match ReadAll (hr_Body resp) with
  | Err _ => ErrMsg ("API request failed with status " +:+ Itoa (hr_Status resp) +:+ " and unreadable body")
  | Ok buf => ErrMsg ("API request (id=" +:+ first_of (hr_Header resp) "x-request-id" +:+ ") failed with status " +:+
                      Itoa (hr_Status resp) +:+ ": " +:+ buf)
  end.
Definition status_ok (resp : http_response) : bool := (200 <=? hr_Status resp) && (hr_Status resp <? 300).

Section HttpClient.
Context `{Network R} (a : Api).

Definition closeHttpBody (resp : http_response) : C R unit :=
  match hr_CloseErr resp with
  | None => mret tt
  | Some err => Print ("warning: failed to close response body: " +:+ Error err +:+ nl)
  end.
(** [defer a.closeHttpBody(resp.Body)] around the rest of a function. *)
Definition closing {A} (resp : http_response) (m : C R A) : C R A := r ← try m; closeHttpBody resp;; lift r.
Definition Client_Do (q : http_request) : C R http_response :=
  match NewRequest (hq_URL q) with
  | Some err => fail (ErrWrap "failed to create request" err)
  | None => round (authTransport_RoundTrip (api_Token a) q)
  end.
Definition api_get (resource : string) (opts : list (string * string)) : C R http_response :=
  resp ← Client_Do {| hq_Method := GET; hq_URL := api_URL a +:+ resource; hq_Header := httpOptions_apply opts; hq_Body := None |};
  if status_ok resp then mret resp else closing resp (fail (handleHttpError resp)).
Definition GetWithHeaders `{Decode A} (zero : A) (resource : string) (opts : list (string * string))
  : C R (A * gmap string (list string)) :=
  resp ← api_get resource opts;
  closing resp
    (v ← (if hr_ContentLength resp =? 0 then mret zero else lift (json_Decode (hr_Body resp))); mret (v, hr_Header resp)).
Definition api_Get `{Decode A} (zero : A) (resource : string) : C R A :=
  r ← GetWithHeaders zero resource []; mret r.1.
(** The reader handed out is closed by the caller. *)
Definition GetStream (resource : string) : C R http_response := api_get resource [].
Definition api_Delete (resource : string) : C R unit :=
  resp ← Client_Do {| hq_Method := DELETE; hq_URL := api_URL a +:+ resource; hq_Header := ∅; hq_Body := None |};
  closing resp (if status_ok resp then mret tt else fail (handleHttpError resp)).
Definition api_send (method : http_method) (resource : string) (body : api_body) (opts : list (string * string)) : C R string :=
  let '(reader, header) := handleRequestBody body (httpOptions_apply opts) in
  resp ← Client_Do {| hq_Method := method; hq_URL := api_URL a +:+ resource; hq_Header := header; hq_Body := Some reader |};
  closing resp (if status_ok resp then lift (ReadAll (hr_Body resp)) else fail (handleHttpError resp)).
Definition api_Post := api_send POST.
Definition api_Put := api_send PUT.
End HttpClient.

(** ** cli/api/updates.go, devices.go, configs.go, pki.go *)

(** [url.QueryEscape]. *)
Definition upper_hex (c : ascii) : string := (* two digits, in capitals *)
  let d n := if n <? 10 then digit_char n else ascii_of_nat (Z.to_nat (n + 55)) in
  String (d (byte_val c / 16)) (str1 (d (byte_val c mod 16))).
Fixpoint QueryEscape (s : string) : string :=
  match s with
  | "" => ""
  | String c s' =>
      (if is_alnum c || one_of "-_.~" c then str1 c
       else if Ascii.eqb c " " then "+" else "%" +:+ upper_hex c) +:+ QueryEscape s'
  end.
(** [url.Values.Encode] of the pairs of each key in turn, the keys in order. *)
Definition values_Encode (values : list (string * list string)) : string :=
  Join (flat_map (λ kv, map (λ v, QueryEscape kv.1 +:+ "=" +:+ QueryEscape v) kv.2) values) "&".
(** [url.Parse] and [Query().Get]: [None] when the URL does not parse. *)
Class Urls := { url_query_get : string -> string -> option string }.

Record CreateUpdateOptions := {
  cu_Version : Z; cu_HardwareId : string; cu_Name : string; cu_OstreeHash : string; cu_Apps : gmap string string
}.
Definition app_values (apps : gmap string string) : list string := (λ kv : string * string, kv.1 +:+ "=" +:+ kv.2) <$> map_to_list apps.
(** The parameters that are set, in the order of their names. *)
Definition query_values (o : CreateUpdateOptions) : list (string * list string) :=
  List.filter (λ kv, negb (bool_decide (kv.2 = [])))
    [("apps", app_values (cu_Apps o));
     ("hardware-id", if String.eqb (cu_HardwareId o) "" then [] else [cu_HardwareId o]);
     ("name", if String.eqb (cu_Name o) "" then [] else [cu_Name o]);
     ("ostree-hash", if String.eqb (cu_OstreeHash o) "" then [] else [cu_OstreeHash o]);
     ("version", if cu_Version o =? 0 then [] else [Itoa (cu_Version o)])].
Definition options_query (o : CreateUpdateOptions) : string :=
  match query_values o with [] => "" | values => "?" +:+ values_Encode values end.
Definition update_uri (tag updateName : string) (o : CreateUpdateOptions) : string :=
  "/v1/updates/" +:+ tag +:+ "/" +:+ updateName +:+ options_query o.
Definition tgz_headers : list (string * string) := [("content-type", "application/x-tar"); ("content-encoding", "gzip")].

(** The configurations a command is about; those of a device know its uuid. *)
Record SpecificConfigsApi := { sc_uri : string; sc_uuid : option string }.
Definition Configs_Factory : SpecificConfigsApi := {| sc_uri := "/v1/configs/factory"; sc_uuid := None |}.
Definition Configs_Group (name : string) : SpecificConfigsApi := {| sc_uri := "/v1/configs/group/" +:+ name; sc_uuid := None |}.
Definition Configs_Device (uuid : string) : SpecificConfigsApi := {| sc_uri := "/v1/configs/device/" +:+ uuid; sc_uuid := Some uuid |}.

Definition zero_summary : UpdateSummary := {| us_Status := ∅; us_Tag := "" |}.
Definition zero_rollout : Rollout := {| ro_CreatedAt := 0; Uuids := []; Groups := []; Effect := []; Commit := false |}.
Definition zero_item : DeviceListItem :=
  {| li_Uuid := ""; li_CreatedAt := 0; li_LastSeen := 0; li_Target := ""; li_Tag := ""; li_Labels := ∅ |}.
Definition zero_device : ApiDevice :=
  {| ad_item := zero_item; ad_Apps := []; ad_OstreeHash := ""; ad_Cert := ""; ad_UpdateName := ""; Aktoml := ""; HwInfo := "";
     NetInfo := ""; ad_Status := None |}.
Definition zero_applied : AppliedConfigs := {| ac_Files := ∅; AppliedAt := 0; AuditTrail := [no_audit; no_audit; no_audit] |}.
Definition zero_test : TargetTest :=
  {| tt_Uuid := ""; tt_Name := ""; tt_TargetName := ""; tt_Status := ""; CreatedOn := 0; CompletedOn := None; tt_Details := "";
     Artifacts := []; Results := [] |}.
Definition bool_text (b : bool) : string := if b then "true" else "false".

Section ApiCalls.
Context `{Network R, Urls, Decode (list Update), Decode (list string), Decode UpdateSummary, Decode UpdateTufResp, Decode Rollout}.
Context `{Decode config_set, Decode (list config_set), Decode AppliedConfigs, Decode (list DeviceListItem), Decode ApiDevice}.
Context `{Decode (list DeviceUpdateEvent), Decode (list TargetTest), Decode TargetTest}.
Context `{JSON Rollout, JSON config_set, JSON (gmap string string)}.
Context (a : Api).

Definition Updates_List : C R (list Update) := api_Get a [] "/v1/updates".
Definition Updates_Get (updateName : string) : C R (list string) := api_Get a [] ("/v1/updates/" +:+ updateName +:+ "/rollouts").
Definition Updates_GetSummary (updateName : string) : C R UpdateSummary :=
  api_Get a zero_summary ("/v1/updates/" +:+ updateName +:+ "/summary").
Definition GetDevicesForStatus (updateName status : string) : C R (list string) :=
  api_Get a [] ("/v1/updates/" +:+ updateName +:+ "/query?status=" +:+ QueryEscape status).
Definition Updates_GetTuf (updateName : string) : C R UpdateTufResp := api_Get a ∅ ("/v1/updates/" +:+ updateName +:+ "/tuf").
Definition Updates_Tail (updateName : string) : C R http_response := GetStream a ("/v1/updates/" +:+ updateName +:+ "/tail").
Definition rollout_uri (updateName rollout : string) : string := "/v1/updates/" +:+ updateName +:+ "/rollouts/" +:+ rollout.
Definition Updates_GetRollout (updateName rollout : string) : C R Rollout := api_Get a zero_rollout (rollout_uri updateName rollout).
Definition GetRolloutSummary (updateName rollout : string) : C R UpdateSummary :=
  api_Get a zero_summary (rollout_uri updateName rollout +:+ "/summary").
Definition GetDevicesForRolloutStatus (updateName rollout status : string) : C R (list string) :=
  api_Get a [] (rollout_uri updateName rollout +:+ "/query?status=" +:+ QueryEscape status).
Definition Updates_CreateRollout (updateName rollout : string) (data : Rollout) : C R unit :=
  api_Put a (rollout_uri updateName rollout) (BodyJson (json_Marshal data)) [];; mret tt.
Definition TailRollout (updateName rollout : string) : C R http_response := GetStream a (rollout_uri updateName rollout +:+ "/tail").
Definition Updates_CreateUpdate (tag updateName : string) (opts : CreateUpdateOptions) (body : stream) : C R unit :=
  api_Post a (update_uri tag updateName opts) (BodyReader body) tgz_headers;; mret tt.
Definition Updates_Delete (updateName : string) : C R unit := api_Delete a ("/v1/updates/" +:+ updateName).

(** The number of pages by the offset of the last one. *)
Definition totalPagesFromLink (linkHeader : string) (limit : Z) : Z :=
  match ParseLastLink linkHeader with
  | None => 0
  | Some lastURL =>
      if limit <=? 0 then 0 else
      match url_query_get lastURL "offset" with
      | None | Some "" => 0
      | Some offsetStr => match Atoi offsetStr with Some lastOffset => wrap64 (wrap64 (lastOffset ÷ limit) + 1) | None => 0 end
      end
  end.
Definition list_resource (page limit : Z) (sortBy : string) : string :=
  let offset := wrap64 (wrap64 (page - 1) * limit) in
  "/v1/devices?limit=" +:+ Itoa limit +:+ "&offset=" +:+ Itoa offset +:+
  (if String.eqb sortBy "" then "" else "&order-by=" +:+ sortBy).
Definition ListPage (page limit : Z) (sortBy : string) : C R (list DeviceListItem * bool * Z) :=
  r ← GetWithHeaders a [] (list_resource page limit sortBy) [];
  let linkHeader := first_of r.2 "link" in
  mret (r.1, bool_decide (is_Some (ParseNextLink linkHeader)), totalPagesFromLink linkHeader limit).
Definition Devices_Get (uuid : string) : C R ApiDevice := api_Get a zero_device ("/v1/devices/" +:+ uuid).
Definition Devices_Updates (uuid : string) : C R (list string) := api_Get a [] ("/v1/devices/" +:+ uuid +:+ "/updates").
Definition Devices_UpdateEvents (uuid updateId : string) : C R (list DeviceUpdateEvent) :=
  api_Get a [] ("/v1/devices/" +:+ uuid +:+ "/updates/" +:+ updateId).
Definition Devices_Delete (uuid : string) : C R unit := api_Delete a ("/v1/devices/" +:+ uuid).
Definition Devices_ListDenied : C R (list string) := api_Get a [] "/v1/denied-devices".
Definition Devices_DeleteDenied (uuid : string) : C R unit := api_Delete a ("/v1/denied-devices/" +:+ uuid).
Definition Devices_Tests (uuid : string) : C R (list TargetTest) := api_Get a [] ("/v1/devices/" +:+ uuid +:+ "/tests").
Definition Devices_Test (uuid testId : string) : C R TargetTest :=
  api_Get a zero_test ("/v1/devices/" +:+ uuid +:+ "/tests/" +:+ testId).
Definition Devices_TestArtifact (uuid testId artifact : string) : C R http_response :=
  GetStream a ("/v1/devices/" +:+ uuid +:+ "/tests/" +:+ testId +:+ "/" +:+ artifact).

Definition Configs_ListGroups : C R (list string) := api_Get a [] "/v1/known-labels/device-groups".
Definition Configs_Upload (r : stream) (opts : list (string * string)) : C R unit := api_Put a "/v1/configs" (BodyReader r) opts;; mret tt.
Definition Configs_Get (capi : SpecificConfigsApi) : C R config_set := api_Get a zero_configs (sc_uri capi).
Definition Configs_GetHistory (capi : SpecificConfigsApi) (limit : Z) (showFiles : bool) : C R (list config_set) :=
  api_Get a [] (sc_uri capi +:+ "/history?limit=" +:+ Itoa limit +:+ "&show-files=" +:+ bool_text showFiles).
Definition Configs_Put (capi : SpecificConfigsApi) (configs : config_set) : C R unit :=
  api_Put a (sc_uri capi) (BodyJson (json_Marshal configs)) [];; mret tt.
Definition Configs_GetApplied (capi : SpecificConfigsApi) : C R AppliedConfigs := api_Get a zero_applied (sc_uri capi +:+ "/applied").
Definition Configs_GetCert (uuid : string) : C R string := d ← Devices_Get uuid; mret (ad_Cert d).

Definition cert_query (certs : list string) : string := "?" +:+ Join (map (λ cert, "name=" +:+ cert) certs) "&".
Definition Pki_GetCerts (certs : list string) : C R (gmap string string) :=
  resp ← api_get a ("/v1/pki/cert" +:+ cert_query certs) [];
  buf ← closing resp (lift (ReadAll (hr_Body resp)));
  lift (json_Unmarshal buf).
End ApiCalls.
