(* ===== verification/CliLogin.v ===== *)
(** cli/subcommands/login/cmd.go and the start of cmd/cli/main.go: a login by
    the device authorization flow or by a token at hand, what it leaves in the
    configuration, and how the commands find their client there. *)
From S2P Require Import Prelude GoStrings Bytes GoPath Schema World BaseFs Crypto Encoding Http UiApi UiUpdates CliApi.

(** [errors.As] tells the errors that the server answers from the others. *)
Inductive poll_error := OAuth2Err (e : oauth2Error) | OtherErr (e : error).
Definition oauth2Error_Error (e : oauth2Error) : string :=
  if String.eqb (ErrorDescription e) "" then oe_Error e else oe_Error e +:+ ": " +:+ ErrorDescription e.
(** What to do after a failed poll: go on, wait twice as long, or give up. *)
Inductive poll_step := PollAgain | PollSlower | PollStop (e : error).
Definition after_poll_error (err : poll_error) : poll_step :=
  match err with
  | OtherErr e => PollStop (ErrWrap "failed to get token" e)
  | OAuth2Err e =>
      if String.eqb (oe_Error e) "authorization_pending" then PollAgain
      else if String.eqb (oe_Error e) "slow_down" then PollSlower
      else if String.eqb (oe_Error e) "access_denied" then PollStop (ErrMsg "authorization was denied")
      else if String.eqb (oe_Error e) "expired_token" then PollStop (ErrMsg "authorization code expired")
      else PollStop (ErrMsg ("OAuth2 error: " +:+ oe_Error e +:+ " - " +:+ ErrorDescription e))
  end.
Definition device_grant : string := "urn:ietf:params:oauth:grant-type:device_code".
Definition device_uri : string := "/oauth2/authorization/device/".
Definition token_uri : string := "/oauth2/token/".
Definition second_ns : Z := 10 ^ 9.

Section Login.
Context `{Network R, CliEnv, Decode DeviceCodeResponse, JSON DeviceTokenResponse, JSON oauth2Error}.

(** [http.PostForm], with the client of net/http: no token is added. *)
Definition PostForm (url : string) (values : list (string * list string)) : C R http_response :=
  match NewRequest url with
  | Some err => fail err
  | None => round {| hq_Method := POST; hq_URL := url; hq_Header := {["content-type" := ["application/x-www-form-urlencoded"]]};
                     hq_Body := Some (values_Encode values, None) |}
  end.

Definition set_context (cfg : Config) (contextName : string) (ctx : Context) (setDefault : bool) : Config :=
  {| ActiveContext := if setDefault then contextName else ActiveContext cfg;
     Contexts := Some (<[contextName := ctx]> (default ∅ (Contexts cfg))) |}.
Definition saveToken (configPath contextName serverURL token : string) (setDefault : bool) : C R unit :=
  loaded ← try (on_host (LoadConfig configPath));
  cfg ← match loaded with
        | Ok cfg => mret cfg
        | Err err => if os_IsNotExist err then mret {| ActiveContext := ""; Contexts := Some ∅ |}
                     else fail (ErrWrap "failed to load config" err)
        end;
  wrap "failed to save config"
    (on_host (SaveConfig configPath (set_context cfg contextName {| URL := serverURL; Token := token |} setDefault)));;
  Print ("Successfully configured context '" +:+ contextName +:+ "'" +:+ nl);;
  Print ("  Server URL: " +:+ serverURL +:+ nl);;
  if setDefault then Print ("  Set as default context" +:+ nl) else mret tt.

(** The answer to a poll; closing its body prints at most a warning. *)
Definition poll_answer (resp : http_response) : string + poll_error :=
  match ReadAll (hr_Body resp) with
  | Err err => inr (OtherErr (ErrWrap "failed to read response" err))
  | Ok body =>
      if hr_Status resp =? 200 then
        match json_Unmarshal body with
        | Err err => inr (OtherErr (ErrWrap "failed to decode token response" err))
        | Ok tokenResp => inl (AccessToken tokenResp)
        end
      else match json_Unmarshal body with
           | Err _ => inr (OtherErr (ErrMsg ("request failed (status " +:+ Itoa (hr_Status resp) +:+ "): " +:+ body)))
           | Ok errResp => inr (OAuth2Err errResp)
           end
  end.
Definition pollForToken (serverURL deviceCode : string) : C R (string + poll_error) :=
  resp ← try (PostForm (serverURL +:+ token_uri) [("device_code", [deviceCode]); ("grant_type", [device_grant])]);
  match resp with
  | Err err => mret (inr (OtherErr (ErrWrap "failed to request token" err)))
  | Ok resp =>
      match hr_CloseErr resp with
      | None => mret tt
      | Some err => Eprint ("Warning: failed to close response body: " +:+ Error err +:+ nl)
      end;;
      mret (poll_answer resp)
  end.
(** The loop of polls: how it ended, or [None] when [fuel] polls were not enough. *)
Fixpoint poll_loop (fuel : nat) (serverURL deviceCode : string) (pollInterval expiresAt : Z) : C R (option (string + error)) :=
  now ← now_ns;
  if expiresAt <=? now then mret (Some (inr (ErrMsg "authorization timed out"))) else
  match fuel with
  | O => mret None
  | S fuel' =>
      Sleep pollInterval;;
      token ← pollForToken serverURL deviceCode;
      match token with
      | inl token => mret (Some (inl token))
      | inr err =>
          match after_poll_error err with
          | PollAgain => poll_loop fuel' serverURL deviceCode pollInterval expiresAt
          | PollSlower => poll_loop fuel' serverURL deviceCode (wrap64 (pollInterval * 2)) expiresAt
          | PollStop e => mret (Some (inr e))
          end
      end
  end.
Definition device_code_request (serverURL scopes : string) (expires : Z) : C R DeviceCodeResponse :=
  resp ← wrap "failed to request device code"
    (PostForm (serverURL +:+ device_uri) [("scope", [scopes]); ("token_expires", [Itoa expires])]);
  if negb (hr_Status resp =? 200)
  then fail (ErrMsg ("failed to get device code (status " +:+ Itoa (hr_Status resp) +:+ "): " +:+ (hr_Body resp).1))
  else wrap "failed to decode device code response" (lift (json_Decode (hr_Body resp))).
Definition rule : string := "------------------------------------------------".
Definition check_mark : string := bytes [226; 156; 147]%nat.
Definition show_code (c : DeviceCodeResponse) : C R unit :=
  forM [""; rule; "  Visit: " +:+ VerificationURI c; ""; "  Enter code: " +:+ dcr_UserCode c; rule; ""; "Waiting for authorization..."] Println.
Definition oauth2DeviceFlow (fuel : nat) (configPath contextName serverURL scopes : string) (expires : Z) (setDefault : bool) : C R (option unit) :=
  codeResp ← device_code_request serverURL scopes expires;
  show_code codeResp;;
  now ← now_ns;
  ended ← poll_loop fuel serverURL (dcr_DeviceCode codeResp) (wrap64 (Interval codeResp * second_ns))
            (now + wrap64 (ExpiresIn codeResp * second_ns));
  match ended with
  | None => mret None
  | Some (inr e) => fail e
  | Some (inl token) =>
      Println "";; Println (check_mark +:+ " Authorization successful!");;
      saveToken configPath contextName serverURL token setDefault;;
      mret (Some tt)
  end.
(** The command: [None] stands for polls that did not come to an end. *)
Definition login (fuel : nat) (configPath contextName serverURL token scopes : string) (expiresInDays : Z) (setDefault : bool) : C R (option unit) :=
  if negb (String.eqb token "") then saveToken configPath contextName serverURL token setDefault;; mret (Some tt) else
  Println "Initiating OAuth2 device authorization flow...";;
  now ← now_ns;
  let expires := (now + wrap64 (wrap64 (expiresInDays * 24) * 3600 * second_ns)) / second_ns in
  oauth2DeviceFlow fuel configPath contextName serverURL scopes expires setDefault.

(** ** cmd/cli/main.go: the client of every other command *)

Definition PersistentPreRunE (command configPath contextName : string) : C R (option Api) :=
  if String.eqb command "login" || String.eqb command "version" then mret None else
  cfg ← wrap "failed to load configuration" (on_host (LoadConfig configPath));
  appctx ← wrap "failed to get current context" (lift (GetContext cfg contextName));
  mret (Some (NewClient appctx)).
End Login.

(** ** Theory *)

Section LoginTheory.
Context `{Network R, CliEnv, Decode DeviceCodeResponse, JSON DeviceTokenResponse, JSON oauth2Error}.
Implicit Types (s : client R).
Definition clock_ns s : Z := clock (cl_host s) * 10 ^ 6.

Lemma now_run s : now_ns s = (Ok (clock_ns s), s).
Proof. by destruct s. Qed.
Lemma pollForToken_returns url code s : ∃ r s', pollForToken url code s = (Ok r, s') ∧ cl_host s' = cl_host s.
Proof.
  unfold pollForToken, PostForm, mbind, M_bind, try. destruct (NewRequest _); simpl; [eauto|].
  unfold round. destruct (round_trip _ _) as [[resp|e] rem]; simpl; [|eauto].
  destruct (hr_CloseErr resp); simpl; eauto.
Qed.
Lemma sleep_ms_long ns : 0 <= ns -> ns <= sleep_ms ns * 10 ^ 6.
Proof.
  intros Hns. unfold sleep_ms. rewrite Z.max_r by done.
  pose proof (Z.div_mod (ns + 999999) (10 ^ 6) ltac:(lia)). pose proof (Z.mod_pos_bound (ns + 999999) (10 ^ 6) ltac:(lia)). lia.
Qed.
Lemma Sleep_run ns s : ∃ s1, Sleep ns s = (Ok tt, s1) ∧ clock_ns s1 = clock_ns s + sleep_ms ns * 10 ^ 6.
Proof. eexists. split; [reflexivity|]. unfold clock_ns. simpl. lia. Qed.

(** The pauses never get shorter than the first, and not longer than the time
    that has passed since the beginning and one first pause. *)
Lemma poll_loop_ends url code expiresAt t0 first fuel iv s :
  0 < first <= iv -> iv <= clock_ns s - t0 + first -> expiresAt - t0 + first < 2 ^ 62 -> expiresAt - clock_ns s <= Z.of_nat fuel * first ->
  ∃ v s', poll_loop fuel url code iv expiresAt s = (Ok (Some v), s').
Proof.
  revert iv s. induction fuel as [|fuel IH]; intros iv s Hfirst Hiv Hbound Hfuel; cbn [poll_loop];
    rewrite (bind_Ok _ _ _ _ _ (now_run s)); destruct (Z.leb_spec expiresAt (clock_ns s)); try by (eexists _, _).
  - lia.
  - destruct (Sleep_run iv s) as (s1 & Es & Hc). rewrite (bind_Ok _ _ _ _ _ Es).
    destruct (pollForToken_returns url code s1) as (r & s2 & Ep & Hh). rewrite (bind_Ok _ _ _ _ _ Ep).
    pose proof (sleep_ms_long iv ltac:(lia)). assert (clock_ns s2 = clock_ns s1) as Hc2 by (unfold clock_ns; by rewrite Hh).
    destruct r as [token|err]; [by eexists _, _|].
    destruct (after_poll_error err); [| |by eexists _, _].
    + apply IH; lia.
    + rewrite wrap64_small by (unfold in_int64; lia). apply IH; lia.
Qed.

(** *** What a login leaves in the configuration *)

(** Everything but the save leaves the files of the host alone. *)
Definition same_files s s' : Prop := fs (cl_host s') = fs (cl_host s) ∧ faults (cl_host s') = faults (cl_host s).
#[export] Instance same_files_preorder : PreOrder same_files.
Proof. split; [done|]. intros s1 s2 s3 [] []. split; congruence. Qed.
Lemma keeps_print p : keeps same_files (put_printed (R:=R) p) any.
Proof. by intros s r s' [= <- <-]. Qed.
Lemma keeps_now : keeps same_files (now_ns (R:=R)) any.
Proof. intros s r s' E. rewrite now_run in E. by simplify_eq. Qed.
Lemma keeps_Sleep ns : keeps same_files (Sleep (R:=R) ns) any.
Proof. by intros s r s' [= <- <-]. Qed.
Lemma keeps_round q : keeps same_files (round (R:=R) q) any.
Proof. intros s r s'. unfold round. destruct (round_trip _ _) as [res rem]. intros [= <- <-]. split; [done|]. by destruct res. Qed.
Hint Resolve keeps_print keeps_now keeps_Sleep keeps_round : keeps.
Lemma keeps_poll_loop fuel url code iv expiresAt : keeps same_files (poll_loop fuel url code iv expiresAt) any.
Proof.
  revert iv. induction fuel as [|fuel IH]; intros iv; cbn [poll_loop];
    unfold pollForToken, PostForm, Eprint; keeps_auto; eauto.
Qed.
Lemma keeps_device_code url scopes expires : keeps same_files (device_code_request url scopes expires) any.
Proof. unfold device_code_request, PostForm. keeps_auto. Qed.

(** The token that the loop of polls ends with is one that the server answered. *)
Definition granted (url code token : string) : Prop :=
  ∃ q rem rem' resp, round_trip q rem = (Ok resp, rem') ∧ hq_URL q = url +:+ token_uri ∧
    hq_Body q = Some (values_Encode [("device_code", [code]); ("grant_type", [device_grant])], None) ∧ poll_answer resp = inl token.
Lemma pollForToken_granted url code s token s' : pollForToken url code s = (Ok (inl token), s') -> granted url code token.
Proof.
  unfold pollForToken, PostForm, mbind, M_bind, try. destruct (NewRequest _); [done|].
  unfold round. destruct (round_trip _ _) as [[resp|e] rem] eqn:E; [|done].
  intros Ha. eexists _, _, _, resp. split; [exact E|]. do 2 (split; [done|]). destruct (hr_CloseErr resp); cbn in Ha; by apply ret_inv in Ha as [[= ->] _].
Qed.
Lemma poll_loop_granted fuel url code iv expiresAt s token s' :
  poll_loop fuel url code iv expiresAt s = (Ok (Some (inl token)), s') -> granted url code token.
Proof.
  revert iv s. induction fuel as [|fuel IH]; intros iv s; cbn [poll_loop]; rewrite (bind_Ok _ _ _ _ _ (now_run s));
    (destruct (expiresAt <=? clock_ns s); [done|]); [done|].
  destruct (Sleep_run iv s) as (s1 & Es & _). rewrite (bind_Ok _ _ _ _ _ Es).
  destruct (pollForToken_returns url code s1) as (r & s2 & Ep & _). rewrite (bind_Ok _ _ _ _ _ Ep).
  destruct r as [t|err]; [intros [= -> ->]; by eapply pollForToken_granted|]. destruct (after_poll_error err); [apply IH..|done].
Qed.

(** The configuration that a host has at a path; a missing file is an empty one. *)
Definition empty_config : Config := {| ActiveContext := ""; Contexts := Some ∅ |}.
Definition config_at (w : world) (p : string) : option Config :=
  match fs w !! p with
  | None => Some empty_config
  | Some (File data _ _) => match yaml_Unmarshal data with Ok c => Some c | Err _ => None end
  | Some Dir => None
  end.
(** A write that succeeds leaves exactly the text. *)
Lemma WriteFile_run p data mode w w' :
  faults w = [] -> os_WriteFile p data mode w = (Ok tt, w') -> (∃ m t, fs w' !! p = Some (File data m t)) ∧ faults w' = [].
Proof.
  intros Hf E. unfold os_WriteFile in E. apply bind_inv_Ok in E as ([] & w1 & Eo & E).
  assert ((∃ m t, fs w1 !! p = Some (File "" m t)) ∧ faults w1 = []) as [(m & t & Ep) Hf1].
  { unfold os_OpenFile_create in Eo. rewrite syscall_ok in Eo by done. repeat case_match; simplify_eq; simpl;
      rewrite lookup_insert_eq; eauto. }
  apply bind_try_inv in E as (r & w2 & Ew & E). apply bind_try_inv in E as (c & w3 & Ec & E).
  unfold fd_overwrite in Ew. rewrite syscall_ok, Ep in Ew by done. simplify_eq.
  unfold fd_close in Ec. rewrite syscall_ok in Ec by done. apply ret_inv in Ec as [-> ->]. apply lift_inv in E as [_ ->]. simpl.
  rewrite lookup_insert_eq. split; [|done]. do 2 eexists. f_equal. f_equal. destruct (String.length data); apply str_app_nil_r.
Qed.

(** Reading the configuration back. *)
Lemma LoadConfig_at path p w :
  faults w = [] -> config_path path = Ok p ->
  LoadConfig path w =
    (match config_at w p with
     | Some c => match fs w !! p with None => Err ErrNotExist | _ => Ok c end
     | None => (LoadConfig path w).1
     end, w).
Proof.
  intros Hf Hp. unfold LoadConfig, config_at. rewrite Hp. unfold mbind, M_bind, lift, try, os_ReadFile. rewrite syscall_ok by done.
  destruct (fs w !! p) as [[data m t|]|]; simpl; [|done..]. unfold wrap, map_err. simpl. by destruct (yaml_Unmarshal data).
Qed.
Lemma saveToken_stores path name url token setDefault s s' :
  faults (cl_host s) = [] -> saveToken path name url token setDefault s = (Ok tt, s') ->
  ∃ p old data m t, config_path path = Ok p ∧ config_at (cl_host s) p = Some old ∧
    yaml_Marshal (set_context old name {| URL := url; Token := token |} setDefault) = Ok data ∧
    fs (cl_host s') !! p = Some (File data m t) ∧ faults (cl_host s') = [].
Proof.
  intros Hf E. unfold saveToken in E. apply bind_try_inv in E as (r & s1 & El & E).
  destruct (config_path path) as [p|e] eqn:Hp.
  2: { exfalso. unfold on_host, LoadConfig in El. rewrite Hp in El. simpl in El. simplify_eq.
       assert (os_IsNotExist e = false) as He by (unfold config_path in Hp; repeat case_match; by simplify_eq).
       rewrite He in E. done. }
  unfold on_host in El. rewrite (LoadConfig_at path p) in El by done. simplify_eq/=.
  assert (∃ old, config_at (cl_host s) p = Some old ∧
    (wrap "failed to save config" (on_host (SaveConfig path (set_context old name {| URL := url; Token := token |} setDefault)));;
     (Print ("Successfully configured context '" +:+ name +:+ "'" +:+ nl);;
      Print ("  Server URL: " +:+ url +:+ nl);; if setDefault then Print ("  Set as default context" +:+ nl) else mret tt))
      (Client (cl_host s) (cl_remote s) (cl_out s)) = (Ok tt, s')) as (old & Hold & E').
  { destruct (config_at (cl_host s) p) as [c|] eqn:Ec; [exists c; split; [done|]|].
    - destruct (fs (cl_host s) !! p) eqn:Efs; [exact E|]. unfold config_at in Ec. rewrite Efs in Ec. simplify_eq. exact E.
    - exfalso. unfold config_at in Ec. unfold LoadConfig in E. rewrite Hp in E.
      unfold mbind, M_bind, lift, try, os_ReadFile in E. rewrite syscall_ok in E by done.
      destruct (fs (cl_host s) !! p) as [[data m t|]|]; simpl in E; [|done..]. unfold wrap, map_err in E. simpl in E.
      by destruct (yaml_Unmarshal data). }
  apply bind_wrap_Ok in E' as ([] & s2 & Es & E'). unfold on_host in Es. simpl in Es.
  destruct (SaveConfig _ _ _) as [r w2] eqn:Ew. simplify_eq. unfold SaveConfig in Ew. rewrite Hp in Ew.
  apply bind_lift_Ok in Ew as (? & [= <-] & Ew). apply bind_wrap_lift_Ok in Ew as (data & Hd & Ew). apply wrap_Ok_inv in Ew.
  apply WriteFile_run in Ew as [(m & t & Hfile) Hf2]; [|done].
  assert (cl_host s' = w2) as ->
    by (destruct setDefault; revert E'; unfold mbind, M_bind, Print, put_printed, modify, mret, M_ret; simpl; by intros [= <-]).
  by exists p, old, data, m, t.
Qed.

(** The client that the other commands make of a stored context. *)
Lemma PreRun_finds path p cfg data m t command contextName ctx s :
  config_path path = Ok p -> fs (cl_host s) !! p = Some (File data m t) -> faults (cl_host s) = [] -> yaml_Unmarshal data = Ok cfg ->
  GetContext cfg contextName = Ok ctx -> command <> "login" -> command <> "version" ->
  PersistentPreRunE command path contextName s = (Ok (Some (NewClient ctx)), s).
Proof.
  intros Hp Hfs Hf Hd Hc Hl Hv. unfold PersistentPreRunE.
  rewrite (proj2 (String.eqb_neq _ _) Hl), (proj2 (String.eqb_neq _ _) Hv). simpl.
  unfold mbind, M_bind, wrap, map_err, on_host. rewrite (LoadConfig_at path p), Hfs by done.
  unfold config_at. rewrite Hfs, Hd. simpl. rewrite Hc. simpl. by destruct s.
Qed.
Lemma GetContext_named cfg name ctx :
  default ∅ (Contexts cfg) !! name = Some ctx -> name <> "" -> URL ctx <> "" -> Token ctx <> "" -> GetContext cfg name = Ok ctx.
Proof.
  intros Hn Hne Hu Ht. unfold GetContext. rewrite (proj2 (String.eqb_neq name "") Hne), andb_false_r, Hn.
  by rewrite (proj2 (String.eqb_neq _ _) Hu), (proj2 (String.eqb_neq _ _) Ht).
Qed.
End LoginTheory.

(** C33. A login always comes to an end: when the interval and the lifetime that
    the server answers are positive and within two thousand million seconds, the
    loop of polls ends after at most one poll more than the intervals that fit
    into the lifetime, however the server answers, also when it asks to slow down
    over and over; the interval never overflows. *)
Theorem login_polls_end `{Network R, CliEnv, Decode DeviceCodeResponse, JSON DeviceTokenResponse, JSON oauth2Error}
  (url : string) (c : DeviceCodeResponse) (fuel : nat) (s : client R)
  (Hinterval : 0 < Interval c <= 2 ^ 31) (Hexpires : 0 <= ExpiresIn c <= 2 ^ 31) (Hfuel : ExpiresIn c / Interval c < Z.of_nat fuel) :
  ∃ v s', poll_loop fuel url (dcr_DeviceCode c) (wrap64 (Interval c * second_ns)) (clock_ns s + wrap64 (ExpiresIn c * second_ns)) s = (Ok (Some v), s').
Proof.
  unfold second_ns. rewrite !wrap64_small by (unfold in_int64; lia).
  apply (poll_loop_ends _ _ _ (clock_ns s) (Interval c * 10 ^ 9)); try lia.
  pose proof (Z.mul_succ_div_gt (ExpiresIn c) (Interval c) ltac:(lia)). nia.
Qed.

(** C11. A login that succeeds on a host whose disk does not fail leaves a context
    that the other commands find: its URL is the one given, its token the one
    given or else one that the server answered with status 200 to a poll for the
    device code; every command with that context then gets a client with exactly
    this URL and token, and so does every command without a context when it was
    made the default; every other context is as it was. *)
Theorem login_found_by_commands `{Network R, CliEnvLaws, Decode DeviceCodeResponse, JSON DeviceTokenResponse, JSON oauth2Error}
  (fuel : nat) (path name url token scopes : string) (days : Z) (setDefault : bool) (s s' : client R)
  (Hdisk : faults (cl_host s) = []) (Hname : name <> "") (Hurl : url <> "")
  (Hlogin : login fuel path name url token scopes days setDefault s = (Ok (Some tt), s')) :
  ∃ tok p old cfg, (token <> "" -> tok = token) ∧ (token = "" -> ∃ code, granted url code tok) ∧
    config_path path = Ok p ∧ config_at (cl_host s) p = Some old ∧ config_at (cl_host s') p = Some cfg ∧
    (∀ other, other <> name -> default ∅ (Contexts cfg) !! other = default ∅ (Contexts old) !! other) ∧
    ∀ command contextName, command <> "login" -> command <> "version" -> tok <> "" ->
      contextName = name \/ (contextName = "" ∧ setDefault = true) ->
      PersistentPreRunE command path contextName s' = (Ok (Some {| api_URL := url; api_Token := tok |}), s').
Proof.
  assert (∃ tok s1, same_files s s1 ∧ saveToken path name url tok setDefault s1 = (Ok tt, s') ∧ (token <> "" -> tok = token) ∧
    (token = "" -> ∃ code, granted url code tok)) as (tok & s1 & [Hfs Hf1] & Hsave & Htok & Hgr).
  { unfold login in Hlogin. destruct (String.eqb_spec token "") as [->|Hne]; simpl in Hlogin.
    - unfold Println in Hlogin. apply bind_inv_Ok in Hlogin as ([] & s1 & E1 & Hlogin). apply keeps_print in E1 as [Hk1 _].
      rewrite (bind_Ok _ _ _ _ _ (now_run s1)) in Hlogin. unfold oauth2DeviceFlow in Hlogin.
      apply bind_inv_Ok in Hlogin as (c & s2 & E2 & Hlogin). apply keeps_device_code in E2 as [Hk2 _].
      apply bind_inv_Ok in Hlogin as ([] & s3 & E3 & Hlogin). assert (same_files s2 s3) as Hk3.
      { eapply (keeps_forM (R:=same_files)); [|exact E3]. intros. apply keeps_print. }
      rewrite (bind_Ok _ _ _ _ _ (now_run s3)) in Hlogin. apply bind_inv_Ok in Hlogin as (v & s4 & E4 & Hlogin).
      destruct v as [[tok|e]|]; [|done..]. pose proof (poll_loop_granted _ _ _ _ _ _ _ _ E4) as Hg. apply keeps_poll_loop in E4 as [Hk4 _].
      apply bind_inv_Ok in Hlogin as ([] & s5 & E5 & Hlogin). apply keeps_print in E5 as [Hk5 _].
      apply bind_inv_Ok in Hlogin as ([] & s6 & E6 & Hlogin). apply keeps_print in E6 as [Hk6 _].
      apply bind_inv_Ok in Hlogin as ([] & s7 & E7 & Hlogin). apply ret_inv in Hlogin as [_ ->].
      exists tok, s6. split; [by repeat (etrans; [eassumption|])|]. split; [exact E7|]. split; [congruence|eauto].
    - apply bind_inv_Ok in Hlogin as ([] & s1 & E1 & Hlogin). apply ret_inv in Hlogin as [_ ->]. by exists token, s. }
  apply saveToken_stores in Hsave as (p & old & data & m & t & Hp & Hold & Hd & Hfile & Hf'); [|congruence].
  set (cfg := set_context old name {| URL := url; Token := tok |} setDefault) in *. pose proof (yaml_roundtrip _ _ Hd) as Hy.
  assert (default ∅ (Contexts cfg) !! name = Some {| URL := url; Token := tok |}) as Hnamed by apply lookup_insert_eq.
  exists tok, p, old, cfg. split_and!; try done.
  - unfold config_at in *. by rewrite <-Hfs.
  - unfold config_at. by rewrite Hfile, Hy.
  - intros other Ho. unfold cfg, set_context. simpl. by rewrite lookup_insert_ne.
  - intros command contextName Hl Hv Ht Hctx. apply (PreRun_finds path p cfg data m t command contextName {| URL := url; Token := tok |}); try done.
    pose proof (GetContext_named cfg name _ Hnamed Hname Hurl Ht) as Hget.
    destruct Hctx as [->|[-> Hdef]]; [exact Hget|]. rewrite <-Hget. unfold GetContext, cfg, set_context. rewrite Hdef. simpl.
    by rewrite (proj2 (String.eqb_neq name "") Hname).
Qed.
