(* ===== verification/CliConfigs.v ===== *)
(** cli/subcommands/configs: the commands on configurations (cmd.go, show.go,
    log.go, applied.go, groups.go, set.go, updates.go), and the table of
    cli/subcommands/tablewriter.go. *)
From S2P Require Import Prelude GoStrings Bytes GoPath Schema World BaseFs Crypto Encoding Models Tar Configs Updates FsHandles Tuf TufFs ApiStorage ApiUpdate Http Scopes Users Auth UiApi Gateway WebPages CliApi.

(** ** Tables *)

(** strings.Repeat of a space, which panics on a negative count. *)
Fixpoint spaces (n : nat) : string := match n with O => "" | S n' => String " " (spaces n') end.
Definition Repeat_space (n : Z) : result string :=
  if n <? 0 then Err (ErrPanic "strings: negative Repeat count") else Ok (spaces (Z.to_nat n)).
Definition cell_lines (cell : string) : list string := Split cell (byte 10).
Definition cell_width (w : Z) (cell : string) : Z := foldl (λ w l, Z.max w (len l)) w (cell_lines cell).
(** The width of a column over all rows; cells beyond the headers are left out. *)
Fixpoint col_widths (headers : list Z) (row : list string) : list Z :=
  match headers, row with
  | w :: ws, cell :: row' => cell_width w cell :: col_widths ws row'
  | ws, _ => ws
  end.
Definition table_widths (headers : list string) (rows : list (list string)) : list Z :=
  foldl col_widths (len <$> headers) rows.
(** One line: every column but the last is padded to its width and two more. *)
Fixpoint table_line (widths : list Z) (cells : list string) : result string :=
  match widths with
  | [] => Ok ""
  | w :: ws =>
      let content := default "" (head cells) in
      match ws with
      | [] => Ok content
      | _ => padding ← Repeat_space (w - len content + 2);
             rest ← table_line ws (tail cells);
             Ok (content +:+ padding +:+ rest)
      end
  end.
(** The lines of a row: as many as the cell with the most. *)
Definition row_lines (row : list string) : list (list string) :=
  let cells := cell_lines <$> row in
  (λ n, (λ ls : list string, default "" (ls !! n)) <$> cells) <$> seq 0 (list_max (length <$> cells)).
Definition Render {R} (headers : list string) (rows : list (list string)) : C R unit :=
  match headers with
  | [] => mret tt
  | _ =>
      let widths := table_widths headers rows in
      forM (headers :: flat_map row_lines rows) (λ cells, line ← lift (table_line widths cells); Println line)
  end.

(** ** Texts of values *)

(** [%v] of a slice of texts. *)
Definition slice_text (l : list string) : string := "[" +:+ Join l " " +:+ "]".
Definition tab : string := str1 (byte 9).
(** time.Unix(...).UTC().Format(time.RFC3339). *)
Definition formatTimestamp `{TimeFormat} (timestamp : Z) : string := rfc3339_utc (timestamp * 1000).

(** The configurations that the flags of a command name. *)
Definition getSpecificApi (device group : string) : SpecificConfigsApi :=
  if 0 <? len device then Configs_Device device else if 0 <? len group then Configs_Group group else Configs_Factory.

(** ** Libraries *)

(** foundriesio/go-ecies for the key of a device, with what it draws from the
    random source; encoding/base64. *)
Class Ecies := { ecies_Encrypt : cert_key -> string -> string -> result string; base64_Std : string -> string }.
(** pelletier/go-toml: a tree of keys. *)
Class TomlTree := {
  toml_tree : Type;
  toml_Load : string -> result toml_tree;
  toml_Has : toml_tree -> string -> bool;
  toml_Delete : toml_tree -> string -> result toml_tree;
  toml_Set : toml_tree -> string -> string -> toml_tree;
  ToTomlString : toml_tree -> result string
}.

(** ** configs set *)

(** [name=content] or [name==/path/to/file]. *)
Inductive file_source := Content (s : string) | FromPath (p : string).
Definition file_arg (keyval : string) : result (string * file_source) :=
  match Cut keyval "=" with
  | None => Err (ErrMsg ("invalid file=content argument: " +:+ keyval))
  | Some (name, String "=" path) => Ok (name, FromPath path)
  | Some (name, content) => Ok (name, Content content)
  end.
(** The new files win; those of the server are kept.  Writing to a nil map panics. *)
Definition merge_existing (mine existing : option (gmap string ConfigFile)) : result (option (gmap string ConfigFile)) :=
  match mine with
  | Some m => Ok (Some (m ∪ default ∅ existing))
  | None => if bool_decide (default ∅ existing = ∅) then Ok None else Err (ErrPanic "assignment to entry in nil map")
  end.
(** What a PUT sends: the server sets the rest. *)
Definition put_set (reason : string) (files : option (gmap string ConfigFile)) : config_set :=
  {| cs_CreatedAt := 0; cs_CreatedBy := ""; cs_Reason := reason; cs_Files := files |}.

(** ** configs updates *)

Definition sotaOverrideOnChanged : string := "/usr/share/fioconfig/handlers/aktualizr-toml-update".
(** [^[a-zA-Z0-9-_,]+$] and [^[a-zA-Z0-9_\-\.\+]+$] *)
Definition reAppsPattern (s : string) : bool := non_empty s && str_all (λ c, is_alnum c || one_of "-_," c) s.
Definition reTagPattern (s : string) : bool := non_empty s && str_all (λ c, is_alnum c || one_of "_-.+" c) s.
(** The first test looks at the length of the text "tag", not of the flag. *)
Definition validateUpdatesArgs (apps tag : string) : result (string * string) :=
  let apps := TrimSpace apps in
  let tag := TrimSpace tag in
  if (len apps =? 0) && (len "tag" =? 0) then Err (ErrMsg "either apps or tag must be specified")
  else if (0 <? len apps) && negb (reAppsPattern apps)
  then Err (ErrMsg ("invalid value for apps: " +:+ apps +:+ "; must be ^[a-zA-Z0-9-_,]+$"))
  else if (0 <? len tag) && negb (reTagPattern tag)
  then Err (ErrMsg ("invalid value for tag: " +:+ tag +:+ "; must be ^[a-zA-Z0-9_\-\.\+]+$"))
  else Ok (apps, tag).

Section Sota.
Context `{TomlTree}.
Definition unset_key (sota : toml_tree) (key : string) : result toml_tree := if toml_Has sota key then toml_Delete sota key else Ok sota.
Definition set_apps (sota : toml_tree) (apps : string) : result toml_tree :=
  if String.eqb apps "" then Ok sota
  else if String.eqb apps "-" then unset_key sota "pacman.compose_apps"
  else Ok (toml_Set sota "pacman.compose_apps" (if String.eqb apps "," then "" else apps)).
Definition set_tag (sota : toml_tree) (tag : string) : result toml_tree :=
  if String.eqb tag "" then Ok sota
  else if String.eqb tag "-" then unset_key sota "pacman.tags"
  else Ok (toml_Set sota "pacman.tags" tag).
(** The override file after the change. *)
Definition sota_content (old apps tag : string) : result string :=
  sota ← toml_Load old; sota ← set_apps sota apps; sota ← set_tag sota tag; ToTomlString sota.
End Sota.

Section Commands.
Context `{Network R, TimeFormat, CertCodec, CertKeys, Ecies, TomlTree}.
Context `{Decode (list string), Decode config_set, Decode (list config_set), Decode AppliedConfigs, Decode ApiDevice}.
Context `{JSON config_set, JSON (option (gmap string ConfigFile))}.
Context (a : Api).

Definition printConfigsInfo (cfg : config_set) : C R unit :=
  Println ("Reason: " +:+ cs_Reason cfg);;
  Println ("Created At: " +:+ formatTimestamp (cs_CreatedAt cfg));;
  Println ("Created By: " +:+ cs_CreatedBy cfg).
Definition printConfigs (cfg : gmap string ConfigFile) : C R unit :=
  Println "Files:";;
  forM (map_to_list cfg) (λ kv : string * ConfigFile,
    (match OnChanged kv.2 with
     | [] => Println (tab +:+ kv.1)
     | l => Println (tab +:+ kv.1 +:+ " - " +:+ slice_text l)
     end);;
    if Unencrypted kv.2 then forM (Split (cf_Value kv.2) (byte 10)) (λ line, Println (tab +:+ " | " +:+ line)) else mret tt).
Definition no_configs : string := "No configuration has been created yet.".
Definition showConfigs (capi : SpecificConfigsApi) : C R unit :=
  cfg ← Configs_Get a capi;
  let files := default ∅ (cs_Files cfg) in
  if (cs_CreatedAt cfg =? 0) && (Z.of_nat (size files) =? 0) then Println no_configs
  else printConfigsInfo cfg;; printConfigs files.
Definition showConfigsHistory (capi : SpecificConfigsApi) (limit : Z) (showFiles : bool) : C R unit :=
  history ← Configs_GetHistory a capi limit showFiles;
  match history with
  | [] => Println no_configs
  | _ => forM (imap (λ idx cfg, (idx, cfg)) history) (λ ic : nat * config_set,
      (if (0 <? ic.1)%nat then Print (nl +:+ "----" +:+ nl +:+ nl) else mret tt);;
      printConfigsInfo ic.2;;
      if showFiles then printConfigs (default ∅ (cs_Files ic.2)) else mret tt)
  end.
Definition audit_msg (s : string) : string := if 0 <? len s then ": " +:+ s else s.
Definition printAuditFields (cfg : AppliedConfigs) : C R unit :=
  let audit i := nth i (AuditTrail cfg) no_audit in
  let line title (f : AuditFields) :=
    if 0 <? af_CreatedAt f
    then Println (tab +:+ title +:+ " created by " +:+ af_CreatedBy f +:+ " at " +:+ formatTimestamp (af_CreatedAt f) +:+ audit_msg (af_Reason f))
    else mret tt in
  Println "Generated by auto-merging the following configs:";;
  line "Global config" (audit 0%nat);;
  line ("Group config from " +:+ Auxiliary (audit 1%nat)) (audit 1%nat);;
  line "Device config" (audit 2%nat).
Definition getDeviceApplied (uuid : string) : C R unit :=
  cfg ← Configs_GetApplied a (Configs_Device uuid);
  if AppliedAt cfg =? 0 then Println "No configuration has been applied to this device yet."
  else Println ("Applied at: " +:+ formatTimestamp (AppliedAt cfg));; printAuditFields cfg;; printConfigs (ac_Files cfg).
Definition showGroups : C R unit := groups ← Configs_ListGroups a; forM groups Println.

(** *** configs set *)

Definition getEcies (uuid : string) : C R cert_key :=
  certBytes ← Configs_GetCert a uuid;
  if len certBytes =? 0 then fail (ErrMsg "device did not provide its certificate") else
  cert ← lift (PemBytesToCertificate certBytes);
  match cert_public_key cert with
  | KeyOther _ => fail (ErrMsg "device certificate does not contain a supported ECDSA public key")
  | key => mret key
  end.
(** Without [raw], the arguments in turn: a later one for the same name wins. *)
Fixpoint files_of_args (encrypt : bool) (args : list string) (files : gmap string ConfigFile) : C R (gmap string ConfigFile) :=
  match args with
  | [] => mret files
  | keyval :: args' =>
      arg ← lift (file_arg keyval);
      content ← match arg.2 with Content s => mret s | FromPath p => on_host (os_ReadFile (Clean p)) end;
      files_of_args encrypt args' (<[arg.1 := {| cf_Value := content; Unencrypted := negb encrypt; OnChanged := [] |}]> files)
  end.
Definition encrypt_file (pubkey : cert_key) (kv : string * ConfigFile) : C R (string * ConfigFile) :=
  let '(name, file) := kv in
  if Unencrypted file then mret (name, file) else
  random ← on_host rand_text;
  enc ← lift (ecies_Encrypt pubkey random (cf_Value file));
  mret (name, {| cf_Value := base64_Std enc; Unencrypted := false; OnChanged := OnChanged file |}).
Definition encrypt_files (capi : SpecificConfigsApi) (files : option (gmap string ConfigFile)) : C R (option (gmap string ConfigFile)) :=
  match sc_uuid capi with
  | None => fail (ErrMsg "--encrypt/-e can only be used with --device/-d")
  | Some uuid =>
      pubkey ← getEcies uuid;
      match files with
      | None => mret None
      | Some m => l ← mapM_M (encrypt_file pubkey) (map_to_list m); mret (Some (list_to_map l))
      end
  end.
Definition setConfigs (capi : SpecificConfigsApi) (stdin : stream) (files : list string) (encrypt raw replace : bool) (reason : string) : C R unit :=
  mine ← (if raw then
            match files with
            | [path] =>
                data ← (if String.eqb path "-" then lift (ReadAll stdin) else on_host (os_ReadFile (Clean path)));
                lift (json_Unmarshal data)
            | _ => fail (ErrMsg "raw file only accepts one file argument")
            end
          else m ← files_of_args encrypt files ∅; mret (Some m));
  mine ← (if encrypt then encrypt_files capi mine else mret mine);
  mine ← (if replace then mret mine else existing ← Configs_Get a capi; lift (merge_existing mine (cs_Files existing)));
  Configs_Put a capi (put_set reason mine).

(** *** configs updates *)

Definition setUpdates (capi : SpecificConfigsApi) (apps tag reason : string) : C R unit :=
  cfg ← Configs_Get a capi;
  let files := default ∅ (cs_Files cfg) in
  let old := match files !! ConfigSotaOverride with Some f => cf_Value f | None => "" end in
  new ← lift (sota_content old apps tag);
  if String.eqb new old then Println "No changes found." else
  Configs_Put a capi
    (put_set reason (Some (<[ConfigSotaOverride := {| cf_Value := new; Unencrypted := true; OnChanged := [sotaOverrideOnChanged] |}]> files))).
Definition configs_updates (device group apps tag reason : string) : C R unit :=
  args ← lift (validateUpdatesArgs apps tag);
  setUpdates (getSpecificApi device group) args.1 args.2 reason.
End Commands.
