(* ===== verification/CliShow.v ===== *)
(** cli/subcommands/devices, cli/subcommands/updates (but for uploads) and
    cli/subcommands/pki: the commands on devices, updates and certificates. *)
From S2P Require Import Prelude GoStrings Bytes GoPath Schema World BaseFs Crypto Encoding Models Tar Configs Updates FsHandles Tuf TufFs ApiStorage ApiUpdate Http Scopes Users Auth UiApi Gateway WebPages CliApi CliConfigs.

(** [time.Unix(t, 0).Format("2006-01-02 15:04:05")] and RFC 3339 in the zone of
    the host; a device time reformatted; the expiry of a certificate; a decoded
    JSON object printed with indentation. *)
Class CliTimes := {
  local_text : Z -> string;
  event_text : string -> option string;
  cert_text : Z -> string;
  object_indent : gmap string json_any -> result string;
  tuf_indent : gmap string (gmap string json_any) -> result string
}.

(** ** Streams of server-sent events (updates/tail.go) *)

Definition CutPrefix (s p : string) : option string := if HasPrefix s p then Some (TrimPrefix s p) else None.
(** The lines of a stream as bufio.Scanner yields them, and the error it ends with. *)
Definition scan_stream (st : stream) : list (result string) :=
  scan_lines st.1 ++ (match st.2 with
                      | Some err => if existsb (λ l, negb (is_Ok l)) (scan_lines st.1) then [] else [Err err]
                      | None => []
                      end).
(** What a line does to the event being read, and what is printed. *)
Record event_state := { eventType : string; event_data : string }.
Definition no_event : event_state := {| eventType := ""; event_data := "" |}.
Definition tail_line (ev : event_state) (line : string) : event_state * list printed :=
  if String.eqb line "" then
    (no_event,
     if String.eqb (eventType ev) "log" && negb (String.eqb (event_data ev) "") then [Out (event_data ev +:+ nl)]
     else if String.eqb (eventType ev) "error" && negb (String.eqb (event_data ev) "")
          then [ErrOut ("ERROR: " +:+ event_data ev +:+ nl)] else [])
  else match CutPrefix line "event: " with
       | Some after => ({| eventType := after; event_data := event_data ev |}, [])
       | None => match CutPrefix line "data: " with
                 | Some after => ({| eventType := eventType ev; event_data := after |}, [])
                 | None => (ev, [])
                 end
       end.
(** What is printed for the lines, and the error that ends them. *)
Fixpoint tail_lines (ev : event_state) (lines : list (result string)) : list printed * option error :=
  match lines with
  | [] => ([], None)
  | Err err :: _ => ([], Some (ErrWrap "error reading stream" err))
  | Ok line :: lines' =>
      let '(ev, out) := tail_line ev line in
      let '(outs, err) := tail_lines ev lines' in
      (out ++ outs, err)
  end.

(** ** Devices *)

Definition allColumns : list string := ["uuid"; "name"; "group"; "target"; "last-seen"; "created-at"; "tag"; "labels"].
Definition defaultPageLimit : Z := 50.
Definition validSortValues : list string :=
  ["name-asc"; "name-desc"; "created-at-asc"; "created-at-desc"; "last-seen-asc"; "last-seen-desc"; "uuid-asc"; "uuid-desc"].
Definition validateSortBy (sortBy : string) : result unit :=
  if String.eqb sortBy "" || bool_decide (sortBy ∈ validSortValues) then Ok tt
  else Err (ErrMsg ("invalid sort value: " +:+ sortBy +:+ " (valid: " +:+ Join validSortValues ", " +:+ ")")).
Definition validateColumns (columnsStr : string) : result (list string) :=
  let columns := Split columnsStr "," in
  match find (λ col, negb (bool_decide (col ∈ allColumns))) columns with
  | Some col => Err (ErrMsg ("invalid column: " +:+ col))
  | None => Ok columns
  end.
(** [strings.ToUpper] of the name of a column, with spaces for hyphens. *)
Definition upper_char (c : ascii) : ascii := if is_lower c then ascii_of_nat (nat_of_ascii c - 32) else c.
Fixpoint ToUpper (s : string) : string := match s with "" => "" | String c s' => String (upper_char c) (ToUpper s') end.
Definition column_header (col : string) : string := ToUpper (ReplaceAll_char "-" " " col).
Definition configuredTriggers (cfg : config_set) : list string :=
  let value := match default ∅ (cs_Files cfg) !! "fio-remote-actions" with Some f => cf_Value f | None => "" end in
  filter (λ action, action <> "") (TrimSpace <$> Split value ",").
Definition trigger_file (action commandId : string) : ConfigFile :=
  {| cf_Value := "COMMAND_ID=" +:+ commandId +:+ nl +:+ "COMMAND_CAPTURE=1" +:+ nl; Unencrypted := true;
     OnChanged := ["/usr/share/fioconfig/handlers/fioconfig-oneshot"; action] |}.
Definition idLen : Z := 15.
Definition maxActionLen : Z := 48 - idLen - 1.
(** [rand.Text()[:idLen]]; rand.Text has at least 26 characters. *)
Definition command_id (action random : string) : result string := id ← slice random 0 idLen; Ok (action +:+ "_" +:+ id).

Section Devices.
Context `{CliTimes}.
Definition getColumnValue (device : DeviceListItem) (column : string) : string :=
  let date t := if 0 <? t then local_text t else "-" in
  let label k := match li_Labels device !! k with Some v => v | None => "-" end in
  if String.eqb column "uuid" then li_Uuid device
  else if String.eqb column "target" then li_Target device
  else if String.eqb column "last-seen" then date (li_LastSeen device)
  else if String.eqb column "created-at" then date (li_CreatedAt device)
  else if String.eqb column "group" then label "group"
  else if String.eqb column "name" then label "name"
  else if String.eqb column "tag" then li_Tag device
  else if String.eqb column "labels" then Join ((λ kv : string * string, kv.1 +:+ "=" +:+ kv.2) <$> map_to_list (li_Labels device)) nl
  else "".

Context `{Network R, Urls, JSON (gmap string json_any)}.
Context `{Decode (list string), Decode (list DeviceListItem), Decode ApiDevice, Decode (list DeviceUpdateEvent)}.
Context `{Decode (list TargetTest), Decode TargetTest, Decode config_set, JSON config_set}.
Context (a : Api).

Definition listDevices (columns : list string) (page : Z) (sortBy : string) : C R unit :=
  '(devices, hasMore, totalPages) ← ListPage a page defaultPageLimit sortBy;
  Render (column_header <$> columns) ((λ device, getColumnValue device <$> columns) <$> devices);;
  if hasMore : bool
  then Print (nl +:+ "A total of " +:+ Itoa totalPages +:+ " pages of devices available. Use '--page " +:+ Itoa (wrap64 (page + 1)) +:+
              "' for the next page." +:+ nl)
  else mret tt.
Definition devices_list (columnsStr sortBy : string) (page : Z) : C R unit :=
  columns ← lift (validateColumns columnsStr);
  lift (validateSortBy sortBy);;
  listDevices columns page sortBy.
Definition listDeniedDevices : C R unit := uuids ← Devices_ListDenied a; forM uuids Println.
Definition print_lines (prefix text : string) : C R unit := forM (Split text (byte 10)) (λ line, Println (prefix +:+ line)).
Definition when_text (s : string) (m : C R unit) : C R unit := if String.eqb s "" then mret tt else m.
(** A block with a title, an empty line before it. *)
Definition titled (title : string) (m : C R unit) : C R unit := Println (nl +:+ title);; m.
Definition print_hwinfo (text : string) : C R unit :=
  match json_Unmarshal (A:=gmap string json_any) text with
  | Err _ => Println "  (invalid hwinfo data):";; Println ("   " +:+ text)
  | Ok hwinfo => s ← lift (object_indent hwinfo); Println ("  " +:+ s)
  end.
Definition status_text (st : DeviceStatus) : string :=
  Status st +:+ "; " +:+ st_DeviceTime st +:+ (if 0 <? len (st_TargetName st) then "; " +:+ st_TargetName st else "").
Definition showDevice (uuid : string) (aktoml hwinfo : bool) : C R unit :=
  device ← Devices_Get a uuid;
  let item := ad_item device in
  Println ("UUID:         " +:+ li_Uuid item);;
  Println ("Target:       " +:+ li_Target item);;
  Println ("Tag:          " +:+ li_Tag item);;
  (match ad_Status device with None => mret tt | Some st => Println ("Status:       " +:+ status_text st) end);;
  (if 0 <? li_CreatedAt item then Println ("Created At:   " +:+ local_text (li_CreatedAt item)) else mret tt);;
  (if 0 <? li_LastSeen item then Println ("Last Seen:    " +:+ local_text (li_LastSeen item)) else mret tt);;
  when_text (ad_UpdateName device) (Println ("Update Name:  " +:+ ad_UpdateName device));;
  when_text (ad_OstreeHash device) (Println ("OSTree Hash:  " +:+ ad_OstreeHash device));;
  (match ad_Apps device with [] => mret tt | apps => Println ("Apps:         " +:+ Join apps ", ") end);;
  (if bool_decide (li_Labels item = ∅) then mret tt
   else titled "Labels:" (forM (map_to_list (li_Labels item)) (λ kv : string * string, Println ("  " +:+ kv.1 +:+ ": " +:+ kv.2))));;
  when_text (NetInfo device) (titled "Network Info:" (Println ("  " +:+ NetInfo device)));;
  when_text (ad_Cert device) (titled "Certificate:" (print_lines "  " (ad_Cert device)));;
  (if aktoml then when_text (Aktoml device) (titled "Aktoml:" (print_lines " | " (Aktoml device))) else mret tt);;
  if hwinfo then when_text (HwInfo device) (titled "Hardware Info:" (print_hwinfo (HwInfo device))) else mret tt.

Definition listTests (uuid : string) : C R unit :=
  tests ← Devices_Tests a uuid;
  match tests with
  | [] => Println "No tests found for this device"
  | _ => Render ["NAME"; "STATUS"; "ID"; "CREATED"]
           ((λ test, [tt_Name test; tt_Status test; tt_Uuid test; local_text (CreatedOn test)]) <$> tests)
  end.
Definition showTest (uuid testId : string) : C R unit :=
  test ← Devices_Test a uuid testId;
  Println ("Name:      " +:+ tt_Name test);;
  Println ("Status:    " +:+ tt_Status test);;
  Println ("Id:        " +:+ tt_Uuid test);;
  Println ("Created:   " +:+ local_text (CreatedOn test));;
  (match CompletedOn test with None => mret tt | Some t => Println ("Completed: " +:+ local_text t) end);;
  when_text (tt_Details test) (titled "Details:" (print_lines "  | " (tt_Details test)));;
  (match Results test with
   | [] => mret tt
   | results => titled "Results:" (Render ["NAME"; "STATUS"] ((λ r, [tr_Name r; tr_Status r]) <$> results))
   end);;
  match Artifacts test with
  | [] => mret tt
  | artifacts => titled "Artifacts:" (forM artifacts (λ artifact, Println (tab +:+ artifact)))
  end.
(** The artifact is copied to the output as far as it comes. *)
Definition copy_body (resp : http_response) : C R unit :=
  Print (hr_Body resp).1;; match (hr_Body resp).2 with None => mret tt | Some err => fail err end.
Definition showTestArtifact (uuid testId artifact : string) : C R unit :=
  resp ← Devices_TestArtifact a uuid testId artifact;
  copy_body resp;;
  match hr_CloseErr resp with
  | None => mret tt
  | Some err => Eprint ("warning: failed to close response body: " +:+ Error err +:+ nl)
  end.

Definition listTriggers (uuid : string) : C R unit :=
  cfg ← Configs_Get a (Configs_Device uuid);
  match configuredTriggers cfg with
  | [] => Println "Remote actions are not configured for this device"
  | actions => Println "Available actions:";; forM actions (λ action, Println ("* " +:+ action))
  end.
Definition runTrigger (uuid action reason : string) : C R unit :=
  cfg ← Configs_Get a (Configs_Device uuid);
  let allowed := configuredTriggers cfg in
  if negb (bool_decide (action ∈ allowed))
  then fail (ErrMsg ("invalid action: " +:+ action +:+ ". Allowed actions are: " +:+ slice_text allowed)) else
  if maxActionLen <? len action
  then fail (ErrMsg ("action name (" +:+ action +:+ ") too long; maximum length is " +:+ Itoa maxActionLen)) else
  random ← on_host rand_text;
  commandId ← lift (command_id action random);
  if negb (TestIdRegex commandId)
  then fail (ErrMsg "action name must contain only ASCII letters, digits, hyphens, and underscores") else
  files ← match cs_Files cfg with Some m => mret m | None => fail (ErrPanic "assignment to entry in nil map") end;
  Configs_Put a (Configs_Device uuid)
    (put_set reason (Some (<["fioconfig-oneshot-" +:+ action := trigger_file action commandId]> files)));;
  Println ("Config change submitted. Command ID is: " +:+ commandId);;
  Println ("Use 'fiocli devices tests " +:+ uuid +:+ " " +:+ commandId +:+ "' to check results.").

Definition device_listUpdates (uuid : string) : C R unit :=
  updates ← Devices_Updates a uuid;
  match updates with
  | [] => Println "No updates found for this device"
  | _ => Render ["UPDATE ID"] ((λ u, [u]) <$> updates)
  end.
Definition event_time (event : DeviceUpdateEvent) : string :=
  if String.eqb (DeviceTime event) "" then "-"
  else match event_text (DeviceTime event) with Some t => t | None => DeviceTime event end.
Definition event_status (event : DeviceUpdateEvent) : string :=
  match Success (Event event) with None => "" | Some true => "-> Succeeded" | Some false => "-> Failed" end.
Definition show_event (event : DeviceUpdateEvent) : C R unit :=
  Println (event_time event +:+ ": " +:+ EventTypeId (EventType event) +:+ "(" +:+ ev_TargetName (Event event) +:+ ") " +:+ event_status event);;
  if 0 <? len (Details (Event event)) then Println " Details:";; print_lines " | " (Details (Event event)) else mret tt.
Definition device_showUpdate (uuid updateId : string) : C R unit :=
  events ← Devices_UpdateEvents a uuid updateId;
  match events with
  | [] => Println ("No events found for update " +:+ updateId)
  | _ => Println ("Update: " +:+ updateId);; Println ("Device: " +:+ uuid +:+ nl);; forM events show_event
  end.
End Devices.

(** ** Updates *)

(** [signed.expires] of a role. *)
Definition tufExpires (tuf : UpdateTufResp) (file : string) : string :=
  default "unknown" (role ← tuf !! file; signed ← as_object (role !! "signed"); as_string (signed !! "expires")).
(** The first target that is an object, in the order of the iteration. *)
Definition firstTarget (tuf : UpdateTufResp) : option (string * gmap string json_any) :=
  targetsJson ← tuf !! "targets.json";
  signed ← as_object (targetsJson !! "signed");
  targets ← as_object (signed !! "targets");
  head (omap (λ kv : string * json_any, pair kv.1 <$> as_object (Some kv.2)) (map_to_list targets)).
Definition customString (custom : gmap string json_any) (field : string) : string := default "" (as_string (custom !! field)).
Definition list_values (custom : gmap string json_any) (field : string) : option (list string) :=
  (λ values : list json_any, filter (λ s, s <> "") (omap (λ v, as_string (Some v)) values)) <$> as_array (custom !! field).
Definition targetSha256 (target : gmap string json_any) : string :=
  default "" (hashes ← as_object (target !! "hashes"); as_string (hashes !! "sha256")).
Definition target_apps (custom : gmap string json_any) : gmap string string :=
  omap (λ val, app ← as_object (Some val); as_string (app !! "uri")) (default ∅ (as_object (custom !! "docker_compose_apps"))).
Definition sorted_keys {V} (m : gmap string V) : list string := sort_strings (map_to_list m).*1.

(** *** create-rollout *)

Definition rollout_names (s : string) : list string := filter (λ x, x <> "") (TrimSpace <$> Split s ",").
Definition rollout_of (uuidsStr groupsStr : string) : Rollout :=
  {| ro_CreatedAt := 0; Uuids := rollout_names uuidsStr; Groups := rollout_names groupsStr; Effect := []; Commit := false |}.

Section Updates.
Context `{CliTimes, TimeFormat, PkiCodec, Network R}.
Context `{Decode (list Update), Decode (list string), Decode UpdateSummary, Decode UpdateTufResp, Decode Rollout}.
Context `{JSON Rollout, JSON (gmap string string)}.
Context (a : Api).

Definition updates_listUpdates : C R unit :=
  allUpdates ← Updates_List a;
  Render ["NAME"; "TAG"; "UPLOADED AT"; "DEVICE COUNT"; "UPLOADED BY"]
    ((λ update, [u_Name update; u_Tag update; rfc3339 (UploadedAt update * 1000); Itoa (DeviceCount update); UploadedBy update]) <$> allUpdates).
Definition deleteUpdates (names : list string) : C R unit :=
  forM names (λ updateName,
    (if 1 <? Z.of_nat (length names) then Println ("Deleting update: " +:+ updateName) else mret tt);;
    Updates_Delete a updateName).
Definition createRollout (updateName rolloutName uuidsStr groupsStr : string) : C R unit :=
  if String.eqb uuidsStr "" && String.eqb groupsStr "" then fail (ErrMsg "at least one of --uuids or --groups must be specified")
  else Updates_CreateRollout a updateName rolloutName (rollout_of uuidsStr groupsStr).

(** The statuses of a summary, with the devices of each when asked for. *)
Definition print_status (lookup : string -> C R (list string)) (showDevices : bool) (kv : string * Z) : C R unit :=
  Println ("  " +:+ kv.1 +:+ ": " +:+ Itoa kv.2);;
  if showDevices then
    Print "    looking up devices ...";;
    devices ← try (lookup kv.1);
    match devices with
    | Err err => Print (str1 (byte 13) +:+ "Error fetching devices for status " +:+ kv.1 +:+ ": " +:+ Error err +:+ nl)
    | Ok devices => Print (str1 (byte 13));; forM devices (λ device, Println ("    " +:+ device))
    end
  else mret tt.
Definition showRolloutSummary (updateName : string) (showDevices : bool) : C R unit :=
  Println "# Rollout summary";;
  summary ← try (Updates_GetSummary a updateName);
  match summary with
  | Err err => Print ("Error fetching rollout summary: " +:+ Error err +:+ nl +:+ nl)
  | Ok summary => forM (map_to_list (us_Status summary)) (print_status (GetDevicesForStatus a updateName) showDevices);; Println ""
  end.
Definition showRollouts (updateName : string) : C R unit :=
  rollouts ← Updates_Get a updateName;
  match rollouts with
  | [] => Print ("# Rollouts: None" +:+ nl +:+ nl)
  | _ => Println "# Rollout history";; forM rollouts (λ rollout, Println ("  " +:+ rollout));; Println ""
  end.
Definition showExpires (tuf : UpdateTufResp) : C R unit :=
  Println "  Expirations:";;
  Println ("    Root:      " +:+ tufExpires tuf "root.json");;
  Println ("    Timestamp: " +:+ tufExpires tuf "timestamp.json");;
  Println ("    Snapshot:  " +:+ tufExpires tuf "snapshot.json");;
  Println ("    Targets:   " +:+ tufExpires tuf "targets.json" +:+ nl).
Definition printList (header : string) (custom : option (gmap string json_any)) (field : string) : C R unit :=
  Println ("  " +:+ header);;
  match custom with
  | None => mret tt
  | Some custom =>
      match list_values custom field with
      | None => mret tt
      | Some values => forM values (λ s, Println ("    " +:+ s));; Println ""
      end
  end.
Definition printApps (custom : option (gmap string json_any)) : C R unit :=
  let apps := target_apps (default ∅ custom) in
  match sorted_keys apps with
  | [] => Println "    None"
  | names => forM names (λ name, Println ("    " +:+ name +:+ ": " +:+ default "" (apps !! name)))
  end.
Definition showUpdate (updateName : string) (showTufDetails showDevices : bool) : C R unit :=
  tuf ← Updates_GetTuf a updateName;
  showRolloutSummary updateName showDevices;;
  showRollouts updateName;;
  Println "# TUF metadata";;
  if showTufDetails then raw ← lift (tuf_indent tuf); Println raw else
  match firstTarget tuf with
  | None => Println "No targets found in the TUF metadata"
  | Some (name, target) =>
      let custom := as_object (target !! "custom") in
      Println ("  Latest target name: " +:+ name);;
      Println ("  Version: " +:+ customString (default ∅ custom) "version");;
      Println "";;
      showExpires tuf;;
      printList "Hardware IDs:" custom "hardwareIds";;
      printList "Tags:" custom "tags";;
      Println ("  OSTree hash: " +:+ targetSha256 target);;
      Println "  Apps:";;
      printApps custom
  end.
Definition items_block (title : string) (items : list string) : C R unit :=
  match items with
  | [] => mret tt
  | _ => Println title;; forM items (λ item, Println ("  - " +:+ item));; Println ""
  end.
Definition showRollout (updateName rollout : string) (showDevices : bool) : C R unit :=
  rolloutData ← Updates_GetRollout a updateName rollout;
  Print ("Committed: " +:+ bool_text (Commit rolloutData) +:+ nl +:+ nl);;
  summary ← try (GetRolloutSummary a updateName rollout);
  match summary with
  | Err err => Print ("Error fetching rollout report: " +:+ Error err +:+ nl)
  | Ok summary =>
      Println "Summary:";;
      forM (map_to_list (us_Status summary)) (print_status (GetDevicesForRolloutStatus a updateName rollout) showDevices);;
      Println "";;
      items_block "Groups:" (Groups rolloutData);;
      items_block "Device UUIDs:" (Uuids rolloutData);;
      match Effect rolloutData with
      | [] => Println "The rollout is request is still being processed."
      | effect => Println ("Rolled out to " +:+ Itoa (Z.of_nat (length effect)) +:+ " devices:");;
                  forM effect (λ uuid, Println ("  - " +:+ uuid))
      end
  end.
Definition print_all (out : list printed) : C R unit := forM out put_printed.
(** The stream is read to its end; it is closed on every path. *)
Definition tailUpdate (updateName rollout : string) : C R unit :=
  fd ← try (if String.eqb rollout "" then Updates_Tail a updateName else TailRollout a updateName rollout);
  Println (if String.eqb rollout "" then "Tailing all rollouts for update " +:+ updateName
           else "Tailing rollout '" +:+ rollout +:+ "' for update " +:+ updateName);;
  resp ← lift fd;
  Println "Press Ctrl+C to stop...";;
  closing resp
    (let '(out, err) := tail_lines no_event (scan_stream (hr_Body resp)) in
     print_all out;;
     match err with Some err => fail err | None => mret tt end).

(** ** Certificates (pki/show.go) *)

Definition printCertSummary (cert : string * string * Z * string) : C R unit :=
  let '(subject, issuer, notAfter, serial) := cert in
  Println (tab +:+ "Serial:  " +:+ formatSerial serial);;
  Println (tab +:+ "Issuer:  " +:+ issuer);;
  Println (tab +:+ "Subject: " +:+ subject);;
  Println (tab +:+ "Expires: " +:+ cert_text notAfter);;
  Println "".
(** Every certificate of a text; [found] counts them. *)
Fixpoint cert_summaries (fuel : nat) (found : Z) (rest : string) : C R Z :=
  match fuel with
  | O => fail (ErrMsg "out of fuel")
  | S fuel =>
      match pem_next rest with
      | None => mret found
      | Some (block, rest) =>
          if negb (String.eqb (pi_Type block) "CERTIFICATE") then cert_summaries fuel found rest else
          cert ← lift (parse_cert (pi_Bytes block));
          printCertSummary cert;;
          cert_summaries fuel (found + 1) rest
      end
  end.
Definition printCertSummaries (pemBytes : string) : C R unit :=
  found ← cert_summaries (S (String.length pemBytes)) 0 pemBytes;
  if found =? 0 then fail (ErrMsg "no certificates found in PEM data") else mret tt.
Definition certTitles (name : string) : string :=
  if String.eqb name "root.crt" then "Root CA"
  else if String.eqb name "tls.crt" then "Gateway TLS Certificate"
  else if String.eqb name "device-ca.crt" then "Device CA"
  else if String.eqb name "cas.pem" then "CA Bundles" else "".
(** The names that the flags select. *)
Definition shown_certs (justRoot justTls justDeviceCa justCas : bool) : list string :=
  if justRoot then ["root.crt"] else if justTls then ["tls.crt"] else if justDeviceCa then ["device-ca.crt"]
  else if justCas then ["cas.pem"] else ["root.crt"; "tls.crt"; "device-ca.crt"; "cas.pem"].
Definition doShow (certs : list string) (raw : bool) : C R unit :=
  match certs with
  | [] => mret tt
  | _ =>
      resp ← Pki_GetCerts a certs;
      forM certs (λ name,
        Println (certTitles name +:+ ":");;
        let val := default "" (resp !! name) in
        if len val =? 0 then Println "not configured";; Println ""
        else if raw then Println val
        else printCertSummaries val)
  end.
End Updates.
