(* ===== verification/CliArchive.v ===== *)
(** Uploads of the command line client: the walk through a directory and its
    packing into a tarball (cli/subcommands/tgz.go), the source of entries that
    runs in a goroutine of its own (cli/subcommands/progress.go), and the two
    commands that upload (configs/upload.go, updates/create.go). *)
From S2P Require Import Prelude GoStrings Bytes GoPath Schema World BaseFs Crypto Encoding Models Tar Configs Updates FsHandles Tuf TufFs ApiStorage ApiUpdate Http Scopes Users Auth UiApi UiUpdates Gateway WebPages CliApi CliConfigs.

(** ** Entries *)

Inductive file_kind := ModeDir | ModeRegular | ModeOther.
#[global] Instance file_kind_eq_dec : EqDecision file_kind.
Proof. solve_decision. Defined.
Record file_info := { fi_kind : file_kind; fi_Size : Z }.
Definition info_of (n : node) : file_info :=
  match n with
  | Dir => {| fi_kind := ModeDir; fi_Size := 0 |}
  | File content _ _ => {| fi_kind := ModeRegular; fi_Size := len content |}
  end.
Record ArchiveEntry := { RealPath : string; ae_Path : string; Info : option file_info }.
(** What a skipper answers when it does not let an entry pass. *)
Inductive skip_error := SkipEntry | SkipDir | SkipFail (e : error).
Notation fileSkipper := (ArchiveEntry -> option skip_error) (only parsing).
(** What the function of [filepath.Walk] answers. *)
Inductive walk_answer := WalkOn | WalkSkipDir | WalkFail (e : error).

(** ** path/filepath.Walk *)

Section Walk.
Context {S : Type} (fn : string -> file_info -> option error -> M (S * world) walk_answer).
Definition walk_io {A} (m : IO A) : M (S * world) A := λ s, let '(r, w) := m s.2 in (r, (s.1, w)).
(** The names of a directory in their order, a walk of each. *)
Fixpoint walk_names (walk : string -> file_info -> M (S * world) walk_answer) (path : string) (names : list string) : M (S * world) walk_answer :=
  match names with
  | [] => mret WalkOn
  | name :: names' =>
      let filename := filepath_Join [path; name] in
      info ← try (walk_io (os_Stat filename));
      match info with
      | Err err =>
          r ← fn filename {| fi_kind := ModeOther; fi_Size := 0 |} (Some err);
          match r with WalkFail e => mret (WalkFail e) | _ => walk_names walk path names' end
      | Ok n =>
          r ← walk filename (info_of n);
          match r with
          | WalkOn => walk_names walk path names'
          | WalkSkipDir => if bool_decide (fi_kind (info_of n) = ModeDir) then walk_names walk path names' else mret WalkSkipDir
          | WalkFail e => mret (WalkFail e)
          end
      end
  end.
Fixpoint walk (fuel : nat) (path : string) (info : file_info) : M (S * world) walk_answer :=
  match fuel with
  | O => mret (WalkFail (ErrMsg "out of fuel"))
  | Datatypes.S fuel' =>
      if negb (bool_decide (fi_kind info = ModeDir)) then fn path info None else
      names ← try (walk_io (os_ReadDir path));
      match names with
      | Err err => fn path info (Some err)
      | Ok names =>
          r ← fn path info None;
          match r with
          | WalkOn => walk_names (walk fuel') path names
          | _ => mret r
          end
      end
  end.
(** The depth of a tree is less than the length of its longest path. *)
Definition walk_fuel (w : world) : nat := Datatypes.S (list_max (String.length <$> (map_to_list (fs w)).*1)).
Definition filepath_Walk (root : string) : M (S * world) (option error) := λ s,
  (info ← try (walk_io (os_Stat root));
   r ← match info with
       | Err err => fn root {| fi_kind := ModeOther; fi_Size := 0 |} (Some err)
       | Ok n => walk (walk_fuel s.2) root (info_of n)
       end;
   mret (match r with WalkFail e => Some e | _ => None end)) s.
End Walk.

(** ** ArchiveSourcer *)

Fixpoint run_skippers (skipper : list fileSkipper) (entry : ArchiveEntry) : option skip_error :=
  match skipper with
  | [] => None
  | skip :: skipper' => match skip entry with Some e => Some e | None => run_skippers skipper' entry end
  end.
(** The function of the walk; an entry that passes is handed out. *)
Definition source_entry (dir : string) (skipper : list fileSkipper) (path : string) (info : file_info) (err : option error)
  : M (list ArchiveEntry * world) walk_answer :=
  match err with
  | Some e => mret (WalkFail e)
  | None =>
      match filepath_Rel dir path with
      | Err e => mret (WalkFail e)
      | Ok rel =>
          if String.eqb rel "." then mret WalkOn else
          let entry := {| RealPath := path; ae_Path := rel; Info := Some info |} in
          match run_skippers skipper entry with
          | Some SkipEntry => mret WalkOn
          | Some SkipDir => mret WalkSkipDir
          | Some (SkipFail e) => mret (WalkFail e)
          | None => modify (λ s, (s.1 ++ [entry], s.2));; mret WalkOn
          end
      end
  end.
(** The entries handed out, and the error that ends them. *)
Definition ArchiveSourcer (dir : string) (skipper : list fileSkipper) : IO (list ArchiveEntry * option error) := λ w,
  let '(r, s) := filepath_Walk (source_entry dir skipper) dir ([], w) in
  (Ok (s.1, match r with Ok e => e | Err e => Some e end), s.2).

Definition EnsureInfo (entry : ArchiveEntry) : IO file_info :=
  match Info entry with
  | Some info => mret info
  | None => wrap ("failed to stat '" +:+ ae_Path entry +:+ "'") (n ← os_Stat (RealPath entry); mret (info_of n))
  end.

(** ** TarStream *)

(** A tar writer: the entries complete so far, and the one being written with the
    bytes it still needs; [tw_open] counts the files left open: each is closed
    only when the whole stream has been written. *)
Record tar_writer := { tw_items : list tar_item; tw_missing : Z; tw_open : Z }.
Definition new_writer : tar_writer := {| tw_items := []; tw_missing := 0; tw_open := 0 |}.
Definition tar_flush (tw : tar_writer) : result unit :=
  if 0 <? tw_missing tw then Err (ErrMsg ("archive/tar: missed writing " +:+ Itoa (tw_missing tw) +:+ " bytes")) else Ok tt.
Definition kind_flag (k : file_kind) : typeflag := match k with ModeDir => TypeDir | ModeRegular => TypeReg | ModeOther => TypeOther end.
Definition WriteHeader (hdr : TarHeader) (tw : tar_writer) : result tar_writer :=
  _ ← tar_flush tw;
  Ok {| tw_items := tw_items tw ++ [{| it_hdr := hdr; it_data := ""; it_data_err := None |}];
        tw_missing := h_Size hdr; tw_open := tw_open tw |}.
(** [io.Copy] into the entry: no more than its size. *)
Definition set_last {A} (f : A -> A) (l : list A) : list A :=
  match last l with Some x => removelast l ++ [f x] | None => l end.
Definition write_data (data : string) (tw : tar_writer) : result unit * tar_writer :=
  let n := Z.min (len data) (tw_missing tw) in
  let data' := str_take (Z.to_nat n) data in
  ((if tw_missing tw <? len data then Err (ErrMsg "archive/tar: write too long") else Ok tt),
   {| tw_items := set_last (λ it, {| it_hdr := it_hdr it; it_data := it_data it +:+ data'; it_data_err := None |}) (tw_items tw);
      tw_missing := tw_missing tw - n; tw_open := tw_open tw |}).
Definition opened (tw : tar_writer) : tar_writer :=
  {| tw_items := tw_items tw; tw_missing := tw_missing tw; tw_open := tw_open tw + 1 |}.
(** One turn of the loop: the writer after it, and the error that breaks it. *)
Definition tar_entry (entry : ArchiveEntry) (tw : tar_writer) : IO (tar_writer * option error) :=
  info ← try (EnsureInfo entry);
  match info with
  | Err e => mret (tw, Some e)
  | Ok info =>
      let size := if bool_decide (fi_kind info = ModeRegular) then fi_Size info else 0 in
      match WriteHeader {| h_Name := ae_Path entry; h_Typeflag := kind_flag (fi_kind info); h_Size := size |} tw with
      | Err e => mret (tw, Some (ErrWrap ("failed to write tar header for '" +:+ ae_Path entry +:+ "'") e))
      | Ok tw =>
          if bool_decide (fi_kind info = ModeDir) then mret (tw, None) else
          fd ← try (os_Stat (RealPath entry));
          match fd with
          | Err e => mret (tw, Some (ErrWrap ("failed to open '" +:+ ae_Path entry +:+ "'") e))
          | Ok _ =>
              let tw := opened tw in
              data ← try (os_ReadFile (RealPath entry));
              let '(written, tw) := write_data (match data with Ok d => d | Err _ => "" end) tw in
              mret (tw, match data, written with
                        | Err e, _ | Ok _, Err e => Some (ErrWrap ("failed to write '" +:+ ae_Path entry +:+ "' to tar") e)
                        | Ok _, Ok _ => None
                        end)
          end
      end
  end.
Fixpoint tar_entries (entries : list ArchiveEntry) (tw : tar_writer) : IO (tar_writer * option error) :=
  match entries with
  | [] => mret (tw, None)
  | entry :: entries' =>
      r ← tar_entry entry tw;
      match r.2 with Some e => mret (r.1, Some e) | None => tar_entries entries' r.1 end
  end.
(** The items written and the error; closing the writer reports missing bytes. *)
Definition TarStream (source : list ArchiveEntry * option error) : IO (list tar_item * option error) :=
  r ← tar_entries source.1 new_writer;
  let err := match r.2 with Some e => Some e | None => source.2 end in
  mret (tw_items r.1, match err with
                      | Some e => Some e
                      | None => match tar_flush r.1 with Err e => Some e | Ok _ => None end
                      end).

(** archive/tar and compress/gzip: the bytes of a complete archive, and of what
    was written before an error. *)
Class TgzCodec := {
  tgz_bytes : list tar_item -> string;
  tgz_partial : list tar_item -> string;
  gz_bytes : string -> string
}.
(** [GzipStream]: the error of the source is what the reader of the pipe gets in
    the place of an end of file. *)
Definition GzipTar `{TgzCodec} (written : list tar_item * option error) : stream :=
  match written with
  | (items, None) => (tgz_bytes items, None)
  | (items, Some e) => (tgz_partial items, Some e)
  end.

(** ** The commands *)

(** Only the directories that an update is stored under. *)
Definition allowedUpdateDirs (entry : ArchiveEntry) : option skip_error :=
  let top := match Cut (ae_Path entry) "/" with Some (top, _) => top | None => ae_Path entry end in
  if bool_decide (top ∈ [UpdatesAppsDir; UpdatesOstreeDir; UpdatesTufDir]) then None
  else match Info entry with
       | Some info => if bool_decide (fi_kind info = ModeDir) then Some SkipDir else Some SkipEntry
       | None => Some SkipEntry
       end.
Definition denyNonRegular (entry : ArchiveEntry) : option skip_error :=
  match Info entry with
  | Some info =>
      if bool_decide (fi_kind info = ModeDir) || bool_decide (fi_kind info = ModeRegular) then None
      else Some (SkipFail (ErrMsg ("only regular files and directories are allowed for configs, but '" +:+ ae_Path entry +:+ "' is neither")))
  | None => None
  end.

(** The flags of an upload: the apps are [name=sha256] pairs. *)
Fixpoint parse_apps (pairs : list string) (apps : gmap string string) : result (gmap string string) :=
  match pairs with
  | [] => Ok apps
  | p :: rest =>
      let bad := Err (ErrMsg ("invalid --apps value '" +:+ p +:+ "', expected name=sha256")) in
      match Cut p "=" with
      | None => bad
      | Some (name, hash) =>
          if String.eqb (TrimSpace name) "" then bad else parse_apps rest (<[TrimSpace name := TrimSpace hash]> apps)
      end
  end.
Definition createOptions (version : Z) (name hardwareId ostreeHash : string) (apps : list string) : result CreateUpdateOptions :=
  apps ← parse_apps apps ∅;
  Ok {| cu_Version := version; cu_HardwareId := hardwareId; cu_Name := name; cu_OstreeHash := ostreeHash; cu_Apps := apps |}.

Section Uploads.
Context `{Network R, TgzCodec}.
Context (a : Api).

(** The directory that is uploaded, and its tarball as a stream. *)
Definition check_dir (path : string) : IO unit :=
  stat ← wrap ("failed to stat directory '" +:+ path +:+ "'") (os_Stat (Clean path));
  match stat with
  | Dir => mret tt
  | File _ _ _ => fail (ErrMsg ("a '" +:+ path +:+ "' is neither a directory nor a symlink to a directory"))
  end.
Definition archive_stream (path : string) (skipper : list fileSkipper) : IO stream :=
  source ← ArchiveSourcer (Clean path) skipper;
  written ← TarStream source;
  mret (GzipTar written).
(** A tarball that is there already; a raw one is compressed on the way. *)
Definition file_stream (path : string) : IO stream :=
  let ext := filepath_Ext path in
  isGzip ← (if String.eqb ext ".tar" then mret false
            else if String.eqb ext ".tar.gz" || String.eqb ext ".tgz" then mret true
            else fail (ErrMsg ("supported file types are '.tar, .tar.gz, .tgz', but '" +:+ ext +:+ "' given")));
  stat ← wrap ("failed to read file '" +:+ path +:+ "'") (os_Stat (Clean path));
  match stat with
  | Dir => fail (ErrMsg ("a '" +:+ path +:+ "' is neither a regular file nor a symlink to a regular file"))
  | File _ _ _ =>
      data ← try (os_ReadFile (Clean path));
      mret (match data with
            | Ok data => (if isGzip : bool then data else gz_bytes data, None)
            | Err e => ("", Some e)
            end)
  end.
(** Uploads without the progress that is displayed meanwhile. *)
Definition uploadConfigs (path : string) (isDir : bool) : C R unit :=
  st ← on_host (if isDir then check_dir path;; archive_stream path [denyNonRegular] else file_stream path);
  Configs_Upload a st tgz_headers.
Definition createUpdate (tag updateName path : string) (opts : CreateUpdateOptions) : C R unit :=
  on_host (check_dir path);;
  (if String.eqb (cu_HardwareId opts) "" || String.eqb (cu_OstreeHash opts) "" then
     repo ← try (on_host (os_Stat (filepath_Join [path; "ostree_repo"])));
     match repo with
     | Err _ => fail (ErrMsg "hardware-id and ostree-hash must be specified when uploading an update without an `ostree_repo` directory")
     | Ok _ => mret tt
     end
   else mret tt);;
  st ← on_host (archive_stream path [allowedUpdateDirs]);
  Updates_CreateUpdate a tag updateName opts st.
End Uploads.
