(* ===== verification/CliProgress.v ===== *)
(** cli/subcommands/progress.go: [ArchiveProgress] as a transition system of the
    goroutine that walks the source and of the consumer that writes the archive,
    with the channels between them; whatever their interleaving, the consumer
    gets every entry in order and the total is known when it is done. *)
From S2P Require Import Prelude.

(** ** The system *)

(** Where the goroutine is: at the top of its loop, about to send an entry, about
    to send the error, or in its deferred closes of [sink], [fault] and [done]. *)
Inductive sizer_at (A : Type) := Sizing | Sending (x : A) | Faulting (e : error) | CloseSink | CloseFault | CloseDone | Finished.
Arguments Sizing {A}. Arguments Sending {A}. Arguments Faulting {A}. Arguments CloseSink {A}.
Arguments CloseFault {A}. Arguments CloseDone {A}. Arguments Finished {A}.
(** How the consumer ended, and where it is: in its loop with the channels that
    it still listens to, or waiting for [done]. *)
Inductive outcome := Complete | Interrupted (e : error) | Abandoned.
Inductive consumer_at := Listening (to_sink to_fault : bool) | AwaitDone | Stopped (how : outcome).

(** The variables and channels of one call; [ap_source] is what the source still
    has, with its error, [ap_yielded] what the consumer was given. *)
Record archive_state (A : Type) := ArchiveState {
  ap_source : list A; ap_error : option error; ap_sizer : sizer_at A; ap_size : Z;
  ap_sink : list A; ap_sink_closed : bool; ap_fault_closed : bool; ap_done_closed : bool;
  ap_halt : bool; ap_total : option Z; ap_consumer : consumer_at; ap_yielded : list A
}.
Arguments ArchiveState {A}.
Arguments ap_source {A}. Arguments ap_error {A}. Arguments ap_sizer {A}. Arguments ap_size {A}. Arguments ap_sink {A}.
Arguments ap_sink_closed {A}. Arguments ap_fault_closed {A}. Arguments ap_done_closed {A}. Arguments ap_halt {A}.
Arguments ap_total {A}. Arguments ap_consumer {A}. Arguments ap_yielded {A}.
(** One step of the goroutine or of the consumer; a consumer may stop early. *)
Inductive archive_action := Take | Send | Fault | Close | Recv (go_on : bool) | SinkClosed | FaultClosed | ListenDone | Done.
Definition sink_capacity : nat := 10000.

Section Progress.
Context {A : Type} (cap : nat) (sizer : A -> Z).
Implicit Types (s : archive_state A) (a : archive_action).

Definition archive_start (source : list A * option error) : archive_state A :=
  ArchiveState source.1 source.2 Sizing 0 [] false false false false None (Listening true true) [].
Definition sizer_to (pc : sizer_at A) s : archive_state A :=
  let '(ArchiveState src err _ size sink sc fc dc halt total con out) := s in ArchiveState src err pc size sink sc fc dc halt total con out.
(** The consumer returns: the deferred [halt.Store(true)]. *)
Definition stop_consumer (how : outcome) s : archive_state A :=
  let '(ArchiveState src err pc size sink sc fc dc _ total _ out) := s in
  ArchiveState src err pc size sink sc fc dc true total (Stopped how) out.
Definition consumer_to (con : consumer_at) s : archive_state A :=
  let '(ArchiveState src err pc size sink sc fc dc halt total _ out) := s in ArchiveState src err pc size sink sc fc dc halt total con out.

Definition archive_step a s : option (archive_state A) :=
  let '(ArchiveState src err pc size sink sc fc dc halt total con out) := s in
  match a, pc, con with
  | Take, Sizing, _ =>
      match src, err with
      | x :: src', _ =>
          if halt then Some (sizer_to CloseSink s)
          else Some (ArchiveState src' err (Sending x) (size + sizer x) sink sc fc dc halt total con out)
      | [], Some e => Some (sizer_to (if halt then CloseSink else Faulting e) s)
      | [], None => Some (ArchiveState src err CloseSink size sink sc fc dc halt (Some size) con out)
      end
  | Send, Sending x, _ =>
      if bool_decide (length sink < cap)%nat
      then Some (ArchiveState src err Sizing size (sink ++ [x]) sc fc dc halt total con out) else None
  | Fault, Faulting e, Listening _ true => Some (sizer_to CloseSink (stop_consumer (Interrupted e) s))
  | Close, CloseSink, _ => Some (ArchiveState src err CloseFault size sink true fc dc halt total con out)
  | Close, CloseFault, _ => Some (ArchiveState src err CloseDone size sink sc true dc halt total con out)
  | Close, CloseDone, _ => Some (ArchiveState src err Finished size sink sc fc true halt total con out)
  | Recv go_on, _, Listening true _ =>
      match sink with
      | x :: sink' =>
          let s' := ArchiveState src err pc size sink' sc fc dc halt total con (out ++ [x]) in
          Some (if go_on then s' else stop_consumer Abandoned s')
      | [] => None
      end
  | SinkClosed, _, Listening true f => if sc && bool_decide (sink = []) then Some (consumer_to (Listening false f) s) else None
  | FaultClosed, _, Listening l true => if fc then Some (consumer_to (Listening l false) s) else None
  | ListenDone, _, Listening false false => Some (consumer_to AwaitDone s)
  | Done, _, AwaitDone => if dc then Some (stop_consumer Complete s) else None
  | _, _, _ => None
  end.
(** The states after a sequence of steps. *)
Inductive archive_run (source : list A * option error) : list archive_action -> archive_state A -> Prop :=
  | run_start : archive_run source [] (archive_start source)
  | run_step l a s s' : archive_run source l s -> archive_step a s = Some s' -> archive_run source (l ++ [a]) s'.

(** ** Invariant *)

Definition in_hand (pc : sizer_at A) : list A := match pc with Sending x => [x] | _ => [] end.
Definition sum_size (l : list A) : Z := foldr (λ x n, sizer x + n) 0 l.
Definition closing (pc : sizer_at A) : bool := match pc with CloseSink | CloseFault | CloseDone | Finished => true | _ => false end.
Definition closed_by (pc : sizer_at A) : bool * bool * bool :=
  match pc with
  | CloseFault => (true, false, false) | CloseDone => (true, true, false) | Finished => (true, true, true) | _ => (false, false, false)
  end.
Definition running (con : consumer_at) : bool := match con with Stopped _ => false | _ => true end.

Record archive_inv (source : list A * option error) s : Prop := {
  inv_entries : ap_yielded s ++ ap_sink s ++ in_hand (ap_sizer s) ++ ap_source s = source.1;
  inv_error : ap_error s = source.2;
  inv_size : ap_size s = sum_size (ap_yielded s ++ ap_sink s ++ in_hand (ap_sizer s));
  inv_closed : (ap_sink_closed s, ap_fault_closed s, ap_done_closed s) = closed_by (ap_sizer s);
  inv_halt : ap_halt s = negb (running (ap_consumer s));
  inv_fault : ∀ e, ap_sizer s = Faulting e -> source.2 = Some e ∧ ap_source s = [];
  inv_closing : running (ap_consumer s) = true -> closing (ap_sizer s) = true ->
    ap_source s = [] ∧ source.2 = None ∧ ap_total s = Some (ap_size s);
  inv_listen : match ap_consumer s with
               | Listening l f => (l = false -> ap_sink s = [] ∧ ap_sink_closed s = true) ∧ (f = false -> ap_fault_closed s = true)
               | AwaitDone => ap_sink s = [] ∧ ap_sink_closed s = true ∧ ap_fault_closed s = true
               | Stopped Complete => ap_sizer s = Finished ∧ ap_yielded s = source.1 ∧ source.2 = None ∧ ap_total s = Some (sum_size source.1)
               | Stopped (Interrupted e) => source.2 = Some e
               | Stopped Abandoned => True
               end
}.

Lemma sum_size_app l k : sum_size (l ++ k) = sum_size l + sum_size k.
Proof. induction l as [|x l IH]; simpl; lia. Qed.

Lemma archive_inv_start source : archive_inv source (archive_start source).
Proof. by constructor. Qed.

Ltac inv_fields := constructor; simpl in *; rewrite <-?app_assoc, ?app_nil_r in *; simpl in *;
  rewrite ?sum_size_app in *; simpl in *; try done; try lia; try (intros; simplify_eq; done); try (by destruct_and?; simplify_eq).
Lemma archive_inv_step source a s s' : archive_inv source s -> archive_step a s = Some s' -> archive_inv source s'.
Proof.
  destruct s as [src err pc size sink sc fc dc halt total con out].
  intros [He Hr Hs Hc Hh Hf Hcl Hl]. simpl in *. subst err halt.
  destruct a; simpl; intros E.
  - destruct pc; try done. destruct src as [|x src]; [|destruct con as [| |[]]; simpl in *; simplify_eq; inv_fields].
    destruct (source.2) as [e|] eqn:Es; simplify_eq; destruct con as [| |[]]; simpl in *; inv_fields; try (rewrite Es; naive_solver).
  - destruct pc; try done. case_bool_decide; simplify_eq. destruct con as [[] []| |[]]; inv_fields; naive_solver.
  - destruct pc; try done. destruct con as [? []| |]; simplify_eq. destruct (Hf e eq_refl). inv_fields.
  - destruct pc; try done; simpl in *; simplify_eq; destruct con as [[] []| |[]]; inv_fields; naive_solver.
  - destruct con as [[] f| |]; [|by destruct pc..]. destruct sink as [|x sink]; [by destruct pc|].
    assert (s' = (if go_on then λ s, s else stop_consumer Abandoned)
      (ArchiveState src source.2 pc size sink sc fc dc false total (Listening true f) (out ++ [x]))) as ->
      by (destruct pc, go_on; simpl in E; by simplify_eq).
    destruct go_on; inv_fields.
  - destruct con as [[] f| |]; [|by destruct pc..]. destruct sc; [|by destruct pc].
    destruct sink as [|x sink]; [|by destruct pc]. assert (s' = ArchiveState src source.2 pc size [] true fc dc false total (Listening false f) out) as ->
      by (destruct pc; simpl in E; by simplify_eq).
    inv_fields; naive_solver.
  - destruct con as [l []| |]; [|by destruct pc..]. destruct fc; [|by destruct pc].
    assert (s' = ArchiveState src source.2 pc size sink sc true dc false total (Listening l false) out) as -> by (destruct pc; simpl in E; by simplify_eq).
    inv_fields; naive_solver.
  - destruct con as [[] []| |]; [by destruct pc..| |by destruct pc|by destruct pc].
    assert (s' = ArchiveState src source.2 pc size sink sc fc dc false total AwaitDone out) as -> by (destruct pc; simpl in E; by simplify_eq).
    inv_fields; naive_solver.
  - destruct con; [by destruct pc| |by destruct pc]. destruct dc; [|by destruct pc].
    assert (pc = Finished) as -> by (by destruct pc). destruct (Hcl eq_refl eq_refl) as (-> & Hn & ->). destruct Hl as (-> & _).
    assert (s' = ArchiveState [] source.2 Finished size [] sc fc true true (Some size) (Stopped Complete) out) as -> by (simpl in E; by simplify_eq).
    simpl in *. rewrite app_nil_r in *. subst. by inv_fields.
Qed.

Lemma archive_inv_run source l s : archive_run source l s -> archive_inv source s.
Proof. induction 1; [apply archive_inv_start|by eapply archive_inv_step]. Qed.

(** ** Progress and termination *)

(** A bound on the steps that are left. *)
Definition sizer_rank (pc : sizer_at A) : nat :=
  match pc with Sizing | Sending _ => 5 | Faulting _ => 4 | CloseSink => 3 | CloseFault => 2 | CloseDone => 1 | Finished => 0 end.
Definition consumer_rank (con : consumer_at) : nat :=
  match con with
  | Listening l f => 2 + (if l then 1 else 0) + (if f then 1 else 0) | AwaitDone => 1 | Stopped _ => 0
  end.
Definition steps_left s : nat :=
  3 * length (ap_source s) + 2 * length (in_hand (ap_sizer s)) + length (ap_sink s) + sizer_rank (ap_sizer s) + consumer_rank (ap_consumer s).

Lemma step_decreases a s s' : archive_step a s = Some s' -> (steps_left s' < steps_left s)%nat.
Proof.
  destruct s as [src err pc size sink sc fc dc halt total con out]. unfold steps_left.
  destruct a, pc, con; simpl; try done; intros E; repeat (case_match; simplify_eq); simplify_eq; simpl; rewrite ?length_app; simpl; try lia.
Qed.
Lemma steps_bounded source l s : archive_run source l s -> (length l + steps_left s <= steps_left (archive_start source))%nat.
Proof.
  induction 1 as [|l a s s' Hr IH E]; [simpl; lia|]. apply step_decreases in E. rewrite length_app. simpl length. lia.
Qed.

(** While the consumer goes on, somebody can step. *)
Lemma can_step source s :
  (0 < cap)%nat -> archive_inv source s -> running (ap_consumer s) = true -> ∃ a s', archive_step a s = Some s' ∧ a <> Recv false.
Proof.
  destruct s as [src err pc size sink sc fc dc halt total con out].
  intros Hcap [He Hr Hs Hc Hh Hf Hcl Hl] Hrun. simpl in *. subst err halt.
  destruct pc as [|x|e| | | |].
  - exists Take. simpl. destruct src; [destruct (source.2)|]; rewrite Hrun; eauto.
  - destruct sink as [|y sink]; [exists Send; simpl; rewrite bool_decide_true by (simpl; lia); eauto|].
    destruct con as [[] f| |]; [exists (Recv true); simpl; eauto|naive_solver..].
  - destruct con as [l []| |]; [exists Fault; simpl; eauto|naive_solver..].
  - exists Close. simpl. eauto.
  - exists Close. simpl. eauto.
  - exists Close. simpl. eauto.
  - simpl in Hc. simplify_eq. destruct con as [[] f| |]; [| | |done].
    + destruct sink as [|y sink]; [exists SinkClosed|exists (Recv true)]; simpl; eauto.
    + destruct f; [exists FaultClosed|exists ListenDone]; simpl; eauto.
    + exists Done. simpl. eauto.
Qed.
End Progress.

(** C20. However the goroutine that walks a directory and the writer of the
    archive interleave, an upload never hangs and never loses a file: every run
    takes at most three steps for each entry and nine more, as long as the writer
    goes on one of the two can step, and when it is through, it was given every
    entry of the source in its order, the source had no error, and the total that
    the progress is measured against is the sum of the sizes; when it was
    interrupted, it was by the error of the source, and it had been given a first
    part of the entries. *)
Theorem upload_source_complete (A : Type) (cap : nat) (sizer : A -> Z) (source : list A * option error) (l : list archive_action) (s : archive_state A)
  (Hcap : (0 < cap)%nat) (Hrun : archive_run cap sizer source l s) :
  (length l <= 3 * length source.1 + 9)%nat ∧
  (running (ap_consumer s) = true -> ∃ a s', archive_step cap sizer a s = Some s' ∧ a <> Recv false) ∧
  (ap_consumer s = Stopped Complete ->
     ap_yielded s = source.1 ∧ source.2 = None ∧ ap_total s = Some (sum_size sizer source.1)) ∧
  (∀ e, ap_consumer s = Stopped (Interrupted e) -> source.2 = Some e ∧ ap_yielded s `prefix_of` source.1).
Proof.
  pose proof (archive_inv_run _ _ _ _ _ Hrun) as Hinv. split_and!.
  - pose proof (steps_bounded _ _ _ _ _ Hrun) as Hb. unfold steps_left in Hb. simpl in Hb. lia.
  - by eapply can_step.
  - intros E. destruct Hinv as [_ _ _ _ _ _ _ Hl]. rewrite E in Hl. naive_solver.
  - intros e E. destruct Hinv as [He _ _ _ _ _ _ Hl]. rewrite E in Hl. split; [done|]. rewrite <-He. by eexists.
Qed.
