(* ===== verification/CliWalk.v ===== *)
(** What a directory that is uploaded is made of: the walk hands out every path
    below it once, and its fuel is enough. *)
From S2P Require Import Prelude GoStrings Bytes GoPath Schema World BaseFs Crypto Tar Http CliApi CliArchive TufSpec.

(** ** Paths below a directory *)

(** The path of a list of names below [dir]. *)
Definition path_at (dir : string) (ns : list string) : string := foldl (λ p n, path_of p n) dir ns.
Lemma path_at_snoc dir ns n : path_at dir (ns ++ [n]) = path_of (path_at dir ns) n.
Proof. unfold path_at. by rewrite foldl_app. Qed.
Lemma path_at_ok dir ns : dir_ok dir -> Forall name_ok ns ->
  dir_ok (path_at dir ns) ∧ comps (path_at dir ns) = comps dir ++ ns ∧ rooted (path_at dir ns) = rooted dir.
Proof.
  intros Hd. induction ns as [|n ns IH] using rev_ind; intros Hn; [by rewrite app_nil_r|].
  apply Forall_app in Hn as [Hns Hn]. apply Forall_inv in Hn. destruct (IH Hns) as (Hok & Hc & Hr). rewrite path_at_snoc.
  split; [by apply entry_dir_ok|]. split; [by rewrite comps_app_name, Hc, app_assoc by auto with server|].
  by rewrite rooted_app by auto with server.
Qed.
Lemma path_at_inj dir ns ms : dir_ok dir -> Forall name_ok ns -> Forall name_ok ms -> path_at dir ns = path_at dir ms -> ns = ms.
Proof.
  intros Hd Hn Hm E. destruct (path_at_ok dir ns Hd Hn) as (_ & Hc & _), (path_at_ok dir ms Hd Hm) as (_ & Hc' & _).
  rewrite E, Hc' in Hc. by apply app_inv_head in Hc.
Qed.
Lemma render_names ns : Forall name_ok ns -> ns <> [] -> render false ns = Join ns "/" ∧ render false ns <> ".".
Proof.
  intros Hn Hne. destruct ns as [|x l]; [done|]. split; [done|]. change (Join (x :: l) "/" <> ".").
  apply Forall_cons in Hn as [(Hx & Hdot & _) _]. destruct l as [|y l]; [done|].
  change (x +:+ "/" +:+ Join (y :: l) "/" <> "."). destruct x as [|c x]; [done|]. intros E. apply (f_equal String.length) in E. rewrite !str_length_app in E. simpl in E. lia.
Qed.
Lemma Rel_names dir ns : dir_ok dir -> Forall name_ok ns -> filepath_Rel dir (path_at dir ns) = Ok (render false ns).
Proof. intros Hd Hn. destruct (path_at_ok dir ns Hd Hn) as ([Hok _] & Hc & Hr). by apply Rel_below; [apply Hd|..]. Qed.

(** A node that is reached from [dir] through directories. *)
Inductive below (w : world) (dir : string) : list string -> node -> Prop :=
  | below_here n : fs w !! dir = Some n -> below w dir [] n
  | below_entry ns name n : below w dir ns Dir -> name_ok name -> fs w !! path_of (path_at dir ns) name = Some n -> below w dir (ns ++ [name]) n.
Lemma below_names w dir ns n : below w dir ns n -> Forall name_ok ns.
Proof. induction 1 as [|ns name n _ IH Hn _]; [done|]. apply Forall_app. split; [done|by apply Forall_singleton]. Qed.
Lemma below_at w dir ns n : below w dir ns n -> fs w !! path_at dir ns = Some n.
Proof. induction 1 as [|ns name n _ _ Hn Hk]; [done|]. by rewrite path_at_snoc. Qed.
Lemma below_fun w dir ns n n' : below w dir ns n -> below w dir ns n' -> n = n'.
Proof. intros H1%below_at H2%below_at. congruence. Qed.
Lemma below_split w dir ns ms x : below w dir (ns ++ ms) x -> ∃ n, below w dir ns n ∧ (ms <> [] -> n = Dir).
Proof.
  revert x. induction ms as [|m ms IH] using rev_ind; intros x Hx; [rewrite app_nil_r in Hx; by exists x|].
  rewrite app_assoc in Hx. inversion Hx as [? ? E|ns' name n' Hb ? ? E]; [by destruct (ns ++ ms)|]. apply app_inj_tail in E as [-> ->].
  destruct (IH _ Hb) as (n & Hn & Hd). exists n. split; [done|]. intros _. destruct ms; [|by apply Hd].
  rewrite app_nil_r in Hb. by eapply below_fun.
Qed.

(** ** The tree that a walk visits *)

Section Walk.
Variables (w : world) (dir : string).
Hypothesis dir_fine : dir_ok dir.
Fixpoint tree (fuel : nat) (ns : list string) (n : node) : list (list string * node) :=
  match fuel with
  | O => []
  | S fuel' =>
      (ns, n) :: match n with
                 | Dir => entries w (path_at dir ns) ≫= λ name,
                            match fs w !! path_of (path_at dir ns) name with
                            | Some x => tree fuel' (ns ++ [name]) x
                            | None => []
                            end
                 | File _ _ _ => []
                 end
  end.
Definition longest : nat := list_max (String.length <$> (map_to_list (fs w)).*1).
Lemma longest_key k : is_Some (fs w !! k) -> (String.length k <= longest)%nat.
Proof.
  intros [x Hx]. pose proof (proj1 (list_max_le (String.length <$> (map_to_list (fs w)).*1) longest) (Nat.le_refl _)) as H.
  rewrite Forall_forall in H. apply H. apply list_elem_of_fmap. exists k. split; [done|]. apply list_elem_of_fmap. exists (k, x).
  by rewrite elem_of_map_to_list.
Qed.
Lemma tree_below fuel ns n x : below w dir ns n -> x ∈ tree fuel ns n -> below w dir x.1 x.2 ∧ ∃ q, x.1 = ns ++ q.
Proof.
  revert ns n. induction fuel as [|fuel IH]; intros ns n Hb Hx; cbn [tree] in Hx; [by apply elem_of_nil in Hx|].
  apply elem_of_cons in Hx as [->|Hx]; [split; [done|]; exists []; by rewrite app_nil_r|].
  destruct n as [c m t|]; [by apply elem_of_nil in Hx|]. apply list_elem_of_bind in Hx as (name & Hx & Hname).
  apply elem_of_entries in Hname as [Hname _]; [|by apply path_at_ok, (below_names _ _ _ _ Hb)].
  destruct (fs w !! _) as [y|] eqn:Hy; [|by apply elem_of_nil in Hx].
  apply IH in Hx as [? [q Hq]]; [|by apply below_entry]. split; [done|]. exists (name :: q). by rewrite Hq, <-app_assoc.
Qed.
Lemma below_tree fuel ns n ms x :
  below w dir ns n -> below w dir (ns ++ ms) x -> (longest < String.length (path_at dir ns) + fuel)%nat -> (ns ++ ms, x) ∈ tree fuel ns n.
Proof.
  revert ns n ms. induction fuel as [|fuel IH]; intros ns n ms Hb Hx Hf.
  { pose proof (longest_key _ (ltac:(eexists; by eapply below_at) : is_Some (fs w !! path_at dir ns))). lia. }
  cbn [tree]. destruct ms as [|m ms].
  { rewrite app_nil_r in Hx |- *. rewrite (below_fun _ _ _ _ _ Hx Hb). apply elem_of_cons. by left. }
  apply elem_of_cons. right. destruct (below_split _ _ _ _ _ Hx) as (n' & Hn' & Hd). rewrite (below_fun _ _ _ _ _ Hb Hn'), Hd by done.
  change (m :: ms) with ([m] ++ ms) in Hx |- *. rewrite app_assoc in Hx |- *. destruct (below_split _ _ _ _ _ Hx) as (y & Hy & _).
  pose proof (below_at _ _ _ _ Hy) as Hk. rewrite path_at_snoc in Hk. pose proof (below_names _ _ _ _ Hy) as Hnames.
  apply Forall_app in Hnames as [Hnames Hm]. apply Forall_inv in Hm.
  apply list_elem_of_bind. exists m. split.
  - rewrite Hk. apply IH; [done|done|]. rewrite path_at_snoc, !str_length_app. simpl. lia.
  - apply elem_of_entries; [by apply path_at_ok|]. split; [done|by exists y].
Qed.
Lemma tree_NoDup fuel ns n : below w dir ns n -> NoDup (tree fuel ns n).
Proof.
  revert ns n. induction fuel as [|fuel IH]; intros ns n Hb; [constructor|]. cbn [tree].
  assert (dir_ok (path_at dir ns)) as Hok by (apply path_at_ok; [done|by eapply below_names]).
  destruct n as [c m t|]; [apply NoDup_singleton|].
  assert (∀ name x, name ∈ entries w (path_at dir ns) ->
    x ∈ (match fs w !! path_of (path_at dir ns) name with Some x => tree fuel (ns ++ [name]) x | None => [] end) ->
    ∃ q, x.1 = ns ++ name :: q) as Hq.
  { intros name x Hname Hx. apply elem_of_entries in Hname as [Hname _]; [|done]. destruct (fs w !! _) as [y|] eqn:Hy; [|by apply elem_of_nil in Hx].
    apply tree_below in Hx as [_ [q Hq]]; [|by apply below_entry]. exists q. by rewrite Hq, <-app_assoc. }
  constructor.
  - intros (name & Hin & Hname)%list_elem_of_bind. destruct (Hq _ _ Hname Hin) as [q E].
    apply (f_equal length) in E. rewrite length_app in E. simpl in E. lia.
  - apply NoDup_bind; [| |by apply NoDup_entries].
    + intros a b x Ha Hb' Hx Hy. destruct (Hq _ _ Ha Hx) as [q Ex], (Hq _ _ Hb' Hy) as [q' Ey]. rewrite Ex in Ey. apply app_inv_head in Ey. congruence.
    + intros name Hname. apply elem_of_entries in Hname as [Hname _]; [|done]. destruct (fs w !! _) as [y|] eqn:Hy; [|constructor].
      apply IH. by apply below_entry.
Qed.

(** ** What the walk hands out *)

Definition entry_of (x : list string * node) : ArchiveEntry :=
  {| RealPath := path_at dir x.1; ae_Path := render false x.1; Info := Some (info_of x.2) |}.
(** All but the directory itself. *)
Definition handed_out (l : list (list string * node)) : list ArchiveEntry := entry_of <$> filter (λ x, x.1 <> []) l.
Lemma handed_out_app l l' : handed_out (l ++ l') = handed_out l ++ handed_out l'.
Proof. unfold handed_out. by rewrite filter_app, fmap_app. Qed.
Variable skipper : list (ArchiveEntry -> option skip_error).
Hypothesis no_faults : faults w = [].
Hypothesis passes : ∀ ns n, ns <> [] -> below w dir ns n -> run_skippers skipper (entry_of (ns, n)) = None.
Notation visit := (source_entry dir skipper).
Lemma visit_run ns n l : below w dir ns n -> visit (path_at dir ns) (info_of n) None (l, w) = (Ok WalkOn, (l ++ handed_out [(ns, n)], w)).
Proof.
  intros Hb. pose proof (below_names _ _ _ _ Hb) as Hn. unfold source_entry. rewrite Rel_names by done. destruct (decide (ns = [])) as [->|Hne].
  - cbn. by rewrite app_nil_r.
  - destruct (render_names ns Hn Hne) as [_ Hdot]. destruct (String.eqb_spec (render false ns) ".") as [|_]; [done|].
    pose proof (passes ns n Hne Hb) as Hp. unfold entry_of in Hp. cbn [fst snd] in Hp. rewrite Hp.
    unfold handed_out. rewrite filter_cons_True by done. done.
Qed.
Lemma walk_names_run fuel ns names l :
  below w dir ns Dir -> names ⊆ entries w (path_at dir ns) ->
  (∀ name n l, below w dir (ns ++ [name]) n ->
     walk visit fuel (path_at dir (ns ++ [name])) (info_of n) (l, w) = (Ok WalkOn, (l ++ handed_out (tree fuel (ns ++ [name]) n), w))) ->
  walk_names visit (walk visit fuel) (path_at dir ns) names (l, w) =
    (Ok WalkOn, (l ++ handed_out (names ≫= λ name,
       match fs w !! path_of (path_at dir ns) name with Some x => tree fuel (ns ++ [name]) x | None => [] end), w)).
Proof.
  intros Hb Hsub IH. revert l. induction names as [|name names IHn]; intros l; cbn [walk_names mbind list_bind].
  { unfold handed_out. cbn. by rewrite app_nil_r. }
  assert (dir_ok (path_at dir ns)) as Hok by (apply path_at_ok; [done|by eapply below_names]).
  destruct (proj1 (elem_of_entries w _ name Hok) (Hsub name ltac:(by left))) as [Hname [n Hn]].
  assert (below w dir (ns ++ [name]) n) as Hbn by by apply below_entry.
  rewrite Join_entry by done. rewrite (bind_try _ _ _ (Ok n) (l, w)).
  2: { unfold walk_io. cbn [fst snd]. unfold os_Stat. rewrite syscall_ok by done. by rewrite Hn. }
  rewrite <-path_at_snoc, (bind_Ok _ _ _ _ _ (IH name n l Hbn)), path_at_snoc, Hn, handed_out_app, app_assoc.
  apply IHn. intros x Hx. apply Hsub. by right.
Qed.
Lemma walk_run fuel ns n l :
  below w dir ns n -> (longest < String.length (path_at dir ns) + fuel)%nat ->
  walk visit fuel (path_at dir ns) (info_of n) (l, w) = (Ok WalkOn, (l ++ handed_out (tree fuel ns n), w)).
Proof.
  revert ns n l. induction fuel as [|fuel IH]; intros ns n l Hb Hf.
  { pose proof (longest_key _ (ltac:(eexists; by eapply below_at) : is_Some (fs w !! path_at dir ns))). lia. }
  cbn [walk tree]. destruct n as [c m t|]; [by apply visit_run|]. cbn [info_of fi_kind]. rewrite bool_decide_true by done. cbn [negb].
  rewrite (bind_try _ _ _ (Ok (entries w (path_at dir ns))) (l, w)).
  2: { unfold walk_io. cbn [fst snd]. unfold os_ReadDir. rewrite syscall_ok by done. unfold is_dir. rewrite bool_decide_true; [done|]. right. right. by eapply below_at. }
  rewrite (bind_Ok _ _ _ _ _ (visit_run ns Dir l Hb)).
  rewrite walk_names_run; [|done|done|].
  - f_equal. f_equal. rewrite <-app_assoc, <-handed_out_app. done.
  - intros name x l' Hx. apply IH; [done|]. rewrite path_at_snoc, !str_length_app. simpl. lia.
Qed.
End Walk.

(** ** The archive *)

Section Archive.
Variables (w : world) (dir : string).
Hypothesis dir_fine : dir_ok dir.
Hypothesis no_faults : faults w = [].

(** What an archive has of a node: the names to it, its type, its content. *)
Definition item_of (x : list string * node) : tar_item :=
  let name := Join x.1 "/" in
  match x.2 with
  | Dir => {| it_hdr := {| h_Name := name; h_Typeflag := TypeDir; h_Size := 0 |}; it_data := ""; it_data_err := None |}
  | File content _ _ => {| it_hdr := {| h_Name := name; h_Typeflag := TypeReg; h_Size := len content |}; it_data := content; it_data_err := None |}
  end.
Lemma set_last_snoc {A} (f : A -> A) l x : set_last f (l ++ [x]) = l ++ [f x].
Proof. unfold set_last. by rewrite last_snoc, removelast_last. Qed.
Lemma WriteHeader_run hdr tw : tw_missing tw = 0 ->
  WriteHeader hdr tw = Ok {| tw_items := tw_items tw ++ [{| it_hdr := hdr; it_data := ""; it_data_err := None |}];
                             tw_missing := h_Size hdr; tw_open := tw_open tw |}.
Proof. intros Hm. unfold WriteHeader, tar_flush. by rewrite Hm. Qed.
Lemma write_data_run data tw items hdr :
  tw_items tw = items ++ [{| it_hdr := hdr; it_data := ""; it_data_err := None |}] -> tw_missing tw = len data ->
  write_data data tw = (Ok tt, {| tw_items := items ++ [{| it_hdr := hdr; it_data := data; it_data_err := None |}]; tw_missing := 0; tw_open := tw_open tw |}).
Proof.
  intros Hi Hm. unfold write_data. rewrite Hm, Z.min_id, Z.ltb_irrefl, Hi, set_last_snoc, Z.sub_diag. cbn [it_hdr it_data].
  by rewrite str_take_all by (unfold len; lia).
Qed.
Lemma tar_entry_run x tw :
  below w dir x.1 x.2 -> x.1 <> [] -> tw_missing tw = 0 ->
  ∃ tw', tar_entry (entry_of dir x) tw w = (Ok (tw', None), w) ∧ tw_items tw' = tw_items tw ++ [item_of x] ∧ tw_missing tw' = 0.
Proof.
  intros Hb Hne Hm. pose proof (below_at _ _ _ _ Hb) as Hk. destruct x as [ns n]. cbn [fst snd] in *.
  destruct (render_names ns (below_names _ _ _ _ Hb) Hne) as [Hname _].
  unfold tar_entry. rewrite (bind_try _ _ _ (Ok (info_of n)) w) by done. unfold entry_of. cbn [ae_Path RealPath fst snd]. rewrite Hname.
  destruct n as [content m t|]; cbn [info_of fi_kind fi_Size kind_flag]; rewrite WriteHeader_run by done.
  - rewrite (bool_decide_true (ModeRegular = ModeRegular)), (bool_decide_false (ModeRegular = ModeDir)) by done.
    rewrite (bind_try _ _ _ (Ok (File content m t)) w) by (unfold os_Stat; rewrite syscall_ok by done; by rewrite Hk).
    rewrite (bind_try _ _ _ (Ok content) w) by (unfold os_ReadFile; rewrite syscall_ok by done; by rewrite Hk).
    erewrite write_data_run by done. eexists. split; [reflexivity|]. done.
  - rewrite (bool_decide_true (ModeDir = ModeDir)), (bool_decide_false (ModeDir = ModeRegular)) by done.
    eexists. split; [reflexivity|]. done.
Qed.
Lemma tar_entries_run l tw :
  Forall (λ x, below w dir x.1 x.2 ∧ x.1 <> []) l -> tw_missing tw = 0 ->
  ∃ tw', tar_entries (entry_of dir <$> l) tw w = (Ok (tw', None), w) ∧ tw_items tw' = tw_items tw ++ (item_of <$> l) ∧ tw_missing tw' = 0.
Proof.
  revert tw. induction l as [|x l IH]; intros tw Hl Hm; [exists tw; by rewrite app_nil_r|].
  apply Forall_cons in Hl as [[Hb Hne] Hl]. destruct (tar_entry_run x tw Hb Hne Hm) as (tw1 & E1 & H1 & Hm1).
  destruct (IH tw1 Hl Hm1) as (tw2 & E2 & H2 & Hm2). exists tw2. cbn [fmap list_fmap tar_entries].
  rewrite (bind_Ok _ _ _ _ _ E1). cbn [fst snd]. split; [exact E2|]. split; [|done]. by rewrite H2, H1, <-app_assoc.
Qed.
End Archive.

(** C19. The archive that a client makes of a directory holds the directory: on a
    host without failures, and with skippers that let pass what is there, making
    it ends without an error and changes nothing, and it has one item for each
    path that is reached below the directory and none other, with the path
    relative to the directory, the type, and for a file the whole content. *)
Theorem archive_holds_directory `{TgzCodec} (w : world) (dir : string) (skipper : list (ArchiveEntry -> option skip_error)) :
  dir_ok dir -> faults w = [] -> fs w !! dir = Some Dir ->
  (∀ ns n, ns <> [] -> below w dir ns n -> run_skippers skipper (entry_of dir (ns, n)) = None) ->
  ∃ items, archive_stream dir skipper w = (Ok (tgz_bytes items, None), w) ∧ NoDup (h_Name ∘ it_hdr <$> items) ∧
    ∀ it, it ∈ items ↔ ∃ ns n, ns <> [] ∧ below w dir ns n ∧ it = item_of (ns, n).
Proof.
  intros Hd Hf Hk Hpass. pose proof (below_here w dir _ Hk) as Hb.
  set (l := filter (λ x, x.1 <> []) (tree w dir (walk_fuel w) [] Dir)).
  assert (∀ x, x ∈ l ↔ x.1 <> [] ∧ below w dir x.1 x.2) as Hl.
  { intros [ns n]. unfold l. rewrite list_elem_of_filter. cbn [fst snd]. split; intros [Hne Hx]; (split; [done|]).
    - apply (tree_below w dir Hd) in Hx as [Hx _]; [done|exact Hb].
    - change ns with ([] ++ ns). apply (below_tree w dir Hd); [done|exact Hx|]. unfold walk_fuel, longest. cbn. lia. }
  destruct (tar_entries_run w dir Hf l new_writer) as (tw & Et & Hi & Hm); [apply Forall_forall; by intros x [? ?]%Hl|done|].
  exists (item_of <$> l). split; [|split].
  - unfold archive_stream. destruct Hd as [Hc Hd']. rewrite Hc.
    assert (ArchiveSourcer dir skipper w = (Ok (entry_of dir <$> l, None), w)) as Es.
    { unfold ArchiveSourcer, filepath_Walk. cbn [snd].
      rewrite (bind_try _ _ _ (Ok Dir) ([], w)) by (unfold walk_io; cbn [fst snd]; unfold os_Stat; rewrite syscall_ok by done; by rewrite Hk).
      pose proof (walk_run w dir ltac:(done) skipper Hf Hpass (walk_fuel w) [] Dir [] Hb) as Ew. cbn [path_at foldl app] in Ew.
      rewrite (bind_Ok _ _ _ _ _ (Ew ltac:(unfold walk_fuel, longest; lia))). done. }
    rewrite (bind_Ok _ _ _ _ _ Es). unfold TarStream. cbn [fst snd].
    rewrite (bind_Ok _ _ w (item_of <$> l, None) w); [done|].
    rewrite (bind_Ok _ _ _ _ _ Et). cbn [fst snd]. unfold tar_flush. by rewrite Hm, Hi.
  - rewrite <-list_fmap_compose. apply NoDup_fmap_2_strong; [|by apply NoDup_filter, (tree_NoDup w dir Hd)].
    intros [ns n] [ms m] [Hn Hbn]%Hl [Hms Hbm]%Hl E. cbn [fst snd] in *.
    assert (∀ x, (h_Name ∘ it_hdr ∘ item_of) x = Join x.1 "/") as Hj by (by intros [? []]). rewrite !Hj in E. cbn [fst] in E.
    pose proof (below_names _ _ _ _ Hbn) as Nn. pose proof (below_names _ _ _ _ Hbm) as Nm.
    assert (ns = ms) as ->; [|by rewrite (below_fun _ _ _ _ _ Hbn Hbm)].
    rewrite <-(comps_render false ns), <-(comps_render false ms) by by apply names_comps_ok.
    by rewrite (proj1 (render_names ns Nn Hn)), (proj1 (render_names ms Nm Hms)), E.
  - intros it. rewrite list_elem_of_fmap. split.
    + intros ([ns n] & -> & [Hne Hx]%Hl). by exists ns, n.
    + intros (ns & n & Hne & Hx & ->). exists (ns, n). split; [done|]. by apply Hl.
Qed.
