(* ===== verification/CliSpec.v ===== *)
(** The command line client against the server: what the two make of each other.
    The client is connected to the handlers of the API by a network that delivers
    each request to the handler that [dispatch] finds for it. *)
From S2P Require Import Prelude GoStrings Bytes GoPath Schema World BaseFs Crypto Encoding Models Tar Configs Updates FsHandles Tuf TufFs ApiStorage ApiUpdate Rollouts Http Scopes Users Auth UiApi UiUpdates UiSpec Gateway WebPages CliApi CliConfigs CliShow.

(** ** The network *)

(** What a client receives of the outputs of a handler: the last value set for
    each header, the texts written; the length is not known for a stream.  The
    text that echo sends for an error is left out. *)
Definition body_text (out : list output) : string :=
  foldr (λ o s, match o with Respond _ body => body +:+ s | Write chunk => chunk +:+ s | _ => s end) "" out.
Definition is_stream (out : list output) : bool := existsb (λ o, match o with Write _ => true | _ => false end) out.
Definition response_headers (out : list output) : gmap string (list string) :=
  foldl (λ h o, match o with SetHeader name value => <[ToLower name := [value]]> h | _ => h end) ∅ out.
Definition response_of (code : Z) (out : list output) : http_response :=
  {| hr_Status := code; hr_Header := response_headers out; hr_ContentLength := if is_stream out then -1 else len (body_text out);
     hr_Body := (body_text out, None); hr_CloseErr := None |}.
(** The router of the server is a parameter; no route is status 404. *)
Definition server_net {P} (dispatch : http_request -> option (handler P * request)) : Network (world * P) :=
  {| NewRequest _ := None;
     round_trip q wp :=
       match dispatch q with
       | Some (h, r) => let '(code, out, w, p) := serve h r wp.1 wp.2 in (Ok (response_of code out), (w, p))
       | None => (Ok (response_of 404 []), wp)
       end;
     remote_wait ms wp := (with_clock (clock wp.1 + ms) wp.1, wp.2) |}.

(** The GET request of a client for a resource. *)
Definition get_request (a : Api) (resource : string) : http_request :=
  {| hq_Method := GET; hq_URL := api_URL a +:+ resource; hq_Header := {["authorization" := ["Bearer " +:+ api_Token a]]}; hq_Body := None |}.
Lemma get_runs `{N : Network R} a resource (s : client R) resp rem :
  NewRequest (api_URL a +:+ resource) = None -> round_trip (get_request a resource) (cl_remote s) = (Ok resp, rem) ->
  status_ok resp = true -> api_get a resource [] s = (Ok resp, Client (cl_host s) rem (cl_out s)).
Proof.
  intros Hn Hr Hok. unfold api_get, Client_Do, mbind, M_bind. cbn [hq_URL]. rewrite Hn. unfold round, authTransport_RoundTrip.
  cbn [hq_Method hq_URL hq_Header hq_Body]. change (<["authorization":=["Bearer " +:+ api_Token a]]> (httpOptions_apply [])) with
    ({["authorization" := ["Bearer " +:+ api_Token a]]} : gmap string (list string)). fold (get_request a resource).
  rewrite Hr. cbn. by rewrite Hok.
Qed.

(** ** Following the log of an update *)

(** What the client prints for the lines of the log. *)
Definition interrupted_text (err : error) : string :=
  if errors_Is err ErrNotExist then "No rollout logs for this update yet." else "Logs tail was interrupted due to server error.".
Fixpoint shown_lines (lines : list (result string)) : list printed :=
  match lines with
  | [] => []
  | Ok line :: lines' => Out (line +:+ nl) :: shown_lines lines'
  | Err err :: _ => [ErrOut ("ERROR: " +:+ interrupted_text err +:+ nl)]
  end.
(** A line that the log holds: one line of text that is not too long. *)
Definition log_line_ok (l : result string) : Prop :=
  match l with
  | Ok line => line <> "" ∧ no_char (byte 10) line = true ∧ no_char (byte 13) line = true ∧ len line + 6 < maxScanTokenSize
  | Err _ => True
  end.
Definition event_text_of (events : list string) : string := foldr (λ e s, e +:+ s) "" events.

Lemma scan_one l t :
  no_char (byte 10) l = true -> no_char (byte 13) l = true -> len l < maxScanTokenSize -> scan_lines (l +:+ nl +:+ t) = Ok l :: scan_lines t.
Proof. intros Hn Hr Hl. unfold nl. by rewrite scan_lines_cons, drop_cr_no_char. Qed.
Lemma scan_blank t : scan_lines (nl +:+ t) = Ok "" :: scan_lines t.
Proof. exact (scan_one "" t eq_refl eq_refl eq_refl). Qed.
Lemma id_line_ok i : let l := "id: " +:+ Itoa i in no_char (byte 10) l = true ∧ no_char (byte 13) l = true.
Proof.
  simpl. unfold Itoa. rewrite !no_char_app. split; by rewrite format_int_no_char.
Qed.
Lemma digits_length fuel b n : (String.length (digits fuel b n) <= fuel)%nat.
Proof.
  revert n. induction fuel as [|fuel IH]; intros n; [done|]. cbn [digits]. case_match; [simpl; lia|].
  rewrite str_length_app. specialize (IH (n / b)). simpl. lia.
Qed.
Lemma Itoa_length i : 0 <= i < 2 ^ 63 -> len (Itoa i) <= 64.
Proof.
  intros Hi. unfold Itoa, format_int, len. destruct (Z.ltb_spec i 0); [lia|].
  unfold format_uint. pose proof (digits_length (S (Z.to_nat (Z.log2 i))) 10 i).
  destruct (Z.eq_dec i 0) as [->|]; [simpl in *; lia|].
  assert (Z.log2 i < 63) by (apply Z.log2_lt_pow2; lia). pose proof (Z.log2_nonneg i). lia.
Qed.
Lemma scan_log_event i l t :
  log_line_ok (Ok l) -> 0 <= i < 2 ^ 63 ->
  scan_lines (log_event i l +:+ t) = Ok "event: log" :: Ok ("id: " +:+ Itoa i) :: Ok ("data: " +:+ l) :: Ok "" :: scan_lines t.
Proof.
  intros (Hne & Hn & Hr & Hl) Hi. unfold log_event. rewrite !str_app_assoc.
  destruct (id_line_ok i) as [Hi1 Hi2]. pose proof (Itoa_length i Hi).
  change ("id: " +:+ Itoa i +:+ nl +:+ "data: " +:+ l +:+ nl +:+ nl +:+ t) with ("id: " +:+ (Itoa i +:+ nl +:+ "data: " +:+ l +:+ nl +:+ nl +:+ t)).
  rewrite scan_one by done. rewrite <-(str_app_assoc "id: "), scan_one; [|done|done|unfold len, maxScanTokenSize in *; rewrite str_length_app; simpl; lia].
  rewrite <-(str_app_assoc "data: "), scan_one; [|by rewrite no_char_app, Hn|by rewrite no_char_app, Hr|unfold len in *; rewrite str_length_app; simpl; lia].
  by rewrite scan_blank.
Qed.
Lemma scan_error_event i err t :
  0 <= i < 2 ^ 63 -> scan_lines (error_event i err +:+ t) =
    Ok "event: error" :: Ok ("id: " +:+ Itoa i) :: Ok "retry: 1000" :: Ok ("data: " +:+ interrupted_text err) :: Ok "" :: scan_lines t.
Proof.
  intros Hi. unfold error_event. rewrite !str_app_assoc.
  destruct (id_line_ok i) as [Hi1 Hi2]. pose proof (Itoa_length i Hi).
  rewrite scan_one by done. rewrite <-(str_app_assoc "id: "), scan_one; [|done|done|unfold len, maxScanTokenSize in *; rewrite str_length_app; simpl; lia].
  rewrite scan_one by done. unfold interrupted_text. destruct (errors_Is err ErrNotExist); by rewrite scan_one, scan_blank.
Qed.
Lemma tail_log_event i l rest :
  l <> "" -> tail_lines no_event (Ok "event: log" :: Ok ("id: " +:+ Itoa i) :: Ok ("data: " +:+ l) :: Ok "" :: rest) =
    (Out (l +:+ nl) :: (tail_lines no_event rest).1, (tail_lines no_event rest).2).
Proof.
  intros Hl. cbn [tail_lines]. unfold tail_line at 3. simpl String.eqb. cbv iota. unfold CutPrefix.
  change (HasPrefix ("data: " +:+ l) "event: ") with false. rewrite HasPrefix_app, TrimPrefix_app. cbv iota.
  unfold tail_line. simpl. rewrite (proj2 (String.eqb_neq l "") Hl). simpl. by destruct (tail_lines no_event rest).
Qed.
Lemma tail_error_event i m rest :
  m <> "" -> tail_lines no_event (Ok "event: error" :: Ok ("id: " +:+ Itoa i) :: Ok "retry: 1000" :: Ok ("data: " +:+ m) :: Ok "" :: rest) =
    (ErrOut ("ERROR: " +:+ m +:+ nl) :: (tail_lines no_event rest).1, (tail_lines no_event rest).2).
Proof.
  intros Hl. cbn [tail_lines]. unfold tail_line at 4. simpl String.eqb. cbv iota. unfold CutPrefix.
  change (HasPrefix ("data: " +:+ m) "event: ") with false. rewrite HasPrefix_app, TrimPrefix_app. cbv iota.
  unfold tail_line. simpl. rewrite (proj2 (String.eqb_neq m "") Hl). simpl. by destruct (tail_lines no_event rest).
Qed.
(** The client prints the lines of the log as they are, in their order, and the
    message of an interruption as an error. *)
Lemma tail_events lines i :
  Forall log_line_ok lines -> 0 <= i -> i + Z.of_nat (length lines) < 2 ^ 63 ->
  tail_lines no_event (scan_lines (event_text_of (event_stream 0 i lines))) = (shown_lines lines, None).
Proof.
  intros Hok. revert i. induction Hok as [|[line|err] lines Hl Hok IH]; intros i Hi Hlen; cbn [length] in Hlen; [done|..];
    cbn [event_stream shown_lines].
  - destruct (Z.leb_spec (i + 1) 0); [lia|]. cbn [event_text_of foldr]. fold (event_text_of (event_stream 0 (i + 1) lines)).
    rewrite scan_log_event, tail_log_event by (done || lia || apply Hl). by rewrite IH by lia.
  - cbn [event_text_of foldr]. rewrite scan_error_event, tail_error_event by (lia || unfold interrupted_text; by case_match). done.
Qed.
Lemma status_stream {P} (w : world) (p : P) chunks : http_status (Ok tt) (Server w p (stream_headers ++ map Write chunks)) = 200.
Proof. by destruct chunks. Qed.
Lemma body_text_stream chunks out : body_text (out ++ map Write chunks) = body_text out +:+ event_text_of chunks.
Proof.
  induction out as [|o out IH]; simpl.
  - induction chunks as [|c chunks IH]; simpl; [done|by rewrite IH].
  - destruct o; rewrite ?IH, ?str_app_assoc; done.
Qed.
Lemma print_all_run {R} out (s : client R) :
  print_all out s = (Ok tt, Client (cl_host s) (cl_remote s) (cl_out s ++ out)).
Proof.
  unfold print_all. revert s. induction out as [|p out IH]; intros s; [by rewrite app_nil_r; destruct s|].
  cbn [forM]. unfold mbind, M_bind. simpl. rewrite IH. simpl. by rewrite <-app_assoc.
Qed.
Lemma closing_run `{N : Network R} {A} resp (m : C R A) s r s' :
  hr_CloseErr resp = None -> m s = (r, s') -> closing resp m s = (r, s').
Proof. intros Hc E. unfold closing, closeHttpBody. by rewrite Hc, (bind_try _ _ _ _ _ E). Qed.

(** C32. Following the log of an update prints exactly the log: when the server
    answers with the handler of the route and the lines of the log are lines of
    text without carriage returns that are not too long, [fiocli updates tail]
    prints every line as it is, in the order of the log, followed by the message
    of an interruption when the log could not be read to its end, and nothing
    else; it succeeds, and the log is only read. *)
Theorem tail_prints_log {P} (dispatch : http_request -> option (handler P * request)) (a : Api) (h : UiApi.handlers) (user : User) (r : request)
  (name : string) (w w' : world) (p : P) (host : world) (out : list printed) (lines : list (result string))
  (Hroute : dispatch (get_request a ("/v1/updates/" +:+ name +:+ "/tail")) = Some (updateTail h user, r))
  (Hname : c_Param r "update" = name) (Hfresh : Header_Get r "last-event-id" = "")
  (Hlog : TailRolloutsLog (h_root h) name w = (Ok lines, w')) (Hlines : Forall log_line_ok lines) (Hmany : Z.of_nat (length lines) < 2 ^ 63) :
  @tailUpdate _ (server_net dispatch) a name "" (Client host (w, p) out) =
    (Ok tt, Client host (w', p) (out ++ [Out ("Tailing all rollouts for update " +:+ name +:+ nl); Out ("Press Ctrl+C to stop..." +:+ nl)] ++
                                 shown_lines lines)).
Proof.
  unfold tailUpdate. cbn [String.eqb].
  assert (serve (updateTail h user) r w p = (200, stream_headers ++ map Write (event_stream 0 0 lines), w', p)) as Hserve.
  { unfold serve, updateTail. rewrite Hname. unfold mbind, M_bind, io. cbn [sv_world]. rewrite Hlog. cbn.
    rewrite streamUpdateLogs_run. unfold parseLastEventId. rewrite Hfresh. change (if len "" =? 0 then _ else _) with 0.
    cbn [with_world sv_world sv_front sv_out app]. by rewrite status_stream. }
  set (resp := response_of 200 (stream_headers ++ map Write (event_stream 0 0 lines))).
  assert (@Updates_Tail _ (server_net dispatch) a name (Client host (w, p) out) = (Ok resp, Client host (w', p) out)) as Ht.
  { unfold Updates_Tail, GetStream. rewrite (get_runs (N := server_net dispatch) a _ _ resp (w', p)); try done.
    cbn [server_net round_trip cl_remote]. rewrite Hroute. cbn [fst snd]. by rewrite Hserve. }
  rewrite (bind_try _ _ _ _ _ Ht). unfold mbind at 1, M_bind at 1. cbn [Println Print put_printed modify lift cl_host cl_remote cl_out].
  unfold mbind, M_bind. cbn -[closing tail_lines scan_stream resp].
  apply (closing_run (N := server_net dispatch)); [done|].
  assert (tail_lines no_event (scan_stream (hr_Body resp)) = (shown_lines lines, None)) as ->.
  { unfold resp, response_of, scan_stream. cbn [hr_Body fst snd]. rewrite app_nil_r, body_text_stream. by apply (tail_events lines 0). }
  rewrite print_all_run. cbn. by rewrite <-!app_assoc.
Qed.

(** ** The certificates of a text: the fuel of the loop is enough *)

Lemma cert_summaries_fuel `{CliTimes, TimeFormat, PkiCodec, !PkiCodecLaws} {R} (fuel k : nat) (found : Z) (rest : string) (s : client R) :
  (String.length rest < fuel)%nat -> cert_summaries fuel found rest s = cert_summaries (fuel + k) found rest s.
Proof.
  revert found rest s. induction fuel as [|fuel IH]; intros found rest s Hf; [lia|]. cbn [cert_summaries Nat.add].
  destruct (pem_next rest) as [[block rest']|] eqn:E; [|done]. apply pem_next_shorter in E.
  destruct (negb _); [apply IH; lia|]. unfold mbind, M_bind. destruct (lift _ s) as [[cert|e] s1]; [|done].
  destruct (printCertSummary cert s1) as [[[]|e] s2]; [|done]. apply IH. lia.
Qed.
