(* ===== verification/CliConfigSpec.v ===== *)
(** [fiocli configs set] against the server: what a command leaves in the history
    of the configurations. *)
From S2P Require Import Prelude GoStrings Bytes GoPath Schema World BaseFs Crypto Encoding Models Tar Configs Updates FsHandles Tuf TufFs ApiStorage ApiUpdate Http Scopes Users Auth UiApi UiUpdates UiSpec TufLife Gateway WebPages CliApi CliConfigs CliSpec.

Section ConfigsSet.
Context `{HD : Digest, HDL : !DigestLaws}.
Context `{JF : JSON (gmap string ConfigFile), JL : !JSONLaws (gmap string ConfigFile), JR : JSON config_request, JS : JSON config_set}.
Context `{EN : Encoders, DS : Decode config_set}.
Context {P : Type} (dispatch : http_request -> option (handler P * request)) (a : Api) (h : UiApi.handlers) (user : User) (rget : request).
Notation net := (server_net dispatch).
Notation uri := "/v1/configs/factory".
Notation factory := (filepath_Join [FsConfig_ConfigsDir (h_root h); ConfigsFactoryDir]).

(** The PUT request of a client with a JSON body. *)
Definition put_request (resource body : string) : http_request :=
  {| hq_Method := PUT; hq_URL := api_URL a +:+ resource;
     hq_Header := <["authorization" := ["Bearer " +:+ api_Token a]]> {["content-type" := ["application/json"]]};
     hq_Body := Some (body, None) |}.
Definition files_of (raw : string) : option (gmap string ConfigFile) := match json_Unmarshal raw with Ok m => Some m | Err _ => None end.
Definition set_of (cfg : ConfigFileSet) : config_set :=
  {| cs_CreatedAt := Configs.CreatedAt cfg; cs_CreatedBy := CreatedBy cfg; cs_Reason := Reason cfg; cs_Files := files_of (RawFiles cfg) |}.

(** The router, and that the server decodes what the client encodes. *)
Context (Hget : dispatch (get_request a uri) = Some (factoryConfigsGet h user, rget)).
Context (Hput : ∀ body, ∃ r, dispatch (put_request uri body) = Some (factoryConfigsPut h user, r) ∧ rq_body r = Ok body).
Context (Hrequest : ∀ c : config_set, json_Unmarshal (json_Marshal c) = Ok {| cq_Reason := cs_Reason c; cq_Files := cs_Files c |}).

(** What the client reads as the configuration of a history. *)
Definition latest_set (hist : list entry) : config_set :=
  match last hist with Some e => set_of (entry_set e) | None => zero_configs end.
(** The client decodes what the server answers about this history. *)
Definition answer_decodes (hist : list entry) : Prop :=
  ∀ e, last hist = Some e -> any_json (entry_set e) <> "" ∧ json_Decode (any_json (entry_set e), None) = Ok (set_of (entry_set e)).
Definition latest_files (hist : list entry) : gmap string ConfigFile := default ∅ (cs_Files (latest_set hist)).

Lemma latest_one (hist : list entry) : Configs.latest_of 1%nat hist = match last hist with Some e => [e] | None => [] end.
Proof.
  destruct hist as [|e l _] using rev_ind; [done|]. rewrite last_snoc. unfold Configs.latest_of. rewrite length_app. simpl.
  replace (length l + 1 - 1)%nat with (length l) by lia. by rewrite drop_app_length.
Qed.
Lemma read_factory hist k w :
  repr factory hist k w -> faults w = [] -> (1 <= k \/ length hist <= k)%nat ->
  ReadFactoryConfigHistory (FsConfig_ConfigsDir (h_root h)) 1 true w =
    (Ok (match last hist with Some e => [entry_set e] | None => [] end), w).
Proof.
  intros Hrep Hf Hk. unfold ReadFactoryConfigHistory, factoryLocalHandle. cbn [mbind].
  erewrite bind_Ok; [|reflexivity]. apply wrap_Ok. rewrite (readHistory_repr _ _ _ 1%nat) by done. rewrite latest_one. by destruct (last hist).
Qed.
Lemma serve_get hist k w (p : P) :
  repr factory hist k w -> faults w = [] -> (1 <= k \/ length hist <= k)%nat ->
  serve (factoryConfigsGet (P:=P) h user) rget w p =
    (match last hist with Some e => (200, [Respond 200 (any_json (entry_set e))]) | None => (204, [Respond 204 ""]) end, w, p).
Proof.
  intros Hrep Hf Hk. unfold serve, factoryConfigsGet, or_error. unfold mbind, M_bind, try, io. cbn [sv_world].
  rewrite (read_factory hist k) by done. by destruct (last hist).
Qed.
Lemma client_get hist k w (p : P) (host : world) out :
  answer_decodes hist -> repr factory hist k w -> faults w = [] -> (1 <= k \/ length hist <= k)%nat ->
  @Configs_Get _ net _ a Configs_Factory (Client host (w, p) out) = (Ok (latest_set hist), Client host (w, p) out).
Proof.
  intros Hanswer Hrep Hf Hk. unfold Configs_Get, api_Get, GetWithHeaders. cbn [sc_uri Configs_Factory]. unfold latest_set.
  pose proof (serve_get hist k w p Hrep Hf Hk) as Hs.
  set (resp := match last hist with Some e => response_of 200 [Respond 200 (any_json (entry_set e))] | None => response_of 204 [Respond 204 ""] end).
  assert (@api_get _ net a uri [] (Client host (w, p) out) = (Ok resp, Client host (w, p) out)) as Er.
  { rewrite (get_runs (N := net) a uri _ resp (w, p)); [done|done| |by unfold resp; destruct (last hist)].
    cbn [server_net round_trip cl_remote]. rewrite Hget. cbn [fst snd]. rewrite Hs. unfold resp. by destruct (last hist). }
  assert ((v ← (if hr_ContentLength resp =? 0 then mret zero_configs else lift (json_Decode (hr_Body resp))); mret (v, hr_Header resp))
    (Client host (w, p) out) = (Ok (latest_set hist, hr_Header resp), Client host (w, p) out)) as Ev.
  { unfold resp, latest_set. destruct (last hist) as [e|] eqn:El; [|done]. destruct (Hanswer e El) as [Hne Hd].
    cbn. rewrite str_app_nil_r, Hd. destruct (any_json (entry_set e)); [done|]. by destruct (Z.eqb_spec (len (String a0 s)) 0). }
  unfold latest_set in Ev. unfold mbind at 1, M_bind at 1, mbind at 1, M_bind at 1. rewrite Er.
  rewrite (closing_run (N := net) resp _ _ _ _ ltac:(by unfold resp; destruct (last hist)) Ev). done.
Qed.

(** *** The server's side of a PUT *)

Lemma repr_mkdirs root hist k w r w1 :
  repr root hist k w -> mkdirs root true w = (r, w1) -> repr root hist k w1 ∧ clock w1 = clock w ∧ (faults w = [] -> faults w1 = []).
Proof.
  intros [Hr Hd Hf Hh Hj Hk] E. pose proof (fs_only_mkdirs root true _ _ _ E) as [(Hc & _ & _ & _ & Hs) _].
  split; [|split; [done|by apply suffix_no_faults]].
  apply MkdirAll_effect in E. assert (∀ n, name_ok n -> fs w1 !! path_of root n = fs w !! path_of root n) as Heq.
  { intros n Hn. destruct (E (path_of root n)) as [Hsame|(Hin & _)]; [done|]. exfalso. apply ancestors_comps in Hin; [|done].
    pose proof (dir_ok_nonempty _ Hr). rewrite comps_app_name, length_app in Hin by done. simpl in Hin. lia. }
  constructor; try done.
  - unfold is_dir in *. rewrite bool_decide_eq_true in *. destruct Hd as [?|[?|Hd]]; [by auto..|]. right. right.
    destruct (E root) as [->|(_ & Hn & _)]; [done|congruence].
  - intros n Hn. rewrite Heq by done. by apply Hf.
  - unfold content_of in *. by rewrite Heq by apply journal_name_ok.
  - intros e He. destruct (Hk e He) as [H1 H2]. unfold is_file, content_of in *. by rewrite Heq by apply sha_name_ok.
Qed.
Lemma save_factory hist k w content u reason w' :
  let e := Entry content u reason (clock w / 1000) in
  repr factory hist k w -> faults w = [] -> entry_ok e -> collision_free (content :: (e_content <$> hist)) ->
  SaveFactoryConfig (h_root h) content u reason w = (Ok tt, w') ->
  ∃ k', (1 <= k')%nat ∧ repr factory (hist ++ [e]) k' w' ∧ faults w' = [].
Proof.
  intros e Hrep Hf He Hcf E. unfold SaveFactoryConfig in E. apply bind_inv_Ok in E as ([] & w1 & Ew & E).
  unfold WriteFactoryConfig, factoryLocalHandle in Ew. apply bind_inv_Ok in Ew as (d & w2 & Ed & Ew).
  apply bind_inv_Ok in Ed as ([] & w3 & Em & Ed). apply ret_inv in Ed as [[= ->] ->]. apply wrap_Ok_inv in Em.
  apply (repr_mkdirs _ hist k) in Em as (Hrep3 & Hc3 & Hf3); [|done]. apply wrap_Ok_inv in Ew.
  destruct (writeConfig_run _ _ _ _ content u reason Hrep3 (Hf3 Hf)) as (w4 & Ew4 & Hf4). rewrite Ew in Ew4. injection Ew4 as <-.
  pose proof (writeConfig_repr _ hist k w3 content u reason w1 Hrep3) as Hw. rewrite Hc3 in Hw. specialize (Hw He Hcf Ew).
  unfold ignore in E. destruct (PurgeFactoryConfigHistory _ _ w1) as [r w5] eqn:Ep. injection E as <-.
  unfold PurgeFactoryConfigHistory, factoryLocalHandle in Ep.
  destruct (mkdirs factory true w1) as [rm w6] eqn:Em.
  apply (repr_mkdirs _ (hist ++ [e]) (S k)) in Em as Hm; [|done]. destruct Hm as (Hrep6 & _ & Hf6).
  unfold mbind, M_bind, wrap, map_err in Ep. rewrite Em in Ep.
  destruct rm as [[]|er]; simpl in Ep; [|injection Ep as _ <-; exists (S k); split_and!; [lia|done|auto]].
  destruct (purgeHistory_repr _ (hist ++ [e]) (S k) 10 w6 Hrep6 (Hf6 Hf4)) as (w7 & E7 & Hf7 & _ & Hrep7 & _).
  change (Z.of_nat 10) with ConfigHistoryLimit in E7. rewrite E7 in Ep. injection Ep as _ <-.
  exists (Nat.min (S k) 10). split_and!; [lia|done|done].
Qed.
Lemma serve_put hist k w (p : P) r reason files code out w' p' :
  repr factory hist k w -> faults w = [] -> (1 <= k \/ length hist <= k)%nat ->
  rq_body r = Ok (json_Marshal (put_set reason (Some files))) ->
  serve (factoryConfigsPut (P:=P) h user) r w p = (code, out, w', p') -> 200 <= code < 300 ->
  p' = p ∧ ((∃ e, last hist = Some e ∧ e_content e = json_Marshal files ∧ w' = w) \/
            SaveFactoryConfig (h_root h) (json_Marshal files) (Username user) reason w = (Ok tt, w')).
Proof.
  intros Hrep Hf Hk Hb E Hcode. unfold serve, factoryConfigsPut in E.
  assert ((∃ c m, validateConfigSet (P:=P) r true (Server w p []) = (Err (ErrHTTP c m), Server w p []) ∧ c = 400) \/
    validateConfigSet (P:=P) r true (Server w p []) = (Ok (reason, json_Marshal files), Server w p [])) as [(c & m & Ev & ->)|Ev].
  { unfold validateConfigSet. rewrite Hb. cbn [mbind result_bind]. rewrite Hrequest. cbn [cq_Reason cq_Files put_set cs_Reason cs_Files].
    destruct (ValidConfigsReasonRegex reason); [|left; by eexists _, _]. cbn [negb default from_option]. unfold Datatypes.id.
    destruct (bool_decide (is_Some (files !! ConfigSotaOverride))) eqn:Hs; cbn [andb]; rewrite ?Hs; [left; by eexists _, _|by right]. }
  { unfold mbind, M_bind in E. rewrite Ev in E. cbn in E. injection E as <- _ _ _. lia. }
  unfold mbind, M_bind at 1 in E. rewrite Ev in E. cbn [fst snd] in E.
  unfold or_error at 1, M_bind at 1, try, io, mbind, M_bind at 1 in E. cbn [sv_world] in E.
  rewrite (read_factory hist k) in E by done. cbn [mret M_ret with_world sv_world sv_front sv_out] in E. unfold save_config in E.
  destruct (last hist) as [e|] eqn:Hl.
  - cbn [RawFiles entry_set] in E. destruct (String.eqb_spec (json_Marshal files) (e_content e)) as [Heq|Hne].
    + cbn in E. injection E as _ _ <- <-. split; [done|]. left. by exists e.
    + unfold or_error, try, io, mbind, M_bind in E. cbn [with_world sv_world sv_front sv_out snd fst mret M_ret] in E.
      destruct (SaveFactoryConfig _ _ _ _ w) as [[[]|er] w1] eqn:Es; cbn in E; injection E as <- _ <- <-; [by auto|lia].
  - unfold or_error, try, io, mbind, M_bind in E. cbn [with_world sv_world sv_front sv_out snd fst mret M_ret] in E.
    destruct (SaveFactoryConfig _ _ _ _ w) as [[[]|er] w1] eqn:Es; cbn in E; injection E as <- _ <- <-; [by auto|lia].
Qed.

(** *** The command *)

Context `{CC : CertCodec, CK : CertKeys, EC : Ecies, DA : Decode ApiDevice, JO : JSON (option (gmap string ConfigFile))}.

Lemma client_put hist k w p (host : world) out reason files s' :
  repr factory hist k w -> faults w = [] -> (1 <= k \/ length hist <= k)%nat ->
  let e := Entry (json_Marshal files) (Username user) reason (clock w / 1000) in
  entry_ok e -> collision_free (json_Marshal files :: (e_content <$> hist)) ->
  @Configs_Put _ net _ a Configs_Factory (put_set reason (Some files)) (Client host (w, p) out) = (Ok tt, s') ->
  ∃ w' hist' k', cl_remote s' = (w', p) ∧ repr factory hist' k' w' ∧ faults w' = [] ∧ (1 <= k')%nat ∧
    (e_content <$> last hist') = Some (json_Marshal files) ∧
    (hist' = hist ++ [e] \/ hist' = hist ∧ (e_content <$> last hist) = Some (json_Marshal files)).
Proof.
  intros Hrep Hf Hk e He Hcf E. unfold Configs_Put, api_Put, api_send in E. cbn [handleRequestBody] in E.
  apply bind_inv_Ok in E as (b & s1 & E & Er). apply ret_inv in Er as [_ ->].
  apply bind_inv_Ok in E as (resp & s2 & E & Ec).
  set (body := json_Marshal (put_set reason (Some files))) in *.
  destruct (Hput body) as (r & Hd & Hb).
  change (Client_Do a _) with (@round _ net (put_request uri body)) in E.
  unfold round in E. cbn [server_net round_trip cl_remote] in E. rewrite Hd in E. cbn [fst snd] in E.
  destruct (serve (factoryConfigsPut h user) r w p) as [[[code outs] w1] p1] eqn:Es. injection E as <- <-.
  unfold closing in Ec. apply bind_try_inv in Ec as (r0 & s3 & Em & Ec). apply bind_inv_Ok in Ec as ([] & s4 & Ecl & Ec).
  cbn in Ecl. injection Ecl as <-. apply lift_inv in Ec as [-> ->]. unfold status_ok in Em. cbn [hr_Status response_of] in Em.
  destruct (Z.leb_spec 200 code), (Z.ltb_spec code 300); cbn [andb] in Em; try (apply fail_inv in Em as [[=] _]).
  apply lift_inv in Em as [_ ->]. cbn [cl_remote].
  destruct (serve_put hist k w p r reason files code outs w1 p1) as [-> Hcase]; try done.
  destruct Hcase as [(e0 & Hl & Hc & ->)|Hs].
  - exists w, hist, (Nat.max 1 k). assert ((e_content <$> last hist) = Some (json_Marshal files)) as Hlast by (rewrite Hl; cbn; by rewrite Hc).
    destruct Hk as [Hk|Hk]; [rewrite Nat.max_r by done; by auto 10|].
    destruct hist as [|x hist]; [done|]. simpl in Hk. rewrite Nat.max_r by lia. split_and!; auto. lia.
  - destruct (save_factory hist k w (json_Marshal files) (Username user) reason w1 Hrep Hf He Hcf Hs) as (k' & Hk' & Hrep' & Hf').
    exists w1, (hist ++ [e]), k'. split_and!; try done; [by rewrite last_snoc|by left].
Qed.
Lemma files_of_args_remote encrypt args files s r s' :
  files_of_args (R:=world * P) encrypt args files s = (r, s') -> cl_remote s' = cl_remote s.
Proof.
  revert files s. induction args as [|arg args IH]; intros files s E; cbn [files_of_args] in E; [by apply ret_inv in E as [_ ->]|].
  unfold mbind, M_bind, lift, on_host in E. destruct (file_arg arg) as [[n [c|q]]|e]; cbn in E; [by apply IH in E| |by injection E as _ <-].
  destruct (os_ReadFile (Clean q) (cl_host s)) as [[c|e] w1]; cbn in E; [by apply IH in E|by injection E as _ <-].
Qed.
End ConfigsSet.

(** C10. [fiocli configs set] stores exactly what its help says: when it succeeds
    against a server without failures, the history of the global configuration
    gets one new entry under the name of the user, or none when nothing changes,
    and the latest entry then reads back as the files named on the command line
    together with, unless it was told to replace them, those of the configuration
    before that are not named; a file named wins over the one there was. *)
Theorem configs_set_stored `{HD : Digest, HDL : !DigestLaws, JF : JSON (gmap string ConfigFile), JL : !JSONLaws (gmap string ConfigFile)}
  `{JR : JSON config_request, JS : JSON config_set, EN : Encoders, DS : Decode config_set}
  `{CC : CertCodec, CK : CertKeys, EC : Ecies, DA : Decode ApiDevice, JO : JSON (option (gmap string ConfigFile))}
  (P : Type) (dispatch : http_request -> option (handler P * request)) (a : Api) (h : UiApi.handlers) (user : User) (rget : request)
  (Hget : dispatch (get_request a "/v1/configs/factory") = Some (factoryConfigsGet h user, rget))
  (Hput : ∀ body, ∃ r, dispatch (put_request a "/v1/configs/factory" body) = Some (factoryConfigsPut h user, r) ∧ rq_body r = Ok body)
  (Hrequest : ∀ c : config_set, json_Unmarshal (json_Marshal c) = Ok {| cq_Reason := cs_Reason c; cq_Files := cs_Files c |})
  (hist : list entry) (Hanswer : answer_decodes hist) (k : nat) (w : world) (p : P) (s s1 s' : client (world * P)) (args : list string) (mine : gmap string ConfigFile)
  (stdin : stream) (replace : bool) (reason : string)
  (Hremote : cl_remote s = (w, p)) (Hfaults : faults w = [])
  (Hrep : repr (filepath_Join [FsConfig_ConfigsDir (h_root h); ConfigsFactoryDir]) hist k w) (Hk : (1 <= k \/ length hist <= k)%nat)
  (Hmine : files_of_args false args ∅ s = (Ok mine, s1))
  (Hentry : entry_ok (Entry (json_Marshal (if replace then mine else mine ∪ latest_files hist)) (Username user) reason (clock w / 1000)))
  (Hsha : collision_free (json_Marshal (if replace then mine else mine ∪ latest_files hist) :: (e_content <$> hist)))
  (Hrun : @setConfigs _ (server_net dispatch) CC CK EC DS DA JS JO a Configs_Factory stdin args false false replace reason s = (Ok tt, s')) :
  ∃ w' hist' cfg, cl_remote s' = (w', p) ∧
    ReadFactoryConfigHistory (FsConfig_ConfigsDir (h_root h)) 1 true w' = (Ok [cfg], w') ∧
    files_of (RawFiles cfg) = Some (if replace then mine else mine ∪ latest_files hist) ∧
    (hist' = hist \/ ∃ e, hist' = hist ++ [e] ∧ e_user e = Username user ∧ e_reason e = reason) ∧
    ∃ k', repr (filepath_Join [FsConfig_ConfigsDir (h_root h); ConfigsFactoryDir]) hist' k' w'.
Proof.
  pose proof (files_of_args_remote _ _ _ _ _ _ Hmine) as Hr1. rewrite Hremote in Hr1. destruct s1 as [host1 rem1 out1]. cbn in Hr1. subst rem1.
  unfold setConfigs in Hrun. cbv iota in Hrun. apply bind_inv_Ok in Hrun as (m1 & s2 & E1 & Hrun).
  apply bind_inv_Ok in E1 as (m0 & s3 & E0 & E1). rewrite Hmine in E0. injection E0 as <- <-. apply ret_inv in E1 as [[= ->] ->].
  apply bind_inv_Ok in Hrun as (m2 & s4 & E2 & Hrun). apply ret_inv in E2 as [[= ->] ->].
  apply bind_inv_Ok in Hrun as (m3 & s5 & E3 & Hrun).
  assert (m3 = Some (if replace then mine else mine ∪ latest_files hist) ∧ s5 = Client host1 (w, p) out1) as [-> ->].
  { destruct replace; [by apply ret_inv in E3 as [[= ->] ->]|].
    apply bind_inv_Ok in E3 as (ex & s6 & Eg & E3). rewrite (client_get dispatch a h user rget Hget hist k) in Eg by done.
    injection Eg as <- <-. by apply lift_inv in E3 as [[= <-] ->]. }
  eapply client_put in Hrun as (w' & hist' & k' & Hw & Hrep' & Hf' & Hk' & Hlast & Hcase); [|eassumption..].
  destruct (last hist') as [e|] eqn:El; [|done]. cbn in Hlast. injection Hlast as Hc.
  exists w', hist', (entry_set e). split; [done|]. split; [rewrite (read_factory h hist' k') by auto; by rewrite El|].
  split; [unfold files_of; cbn [RawFiles entry_set]; by rewrite Hc, json_roundtrip|].
  split; [|by exists k']. destruct Hcase as [->|[-> _]]; [right; by eexists|by left].
Qed.

(** A change of the update settings of all devices at once ([fiocli configs
    updates] without a group or a device) is always refused by the server: when
    the command succeeds it has found nothing to change. *)
Theorem global_updates_refused `{HD : Digest, HDL : !DigestLaws, JF : JSON (gmap string ConfigFile), TT : TomlTree}
  `{JR : JSON config_request, JS : JSON config_set, EN : Encoders, DS : Decode config_set}
  (P : Type) (dispatch : http_request -> option (handler P * request)) (a : Api) (h : UiApi.handlers) (user : User) (rget : request)
  (Hget : dispatch (get_request a "/v1/configs/factory") = Some (factoryConfigsGet h user, rget))
  (Hput : ∀ body, ∃ r, dispatch (put_request a "/v1/configs/factory" body) = Some (factoryConfigsPut h user, r) ∧ rq_body r = Ok body)
  (Hrequest : ∀ c : config_set, json_Unmarshal (json_Marshal c) = Ok {| cq_Reason := cs_Reason c; cq_Files := cs_Files c |})
  (hist : list entry) (Hanswer : answer_decodes hist) (k : nat) (w : world) (p : P) (host : world) (out : list printed) (apps tag reason : string) (s' : client (world * P))
  (Hfaults : faults w = []) (Hrep : repr (filepath_Join [FsConfig_ConfigsDir (h_root h); ConfigsFactoryDir]) hist k w)
  (Hk : (1 <= k \/ length hist <= k)%nat)
  (Hrun : @configs_updates _ (server_net dispatch) TT DS JS a "" "" apps tag reason (Client host (w, p) out) = (Ok tt, s')) :
  s' = Client host (w, p) (out ++ [Out ("No changes found." +:+ nl)]).
Proof.
  unfold configs_updates in Hrun. apply bind_lift_Ok in Hrun as (args & _ & Hrun). change (getSpecificApi "" "") with Configs_Factory in Hrun.
  unfold setUpdates in Hrun. rewrite (bind_Ok _ _ _ _ _ (client_get dispatch a h user rget Hget hist k w p host out Hanswer Hrep Hfaults Hk)) in Hrun.
  cbv zeta in Hrun. apply bind_lift_Ok in Hrun as (new & _ & Hrun). destruct (String.eqb new _); [by injection Hrun as <-|]. exfalso.
  set (files := <[ConfigSotaOverride := _]> _) in Hrun. set (body := json_Marshal (put_set reason (Some files))).
  unfold Configs_Put, api_Put, api_send in Hrun. cbn [handleRequestBody] in Hrun.
  apply bind_inv_Ok in Hrun as (b & s1 & E & _). apply bind_inv_Ok in E as (resp & s2 & E & Ec). fold body in E.
  destruct (Hput body) as (r & Hd & Hb).
  change (Client_Do a _) with (@round _ (server_net dispatch) (put_request a "/v1/configs/factory" body)) in E.
  unfold round in E. cbn [server_net round_trip cl_remote] in E. rewrite Hd in E. cbn [fst snd] in E.
  destruct (serve (factoryConfigsPut h user) r w p) as [[[code outs] w1] p1] eqn:Es. injection E as <- <-.
  assert (code = 400) as ->.
  { unfold serve, factoryConfigsPut in Es. assert (∃ m, validateConfigSet (P:=P) r true (Server w p []) = (Err (ErrHTTP 400 m), Server w p [])) as (m & Ev).
    { unfold validateConfigSet. rewrite Hb. cbn [mbind result_bind]. unfold body. rewrite Hrequest. cbn [cq_Reason cq_Files put_set cs_Reason cs_Files].
      destruct (ValidConfigsReasonRegex reason); [|by eexists]. cbn [negb default from_option]. unfold Datatypes.id.
      rewrite (bool_decide_true (is_Some (files !! _))) by (unfold files; rewrite lookup_insert_eq; eauto). cbn. by eexists. }
    unfold mbind, M_bind in Es. rewrite Ev in Es. cbn in Es. by injection Es as <- _ _ _. }
  unfold closing in Ec. apply bind_try_inv in Ec as (r0 & s3 & Em & Ec). apply bind_inv_Ok in Ec as ([] & s4 & Ecl & Ec).
  apply lift_inv in Ec as [-> _]. by apply fail_inv in Em as [[=] _].
Qed.
