(* ===== verification/WitnessesCli.v ===== *)
(** Concrete runs for the theorems on the command line client: for each an input
    on which its hypotheses hold, with the theorem applied to it. *)
From S2P Require Import Prelude GoStrings Bytes GoPath Schema World BaseFs Crypto Encoding Models Tar Configs Updates FsHandles Tuf TufFs Toys ApiStorage ApiUpdate Http Scopes Users Auth UiApi UiUpdates Gateway WebPages CliApi CliLogin CliConfigs CliShow CliArchive CliProgress CliSpec CliConfigSpec Witnesses CliWalk.

(** ** Logging in *)

Module LoginRuns.
#[export] Instance tokens_context : Tokens Context := tokens_iso (λ c, (URL c, Token c)) (λ p, {| URL := p.1; Token := p.2 |}).
#[export] Instance tokens_context_laws : TokensLaws Context. Proof. apply tokens_iso_laws. by intros []. Qed.
Definition of_opt {A} (o : option A) : list A := match o with Some a => [a] | None => [] end.
#[export] Instance tokens_config : Tokens Config :=
  tokens_iso (λ c, (ActiveContext c, of_opt (Contexts c))) (λ p, {| ActiveContext := p.1; Contexts := head p.2 |}).
#[export] Instance tokens_config_laws : TokensLaws Config. Proof. apply tokens_iso_laws. by intros [? []]. Qed.
(** A YAML codec, and a home. *)
#[export] Instance env : CliEnv :=
  {| yaml_Unmarshal := @json_Unmarshal Config toy_codec; yaml_Marshal c := Ok (@json_Marshal Config toy_codec c); UserHomeDir := Ok "/home/ann" |}.
#[export] Instance env_laws : CliEnvLaws.
Proof. constructor. intros c data [= <-]. exact (@json_roundtrip Config toy_codec toy_codec_laws c). Qed.
#[export] Instance decode_code : Decode DeviceCodeResponse :=
  {| json_Decode _ := Ok {| dcr_DeviceCode := "dev"; dcr_UserCode := "ABCD"; VerificationURI := "/activate"; VerificationURIComplete := "/activate";
                            ExpiresIn := 900; Interval := 5 |} |}.
#[export] Instance token_json : JSON DeviceTokenResponse :=
  {| json_Marshal := UiUpdates.AccessToken; json_Unmarshal s := Ok (Build_DeviceTokenResponse s "Bearer" 0 "") |}.
#[export] Instance error_json : JSON oauth2Error :=
  {| json_Marshal := oe_Error; json_Unmarshal s := Ok {| oe_Error := s; ErrorDescription := "" |} |}.
(** The first two polls find the authorization pending. *)
Definition answer (status : Z) (body : string) : http_response :=
  {| hr_Status := status; hr_Header := ∅; hr_ContentLength := len body; hr_Body := (body, None); hr_CloseErr := None |}.
#[export] Instance net : Network nat :=
  {| NewRequest _ := None;
     round_trip q n :=
       if HasSuffix (hq_URL q) "/device/" then (Ok (answer 200 "code"), n)
       else if (n <? 2)%nat then (Ok (answer 400 "authorization_pending"), S n) else (Ok (answer 200 "secret"), n);
     remote_wait _ n := n |}.
Definition s0 : client nat := Client (World {["/home" := Dir; "/home/ann" := Dir; "/home/ann/.config" := Dir]} 1000 [] empty_db (λ _, "") 0) 0%nat [].
Definition logged_in : result (option unit) * client nat := login 200 "" "work" "http://server" "" "devices:read" 30 true s0.
End LoginRuns.
Import LoginRuns.

Lemma login_polls_end_witness : ∃ v s',
  poll_loop (R:=nat) 200 "http://server" "dev" (wrap64 (5 * second_ns)) (clock_ns LoginRuns.s0 + wrap64 (900 * second_ns)) LoginRuns.s0 =
    (Ok (Some v), s').
Proof.
  refine (login_polls_end (R:=nat) "http://server"
    {| dcr_DeviceCode := "dev"; dcr_UserCode := ""; VerificationURI := ""; VerificationURIComplete := ""; ExpiresIn := 900; Interval := 5 |}
    200 LoginRuns.s0 _ _ _); vm_compute; intuition discriminate.
Defined.

Lemma login_found_by_commands_witness : ∃ s',
  login (R:=nat) 200 "" "work" "http://server" "" "devices:read" 30 true LoginRuns.s0 = (Ok (Some tt), s') ∧
  PersistentPreRunE "devices" "" "" s' = (Ok (Some {| api_URL := "http://server"; api_Token := "secret" |}), s').
Proof.
  destruct (login (R:=nat) 200 "" "work" "http://server" "" "devices:read" 30 true LoginRuns.s0) as [r s'] eqn:E.
  assert (r = Ok (Some tt)) as -> by (refine (eq_trans (eq_sym (f_equal fst E)) _); vm_compute; reflexivity).
  exists s'. split; [reflexivity|].
  destruct (login_found_by_commands (R:=nat) 200 "" "work" "http://server" "" "devices:read" 30 true LoginRuns.s0 s')
    as (tok & p & old & cfg & _ & Hgr & _ & _ & _ & _ & Hcmd); [reflexivity|discriminate|discriminate|exact E|].
  assert (tok = "secret") as ->.
  { destruct (Hgr eq_refl) as (code & q & n & n' & resp & Hrt & Hu & _ & Hp). unfold round_trip, LoginRuns.net in Hrt. rewrite Hu in Hrt.
    change (HasSuffix ("http://server" +:+ token_uri) "/device/") with false in Hrt. cbv iota in Hrt.
    destruct (n <? 2)%nat; injection Hrt as <- _; vm_compute in Hp; [discriminate Hp|]. injection Hp as <-. reflexivity. }
  apply Hcmd; [discriminate|discriminate|discriminate|]. right. split; reflexivity.
Defined.

(** ** Uploads *)

(** A run by its actions. *)
Fixpoint archive_steps {A} (cap : nat) (sizer : A -> Z) (l : list archive_action) (s : archive_state A) : option (archive_state A) :=
  match l with [] => Some s | a :: l' => s' ← archive_step cap sizer a s; archive_steps cap sizer l' s' end.
Lemma archive_steps_run {A} cap sizer source (l l0 : list archive_action) (s s' : archive_state A) :
  archive_run cap sizer source l0 s -> archive_steps cap sizer l s = Some s' -> archive_run cap sizer source (l0 ++ l) s'.
Proof.
  revert l0 s. induction l as [|a l IH]; intros l0 s Hr E; cbn in E; [injection E as <-; by rewrite app_nil_r|].
  destruct (archive_step cap sizer a s) as [s1|] eqn:Ea; [|done]. cbn in E.
  specialize (IH (l0 ++ [a]) s1 (run_step _ _ _ _ _ _ _ Hr Ea) E). by rewrite <-app_assoc in IH.
Qed.
(** Two files, and a consumer that takes the first before the second is found. *)
Lemma upload_source_complete_witness : ∃ s,
  archive_run 1 (A:=string) len (["a"; "bcd"], None)
    [Take; Send; Recv true; Take; Send; Take; Close; Recv true; SinkClosed; Close; FaultClosed; ListenDone; Close; Done] s ∧
  ap_yielded s = ["a"; "bcd"] ∧ ap_total s = Some 4.
Proof.
  set (l := [Take; Send; Recv true; Take; Send; Take; Close; Recv true; SinkClosed; Close; FaultClosed; ListenDone; Close; Done]).
  destruct (archive_steps 1 (A:=string) len l (archive_start (["a"; "bcd"], None))) as [s|] eqn:E; [|vm_compute in E; discriminate E].
  pose proof (archive_steps_run 1 len (["a"; "bcd"], None) l [] _ _ (run_start _ _ _) E) as Hrun. cbn [app] in Hrun.
  assert (ap_consumer s = Stopped Complete) as Hend by (vm_compute in E; injection E as <-; reflexivity).
  exists s. split; [exact Hrun|].
  destruct (upload_source_complete string 1 len (["a"; "bcd"], None) l s) as (_ & _ & H & _); [lia|exact Hrun|].
  destruct (H Hend) as (Hy & _ & Ht). split; [exact Hy|exact Ht].
Defined.

(** ** Against the server *)

Module ServerRuns.
Definition handlers : UiApi.handlers :=
  {| h_root := "/data"; h_tuf := tuf_init "/data/tuf" "/data/auth" "/data/updates"; h_users := UserRuns.h; h_ca := None |}.
Definition user : User := UserRuns.expect.
Definition api : Api := {| api_URL := "http://server"; api_Token := "secret" |}.
Definition request_of (q : http_request) (params : gmap string string) : request :=
  {| rq_method := hq_Method q; rq_path := "/"; rq_route := "/"; rq_ip := "10.0.0.1"; rq_scheme := "http"; rq_host := "server";
     rq_headers := hq_Header q; rq_cookies := ∅; rq_params := params; rq_query := ∅; rq_form := ∅;
     rq_body := match hq_Body q with Some st => ReadAll st | None => Ok "" end; rq_csrf := None |}.

(** The log of an update with two lines. *)
Definition tail_route (q : http_request) : option (handler unit * request) :=
  Some (updateTail handlers user, request_of q {["update" := "u1"]}).
Definition log_world : world :=
  World {["/data" := Dir; "/data/updates" := Dir; "/data/updates/u1" := Dir; "/data/updates/u1/logs" := Dir;
          "/data/updates/u1/logs/rollouts.log" := File ("one" +:+ nl +:+ "two" +:+ nl) 416 5]} 1000 [] empty_db (λ _, "") 0.
Definition host : world := World ∅ 1000 [] empty_db (λ _, "") 0.

(** The configurations of all devices, on both sides in the codec of the toys. *)
#[export] Instance tokens_file : Tokens ConfigFile :=
  tokens_iso (λ f, (cf_Value f, (Unencrypted f, OnChanged f))) (λ p, {| cf_Value := p.1; Unencrypted := p.2.1; OnChanged := p.2.2 |}).
#[export] Instance tokens_file_laws : TokensLaws ConfigFile. Proof. apply tokens_iso_laws. by intros []. Qed.
#[export] Instance files_json : JSON (gmap string ConfigFile) := toy_codec.
#[export] Instance files_json_laws : JSONLaws (gmap string ConfigFile) := toy_codec_laws.
Notation sent := (string * list (gmap string ConfigFile))%type.
#[export] Instance set_json : JSON config_set :=
  {| json_Marshal c := @json_Marshal sent toy_codec (cs_Reason c, LoginRuns.of_opt (cs_Files c)); json_Unmarshal _ := Err ErrIO |}.
#[export] Instance request_json : JSON config_request :=
  {| json_Marshal _ := "";
     json_Unmarshal s := match @json_Unmarshal sent toy_codec s with Ok p => Ok {| cq_Reason := p.1; cq_Files := head p.2 |} | Err e => Err e end |}.
#[export] Instance option_json : JSON (option (gmap string ConfigFile)) := {| json_Marshal _ := ""; json_Unmarshal _ := Err ErrIO |}.
#[export] Instance encoders : Encoders := {| any_json _ _ := "" |}.
#[export] Instance digest : Digest := toy_digest.
#[export] Instance digest_laws : DigestLaws := toy_digest_laws.
#[export] Instance decode_any A : Decode A := {| json_Decode _ := Err ErrIO |}.
#[export] Instance certs : CertCodec := {| pem_cert raw := raw; pem_decode s := Some (s, ""); ParseCertificate s := Err ErrIO |}.
#[export] Instance keys : CertKeys := {| cert_public_key _ := KeyOther ""; base64_RawURL s := s |}.
#[export] Instance ecies : Ecies := {| ecies_Encrypt _ _ s := Ok s; base64_Std s := s |}.
Definition configs_route (q : http_request) : option (handler unit * request) :=
  match hq_Method q with
  | GET => Some (factoryConfigsGet handlers user, request_of q ∅)
  | PUT => Some (factoryConfigsPut handlers user, request_of q ∅)
  | _ => None
  end.
Definition operator : client (world * unit) := Client host (demo_world, tt) [].
Definition mine : gmap string ConfigFile := {["os" := {| cf_Value := "v=2"; Unencrypted := true; OnChanged := [] |}]}.
End ServerRuns.
Import ServerRuns.

Lemma tail_prints_log_witness : ∃ w',
  @tailUpdate _ (server_net tail_route) api "u1" "" (Client host (log_world, tt) []) =
    (Ok tt, Client host (w', tt) [Out ("Tailing all rollouts for update u1" +:+ nl); Out ("Press Ctrl+C to stop..." +:+ nl);
                                 Out ("one" +:+ nl); Out ("two" +:+ nl)]).
Proof.
  destruct (TailRolloutsLog "/data" "u1" log_world) as [r w'] eqn:E.
  assert (r = Ok [Ok "one"; Ok "two"]) as -> by (refine (eq_trans (eq_sym (f_equal fst E)) _); vm_compute; reflexivity).
  exists w'.
  refine (tail_prints_log tail_route api handlers user (request_of (get_request api "/v1/updates/u1/tail") {["update" := "u1"]})
    "u1" log_world w' tt host [] [Ok "one"; Ok "two"] eq_refl _ _ E _ _).
  - vm_compute. reflexivity.
  - vm_compute. reflexivity.
  - repeat constructor; (discriminate || vm_compute; reflexivity).
  - vm_compute. reflexivity.
Defined.

Lemma demo_nothing n : fs demo_world !! path_of demo_root n = None.
Proof.
  assert (∀ a b c d e, a <> e -> b <> e -> c <> e -> ({[ a := d; b := d; c := d ]} : gmap string node) !! e = None) as H.
  { intros a b c d e ???. rewrite !lookup_insert_ne by done. by rewrite lookup_singleton_ne. }
  apply (H "/data" "/data/configs" "/data/configs/factory"); intros E; apply (f_equal String.length) in E; rewrite str_length_app in E; discriminate E.
Qed.
Lemma configs_set_stored_witness : ∃ s' w' cfg,
  @setConfigs _ (server_net configs_route) certs keys ecies _ _ set_json option_json api Configs_Factory ("", None) ["os=v=2"] false false false "why" operator
    = (Ok tt, s') ∧
  cl_remote s' = (w', tt) ∧ ReadFactoryConfigHistory (FsConfig_ConfigsDir "/data") 1 true w' = (Ok [cfg], w') ∧
  files_of (RawFiles cfg) = Some mine.
Proof.
  destruct (@setConfigs _ (server_net configs_route) certs keys ecies _ _ set_json option_json api Configs_Factory ("", None) ["os=v=2"]
    false false false "why" operator) as [r s'] eqn:E.
  assert (r = Ok tt) as -> by (refine (eq_trans (eq_sym (f_equal fst E)) _); vm_compute; reflexivity).
  destruct (configs_set_stored unit configs_route api handlers user (request_of (get_request api "/v1/configs/factory") ∅) eq_refl)
    with (hist := @nil entry) (k := 0%nat) (w := demo_world) (p := tt) (s := operator) (s1 := operator) (s' := s') (args := ["os=v=2"])
         (mine := mine) (stdin := ("", @None error)) (replace := false) (reason := "why") as (w' & hist' & cfg & Hw & Hr & Hf & _).
  - intros body. eexists. split; reflexivity.
  - intros c. cbn [json_Unmarshal json_Marshal request_json set_json].
    rewrite (@json_roundtrip sent toy_codec toy_codec_laws). by destruct c as [? ? ? []].
  - intros e He. discriminate He.
  - reflexivity.
  - reflexivity.
  - apply (repr_empty (HDL := toy_digest_laws)); [split; [reflexivity|vm_compute; discriminate]|reflexivity|].
    intros n. change (filepath_Join _) with demo_root. apply demo_nothing.
  - right. vm_compute. lia.
  - vm_compute. reflexivity.
  - vm_compute. intuition (try discriminate; lia).
  - intros x y. cbn [fmap list_fmap]. rewrite !elem_of_cons, !elem_of_nil. by intros [->|[]] [->|[]].
  - exact E.
  - exists s', w', cfg. split; [reflexivity|]. split; [exact Hw|]. split; [exact Hr|]. rewrite Hf. vm_compute. reflexivity.
Defined.

(** ** A directory that is uploaded *)

Module UploadRuns.
#[export] Instance codec : TgzCodec := {| tgz_bytes items := Join (map it_data items) ""; tgz_partial _ := ""; gz_bytes s := s |}.
Definition w : world :=
  World {["/" := Dir; "/up" := Dir; "/up/a.conf" := File "alpha" 420 0; "/up/sub" := Dir; "/up/sub/b" := File "beta" 420 0; "/upper" := File "x" 420 0]}
    0 [] empty_db (λ _, "") 0.
End UploadRuns.

Lemma archive_holds_directory_witness : ∃ items,
  archive_stream (H1 := UploadRuns.codec) "/up" [denyNonRegular] UploadRuns.w = (Ok (@tgz_bytes UploadRuns.codec items, None), UploadRuns.w) ∧
  item_of (["sub"; "b"], File "beta" 420 0) ∈ items.
Proof.
  destruct (@archive_holds_directory UploadRuns.codec UploadRuns.w "/up" [denyNonRegular]) as (items & H1 & _ & H2).
  - split; [reflexivity|discriminate].
  - reflexivity.
  - reflexivity.
  - intros ns [content m t|] _ _; reflexivity.
  - exists items. split; [exact H1|]. apply H2. exists ["sub"; "b"], (File "beta" 420 0). split; [discriminate|]. split; [|reflexivity].
    apply (below_entry _ _ ["sub"] "b"); [|apply (bool_decide_unpack _); vm_compute; exact I|reflexivity].
    apply (below_entry _ _ [] "sub"); [|apply (bool_decide_unpack _); vm_compute; exact I|reflexivity].
    apply below_here. reflexivity.
Defined.
