(* ===== verification/SetupPki.v ===== *)
(** cmd/server/pki.go, pki_init.go, csr.go, csr_sign.go and
    storage/pem_helpers.go: the keys and certificates of a server, and what it
    loads of them at its start (server/gateway/server.go and
    server/ui/api/handlers_devices_create.go).  What the commands print is left
    out. *)
From S2P Require Import Prelude GoStrings Bytes GoPath Schema World BaseFs Crypto FsHandles Scopes Users Auth UiApi Gateway.

(** ** Libraries *)

(** crypto/x509/pkix.Name as far as it is set, and the certificate and request
    that are asked for. *)
Record x509_name := { n_CommonName : string; n_OrganizationalUnit : list string }.
Inductive key_usage := KeyUsageDigitalSignature | KeyUsageCertSign | KeyUsageCRLSign.
Record x509_template := {
  xt_Subject : x509_name; xt_Issuer : option x509_name; xt_SerialNumber : Z; xt_NotBefore : Z; xt_NotAfter : Z;
  xt_IsCA : bool; xt_MaxPathLenZero : bool; xt_KeyUsage : list key_usage; xt_ExtKeyUsageServerAuth : bool;
  xt_BasicConstraintsValid : bool; xt_DNSNames : list string
}.
Record csr_template := { ct_csr_Subject : x509_name; ct_csr_DNSNames : list string }.
(** crypto/ecdsa, crypto/x509, crypto/tls and encoding/pem.  What the random
    source yields is an argument; a parent is a template of its own or a
    certificate.  [AddDate] adds days in the zone of the host. *)
Class X509 `{CertCodec, CsrCodec} := {
  ec_key : Type;
  ecdsa_GenerateKey : string -> result ec_key;
  ec_PublicKey : ec_key -> string;
  MarshalECPrivateKey : ec_key -> result string;
  ParseECPrivateKey : string -> result ec_key;
  x509_CreateCertificate : string -> x509_template -> x509_template + Certificate -> string -> ec_key -> result string;
  x509_CreateCertificateRequest : string -> csr_template -> ec_key -> result string;
  cert_Subject : Certificate -> x509_name;
  cert_IsCA : Certificate -> bool;
  cert_DNSNames : Certificate -> list string;
  csr_Subject : csr -> x509_name;
  csr_DNSNames : csr -> list string;
  pem_Encode : string -> string -> string;               (* type, bytes *)
  AppendCertsFromPEM : string -> list Certificate;
  tls_X509KeyPair : string -> string -> result string;   (* the DER of the leaf *)
  AddDate_days : Z -> Z -> Z
}.
(** Documented: what is encoded is decoded, what is created parses, with the
    fields that were asked for (times in seconds); a key and the certificate of
    its public key are a pair. *)
Class X509Laws `{X509} := {
  pem_cert_decode raw : pem_decode (pem_cert raw) = Some (raw, "");
  pem_Encode_decode type bytes : pem_decode (pem_Encode type bytes) = Some (bytes, "");
  ec_key_roundtrip key der : MarshalECPrivateKey key = Ok der -> ParseECPrivateKey der = Ok key;
  created_parses r t p pub key der : x509_CreateCertificate r t p pub key = Ok der ->
    ∃ c, ParseCertificate der = Ok c ∧ cert_Subject c = xt_Subject t ∧ cert_IsCA c = xt_IsCA t && xt_BasicConstraintsValid t ∧
      cert_DNSNames c = xt_DNSNames t ∧ NotAfter c = xt_NotAfter t / 1000;
  requested_parses r t key der req : x509_CreateCertificateRequest r t key = Ok der -> ParseCertificateRequest der = Ok req ->
    csr_Subject req = ct_csr_Subject t ∧ csr_DNSNames req = ct_csr_DNSNames t;
  pair_loads r t p key parentKey der keyDer : x509_CreateCertificate r t p (ec_PublicKey key) parentKey = Ok der ->
    MarshalECPrivateKey key = Ok keyDer -> tls_X509KeyPair (pem_cert der) (pem_Encode "EC PRIVATE KEY" keyDer) = Ok der
}.
(** net.SplitHostPort: the port. *)
Class HostPort := { SplitHostPort : string -> result string; JoinHostPort : string -> string -> string }.

(** ** storage/pem_helpers.go *)

Definition PemBytesToObject `{CertCodec} {A} (parse : string -> result A) (pemBytes : string) : result A :=
  match pem_decode pemBytes with
  | None => Err (ErrMsg "malformed PEM data")
  | Some (first, rest) => if 0 <? len (TrimSpace rest) then Err (ErrMsg "malformed PEM data") else parse first
  end.
(** The text of the second error is the one wrapped, followed by the path. *)
Definition LoadPemFile `{CertCodec} {A} (path : string) (parse : string -> result A) : IO A :=
  pemBytes ← wrap ("unable to read " +:+ path) (os_ReadFile (Clean path));
  wrap ("for " +:+ path) (lift (PemBytesToObject parse pemBytes)).

Section PkiCommands.
Context `{X509}.

(** ** pki.go *)

Definition generateEcKey : IO ec_key :=
  random ← rand_text;
  wrap "unexpected error generating private key" (lift (ecdsa_GenerateKey random)).
Definition marshalKeyPem (key : ec_key) : result string :=
  match MarshalECPrivateKey key with
  | Err err => Err (ErrWrap "unexpected error encoding private key" err)
  | Ok privDer => Ok (pem_Encode "EC PRIVATE KEY" privDer)
  end.
(** [rand.Int] below 2^160: the value of 20 bytes. *)
Definition be_value (s : string) : Z := foldl (λ n c, n * 256 + byte_val c) 0 (list_ascii_of_string s).
Definition newSerial : IO Z := bytes ← rand_Read 20; mret (be_value bytes).
Definition signCert (template : x509_template) (parent : x509_template + Certificate) (pub : string) (parentKey : ec_key) : IO string :=
  random ← rand_text;
  certDer ← wrap "error signing certificate" (lift (x509_CreateCertificate random template parent pub parentKey));
  mret (pem_cert certDer).
Definition tlsCertTemplate (req : csr) (caCrt : Certificate) (serial expiryDays : Z) : IO x509_template :=
  now ← time_now_ms;
  mret {| xt_Subject := csr_Subject req; xt_Issuer := Some (cert_Subject caCrt); xt_SerialNumber := serial;
          xt_NotBefore := now; xt_NotAfter := AddDate_days now expiryDays; xt_IsCA := false; xt_MaxPathLenZero := false;
          xt_KeyUsage := [KeyUsageDigitalSignature]; xt_ExtKeyUsageServerAuth := true; xt_BasicConstraintsValid := false;
          xt_DNSNames := csr_DNSNames req |}.
Definition buildCsr (dnsName ou : string) : IO (ec_key * string) :=
  priv ← generateEcKey;
  random ← rand_text;
  csrBytes ← wrap "unexpected error creating CSR"
    (lift (x509_CreateCertificateRequest random
       {| ct_csr_Subject := {| n_CommonName := dnsName; n_OrganizationalUnit := [ou] |}; ct_csr_DNSNames := [dnsName] |} priv));
  mret (priv, csrBytes).

(** ** pki_init.go *)

Definition ca_template (name ou : string) (issuer : option x509_name) (serial now notAfter : Z) (leafOnly : bool) : x509_template :=
  {| xt_Subject := {| n_CommonName := name; n_OrganizationalUnit := [ou] |}; xt_Issuer := issuer; xt_SerialNumber := serial;
     xt_NotBefore := now; xt_NotAfter := notAfter; xt_IsCA := true; xt_MaxPathLenZero := leafOnly;
     xt_KeyUsage := [KeyUsageCertSign; KeyUsageCRLSign]; xt_ExtKeyUsageServerAuth := false; xt_BasicConstraintsValid := true;
     xt_DNSNames := [] |}.
Record PkiInitCmd := { pki_DnsName : string; pki_OU : string; TlsExpiryDays : Z; CaExpiryDays : Z }.
Definition store (certs name content what : string) : IO unit := wrap ("unable to store " +:+ what) (Certs_WriteFile certs name content).
(** 1. The root CA: its key and certificate. *)
Definition init_root (c : PkiInitCmd) (certs : string) : IO (ec_key * Certificate) :=
  rootKey ← generateEcKey;
  serial ← newSerial;
  now ← time_now_ms;
  let rootTemplate := ca_template (pki_OU c +:+ "-root") (pki_OU c) None serial now (AddDate_days now (CaExpiryDays c)) false in
  rootPem ← wrap "error creating root CA" (signCert rootTemplate (inl rootTemplate) (ec_PublicKey rootKey) rootKey);
  rootCrt ← wrap "error parsing root CA" (lift (PemBytesToObject ParseCertificate rootPem));
  rootKeyPem ← lift (marshalKeyPem rootKey);
  store certs CertsRootKeyFile rootKeyPem "root CA key";;
  store certs CertsRootPemFile rootPem "root CA cert";;
  mret (rootKey, rootCrt).
(** 2. The TLS key pair, signed by the root CA. *)
Definition init_tls (c : PkiInitCmd) (certs : string) (rootKey : ec_key) (rootCrt : Certificate) : IO unit :=
  '(tlsKey, csrBytes) ← buildCsr (pki_DnsName c) (pki_OU c);
  req ← wrap "error parsing generated CSR" (lift (ParseCertificateRequest csrBytes));
  tlsSerial ← newSerial;
  tlsTemplate ← tlsCertTemplate req rootCrt tlsSerial (TlsExpiryDays c);
  tlsPem ← wrap "error signing TLS cert" (signCert tlsTemplate (inr rootCrt) (ec_PublicKey tlsKey) rootKey);
  tlsKeyPem ← lift (marshalKeyPem tlsKey);
  store certs CertsTlsKeyFile tlsKeyPem "TLS key";;
  store certs CertsTlsPemFile tlsPem "TLS cert".
(** 3. and 4. The CA that signs devices, which is trusted for them. *)
Definition init_device (c : PkiInitCmd) (certs : string) (rootKey : ec_key) (rootCrt : Certificate) : IO unit :=
  deviceKey ← generateEcKey;
  deviceSerial ← newSerial;
  now ← time_now_ms;
  let deviceTemplate := ca_template (pki_OU c +:+ "-device-ca") (pki_OU c) (Some (cert_Subject rootCrt)) deviceSerial now
                          (AddDate_days now (CaExpiryDays c)) true in
  devicePem ← wrap "error signing device CA" (signCert deviceTemplate (inr rootCrt) (ec_PublicKey deviceKey) rootKey);
  deviceKeyPem ← lift (marshalKeyPem deviceKey);
  store certs CertsDeviceCaKeyFile deviceKeyPem "device CA key";;
  store certs CertsDeviceCaPemFile devicePem "device CA cert";;
  store certs CertsCasPemFile devicePem "cas.pem".
Definition PkiInitCmd_Run (c : PkiInitCmd) (dataDir : string) : IO unit :=
  NewFs dataDir;;
  let certs := FsConfig_CertsDir dataDir in
  AssertCleanPki certs;;
  '(rootKey, rootCrt) ← init_root c certs;
  init_tls c certs rootKey rootCrt;;
  init_device c certs rootKey rootCrt.

(** ** csr.go and csr_sign.go *)

Record CsrCmd := { csr_DnsName : string; csr_Factory : string }.
Definition CsrCmd_Run (c : CsrCmd) (dataDir : string) : IO unit :=
  NewFs dataDir;;
  let certs := FsConfig_CertsDir dataDir in
  AssertCleanTls certs;;
  '(priv, csrBytes) ← buildCsr (csr_DnsName c) (csr_Factory c);
  privPem ← lift (marshalKeyPem priv);
  store certs CertsTlsKeyFile privPem "TLS private key file";;
  store certs CertsTlsCsrFile (pem_Encode "CERTIFICATE REQUEST" csrBytes) "TLS CSR file".
Record CsrSignCmd := { CaKey : string; CaCert : string; cs_ExpiryDays : Z }.
Definition CsrSignCmd_Run (c : CsrSignCmd) (dataDir : string) : IO unit :=
  NewFs dataDir;;
  let certs := FsConfig_CertsDir dataDir in
  caCrt ← LoadPemFile (CaCert c) ParseCertificate;
  caKey ← LoadPemFile (CaKey c) ParseECPrivateKey;
  req ← LoadPemFile (Certs_FilePath certs CertsTlsCsrFile) ParseCertificateRequest;
  tlsKey ← LoadPemFile (Certs_FilePath certs CertsTlsKeyFile) ParseECPrivateKey;
  serial ← newSerial;
  crtTemplate ← tlsCertTemplate req caCrt serial (cs_ExpiryDays c);
  certPem ← wrap "error signing TLS cert" (signCert crtTemplate (inr caCrt) (ec_PublicKey tlsKey) caKey);
  store certs CertsTlsPemFile certPem "TLS certificate".

(** ** What a server loads at its start *)

(** The TLS configuration of the gateway: the leaf and the CAs of clients. *)
Record tls_config := { tls_Leaf : Certificate; ClientCAs : list Certificate }.
Definition loadCas (certs : string) : IO (list Certificate) :=
  bytes ← wrap "unable to read CAs file" (Certs_ReadFile certs CertsCasPemFile);
  mret (AppendCertsFromPEM bytes).
(** [tls.LoadX509KeyPair] reads the two files and parses the leaf. *)
Definition loadTlsKeyPair (certs : string) : IO string :=
  certPEM ← os_ReadFile (Certs_FilePath certs CertsTlsPemFile);
  keyPEM ← os_ReadFile (Certs_FilePath certs CertsTlsKeyFile);
  lift (tls_X509KeyPair certPEM keyPEM).
Definition loadTlsConfig (certs : string) : IO tls_config :=
  caPool ← wrap "failed to load gateway cert" (loadCas certs);
  kp ← wrap "failed to load gateway key" (loadTlsKeyPair certs);
  leaf ← wrap "failed to parse TLS certificate" (lift (ParseCertificate kp));
  now ← time_now_ms;
  if NotAfter leaf * 1000 <? now then fail (ErrMsg ("TLS certificate expired on " +:+ Itoa (NotAfter leaf)))
  else mret {| tls_Leaf := leaf; ClientCAs := caPool |}.
(** [server.GetDnsName]: the first name, or none. *)
Definition GetDnsName (cfg : tls_config) : string := default "" (head (cert_DNSNames (tls_Leaf cfg))).

Context `{HostPort}.
(** A file of the device CA that is missing means that there is none. *)
Definition unless_missing {A} (m : IO A) (k : A -> IO (option DeviceCa)) : IO (option DeviceCa) :=
  r ← try m;
  match r with
  | Err err => if errors_Is err ErrNotExist then mret None else fail err
  | Ok a => k a
  end.
Definition LoadDeviceCa (certs gatewayAddr : string) : IO (option DeviceCa) :=
  gatewayPort ← wrap ("invalid gateway address " +:+ q gatewayAddr) (lift (SplitHostPort gatewayAddr));
  unless_missing (Certs_ReadFile certs CertsDeviceCaKeyFile) (λ buf,
    _ ← lift (PemBytesToObject ParseECPrivateKey buf);
    unless_missing (Certs_ReadFile certs CertsDeviceCaPemFile) (λ buf,
      cert ← lift (PemBytesToObject ParseCertificate buf);
      if negb (cert_IsCA cert) then fail (ErrMsg ("certificate in " +:+ CertsDeviceCaPemFile +:+ " is not a CA certificate")) else
      rootCrt ← Certs_ReadFile certs CertsRootPemFile;
      buf ← Certs_ReadFile certs CertsTlsPemFile;
      tlsCert ← lift (PemBytesToObject ParseCertificate buf);
      match cert_DNSNames tlsCert with
      | [] => fail (ErrPanic "index out of range [0] with length 0")
      | name :: _ => mret (Some {| RootCert := rootCrt; DgUrl := "https://" +:+ name +:+ ":" +:+ gatewayPort |})
      end)).
End PkiCommands.
