(* ===== verification/Setup.v ===== *)
(** cmd/server: the commands that set a server up (auth_init.go, tuf_init.go,
    user_add.go, dev_server.go) and the start of serve.go, with what it opens:
    the database (storage/db.go), the storages, the authentication provider
    (auth/provider.go), and the two servers (server/ui/server.go,
    server/gateway/server.go).  What the commands print is left out. *)
From S2P Require Import Prelude GoStrings Bytes GoPath Schema World BaseFs Crypto Models Tar Updates FsHandles Tuf TufFs Encoding Http Limiter ApiStorage Scopes Users UserOps Auth AuthLocal UiApi Gateway WebPages SetupPki.
Import Users.

(** ** storage/db.go *)

(** The driver creates the file when it opens it for the first statement. *)
Definition sqlite_Open (dbfile : string) : IO unit :=
  syscall (λ w,
    match fs w !! dbfile with
    | Some (File _ _ _) => (Ok tt, w)
    | Some Dir => (Err ErrIO, w)
    | None => if parent_ok w dbfile then (Ok tt, with_fs (<[dbfile := File "" 420 (clock w)]> (fs w)) w) else (Err ErrIO, w)
    end).
(** The statements are no transaction; the model has no database with a part of
    the tables: when one fails the contents are as they were. *)
Definition createTables (dbfile : string) : IO unit :=
  wrap "unable to create devices db" (sqlite_Open dbfile;; sql_exec (λ _, empty_db)).
Definition NewDb (dbfile : string) : IO unit :=
  r ← try (os_Stat dbfile);
  let newDb := match r with Ok _ => false | Err err => errors_Is err ErrNotExist end in
  if newDb : bool then createTables dbfile else mret tt.
(** Statements are prepared against the tables there are. *)
Definition Prepare (dbfile name : string) : IO unit :=
  wrap ("unable to prepare '" +:+ name +:+ "' statement") (sqlite_Open dbfile;; sql_query (λ _, Ok tt)).
Definition InitStmt (dbfile : string) (names : list string) : IO unit := forM names (Prepare dbfile).

Definition user_statements : list string :=
  ["userCreate"; "userGetId"; "userGet"; "userList"; "userUpdate"; "sessionCreate"; "sessionDelete"; "sessionDeleteExpired"; "sessionGet";
   "tokenCreate"; "tokenDelete"; "tokenDeleteAll"; "tokenDeleteExpired"; "tokenList"; "tokenLookup"; "tokenUpdate";
   "oauth2DeviceAuthCreate"; "oauth2DeviceAuthGetByDeviceCode"; "oauth2DeviceAuthGetByUserCode"; "oauth2DeviceAuthAuthorize";
   "oauth2DeviceAuthDeny"; "oauth2DeviceAuthDelete"; "oauth2DeviceAuthDeleteExpired"].
Definition api_statements : list string :=
  ["apiDeviceCount"; "apiDeviceDelete"; "apiDeviceGet"; "apiDeviceGetLabelNames"; "apiDeviceGetLabelNames"; "apiDeniedDeviceList";
   "apiUndenyDevice"; "apiDeviceSetName"; "apiDeviceSetUpdateName"; "apiDevicePut"; "apiOldCertDeleteExpired"; "apiUpdateGet";
   "apiUpdateInsert"; "apiUpdateList"; "apiUpdateDelete"].
(** One list statement for each order. *)
Definition device_lists : list string := repeat "apiDeviceList" 8.
Definition gateway_statements : list string := ["DeviceCheckIn"; "DeviceCreate"; "DeviceGet"].

(** The storages of users, of the API and of the gateway. *)
Definition users_NewStorage (dataDir : string) (cfg : AuthConfig) : IO Storage :=
  secret ← wrap "unable to read HMAC secret for API tokens" (GetHmacSecret (FsConfig_AuthDir dataDir));
  InitStmt (FsConfig_DbFile dataDir) user_statements;;
  mret {| hmacSecret := secret; authConfig := cfg; audit_root := FsConfig_AuditDir dataDir |}.
Definition api_NewStorage (dataDir : string) : IO unit :=
  InitStmt (FsConfig_DbFile dataDir) api_statements;; InitStmt (FsConfig_DbFile dataDir) device_lists.
Definition gateway_NewStorage (dataDir : string) : IO unit := InitStmt (FsConfig_DbFile dataDir) gateway_statements.

(** ** auth_init.go *)

Record AuthInitCmd := { ai_Test : bool; ai_Local : bool }.
Definition json_false (name : string) : string := q name +:+ ":false,".
Definition local_config_text : string :=
  "{" +:+ q "DevelopmentCookies" +:+ ": true, " +:+ q "MinPasswordLength" +:+ ":0," +:+ q "PasswordHistory" +:+ ":0," +:+
  q "PasswordAgeDays" +:+ ":0," +:+ q "PasswordComplexityRules" +:+ ":{" +:+ json_false "RequireUppercase" +:+
  json_false "RequireLowercase" +:+ json_false "RequireDigit" +:+ q "RequireSpecialChar" +:+ ":" +:+ q "" +:+ "}}".
Definition no_limits : RateLimitConfig :=
  {| AttemptsPerSecond := 0; AttemptsBlockDurationSec := 0; BadAuthLimit := 0; BadAuthBlockDurationSec := 0 |}.
Definition init_config (type config : string) : AuthConfig :=
  {| AuthType := type; SessionTimeoutHours := 0; MaxTokenLifetimeDays := 0; NewUserDefaultScopes := ScopesAvailable;
     RateLimits := no_limits; AuthRawConfig := config |}.
Definition AuthInitCmd_Run `{JSON AuthConfig} (c : AuthInitCmd) (dataDir : string) : IO unit :=
  NewFs dataDir;;
  secret ← rand_Read 64;
  InitHmacSecret (FsConfig_AuthDir dataDir) secret;;
  if ai_Local c then SaveAuthConfig (FsConfig_AuthDir dataDir) (init_config "local" local_config_text)
  else if ai_Test c then SaveAuthConfig (FsConfig_AuthDir dataDir) (init_config "noauth" "")
  else mret tt.

(** ** tuf_init.go *)

Definition tufKeyFileSuffix : string := ".sec".
(** compress/gzip and archive/tar on a whole file. *)
Class Archives := { gunzip_tar : string -> result (list (result tar_item)) }.
(** The entries with a suffix that are no directories, in turn. *)
Fixpoint archive_entries {A} (what suffix : string) (use : string -> string -> result (list A)) (items : list (result tar_item)) : result (list A) :=
  match items with
  | [] => Ok []
  | Err err :: _ => Err (ErrWrap ("unable to read " +:+ what +:+ " archive") err)
  | Ok it :: items' =>
      let name := h_Name (it_hdr it) in
      if bool_decide (h_Typeflag (it_hdr it) = TypeDir) || negb (HasSuffix name suffix) then archive_entries what suffix use items' else
      match it_data_err it with
      | Some err => Err (ErrWrap ("unable to read " +:+ name +:+ " from " +:+ what +:+ " archive") err)
      | None => x ← use name (it_data it); xs ← archive_entries what suffix use items'; Ok (x ++ xs)
      end
  end.
Definition load_archive `{Archives} {A} (what path suffix empty : string) (use : string -> string -> result (list A)) : IO (list A) :=
  data ← wrap ("unable to open " +:+ what +:+ " archive") (os_ReadFile (Clean path));
  items ← wrap ("unable to open " +:+ what +:+ " archive (expected a gzipped tarball)") (lift (gunzip_tar data));
  l ← lift (archive_entries what suffix use items);
  match l with [] => fail (ErrMsg empty) | _ => mret l end.
(** A file that is no private key is passed over. *)
Definition key_of `{JSON AtsKey} (name data : string) : result (list AtsKey) :=
  match json_Unmarshal data with
  | Err err => Err (ErrWrap ("unable to parse key file " +:+ name) err)
  | Ok key => Ok (if negb (String.eqb (KeyType key) "") && negb (String.eqb (Private (KeyValue key)) "") then [key] else [])
  end.
Definition loadTufKeysArchive `{Archives, JSON AtsKey} (path : string) : IO (list AtsKey) :=
  load_archive "keys" path tufKeyFileSuffix
    "keys archive does not contain any valid private key files (expected .sec files with private key material)" key_of.
Definition loadTufRootsArchive `{Archives} (path : string) : IO (list string) :=
  load_archive "roots" path TufFs.rootJsonSuffix
    ("roots archive does not contain any root.json files (expected files ending in " +:+ q TufFs.rootJsonSuffix +:+ ")")
    (λ _ data, Ok [data]).

Definition tuf_handle (dataDir : string) : TufFsHandle :=
  tuf_init (FsConfig_TufDir dataDir) (FsConfig_AuthDir dataDir) (FsConfig_UpdatesDir dataDir).
Record TufInitCmd := { ImportKeys : string; ImportRoots : string }.

Section TufCommand.
Context `{KeyEncryption, JSON AtsKey, Digest, Ed25519, JSON AtsTufRoot, JSONIndent AtsTufRoot}.
Context `{Canonical RootMeta, Canonical TargetsMeta, Canonical MetaMeta, Canonical AtsTufTargets, Canonical AtsTufMeta}.
Context `{Rsa, CertCodec, Archives}.
Definition TufInitCmd_Run (c : TufInitCmd) (dataDir : string) : IO unit :=
  NewFs dataDir;;
  if negb (String.eqb (ImportKeys c) "") || negb (String.eqb (ImportRoots c) "") then
    if String.eqb (ImportKeys c) "" then fail (ErrMsg "--import-keys is required to import TUF root metadata") else
    if String.eqb (ImportRoots c) "" then fail (ErrMsg "--import-roots is required to import TUF root metadata") else
    roots ← loadTufRootsArchive (ImportRoots c);
    keys ← loadTufKeysArchive (ImportKeys c);
    ImportTuf (tuf_handle dataDir) roots keys
  else InitTuf (tuf_handle dataDir).
End TufCommand.

(** ** user_add.go *)

(** [AllowedScopes] and [TokenFile] are the flags. *)
Record UserAddCmd := { ua_Username : string; ua_Password : string; ua_AllowedScopes : list string; TokenFile : string }.
Definition day_ms : Z := 24 * hour_ms.

Section UserCommand.
Context `{Digest, TimeFormat, SqliteJson, Scrypt, JSON AuthConfig}.
(** The password, as it is read from the terminal when it is not given. *)
Definition read_password (given : string) (typed : result string) : result string :=
  if negb (String.eqb given "") then Ok given else
  match typed with
  | Err err => Err (ErrWrap "failed to read password" err)
  | Ok pw => if String.eqb (TrimSpace pw) "" then Err (ErrMsg "password cannot be empty") else Ok (TrimSpace pw)
  end.
(** The API token of the new user, in a file. *)
Definition write_token (storage : Storage) (username file : string) (scopes : Scopes) : IO unit :=
  if String.eqb file "" then mret tt else
  '(u, err) ← Storage_Get username;
  match err, u with
  | Some err, _ => fail (ErrWrap "failed to retrieve created user" err)
  | None, None => fail (ErrPanic "invalid memory address or nil pointer dereference")
  | None, Some u =>
      now ← time_now_ms;
      token ← wrap "failed to generate API token" (GenerateToken storage u "user-add-cli" ((now + 30 * day_ms) / 1000) scopes);
      wrap "failed to write API token to file" (os_WriteFile (Clean file) (Value token) secureFileAccess)
  end.
Definition add_user (storage : Storage) (c : UserAddCmd) (password : string) (scopes : Scopes) : IO unit :=
  '(u, err) ← Storage_Get (ua_Username c);
  match err, u with
  | None, Some _ => fail (ErrMsg ("user " +:+ q (ua_Username c) +:+ " already exists"))
  | _, _ =>
      hashed ← PasswordHash password;
      '(_, err) ← Storage_Create storage (mkUser 0 (ua_Username c) hashed "" 0 false scopes None);
      match err with
      | Some err => fail (ErrWrap "failed to create user" err)
      | None => write_token storage (ua_Username c) (TokenFile c) scopes
      end
  end.
Definition UserAddCmd_Run (c : UserAddCmd) (typed : result string) (dataDir : string) : IO unit :=
  password ← lift (read_password (ua_Password c) typed);
  NewFs dataDir;;
  cfg ← wrap "failed to load auth config" (GetAuthConfig (FsConfig_AuthDir dataDir));
  if negb (String.eqb (AuthType cfg) "local")
  then fail (ErrMsg ("user-add is only supported with local auth. Configured auth is: " +:+ AuthType cfg)) else
  scopes ← wrap "invalid scopes"
    (lift (ScopesFromSlice (match ua_AllowedScopes c with [] => NewUserDefaultScopes cfg | l => l end)));
  wrap "failed to load database" (NewDb (FsConfig_DbFile dataDir));;
  storage ← wrap "failed to initialize user storage" (users_NewStorage dataDir cfg);
  add_user storage c password scopes.
End UserCommand.

(** ** dev_server.go *)

Record DevServerInitCmd := { ds_DnsName : string; AdminPassword : string }.

Section DevServer.
Context `{TF : TimeFormat, SJ : SqliteJson, SC : Scrypt, JC : JSON AuthConfig, XC : X509}.
Context `{KeyEncryption, JSON AtsKey, Digest, Ed25519, JSON AtsTufRoot, JSONIndent AtsTufRoot}.
Context `{Canonical RootMeta, Canonical TargetsMeta, Canonical MetaMeta, Canonical AtsTufTargets, Canonical AtsTufMeta}.
(** [hostname] is [os.Hostname]. *)
Definition DevServerInitCmd_Run (c : DevServerInitCmd) (hostname : result string) (dataDir : string) : IO unit :=
  NewFs dataDir;;
  wrap ("data dir " +:+ dataDir +:+ " is already initialized") (AssertCleanPki (FsConfig_CertsDir dataDir));;
  dnsName ← lift (if negb (String.eqb (ds_DnsName c) "") then Ok (ds_DnsName c)
                  else match hostname with Ok name => Ok name | Err err => Err (ErrWrap "unable to determine system host name" err) end);
  wrap "pki-init"
    (PkiInitCmd_Run {| pki_DnsName := dnsName; pki_OU := "fio-update-server"; TlsExpiryDays := 365; CaExpiryDays := 7300 |} dataDir);;
  wrap "auth-init" (AuthInitCmd_Run {| ai_Test := false; ai_Local := true |} dataDir);;
  InitTuf (tuf_handle dataDir);;
  wrap "failed to create admin user"
    (UserAddCmd_Run {| ua_Username := "admin"; ua_Password := AdminPassword c; ua_AllowedScopes := []; TokenFile := "" |} (Err ErrIO) dataDir).
End DevServer.

(** ** auth/provider.go *)

Section Servers.
Context `{RL : RateLimit, JL : JSON authConfigLocal, JC : JSON AuthConfig, JB : JSON brandingFile, XC : X509, HP : HostPort}.
Inductive provider :=
  | NoauthProvider (scopes : Scopes)
  | LocalProvider (p : localProvider) (limiter : authRateLimiter)
  | OtherProvider (name : string).
(** The providers that have registered by their names; [others] configures
    those of OAuth2. *)
Definition NewProvider (others : gmap string (AuthConfig -> result unit)) (cfg : AuthConfig) (now : Z) : result provider :=
  let configured :=
    if String.eqb (AuthType cfg) "noauth" then Some (scopes ← noauth_Configure cfg; Ok (NoauthProvider scopes))
    else if String.eqb (AuthType cfg) "local" then Some (p ← local_Configure cfg now; Ok (LocalProvider p.1 p.2))
    else (λ Configure, _ ← Configure cfg; Ok (OtherProvider (AuthType cfg))) <$> others !! AuthType cfg in
  match configured with
  | Some (Ok p) => Ok p
  | Some (Err err) => Err (ErrWrap ("failed to configure provider `" +:+ AuthType cfg +:+ "`") err)
  | None => Err (ErrMsg ("no provider found with configured type `" +:+ AuthType cfg +:+ "`"))
  end.

(** ** server/ui/server.go, server/gateway/server.go and serve.go *)

Record ui_server := { ui_users : Storage; ui_provider : provider; ui_branding : Branding; ui_ca : option DeviceCa }.
Definition ui_NewServer (others : gmap string (AuthConfig -> result unit)) (dataDir gatewayAddr : string) : IO ui_server :=
  authConfig ← wrap "failed to get auth config" (GetAuthConfig (FsConfig_AuthDir dataDir));
  wrap "failed to load rest-api storage" (api_NewStorage dataDir);;
  users ← wrap "failed to initialize users storage" (users_NewStorage dataDir authConfig);
  brandingData ← wrap "failed to read branding config" (ReadBrandingConfig dataDir);
  now ← time_now_ms;
  provider ← lift (NewProvider others authConfig now);
  ca ← wrap "failed to load device CA" (LoadDeviceCa (FsConfig_CertsDir dataDir) gatewayAddr);
  mret {| ui_users := users; ui_provider := provider; ui_branding := LoadBranding (default "" brandingData); ui_ca := ca |}.
Record gateway_server := { gs_tls : tls_config; gs_url : string }.
Definition gateway_NewServer (dataDir bindAddr : string) : IO gateway_server :=
  tlsCfg ← wrap "failed to load gateway-api TLS config" (loadTlsConfig (FsConfig_CertsDir dataDir));
  wrap "failed to load gateway-api storage" (gateway_NewStorage dataDir);;
  port ← wrap ("invalid bind address " +:+ q bindAddr) (lift (SplitHostPort bindAddr));
  mret {| gs_tls := tlsCfg; gs_url := "https://" +:+ JoinHostPort (GetDnsName tlsCfg) port |}.
End Servers.

Section Serve.
Context `{RL : RateLimit, JL : JSON authConfigLocal, JC : JSON AuthConfig, JB : JSON brandingFile, XC : X509, HP : HostPort}.
Context `{KeyEncryption, JSON AtsKey, Digest, Ed25519, JSON AtsTufRoot, JSONIndent AtsTufRoot}.
Context `{Canonical RootMeta, Canonical TargetsMeta, Canonical MetaMeta, Canonical AtsTufTargets, Canonical AtsTufMeta}.
(** [ServeCmd.Run] up to the start of the two servers. *)
Definition ServeCmd_start (others : gmap string (AuthConfig -> result unit)) (dataDir gatewayAddr : string)
  : IO (TufFsHandle * ui_server * gateway_server) :=
  wrap "failed to load filesystem" (NewFs dataDir);;
  tuf ← wrap "failed to load TUF (run tuf-init first)" (LoadTuf (tuf_handle dataDir));
  wrap "failed to load database" (NewDb (FsConfig_DbFile dataDir));;
  uiServer ← ui_NewServer others dataDir gatewayAddr;
  gtwServer ← gateway_NewServer dataDir gatewayAddr;
  mret (tuf, uiServer, gtwServer).
End Serve.
