(* ===== verification/SetupSpec.v ===== *)
(** What the commands that set a server up leave on its disk, and that it starts
    on it. *)
From S2P Require Import Prelude GoStrings Bytes GoPath Schema World BaseFs Crypto Models Tar Updates FsHandles Tuf TufFs TufSpec TufLife TufKeys Encoding Http Limiter ApiStorage Scopes Users UserOps Auth AuthLocal UiApi Gateway WebPages SetupPki Setup.
Import Users.

(** ** What a command leaves alone *)

(** Outside of [S] nothing changes but directories of [made] that appear; the
    clock stands still and the random source is the same. *)
Definition kept_files (made S : string -> Prop) (w w' : world) : Prop :=
  ∀ k, ~ S k -> fs w' !! k = fs w !! k \/ (made k ∧ fs w !! k = None ∧ fs w' !! k = Some Dir).
Definition kept (made S : string -> Prop) (w w' : world) : Prop :=
  kept_files made S w w' ∧ clock w' = clock w ∧ rnd w' = rnd w ∧ faults w' `suffix_of` faults w.
#[export] Instance kept_preorder made S : PreOrder (kept made S).
Proof.
  split; [by intros w; split; [left|]|]. intros w1 w2 w3 (H1 & Hc1 & Hr1 & Hf1) (H2 & Hc2 & Hr2 & Hf2). split; [|split_and!; [congruence..|by etrans]].
  intros k Hk. destruct (H1 k Hk) as [E1|(Hm & E1 & E2)], (H2 k Hk) as [E3|(Hm' & E3 & E4)]; rewrite ?E3, ?E1; try (by left); right; split_and!; congruence.
Qed.
Lemma kept_wider {A} made (S T : string -> Prop) (m : IO A) P : (∀ k, S k -> T k) -> keeps (kept made S) m P -> keeps (kept made T) m P.
Proof. intros Hs H w r w' E. destruct (H _ _ _ E) as [[Hk Ho] Hr]. split; [|done]. split; [|done]. intros k Hn. apply Hk. auto. Qed.
Lemma kept_agree made S keys w w' : agree_but keys w w' -> fs_only w w' -> (∀ k, k ∈ keys -> S k) -> kept made S w w'.
Proof.
  intros H (Hc & _ & Hr & _ & Hf) Hs. split; [|done]. intros k Hk. left. apply H. intros Hx. by apply Hk, Hs.
Qed.
Lemma kept_file_at made S w w' k : kept made S w w' -> ~ S k -> file_at w' k = file_at w k.
Proof. intros [H _] Hk. unfold file_at. destruct (H k Hk) as [->|(_ & -> & ->)]; done. Qed.
Lemma kept_dir made S w w' k : kept made S w w' -> ~ S k -> fs w !! k = Some Dir -> fs w' !! k = Some Dir.
Proof. intros [H _] Hk E. destruct (H k Hk) as [->|(_ & _ & ->)]; done. Qed.
Lemma kept_calm made S w w' : kept made S w w' -> faults w = [] -> faults w' = [].
Proof. intros (_ & _ & _ & H). by apply suffix_no_faults. Qed.

Section KeptOps.
Context (made S : string -> Prop).
Notation K := (kept made S).
Lemma kept_look {A} (op : IO A) :
  (∀ w r w', op w = (r, w') -> fs w' = fs w ∧ clock w' = clock w ∧ rnd w' = rnd w ∧ faults w' `suffix_of` faults w) -> keeps K op any.
Proof. intros H w r w' E. split; [|by destruct r]. destruct (H _ _ _ E) as (Hf & ? & ? & ?). split; [|done]. intros k _. left. by rewrite Hf. Qed.
Lemma kept_read {A} (op : IO A) : keeps fs_only op any -> (∀ w r w', op w = (r, w') -> fs w' = fs w) -> keeps K op any.
Proof. intros Ho Hf. apply kept_look. intros w r w' E. split; [by eapply Hf|]. apply Ho in E as [(? & _ & ? & _ & ?) _]. done. Qed.
Ltac reads op := apply kept_read; [auto with keeps|]; unfold op; intros w r w' E;
  apply syscall_inv in E as [[l E]|(e & l & -> & ->)]; [|done]; cbn in E; repeat case_match; by simplify_eq.
Lemma kept_ReadFile p : keeps K (os_ReadFile p) any. Proof. reads os_ReadFile. Qed.
Lemma kept_Stat p : keeps K (os_Stat p) any. Proof. reads os_Stat. Qed.
Lemma kept_ReadDir p : keeps K (os_ReadDir p) any. Proof. reads os_ReadDir. Qed.
Lemma kept_rand_text : keeps K rand_text any.
Proof. apply kept_look. by intros w r w' [= <- <-]. Qed.
Lemma kept_rand_Read n : keeps K (rand_Read n) any.
Proof. apply kept_look. by intros w r w' [= <- <-]. Qed.
Lemma kept_sql {A} (f : database -> result A * database) : keeps K (sql f) any.
Proof. apply kept_look. intros w r w' E. apply db_only_sql in E as [(? & ? & ? & _ & ?) _]. done. Qed.
Lemma kept_MkdirAll p : (∀ a, a ∈ ancestors p -> made a) -> keeps K (os_MkdirAll p) any.
Proof.
  intros Hm w r w' E. split; [|by destruct r]. pose proof E as Eo. apply fs_only_MkdirAll in Eo as [(? & _ & ? & _ & ?) _].
  split; [|done]. intros k _. destruct (MkdirAll_effect p w r w' E k) as [|(Hk & Hn & Hd)]; [by left|right; auto].
Qed.
Lemma kept_writeFile d n c m : dir_ok d -> name_ok n -> (∀ k, k ∈ written_paths d n -> S k) -> keeps K (writeFile d n c m) any.
Proof.
  intros Hd Hn Hs w r w' E. split; [|by destruct r]. pose proof E as Eo. apply fs_only_writeFile in Eo as [Eo _].
  apply writeFile_spec in E as [Ha _]; [|done..]. by eapply kept_agree.
Qed.
Lemma kept_appendFile d n c m : dir_ok d -> name_ok n -> S (path_of d n) -> keeps K (appendFile d n c m) any.
Proof.
  intros Hd Hn Hs w r w' E. split; [|by destruct r]. pose proof E as Eo. apply fs_only_appendFile in Eo as [Eo _].
  apply appendFile_spec in E as [Ha _]; [|done..]. eapply kept_agree; [done..|]. by intros k ->%list_elem_of_singleton.
Qed.
Lemma fs_only_sqlite p : keeps fs_only (sqlite_Open p) any. Proof. unfold sqlite_Open. syscall_only. Qed.
Lemma kept_sqlite p : S p -> keeps K (sqlite_Open p) any.
Proof.
  intros Hs w r w' E. split; [|by destruct r]. pose proof E as Eo. apply fs_only_sqlite in Eo as [Eo _].
  eapply (kept_agree _ _ [p]); [|done|by intros k ->%list_elem_of_singleton]. intros k Hk. assert (k <> p) by set_solver.
  unfold sqlite_Open in E. sys_inv E; by rewrite ?lookup_insert_ne.
Qed.
End KeptOps.
#[export] Hint Resolve kept_ReadFile kept_Stat kept_ReadDir kept_rand_text kept_rand_Read kept_sql : keeps.
Lemma kept_readFile made S d n b : keeps (kept made S) (readFile d n b) any.
Proof. unfold readFile. keeps_auto. Qed.
#[export] Hint Resolve kept_readFile : keeps.

(** Paths that are entries of a directory. *)
Definition in_dirs (l : list string) (k : string) : Prop := ∃ d n, d ∈ l ∧ name_ok n ∧ k = path_of d n.
Lemma written_in_dirs l d n k : d ∈ l -> name_ok n -> k ∈ written_paths d n -> in_dirs l k.
Proof.
  intros Hd Hn. unfold written_paths. rewrite !elem_of_cons, elem_of_nil.
  intros [->|[->|[]]]; (eexists d, _; split; [done|]; split; [|reflexivity]; auto with server).
Qed.
Lemma not_in_dirs l d n : Forall dir_ok l -> dir_ok d -> name_ok n -> d ∉ l -> ~ in_dirs l (path_of d n).
Proof.
  intros Hl Hd Hn Hnot (e & m & He & Hm & E). apply path_of_dir_inj in E as [-> _]; try done. by eapply Forall_forall in Hl.
Qed.

Lemma ancestors_prefix d a : dir_ok d -> a ∈ ancestors d -> comps a `prefix_of` comps d.
Proof.
  intros _ (q & _ & Hq & ->)%elem_of_ancestors. destruct Hq as [r Hr]. rewrite comps_render; [by exists r|].
  pose proof (comps_ok_comps d) as Hok. rewrite Hr in Hok. clear Hr. induction r as [|y ys IH] using rev_ind; [by rewrite app_nil_r in Hok|].
  apply IH. rewrite app_assoc in Hok. by apply comps_ok_init in Hok.
Qed.

(** ** The data directory *)

Section DataDir.
Variable root : string.
Hypothesis root_ok : dir_ok root.
Notation entry n := (path_of root n).
Definition std_names : list string := [AuditDir; AuthDir; CertsDir; ConfigsDir; DevicesDir; UpdatesDir].
Lemma std_names_ok : Forall name_ok (TufDir :: DbFile :: BrandingDir :: std_names).
Proof. apply (bool_decide_unpack _). vm_compute. exact I. Qed.
Definition data_dirs : list string := [entry TufDir; keysDir (tuf_handle root); default_dir (tuf_handle root)] ++ map (λ n, entry n) std_names.
(** The directories that the commands create. *)
Definition made (k : string) : Prop := ∃ d, d ∈ data_dirs ∧ k ∈ ancestors d.
Notation K := (kept made).
(** Every directory of the layout is there. *)
Definition laid_out (w : world) : Prop := ∀ n, n ∈ std_names -> dir_exists w (entry n).

Lemma std_name n : n ∈ std_names -> name_ok n.
Proof. intros Hn. pose proof std_names_ok as H. rewrite !Forall_cons in H. destruct H as (_ & _ & _ & H). by eapply Forall_forall in H. Qed.
Hint Resolve std_name : server.
Lemma NewFs_forM w : NewFs root w = wrap "unable to initialize file storage" (forM std_names (λ n, os_MkdirAll (entry n))) w.
Proof.
  unfold NewFs, FsConfig_AuditDir, FsConfig_AuthDir, FsConfig_CertsDir, FsConfig_ConfigsDir, FsConfig_DevicesDir, FsConfig_UpdatesDir.
  rewrite !Join_entry by (done || apply std_name; unfold std_names; set_solver). done.
Qed.
Lemma kept_NewFs S : keeps (K S) (NewFs root) any.
Proof.
  intros w r w' E. rewrite NewFs_forM in E. revert w r w' E. change (keeps (K S) (wrap "unable to initialize file storage" (forM std_names (λ n, os_MkdirAll (entry n)))) any).
  apply keeps_wrap, keeps_forM. intros n Hn. apply kept_MkdirAll. intros a Ha. exists (entry n). split; [|done].
  unfold data_dirs. apply elem_of_app. right. apply list_elem_of_fmap. eauto.
Qed.
Lemma MkdirAll_dirs p w w' : os_MkdirAll p w = (Ok tt, w') -> ∀ a, a ∈ ancestors p -> fs w' !! a = Some Dir.
Proof.
  intros E a Ha. unfold os_MkdirAll in E. apply syscall_inv in E as [[l E]|(e & l & [=] & _)].
  simpl in E. destruct (existsb _ _); simplify_eq. simpl. by rewrite foldr_mkdir_lookup, decide_True.
Qed.
Lemma NewFs_lays_out w w' : NewFs root w = (Ok tt, w') -> laid_out w'.
Proof.
  rewrite NewFs_forM. intros E%wrap_Ok_inv. unfold laid_out. revert w E. generalize std_names as l. intros l.
  induction l as [|n l IH]; intros w E m Hm a Ha; [by apply elem_of_nil in Hm|]. cbn [forM] in E.
  apply bind_inv_Ok in E as ([] & w1 & E1 & E). apply elem_of_cons in Hm as [->|Hm]; [|by eapply IH].
  pose proof (MkdirAll_dirs _ _ _ E1 a Ha) as Hd. clear IH E1. revert w1 Hd E. induction l as [|y l IH]; intros w1 Hd E; cbn [forM] in E; [by apply ret_inv in E as [_ <-]|].
  apply bind_inv_Ok in E as ([] & w2 & E2 & E). eapply IH; [|exact E].
  destruct (MkdirAll_effect _ _ _ _ E2 a) as [->|(_ & _ & ->)]; done.
Qed.
Lemma NewFs_again w : faults w = [] -> laid_out w -> NewFs root w = (Ok tt, w).
Proof.
  intros Hf Hl. rewrite NewFs_forM. apply wrap_Ok. unfold laid_out in Hl. revert Hl. generalize std_names as l. intros l.
  induction l as [|n l IH]; intros Hl; [done|]. cbn [forM].
  rewrite (bind_Ok _ _ _ _ _ (mkdirs_exists (entry n) w Hf (Hl n ltac:(set_solver)))).
  apply IH. intros m Hm. apply Hl. set_solver.
Qed.

(** The directories by their names. *)
Lemma certs_eq : FsConfig_CertsDir root = entry CertsDir. Proof. apply Join_entry, std_name; [done|unfold std_names; set_solver]. Qed.
Lemma auth_eq : FsConfig_AuthDir root = entry AuthDir. Proof. apply Join_entry, std_name; [done|unfold std_names; set_solver]. Qed.
Lemma audit_eq : FsConfig_AuditDir root = entry AuditDir. Proof. apply Join_entry, std_name; [done|unfold std_names; set_solver]. Qed.
Lemma tuf_eq : FsConfig_TufDir root = entry TufDir. Proof. apply Join_entry; [done|by apply (bool_decide_unpack _)]. Qed.
Lemma db_eq : FsConfig_DbFile root = entry DbFile. Proof. apply Join_entry; [done|by apply (bool_decide_unpack _)]. Qed.
Lemma entry_ok_std n : n ∈ std_names -> dir_ok (entry n).
Proof. intros Hn. auto with server. Qed.
Lemma comps_entry n : name_ok n -> comps (entry n) = comps root ++ [n].
Proof. intros Hn. apply comps_app_name; auto with server. Qed.

(** A directory of the layout is no path that a command writes. *)
Lemma std_not_in_dirs l n a :
  (∀ d, d ∈ l -> dir_ok d ∧ (length (comps root) < length (comps d))%nat) -> n ∈ std_names -> a ∈ ancestors (entry n) -> ~ in_dirs l a.
Proof.
  intros Hl Hn Ha (d & m & Hd & Hm & ->). destruct (Hl d Hd) as [Hok Hlen].
  apply ancestors_comps in Ha; [|by apply entry_ok_std]. rewrite comps_entry, (comps_app_name d) in Ha by auto with server.
  rewrite !length_app in Ha. simpl in Ha. lia.
Qed.
Lemma std_not_db n a : n ∈ std_names -> a ∈ ancestors (entry n) -> a <> entry DbFile.
Proof.
  intros Hn Ha ->. apply ancestors_prefix in Ha; [|by apply entry_ok_std]. rewrite !comps_entry in Ha by (auto with server || by apply (bool_decide_unpack _)).
  apply prefix_app_inv in Ha. apply prefix_cons_inv_1 in Ha. subst n. revert Hn. apply (bool_decide_unpack _). vm_compute. exact I.
Qed.
Lemma laid_out_kept (S : string -> Prop) w w' :
  (∀ n a, n ∈ std_names -> a ∈ ancestors (entry n) -> ~ S a) -> K S w w' -> laid_out w -> laid_out w'.
Proof. intros Hs H Hl n Hn a Ha. eapply kept_dir; [exact H|by eapply Hs|by eapply Hl]. Qed.
(** No command makes a directory of the file of the branding. *)
Lemma branding_not_made : ~ made (path_of (entry BrandingDir) BrandingConfigFile).
Proof.
  assert (name_ok BrandingDir ∧ name_ok BrandingConfigFile) as [Hb Hc] by (split; by apply (bool_decide_unpack _)).
  intros (d & Hd & Ha). assert (∃ x l, comps d = comps root ++ x :: l ∧ x <> BrandingDir ∧ dir_ok d) as (x & l & Hc' & Hx & Hok).
  { assert (∀ x, name_ok x -> comps (entry x) = comps root ++ [x]) as He by apply comps_entry.
    assert (name_ok TufDir) as Ht by by apply (bool_decide_unpack _).
    assert (tuf_root (tuf_handle root) = entry TufDir) as Er by apply tuf_eq.
    assert (dir_ok (entry TufDir)) as Hto by auto with server.
    unfold data_dirs in Hd. rewrite elem_of_app, list_elem_of_fmap, !elem_of_cons, elem_of_nil in Hd.
    destruct Hd as [[->|[->|[->|[]]]]|(n & -> & Hn)].
    - exists TufDir, []. rewrite He by done. split; [done|]. split; [done|auto with server].
    - exists TufDir, [tufKeysDir]. rewrite keysDir_eq, Er, comps_app_name, He, <-app_assoc by (rewrite ?Er; auto with server; by apply keys_name_ok).
      split; [done|]. split; [done|]. apply entry_dir_ok; [done|apply keys_name_ok].
    - exists TufDir, [tufDefaultDir]. unfold default_dir. rewrite Er, comps_app_name, He, <-app_assoc by (auto with server; by apply default_name_ok).
      split; [done|]. split; [done|]. apply entry_dir_ok; [done|apply default_name_ok].
    - exists n, []. rewrite He by auto with server. split; [done|]. split; [|by apply entry_ok_std].
      intros ->. revert Hn. apply (bool_decide_unpack _). vm_compute. exact I. }
  apply ancestors_prefix in Ha; [|done]. rewrite Hc' in Ha.
  rewrite (comps_app_name (entry BrandingDir)), comps_entry, <-app_assoc in Ha by auto with server.
  apply prefix_app_inv in Ha. simpl in Ha. apply prefix_cons_inv_1 in Ha. congruence.
Qed.

(** ** The commands stay in their directories *)

Definition cert_names : list string :=
  [CertsCasPemFile; CertsTlsCsrFile; CertsTlsKeyFile; CertsTlsPemFile; CertsRootKeyFile; CertsRootPemFile; CertsDeviceCaKeyFile; CertsDeviceCaPemFile].
Lemma cert_name n : n ∈ cert_names -> name_ok n.
Proof. intros Hn. assert (Forall name_ok cert_names) as H by (apply (bool_decide_unpack _); vm_compute; exact I). by eapply Forall_forall in H. Qed.
Notation in_certs := (in_dirs [entry CertsDir]).
Notation in_auth := (in_dirs [entry AuthDir]).
Lemma certs_dir_ok : dir_ok (entry CertsDir). Proof. apply entry_ok_std. unfold std_names. set_solver. Qed.
Lemma auth_dir_ok : dir_ok (entry AuthDir). Proof. apply entry_ok_std. unfold std_names. set_solver. Qed.
Lemma audit_dir_ok : dir_ok (entry AuditDir). Proof. apply entry_ok_std. unfold std_names. set_solver. Qed.
Hint Resolve kept_NewFs certs_dir_ok auth_dir_ok audit_dir_ok cert_name : keeps server.
Lemma kept_write d n c m : dir_ok d -> name_ok n -> keeps (K (in_dirs [d])) (writeFile d n c m) any.
Proof. intros Hd Hn. apply kept_writeFile; [done..|]. intros k Hk. eapply written_in_dirs; [|exact Hn|exact Hk]. set_solver. Qed.
Lemma kept_store n c what : n ∈ cert_names -> keeps (K in_certs) (store (entry CertsDir) n c what) any.
Proof. intros Hn. unfold store, Certs_WriteFile. do 2 apply keeps_wrap. apply kept_write; auto with server. Qed.
Ltac store_step := apply kept_store; unfold cert_names; set_solver.
Lemma kept_assertClean S d l : keeps (K S) (assertClean d l) any.
Proof. unfold assertClean. keeps_auto. Qed.
Hint Resolve kept_assertClean : keeps.

Section Commands.
Context `{XC : X509}.
Lemma kept_generateEcKey S : keeps (K S) generateEcKey any.
Proof. unfold generateEcKey. keeps_auto. Qed.
Lemma kept_newSerial S : keeps (K S) newSerial any.
Proof. unfold newSerial. keeps_auto. Qed.
Lemma kept_signCert S t p pub k : keeps (K S) (signCert t p pub k) any.
Proof. unfold signCert. keeps_auto. Qed.
Hint Resolve kept_generateEcKey kept_newSerial kept_signCert : keeps.
Lemma kept_buildCsr S n ou : keeps (K S) (buildCsr n ou) any.
Proof. unfold buildCsr. keeps_auto. Qed.
Hint Resolve kept_buildCsr : keeps.
Lemma kept_PkiInit c : keeps (K in_certs) (PkiInitCmd_Run c root) any.
Proof.
  unfold PkiInitCmd_Run, AssertCleanPki, init_root, init_tls, init_device, tlsCertTemplate, time_now_ms. rewrite certs_eq.
  keeps_auto; store_step.
Qed.
Context `{JC : JSON AuthConfig}.
Lemma kept_AuthInit c : keeps (K in_auth) (AuthInitCmd_Run c root) any.
Proof.
  unfold AuthInitCmd_Run, InitHmacSecret, SaveAuthConfig. rewrite auth_eq.
  keeps_auto; (apply kept_write; [auto with keeps server|by apply (bool_decide_unpack _)]).
Qed.
End Commands.

Notation h := (tuf_handle root).
Notation tuf_dirs := [tuf_root h; keysDir h; default_dir h].
Lemma tuf_root_ok : dir_ok (tuf_root h).
Proof. change (dir_ok (FsConfig_TufDir root)). rewrite tuf_eq. apply entry_dir_ok; [done|by apply (bool_decide_unpack _)]. Qed.
Hint Resolve tuf_root_ok : server keeps.
Lemma made_data d : d ∈ data_dirs -> ∀ a, a ∈ ancestors d -> made a.
Proof. intros Hd a Ha. by exists d. Qed.
Lemma tuf_dirs_made d a : d ∈ tuf_dirs -> a ∈ ancestors d -> made a.
Proof.
  intros Hd. apply made_data. unfold data_dirs. rewrite <-tuf_eq. change (FsConfig_TufDir root) with (tuf_root h). set_solver.
Qed.
Lemma audit_file_name uid : name_ok (audit_file uid).
Proof.
  unfold audit_file. assert (no_char slash (Itoa uid) = true) as Hs by (apply format_int_no_char; [lia|done]).
  split_and!; try discriminate. by rewrite no_char_app, Hs.
Qed.

Section TufCommands.
Context `{KeyEncryption, JSON AtsKey, Digest, Ed25519, JSON AtsTufRoot, JSONIndent AtsTufRoot}.
Context `{Canonical RootMeta, Canonical TargetsMeta, Canonical MetaMeta, Canonical AtsTufTargets, Canonical AtsTufMeta}.
Lemma kept_tuf_write d n c m : d ∈ tuf_dirs -> name_ok n -> keeps (K (in_dirs tuf_dirs)) (writeFile d n c m) any.
Proof.
  intros Hd Hn. apply kept_writeFile; [|done|].
  - rewrite !elem_of_cons, elem_of_nil in Hd. destruct Hd as [->|[->|[->|[]]]]; [apply tuf_root_ok|apply keysDir_ok, tuf_root_ok|].
    apply default_dir_ok, tuf_root_ok.
  - intros k Hk. by eapply written_in_dirs.
Qed.
Lemma kept_generate_signers secret roles sgs :
  roles ⊆ tufRoles -> keeps (K (in_dirs tuf_dirs)) (generate_signers h secret roles sgs) any.
Proof.
  revert sgs. induction roles as [|role roles IH]; intros sgs Hr; cbn [generate_signers]; [by apply keeps_ret|].
  unfold NewSigner, writeKey, encryptBytes. keeps_auto; [|apply IH; set_solver].
  apply kept_tuf_write; [set_solver|]. apply role_key_name_ok. set_solver.
Qed.
Lemma kept_InitTuf : keeps (K (in_dirs tuf_dirs)) (InitTuf h) any.
Proof.
  unfold InitTuf, isInitialized, rootMetaNames, read_secret, GetHmacSecret, writeRoot, writeDefaultMeta, write_metas, mkdirs, expires_in.
  keeps_auto.
  - apply kept_MkdirAll. intros ?. apply tuf_dirs_made. set_solver.
  - by apply kept_generate_signers.
  - apply kept_MkdirAll. intros ?. apply tuf_dirs_made. set_solver.
  - apply kept_tuf_write; [set_solver|apply root_name_ok].
  - rewrite (Join_entry _ _ tuf_root_ok default_name_ok). apply kept_MkdirAll. intros ?. apply tuf_dirs_made. unfold default_dir. set_solver.
  - rewrite (Join_entry _ _ tuf_root_ok default_name_ok). apply kept_tuf_write; [unfold default_dir; set_solver|].
    apply metadata_name_ok. unfold metadata_names. match goal with H : _ ∈ _ |- _ => revert H end. rewrite !elem_of_cons, elem_of_nil. intros [->|[->|[->|[]]]]; cbn; set_solver.
Qed.
End TufCommands.

Section UserCommands.
Context `{Digest, TimeFormat, SqliteJson, Scrypt, JSON AuthConfig}.
Definition user_path (k : string) : Prop := k = entry DbFile \/ in_dirs [entry AuditDir] k.
Lemma kept_audit uid event : keeps (K (in_dirs [entry AuditDir])) (AppendEvent (entry AuditDir) uid event) any.
Proof.
  unfold AppendEvent, time_now_ms. keeps_auto. apply kept_appendFile; [auto with server|apply audit_file_name|].
  exists (entry AuditDir), (audit_file uid). split; [set_solver|]. split; [apply audit_file_name|done].
Qed.
Lemma kept_db : keeps (K user_path) (sqlite_Open (entry DbFile)) any.
Proof. apply kept_sqlite. by left. Qed.
Hint Resolve kept_audit kept_db : keeps.
Lemma kept_NewStorage cfg : keeps (K user_path) (users_NewStorage root cfg) (λ st, audit_root st = entry AuditDir).
Proof.
  unfold users_NewStorage, InitStmt, Prepare, GetHmacSecret, sql_query. rewrite auth_eq, db_eq, audit_eq.
  eapply (keeps_bind _ _ any); [keeps_auto|intros ? _]. eapply (keeps_bind _ _ any); [keeps_auto|intros ? _]. by apply keeps_ret.
Qed.
Lemma kept_add_user st c password scopes :
  audit_root st = entry AuditDir -> TokenFile c = "" -> keeps (K (in_dirs [entry AuditDir])) (add_user st c password scopes) any.
Proof.
  intros Hst Ht. unfold add_user, write_token. rewrite Ht. cbn [String.eqb].
  unfold Storage_Get, Storage_Create, stmtUserGetByName_run, stmtUserCreate_run, PasswordHash, audit, sql_query, time_now_unix.
  rewrite Hst. keeps_auto.
Qed.
Lemma kept_UserAdd c typed : TokenFile c = "" -> keeps (K user_path) (UserAddCmd_Run c typed root) any.
Proof.
  intros Ht. unfold UserAddCmd_Run, GetAuthConfig, NewDb, createTables, sql_exec. rewrite auth_eq, db_eq.
  keeps_step; [keeps_auto|]. keeps_step; [keeps_auto|]. keeps_step; [keeps_auto|].
  destruct (negb _); [by apply keeps_fail|]. keeps_step; [keeps_auto|]. keeps_step; [keeps_auto|].
  eapply keeps_bind; [apply keeps_wrap, kept_NewStorage|]. intros st Hst. eapply kept_wider; [|by apply kept_add_user]. by right.
Qed.
End UserCommands.

(** ** What the commands leave: keys and certificates *)

Section PkiResult.
Context `{XC : X509, XL : !X509Laws}.
Hint Resolve kept_generateEcKey kept_newSerial kept_signCert kept_buildCsr : keeps.
Definition cert_file (w : world) (n : string) : option string := file_at w (path_of (entry CertsDir) n).
Lemma PemBytesToObject_cert {A} (parse : string -> result A) raw : PemBytesToObject parse (pem_cert raw) = parse raw.
Proof. unfold PemBytesToObject. by rewrite pem_cert_decode. Qed.
Lemma PemBytesToObject_key {A} (parse : string -> result A) type bytes : PemBytesToObject parse (pem_Encode type bytes) = parse bytes.
Proof. unfold PemBytesToObject. by rewrite pem_Encode_decode. Qed.

(** A file that a command stores is there, the others are as they were. *)
Lemma store_Ok n c what w w' :
  n ∈ cert_names -> store (entry CertsDir) n c what w = (Ok tt, w') ->
  cert_file w' n = Some c ∧ ∀ m, m ∈ cert_names -> m <> n -> cert_file w' m = cert_file w m.
Proof.
  intros Hn E%wrap_Ok_inv%wrap_Ok_inv. apply writeFile_files in E as [Hb Hc]; [|auto with server..]. split; [done|].
  intros m Hm Hne. apply Hb. unfold written_paths. rewrite !elem_of_cons, elem_of_nil. intros [E|[E|[]]]; apply path_of_inj in E; [done|].
  assert (∀ a b, a ∈ cert_names -> b ∈ cert_names -> a <> b +:+ partialFileSuffix) as Hp.
  { assert (Forall (λ a, Forall (λ b, a <> b +:+ partialFileSuffix) cert_names) cert_names) as H by (apply (bool_decide_unpack _); vm_compute; exact I).
    intros a b Ha Hb'. eapply Forall_forall in H; [|exact Ha]. by eapply Forall_forall in H. }
  exact (Hp m n Hm Hn E).
Qed.
Lemma marshalKeyPem_Ok key pem : marshalKeyPem key = Ok pem -> ∃ der, MarshalECPrivateKey key = Ok der ∧ pem = pem_Encode "EC PRIVATE KEY" der.
Proof. unfold marshalKeyPem. destruct (MarshalECPrivateKey key) as [der|]; [|done]. intros [= <-]. eauto. Qed.
Lemma signCert_Ok t p pub key w pem w' :
  signCert t p pub key w = (Ok pem, w') -> ∃ r der, x509_CreateCertificate r t p pub key = Ok der ∧ pem = pem_cert der.
Proof.
  unfold signCert. intros E. apply bind_inv_Ok in E as (r & w1 & _ & E). apply bind_wrap_lift_Ok in E as (der & Hd & E).
  apply ret_inv in E as [[= ->] ->]. eauto.
Qed.

(** What each part leaves. *)
Definition tls_files (dns : string) (notAfter : Z) (w : world) : Prop :=
  ∃ der keyDer crt, cert_file w CertsTlsPemFile = Some (pem_cert der) ∧
    cert_file w CertsTlsKeyFile = Some (pem_Encode "EC PRIVATE KEY" keyDer) ∧
    tls_X509KeyPair (pem_cert der) (pem_Encode "EC PRIVATE KEY" keyDer) = Ok der ∧
    ParseCertificate der = Ok crt ∧ cert_DNSNames crt = [dns] ∧ NotAfter crt = notAfter / 1000.
Definition device_files (w : world) : Prop :=
  ∃ der keyDer key crt, cert_file w CertsDeviceCaPemFile = Some (pem_cert der) ∧ cert_file w CertsCasPemFile = Some (pem_cert der) ∧
    cert_file w CertsDeviceCaKeyFile = Some (pem_Encode "EC PRIVATE KEY" keyDer) ∧ ParseECPrivateKey keyDer = Ok key ∧
    ParseCertificate der = Ok crt ∧ cert_IsCA crt = true.
Lemma init_root_Ok c w k w' : init_root c (entry CertsDir) w = (Ok k, w') -> is_Some (cert_file w' CertsRootPemFile).
Proof.
  unfold init_root. intros E. do 3 (apply bind_inv_Ok in E as (? & ? & _ & E)). cbv zeta in E.
  do 3 (apply bind_inv_Ok in E as (? & ? & _ & E)). apply bind_inv_Ok in E as ([] & w1 & _ & E).
  apply bind_inv_Ok in E as ([] & w2 & E2 & E). apply ret_inv in E as [_ ->].
  apply store_Ok in E2 as [Hc _]; [|unfold cert_names; set_solver]. by rewrite Hc.
Qed.
Lemma init_tls_Ok c rootKey rootCrt w w' :
  init_tls c (entry CertsDir) rootKey rootCrt w = (Ok tt, w') ->
  tls_files (pki_DnsName c) (AddDate_days (clock w) (TlsExpiryDays c)) w' ∧ cert_file w' CertsRootPemFile = cert_file w CertsRootPemFile.
Proof.
  unfold init_tls. intros E. apply bind_inv_Ok in E as ([key csrBytes] & w1 & E1 & E). apply bind_wrap_lift_Ok in E as (req & Hreq & E).
  apply bind_inv_Ok in E as (serial & w2 & E2 & E). apply bind_inv_Ok in E as (tmpl & w3 & E3 & E).
  apply bind_wrap_Ok in E as (pem & w4 & E4 & E). apply bind_lift_Ok in E as (keyPem & Hk & E).
  apply bind_inv_Ok in E as ([] & w5 & E5 & E).
  pose proof (kept_buildCsr (λ _, False) _ _ _ _ _ E1) as [K1 _]. pose proof (kept_newSerial (λ _, False) _ _ _ E2) as [K2 _].
  pose proof (kept_signCert (λ _, False) _ _ _ _ _ _ _ E4) as [K4 _]. destruct (proj2 K1) as [Hc1 _], (proj2 K2) as [Hc2 _].
  unfold tlsCertTemplate in E3. apply bind_gets_inv, ret_inv in E3 as [[= ->] ->].
  apply signCert_Ok in E4 as (r & der & Hd & ->). apply marshalKeyPem_Ok in Hk as (keyDer & Hk & ->).
  apply store_Ok in E5 as [H5 Ho5]; [|unfold cert_names; set_solver]. apply store_Ok in E as [H6 Ho6]; [|unfold cert_names; set_solver].
  destruct (created_parses _ _ _ _ _ _ Hd) as (crt & Hp & _ & _ & Hdns & Hna).
  unfold buildCsr in E1. apply bind_inv_Ok in E1 as (key0 & ? & _ & E1). apply bind_inv_Ok in E1 as (? & ? & _ & E1).
  apply bind_wrap_lift_Ok in E1 as (csrBytes0 & Hcsr & E1). apply ret_inv in E1 as [[= <- <-] _].
  destruct (requested_parses _ _ _ _ _ Hcsr Hreq) as [_ Hn].
  split.
  - exists der, keyDer, crt. split; [done|]. split; [by rewrite Ho6 by (done || unfold cert_names; set_solver)|].
    split; [by eapply pair_loads|]. split; [done|]. split; [by rewrite Hdns; cbn; rewrite Hn|]. rewrite Hna. cbn. by rewrite Hc2, Hc1.
  - rewrite Ho6, Ho5 by (done || unfold cert_names; set_solver). unfold cert_file.
    by rewrite (kept_file_at _ _ _ _ _ K4), (kept_file_at _ _ _ _ _ K2), (kept_file_at _ _ _ _ _ K1) by tauto.
Qed.
Lemma init_device_Ok c rootKey rootCrt w w' :
  init_device c (entry CertsDir) rootKey rootCrt w = (Ok tt, w') ->
  device_files w' ∧ ∀ n, n ∈ [CertsRootPemFile; CertsTlsPemFile; CertsTlsKeyFile] -> cert_file w' n = cert_file w n.
Proof.
  unfold init_device. intros E. apply bind_inv_Ok in E as (key & w1 & E1 & E). apply bind_inv_Ok in E as (serial & w2 & E2 & E).
  apply bind_gets_inv in E. cbv zeta in E. apply bind_wrap_Ok in E as (pem & w3 & E3 & E). apply bind_lift_Ok in E as (keyPem & Hk & E).
  apply bind_inv_Ok in E as ([] & w4 & E4 & E). apply bind_inv_Ok in E as ([] & w5 & E5 & E).
  pose proof (kept_generateEcKey (λ _, False) _ _ _ E1) as [K1 _]. pose proof (kept_newSerial (λ _, False) _ _ _ E2) as [K2 _].
  pose proof (kept_signCert (λ _, False) _ _ _ _ _ _ _ E3) as [K3 _].
  apply signCert_Ok in E3 as (r & der & Hd & ->). apply marshalKeyPem_Ok in Hk as (keyDer & Hk & ->).
  apply store_Ok in E4 as [H4 Ho4]; [|unfold cert_names; set_solver]. apply store_Ok in E5 as [H5 Ho5]; [|unfold cert_names; set_solver].
  apply store_Ok in E as [H6 Ho6]; [|unfold cert_names; set_solver].
  destruct (created_parses _ _ _ _ _ _ Hd) as (crt & Hp & _ & Hca & _ & _). split.
  - exists der, keyDer, key, crt. split; [by rewrite Ho6 by (done || unfold cert_names; set_solver)|]. split; [done|].
    split; [by rewrite Ho6, Ho5 by (done || unfold cert_names; set_solver)|]. split; [by apply ec_key_roundtrip|]. done.
  - intros n Hn. rewrite !elem_of_cons, elem_of_nil in Hn.
    rewrite Ho6, Ho5, Ho4 by (unfold cert_names; destruct Hn as [->|[->|[->|[]]]]; (done || set_solver)).
    unfold cert_file. by rewrite (kept_file_at _ _ _ _ _ K3), (kept_file_at _ _ _ _ _ K2), (kept_file_at _ _ _ _ _ K1) by tauto.
Qed.
(** A host with the keys and certificates of a server. *)
Definition pki_files (dns : string) (notAfter : Z) (w : world) : Prop :=
  is_Some (cert_file w CertsRootPemFile) ∧ tls_files dns notAfter w ∧ device_files w.
Lemma PkiInit_Ok c w w' :
  PkiInitCmd_Run c root w = (Ok tt, w') -> pki_files (pki_DnsName c) (AddDate_days (clock w) (TlsExpiryDays c)) w'.
Proof.
  unfold PkiInitCmd_Run. rewrite certs_eq. intros E. apply bind_inv_Ok in E as ([] & w1 & E1 & E).
  apply bind_inv_Ok in E as ([] & w2 & E2 & E). apply bind_inv_Ok in E as ([key crt] & w3 & E3 & E).
  apply bind_inv_Ok in E as ([] & w4 & E4 & E).
  pose proof (kept_NewFs in_certs _ _ _ E1) as [(_ & Hc1 & _) _]. pose proof (kept_assertClean in_certs _ _ _ _ _ E2) as [(_ & Hc2 & _) _].
  assert (clock w3 = clock w2) as Hc3.
  { assert (keeps (K in_certs) (init_root c (entry CertsDir)) any) as Hk.
    { unfold init_root, time_now_ms. keeps_auto; store_step. }
    by apply Hk in E3 as [(_ & ? & _) _]. }
  apply init_root_Ok in E3. apply init_tls_Ok in E4 as [Ht Hr]. apply init_device_Ok in E as [Hd Ho].
  rewrite Hc3, Hc2, Hc1 in Ht. split; [by rewrite Ho, Hr by set_solver|]. split; [|done].
  destruct Ht as (der & keyDer & tcrt & ? & ? & ?). exists der, keyDer, tcrt. by rewrite !Ho by set_solver.
Qed.
Lemma pki_files_kept dns notAfter w w' :
  (∀ n, n ∈ cert_names -> cert_file w' n = cert_file w n) -> pki_files dns notAfter w -> pki_files dns notAfter w'.
Proof.
  intros H (Hr & (der & keyDer & crt & ?) & (dder & dk & key & dcrt & ?)). split; [rewrite H; [done|unfold cert_names; set_solver]|].
  split; [exists der, keyDer, crt|exists dder, dk, key, dcrt]; rewrite !H by (unfold cert_names; set_solver); done.
Qed.

(** What the servers load of them. *)
Lemma Certs_ReadFile_at n c w : faults w = [] -> n ∈ cert_names -> cert_file w n = Some c -> Certs_ReadFile (entry CertsDir) n w = (Ok c, w).
Proof. intros Hf Hn Hc. unfold Certs_ReadFile. apply wrap_Ok, readFile_at; auto with server. Qed.
Lemma os_ReadFile_at n c w : faults w = [] -> n ∈ cert_names -> cert_file w n = Some c ->
  os_ReadFile (Certs_FilePath (entry CertsDir) n) w = (Ok c, w).
Proof.
  intros Hf Hn Hc. unfold Certs_FilePath. rewrite Join_entry by auto with server. unfold os_ReadFile. rewrite syscall_ok by done.
  unfold cert_file, file_at in Hc. repeat case_match; by simplify_eq.
Qed.
Lemma loadTlsConfig_loads dns notAfter w :
  faults w = [] -> pki_files dns notAfter w -> clock w <= notAfter / 1000 * 1000 ->
  ∃ cfg, loadTlsConfig (entry CertsDir) w = (Ok cfg, w) ∧ GetDnsName cfg = dns.
Proof.
  intros Hf (_ & (der & keyDer & crt & T1 & T2 & Hpair & Hp & Hdns & Hna) & (dder & dk & key & dcrt & _ & Hcas & _)) Ht.
  unfold loadTlsConfig, loadCas, loadTlsKeyPair.
  rewrite (bind_Ok _ _ w (AppendCertsFromPEM (pem_cert dder)) w).
  2: { apply wrap_Ok. rewrite (bind_Ok _ _ _ _ _ (wrap_Ok _ _ _ _ _ (Certs_ReadFile_at CertsCasPemFile _ w Hf ltac:(unfold cert_names; set_solver) Hcas))). done. }
  rewrite (bind_Ok _ _ w der w).
  2: { apply wrap_Ok. rewrite (bind_Ok _ _ _ _ _ (os_ReadFile_at CertsTlsPemFile _ w Hf ltac:(unfold cert_names; set_solver) T1)).
       rewrite (bind_Ok _ _ _ _ _ (os_ReadFile_at CertsTlsKeyFile _ w Hf ltac:(unfold cert_names; set_solver) T2)). unfold lift. by rewrite Hpair. }
  rewrite Hp. unfold mbind, M_bind. cbn. rewrite Hna. destruct (Z.ltb_spec (notAfter / 1000 * 1000) (clock w)); [lia|].
  eexists. split; [reflexivity|]. unfold GetDnsName. cbn. by rewrite Hdns.
Qed.
Context `{HP : HostPort}.
Lemma LoadDeviceCa_loads dns notAfter gatewayAddr port w :
  faults w = [] -> pki_files dns notAfter w -> SplitHostPort gatewayAddr = Ok port ->
  ∃ ca, LoadDeviceCa (entry CertsDir) gatewayAddr w = (Ok (Some ca), w) ∧ DgUrl ca = "https://" +:+ dns +:+ ":" +:+ port.
Proof.
  intros Hf ([rootPem Hr] & (der & keyDer & crt & T1 & _ & _ & Hp & Hdns & _) & (dder & dk & key & dcrt & D1 & _ & D2 & Hk & Hdp & Hca)) Hport.
  unfold LoadDeviceCa, unless_missing. rewrite Hport.
  assert (∀ {A} (P : result string -> IO A) n c, n ∈ cert_names -> cert_file w n = Some c ->
    (try (Certs_ReadFile (entry CertsDir) n) ≫= P) w = P (Ok c) w) as Ht.
  { intros A P n c Hn Hc. by rewrite (bind_try _ _ _ _ _ (Certs_ReadFile_at n c w Hf Hn Hc)). }
  rewrite (bind_Ok _ _ w port w) by done. rewrite (Ht _ _ CertsDeviceCaKeyFile _ ltac:(unfold cert_names; set_solver) D2).
  rewrite PemBytesToObject_key, Hk, (bind_Ok _ _ w key w) by done. rewrite (Ht _ _ CertsDeviceCaPemFile _ ltac:(unfold cert_names; set_solver) D1).
  rewrite PemBytesToObject_cert, Hdp, (bind_Ok _ _ w dcrt w) by done. rewrite Hca. cbn [negb].
  rewrite (bind_Ok _ _ _ _ _ (Certs_ReadFile_at CertsRootPemFile _ w Hf ltac:(unfold cert_names; set_solver) Hr)).
  rewrite (bind_Ok _ _ _ _ _ (Certs_ReadFile_at CertsTlsPemFile _ w Hf ltac:(unfold cert_names; set_solver) T1)).
  rewrite PemBytesToObject_cert, Hp, (bind_Ok _ _ w crt w) by done. rewrite Hdns. eexists. split; [reflexivity|done].
Qed.
End PkiResult.
End DataDir.
