(* ===== verification/ServeSpec.v ===== *)
(** What a development server is after its set-up: it starts, with the URLs of its
    certificate, and its first account can log in. *)
From S2P Require Import Prelude GoStrings Bytes GoPath Schema World BaseFs Crypto Models Tar Updates FsHandles Tuf TufFs TufSpec TufLife TufKeys Encoding Http Limiter ApiStorage Scopes Users UserOps Auth AuthLocal UiApi Gateway WebPages SetupPki Setup SetupSpec.
Import Users.

(** ** The database *)

Definition is_file (w : world) (k : string) : Prop := is_Some (file_at w k).
Lemma is_file_node w k : is_file w k ↔ ∃ c m t, fs w !! k = Some (File c m t).
Proof.
  unfold is_file, file_at. split; [|by intros (c & m & t & ->)].
  destruct (fs w !! k) as [[c m t|]|]; [eauto|by intros [? [=]]..].
Qed.
Lemma sqlite_Open_file p w w' : sqlite_Open p w = (Ok tt, w') -> is_file w' p.
Proof.
  unfold sqlite_Open. intros E. apply is_file_node. apply syscall_inv in E as [[l E]|(e & l & [=] & _)]. cbn in E.
  destruct (fs w !! p) as [[c m t|]|] eqn:Hk; [|done|].
  - simplify_eq. cbn. eauto.
  - destruct (parent_ok _ _); simplify_eq. cbn. rewrite lookup_insert_eq. eauto.
Qed.
Lemma sqlite_Open_again p w : faults w = [] -> is_file w p -> sqlite_Open p w = (Ok tt, w).
Proof. intros Hf (c & m & t & Hk)%is_file_node. unfold sqlite_Open. rewrite syscall_ok by done. by rewrite Hk. Qed.
Lemma Prepare_file p n w w' : Prepare p n w = (Ok tt, w') -> is_file w' p.
Proof.
  unfold Prepare. intros E%wrap_Ok_inv. apply bind_inv_Ok in E as ([] & w1 & E1%sqlite_Open_file & E).
  unfold sql_query in E. apply db_only_sql in E as [(_ & Hf & _) _]. unfold is_file, file_at in *. by rewrite Hf.
Qed.
Lemma InitStmt_file p names w w' : names <> [] -> InitStmt p names w = (Ok tt, w') -> is_file w' p.
Proof.
  unfold InitStmt. revert w. induction names as [|n names IH]; intros w Hne E; [done|]. cbn [forM] in E.
  apply bind_inv_Ok in E as ([] & w1 & E1 & E). destruct names as [|m names]; [|by eapply IH].
  apply ret_inv in E as [_ ->]. by apply Prepare_file in E1.
Qed.
Lemma Prepare_again p n w : faults w = [] -> is_file w p -> Prepare p n w = (Ok tt, w).
Proof. intros Hf Hk. unfold Prepare. apply wrap_Ok. rewrite (bind_Ok _ _ _ _ _ (sqlite_Open_again p w Hf Hk)). by apply (sql_query_run (λ _, Ok tt)). Qed.
Lemma InitStmt_again p names w : faults w = [] -> is_file w p -> InitStmt p names w = (Ok tt, w).
Proof.
  intros Hf Hk. unfold InitStmt. induction names as [|n names IH]; [done|]. cbn [forM].
  by rewrite (bind_Ok _ _ _ _ _ (Prepare_again p n w Hf Hk)).
Qed.
Lemma NewDb_again p w : faults w = [] -> is_file w p -> NewDb p w = (Ok tt, w).
Proof.
  intros Hf (c & m & t & Hk)%is_file_node. unfold NewDb.
  assert (∃ x, os_Stat p w = (Ok x, w)) as [x Hx]; [|by rewrite (bind_try _ _ _ _ _ Hx)].
  unfold os_Stat. rewrite syscall_ok by done. rewrite Hk. eauto.
Qed.

(** ** A new account *)

Section NewAccount.
Context `{HD : Digest, HT : TimeFormat, HJ : SqliteJson, HS : Scrypt}.

(** An account whose name no other row has is found by it. *)
Lemma Storage_Get_at name i row s w :
  faults w = [] -> users (db w) !! i = Some row -> u_username row = name -> u_deleted row = false ->
  ScopesFromString (u_allowed_scopes row) = Ok s ->
  (∀ j r, users (db w) !! j = Some r -> u_username r = name -> j = i) ->
  Storage_Get name w = (Ok (Some (mkUser i name (u_password row) (u_email row) (u_created_at row) false s
                                    (Some (u_auth_provider_data row))), None), w).
Proof.
  intros Hf Hi Hn Hd Hs Hu. unfold Storage_Get, stmtUserGetByName_run. rewrite bind_assoc, bind_try_query by done.
  rewrite (find_unique _ _ (i, row)); [|by apply elem_of_rows_z|cbn; by rewrite Hn, Hd, String.eqb_refl|].
  - unfold mbind, M_bind, mret, M_ret. cbn. rewrite Hs. by rewrite Hn.
  - intros [j r] Hj%elem_of_rows_z. cbn. rewrite andb_true_iff, String.eqb_eq. intros [Hr _].
    pose proof (Hu _ _ Hj Hr) as ->. congruence.
Qed.
(** A new row: the next key, a name that was free. *)
Definition creates_user (u : User) (i : Z) (d d' : database) : Prop :=
  ∃ created data, username_taken d (Username u) None = false ∧
    users d' = <[i := UserRow (Username u) (Password u) (Email u) created (Deleted u) (scopes_String (AllowedScopes u)) data]> (users d).
Lemma Storage_Create_Ok h u u' w w' :
  Storage_Create h u w = (Ok (u', None), w') -> creates_user u (id u') (db w) (db w') ∧ faults w' `suffix_of` faults w.
Proof.
  unfold Storage_Create, stmtUserCreate_run, time_now_unix. intros E. apply bind_inv_Ok in E as ([u1 err] & w1 & E1 & E).
  apply bind_gets_inv in E1. apply bind_try_inv in E1 as (r & w2 & E2 & E1). apply ret_inv in E1 as [E1 ->].
  destruct r as [i|e]; [|injection E1 as -> ->; apply ret_inv in E as [[= _ [=]] _]].
  injection E1 as -> ->. apply bind_inv_Ok in E as ([] & w3 & [(_ & Hd & _ & _ & Hf3) _]%audit_inv & E).
  apply ret_inv in E as [[= ->] ->]. pose proof E2 as Eo. apply db_only_sql in Eo as [(_ & _ & _ & _ & Hf) _].
  apply sql_inv in E2 as [(l & -> & E2)|(e & l & [=] & _)].
  destruct (sqlite_json _) as [data|]; [|done]. destruct (username_taken _ _ _) eqn:Ht; [done|].
  injection E2 as ->. split; [|by etrans]. eexists _, data. split; [exact Ht|]. by rewrite Hd.
Qed.

(** The accounts, and the random source, stay as they are. *)
Definition same_users (w w' : world) : Prop :=
  users (db w') = users (db w) ∧ rnd w' = rnd w ∧ faults w' `suffix_of` faults w.
#[export] Instance same_users_preorder : PreOrder same_users.
Proof. split; [done|]. unfold same_users. intros x y z (?&?&?) (?&?&?). split_and!; [congruence..|by etrans]. Qed.
Lemma fs_only_same_users w w' : fs_only w w' -> same_users w w'.
Proof. intros (_ & Hd & Hr & _ & Hf). split; [by rewrite Hd|done]. Qed.
Lemma same_users_sql {A} (f : database -> result A * database) :
  (∀ d, users (f d).2 = users d) -> keeps same_users (sql f) any.
Proof.
  intros H w r w' E. split; [|by destruct r]. pose proof E as Eo. apply db_only_sql in Eo as [(_ & _ & Hr & _ & Hf) _].
  split; [|done]. by apply sql_inv in E as [(l & -> & _)|(e & l & _ & ->)]; [apply H|].
Qed.
Lemma same_users_rand : keeps same_users rand_text any.
Proof. by intros w r w' [= <- <-]. Qed.
Lemma same_users_GenerateToken h u desc expires scopes : keeps same_users (GenerateToken h u desc expires scopes) any.
Proof.
  unfold GenerateToken, time_now_ms, time_now_unix, stmtTokenCreate_run. keeps_auto; first [apply same_users_rand|idtac].
  - apply same_users_sql. intros d. by destruct (existsb _ _).
  - apply keeps_audit, fs_only_same_users.
Qed.
Lemma same_users_write_token h username file scopes : keeps same_users (write_token h username file scopes) any.
Proof.
  unfold write_token, Storage_Get, stmtUserGetByName_run, time_now_ms.
  assert (∀ p c m, keeps same_users (os_WriteFile p c m) any) as Hw.
  { intros p c m w r w' E. assert (keeps fs_only (os_WriteFile p c m) any) as Ho by (unfold os_WriteFile; keeps_auto).
    apply Ho in E as [E _]. split; [by apply fs_only_same_users|by destruct r]. }
  pose proof same_users_GenerateToken. keeps_auto. apply same_users_sql. done.
Qed.

(** The database, and the random source, stay as they are. *)
Definition same_db (w w' : world) : Prop := db w' = db w ∧ rnd w' = rnd w ∧ faults w' `suffix_of` faults w.
#[export] Instance same_db_preorder : PreOrder same_db.
Proof. split; [done|]. unfold same_db. intros x y z (?&?&?) (?&?&?). split_and!; [congruence..|by etrans]. Qed.
Lemma same_db_fs {A} (m : IO A) : keeps fs_only m any -> keeps same_db m any.
Proof. intros H w r w' E. apply H in E as [(_ & ? & ? & _ & ?) _]. split; [done|by destruct r]. Qed.
Lemma same_db_query {A} (f : database -> result A) : keeps same_db (sql_query f) any.
Proof.
  intros w r w' E. split; [|by destruct r]. unfold sql_query in E. pose proof E as Eo. apply db_only_sql in Eo as [(_ & _ & Hr & _ & Hf) _].
  split; [|done]. by apply sql_inv in E as [(l & -> & _)|(e & l & _ & ->)].
Qed.
Lemma same_db_NewStorage `{JSON AuthConfig} root cfg : keeps same_db (users_NewStorage root cfg) any.
Proof.
  unfold users_NewStorage, InitStmt, Prepare, GetHmacSecret. keeps_auto; first [apply same_db_query|apply same_db_fs; auto with keeps].
  apply fs_only_sqlite.
Qed.
Lemma NewDb_Ok p w w' :
  faults w = [] -> NewDb p w = (Ok tt, w') ->
  rnd w' = rnd w ∧ faults w' = [] ∧ (db w' = db w \/ fs w !! p = None ∧ db w' = empty_db).
Proof.
  intros Hf E. unfold NewDb in E. apply bind_try_inv in E as (r & w1 & E1 & E). unfold os_Stat in E1. rewrite syscall_ok in E1 by done.
  destruct (fs w !! p) as [n|] eqn:Hp; injection E1 as <- <-; [apply ret_inv in E as [_ ->]; auto|].
  cbn [errors_Is] in E. unfold createTables in E. apply wrap_Ok_inv in E. apply bind_inv_Ok in E as ([] & w1 & E1 & E).
  pose proof (fs_only_sqlite _ _ _ _ E1) as [(_ & _ & Hr & _ & Hs) _]. rewrite Hf in Hs. apply suffix_nil_inv in Hs.
  rewrite sql_exec_run in E by done. injection E as <-. cbn. auto.
Qed.
Lemma username_free d name j r : username_taken d name None = false -> users d !! j = Some r -> u_username r <> name.
Proof.
  intros Hn%not_true_iff_false Hj Hr. apply Hn, existsb_exists. exists (j, r).
  split; [by apply list_elem_of_In, elem_of_map_to_list|]. cbn. by rewrite Hr, String.eqb_refl.
Qed.
(** The account that a new row is. *)
Lemma created_found u i d w :
  faults w = [] -> valid (AllowedScopes u) -> AllowedScopes u <> 0 -> Deleted u = false ->
  creates_user u i d (db w) ->
  ∃ u', Storage_Get (Username u) w = (Ok (Some u', None), w) ∧ id u' = i ∧ Username u' = Username u ∧
    Password u' = Password u ∧ AllowedScopes u' = AllowedScopes u.
Proof.
  intros Hf Hv H0 Hdel (created & data & Hfree & Hu). eexists. split.
  - eapply Storage_Get_at; [done|rewrite Hu; apply lookup_insert_eq|done|done|by apply scopes_roundtrip|].
    intros j r Hj Hr. rewrite Hu in Hj. apply lookup_insert_Some in Hj as [[? _]|[_ Hj]]; [done|]. destruct (username_free _ _ _ _ Hfree Hj Hr).
  - done.
Qed.

(** What [add_user] leaves. *)
Lemma add_user_Ok st c password scopes w w' :
  (∀ n, 10 <= len (rnd w n)) -> add_user st c password scopes w = (Ok tt, w') ->
  ∃ hashed i w1, creates_user (mkUser 0 (ua_Username c) hashed "" 0 false scopes None) i (db w) (db w1) ∧ users (db w') = users (db w1) ∧
    faults w' `suffix_of` faults w ∧ PasswordVerify password hashed = Ok true.
Proof.
  intros Hrnd E. unfold add_user in E. apply bind_inv_Ok in E as ([u err] & w1 & E1 & E).
  assert (same_db w w1) as (Hd1 & Hr1 & Hf1).
  { assert (keeps same_db (Storage_Get (ua_Username c)) any) as Hk; [|by apply Hk in E1 as [? _]].
    unfold Storage_Get, stmtUserGetByName_run. keeps_auto. apply same_db_query. }
  assert (∃ hashed w2, PasswordHash password w1 = (Ok hashed, w2) ∧
    ('(_, err) ← Storage_Create st (mkUser 0 (ua_Username c) hashed "" 0 false scopes None);
      match err with Some err => fail (ErrWrap "failed to create user" err) | None => write_token st (ua_Username c) (TokenFile c) scopes end) w2
      = (Ok tt, w')) as (hashed & w2 & Eh & Ec).
  { destruct err, u; try (by apply bind_inv_Ok in E). by apply fail_inv in E as [[=] _]. }
  clear E. pose proof Eh as (dk & _ & _ & ->)%PasswordHash_inv. rewrite <-Hr1 in Hrnd.
  apply bind_inv_Ok in Ec as ([u2 err2] & w3 & E3 & E). destruct err2; [by apply fail_inv in E as [[=] _]|].
  apply Storage_Create_Ok in E3 as [Hc Hf3]. cbn in Hc, Hf3. apply same_users_write_token in E as [(Hu & _ & Hf4) _]. rewrite Hd1 in Hc. exists hashed, (id u2), w3. split; [exact Hc|]. split; [done|].
  split; [by rewrite Hf4, Hf3|]. by eapply (PasswordHash_PasswordVerify _ password); [|exact Eh].
Qed.
End NewAccount.

(** ** Setting up an account *)

Section Account.
Context `{HD : Digest, HT : TimeFormat, HJ : SqliteJson, HS : Scrypt, JC : JSON AuthConfig}.
Variable root : string.
Hypothesis root_ok : dir_ok root.

Notation auth_config := (path_of (path_of root AuthDir) AuthConfigFile).
Lemma config_name : name_ok AuthConfigFile. Proof. by apply (bool_decide_unpack _). Qed.
(** The configuration that is loaded is the one in the file, but for the timeout. *)
Lemma GetAuthConfig_file w cfg w' :
  GetAuthConfig (FsConfig_AuthDir root) w = (Ok cfg, w') ->
  fs w' = fs w ∧ ∃ text cfg0, file_at w auth_config = Some text ∧ json_Unmarshal text = Ok cfg0 ∧
    AuthType cfg = AuthType cfg0 ∧ NewUserDefaultScopes cfg = NewUserDefaultScopes cfg0.
Proof.
  unfold GetAuthConfig. rewrite auth_eq by done. intros E. apply bind_inv_Ok in E as (text & w1 & E1 & E).
  apply readFile_content in E1 as [Hfs [Hc|[? ?]]]; [|done|by apply auth_dir_ok|apply config_name].
  destruct (json_Unmarshal text) as [cfg0|] eqn:Hd; [|by apply fail_inv in E as [[=] _]]. apply ret_inv in E as [[= ->] ->].
  split; [done|]. exists text, cfg0. split; [done|]. split; [done|]. by destruct (_ =? 0).
Qed.

(** What the command leaves in the database, with the configuration it found. *)
Lemma UserAdd_Ok c typed w w' :
  faults w = [] -> (∀ n, 10 <= len (rnd w n)) -> UserAddCmd_Run c typed root w = (Ok tt, w') ->
  ∃ password text cfg scopes hashed i d, read_password (ua_Password c) typed = Ok password ∧
    file_at w auth_config = Some text ∧ json_Unmarshal text = Ok cfg ∧ AuthType cfg = "local" ∧
    ScopesFromSlice (match ua_AllowedScopes c with [] => NewUserDefaultScopes cfg | l => l end) = Ok scopes ∧
    (d = db w \/ fs w !! FsConfig_DbFile root = None ∧ d = empty_db) ∧
    creates_user (mkUser 0 (ua_Username c) hashed "" 0 false scopes None) i d (db w') ∧
    PasswordVerify password hashed = Ok true ∧ faults w' = [].
Proof.
  intros Hf Hrnd E. unfold UserAddCmd_Run in E. apply bind_lift_Ok in E as (password & Hpw & E).
  apply bind_inv_Ok in E as ([] & w1 & E1 & E). apply bind_wrap_Ok in E as (cfg & w2 & E2 & E).
  destruct (String.eqb_spec (AuthType cfg) "local") as [Hlocal|]; [|by apply fail_inv in E as [[=] _]]. cbn [negb] in E.
  apply bind_wrap_lift_Ok in E as (scopes & Hscopes & E). apply bind_wrap_Ok in E as ([] & w3 & E3 & E).
  apply bind_wrap_Ok in E as (st & w4 & E4 & E).
  assert (same_db w w2) as (Hd & Hr & Hs).
  { assert (keeps same_db (NewFs root) any) as Hn by (apply same_db_fs; unfold NewFs; keeps_auto).
    assert (keeps same_db (GetAuthConfig (FsConfig_AuthDir root)) any) as Hg by (apply same_db_fs; unfold GetAuthConfig; keeps_auto).
    apply Hn in E1 as [? _]. pose proof (Hg _ _ _ E2) as [? _]. by etrans. }
  apply (kept_NewFs root root_ok (λ _, False)) in E1 as [Hk _].
  apply GetAuthConfig_file in E2 as (Hfs2 & text & cfg0 & Htext & Hdec & Ht & Hns).
  rewrite (kept_file_at _ _ _ _ _ Hk) in Htext by tauto. destruct Hk as [Hk _]. rewrite Hns in Hscopes.
  rewrite Hf in Hs. apply suffix_nil_inv in Hs. apply NewDb_Ok in E3 as (Hr3 & Hf3 & Hd3); [|done].
  pose proof (same_db_NewStorage root cfg _ _ _ E4) as [(Hd4 & Hr4 & Hf4) _]. rewrite Hf3 in Hf4. apply suffix_nil_inv in Hf4.
  apply add_user_Ok in E as (hashed & i & w5 & Hc & Hu & Hf5 & Hv); [|by rewrite Hr4, Hr3, Hr].
  rewrite Hf4 in Hf5. apply suffix_nil_inv in Hf5.
  destruct Hc as (created & data & Hfree & Hrows). rewrite Hd4 in Hfree, Hrows.
  exists password, text, cfg0, scopes, hashed, i, (db w3). split_and!; try done; [congruence| |exists created, data; by rewrite Hu].
  destruct Hd3 as [->|[Hn ->]]; [left; congruence|right]. split; [|done].
  destruct (Hk (FsConfig_DbFile root)) as [Hk'|(_ & Hk' & _)]; [tauto| |done]. congruence.
Qed.

(** C21. The account that the command adds is there: nobody had its name, all other
    accounts are as they were (there are none when the database is new), and it is
    found by its name, with a password that verifies and the scopes that were asked
    for, or those that the configuration on the disk gives to new users. *)
Theorem user_add_login c typed w w' :
  faults w = [] -> (∀ n, 10 <= len (rnd w n)) -> UserAddCmd_Run c typed root w = (Ok tt, w') ->
  ∃ password text cfg scopes hashed i d, read_password (ua_Password c) typed = Ok password ∧
    file_at w (path_of (path_of root AuthDir) AuthConfigFile) = Some text ∧ json_Unmarshal text = Ok cfg ∧ AuthType cfg = "local" ∧
    ScopesFromSlice (match ua_AllowedScopes c with [] => NewUserDefaultScopes cfg | l => l end) = Ok scopes ∧
    (d = db w \/ fs w !! FsConfig_DbFile root = None ∧ d = empty_db) ∧
    creates_user (mkUser 0 (ua_Username c) hashed "" 0 false scopes None) i d (db w') ∧
    PasswordVerify password hashed = Ok true ∧
    (scopes <> 0 -> ∃ u, Storage_Get (ua_Username c) w' = (Ok (Some u, None), w') ∧
       id u = i ∧ Username u = ua_Username c ∧ Password u = hashed ∧ AllowedScopes u = scopes).
Proof.
  intros Hf Hrnd E. apply UserAdd_Ok in E as (password & text & cfg & scopes & hashed & i & d & ? & ? & ? & ? & Hs & ? & Hc & ? & Hf'); [|done..].
  exists password, text, cfg, scopes, hashed, i, d. split_and!; try done. intros Hne.
  apply (created_found _ i d) in Hc as (u & ? & ? & ? & ? & ?); [by exists u|done|by eapply ScopesFromSlice_valid|done|done].
Qed.
End Account.

(** ** A data directory that a server starts on *)

Section Start.
Context `{HD : Digest, HT : TimeFormat, HJ : SqliteJson, HS : Scrypt, JC : JSON AuthConfig, JL : JSON authConfigLocal}.
Context `{RL : RateLimit, JB : JSON brandingFile, XC : X509, !X509Laws, HP : HostPort}.
Context `{KeyEncryption, !KeyEncryptionLaws, JSON AtsKey, !JSONLaws AtsKey, Ed25519, !Ed25519Laws}.
Context `{JSON AtsTufRoot, JSONIndent AtsTufRoot, !JSONIndentLaws AtsTufRoot, JSON AtsTufTargets, JSON AtsTufMeta}.
Context `{Canonical RootMeta, Canonical TargetsMeta, Canonical MetaMeta, Canonical AtsTufTargets, Canonical AtsTufMeta}.
Context `{!CanonicalLaws AtsTufTargets, !CanonicalLaws AtsTufMeta}.
Variable root : string.
Hypothesis root_ok : dir_ok root.
Hypothesis key_ids : ∀ a b i, tufKeyID a = Ok i -> tufKeyID b = Ok i -> a = b.
Variable others : gmap string (AuthConfig -> result unit).
Notation h := (tuf_handle root).
Notation entry n := (path_of root n).
Definition branding_path : string := path_of (entry BrandingDir) BrandingConfigFile.

(** The host name of the certificate, when it expires, the signers, the
    configuration. *)
Record startable (dns : string) (notAfter : Z) (sgs : gmap string Signer) (cfg : AuthConfig) (w : world) : Prop := {
  st_layout : laid_out root w;
  st_tuf : ∃ secret, tuf_ready h secret sgs w;
  st_db : is_file w (entry DbFile);
  st_config : file_at w (path_of (entry AuthDir) AuthConfigFile) = Some (json_Marshal cfg);
  st_pki : pki_files root dns notAfter w;
  st_branding : fs w !! branding_path <> Some Dir
}.
Lemma startable_later dns notAfter sgs cfg t w : startable dns notAfter sgs cfg w -> startable dns notAfter sgs cfg (with_clock t w).
Proof. intros [? (secret & [])]. by split; [|exists secret; split|..]. Qed.

Lemma branding_path_eq : filepath_Join [FsConfig_BrandingDir root; BrandingConfigFile] = branding_path.
Proof.
  assert (name_ok BrandingDir) as Hb by by apply (bool_decide_unpack _). unfold FsConfig_BrandingDir. rewrite (Join_entry root) by done.
  apply Join_entry; [by apply entry_dir_ok|by apply (bool_decide_unpack _)].
Qed.
Lemma ReadBranding_Ok w : faults w = [] -> fs w !! branding_path <> Some Dir -> ∃ b, ReadBrandingConfig root w = (Ok b, w).
Proof.
  intros Hf Hb. unfold ReadBrandingConfig. rewrite branding_path_eq. destruct (fs w !! branding_path) as [[c m t|]|] eqn:E; [|done|].
  - exists (Some c). rewrite (bind_try _ _ _ (Ok c) w); [done|]. unfold os_ReadFile. rewrite syscall_ok by done. by rewrite E.
  - exists None. rewrite (bind_try _ _ _ (Err ErrNotExist) w); [done|]. unfold os_ReadFile. rewrite syscall_ok by done. by rewrite E.
Qed.
Definition with_default_timeout (cfg : AuthConfig) : AuthConfig :=
  if SessionTimeoutHours cfg =? 0
  then {| AuthType := AuthType cfg; SessionTimeoutHours := 48; MaxTokenLifetimeDays := MaxTokenLifetimeDays cfg;
          NewUserDefaultScopes := NewUserDefaultScopes cfg; RateLimits := RateLimits cfg; AuthRawConfig := AuthRawConfig cfg |}
  else cfg.
Lemma auth_file_at n w c : faults w = [] -> name_ok n -> file_at w (path_of (entry AuthDir) n) = Some c ->
  readFile (FsConfig_AuthDir root) n false w = (Ok c, w).
Proof. intros Hf Hn Hc. rewrite auth_eq by done. apply readFile_at; try done. by apply auth_dir_ok. Qed.
Lemma hmac_name : name_ok HmacFile. Proof. by apply (bool_decide_unpack _). Qed.
Lemma GetAuthConfig_at w c cfg : faults w = [] -> file_at w (path_of (entry AuthDir) AuthConfigFile) = Some c ->
  json_Unmarshal c = Ok cfg -> GetAuthConfig (FsConfig_AuthDir root) w = (Ok (with_default_timeout cfg), w).
Proof.
  intros Hf Hc Hd. unfold GetAuthConfig. rewrite (bind_Ok _ _ _ _ _ (auth_file_at _ w c Hf config_name Hc)).
  rewrite Hd. unfold with_default_timeout. by destruct (_ =? 0).
Qed.

Lemma tuf_auth_eq : tuf_auth h = entry AuthDir. Proof. by apply auth_eq. Qed.
Lemma tuf_auth_ok : dir_ok (tuf_auth h). Proof. rewrite tuf_auth_eq. by apply auth_dir_ok. Qed.
Lemma tuf_root_entry : tuf_root h = entry TufDir. Proof. by apply tuf_eq. Qed.
Lemma tuf_name : name_ok TufDir. Proof. by apply (bool_decide_unpack _). Qed.
(** The three directories of keys and metadata are at or below [tuf]. *)
Lemma tuf_dirs_under d : d ∈ [tuf_root h; keysDir h; default_dir h] ->
  dir_ok d ∧ ∃ l, comps d = comps root ++ TufDir :: l.
Proof.
  assert (dir_ok (tuf_root h)) as Hr by by apply tuf_root_ok.
  assert (comps (tuf_root h) = comps root ++ [TufDir]) as Hc by (rewrite tuf_root_entry; by apply comps_entry, tuf_name).
  rewrite !elem_of_cons, elem_of_nil. intros [->|[->|[->|[]]]].
  - split; [done|]. by exists [].
  - rewrite keysDir_eq by done. split; [by apply entry_dir_ok, keys_name_ok|]. exists [tufKeysDir].
    rewrite comps_app_name, Hc, <-app_assoc by (apply keys_name_ok || auto with server). done.
  - unfold default_dir. split; [by apply entry_dir_ok, default_name_ok|]. exists [tufDefaultDir].
    rewrite comps_app_name, Hc, <-app_assoc by (apply default_name_ok || auto with server). done.
Qed.
Lemma tuf_auth_apart : tuf_auth h ∉ [tuf_root h; keysDir h; default_dir h].
Proof.
  intros (_ & l & Hc)%tuf_dirs_under. rewrite tuf_auth_eq, comps_entry in Hc; [|done|by apply (bool_decide_unpack _)].
  by apply app_inv_head in Hc.
Qed.

(** The users and the server of the operators. *)
Lemma users_start secret cfg w :
  faults w = [] -> is_file w (FsConfig_DbFile root) -> file_at w (path_of (entry AuthDir) HmacFile) = Some secret ->
  users_NewStorage root cfg w = (Ok {| hmacSecret := secret; authConfig := cfg; audit_root := FsConfig_AuditDir root |}, w).
Proof.
  intros Hf Hdb Hsec. unfold users_NewStorage, GetHmacSecret.
  rewrite (bind_Ok _ _ _ _ _ (wrap_Ok _ _ _ _ _ (auth_file_at _ w _ Hf hmac_name Hsec))).
  by rewrite (bind_Ok _ _ _ _ _ (InitStmt_again _ user_statements w Hf Hdb)).
Qed.
Lemma provider_start cfg local scopes now :
  AuthType cfg = "local" -> json_Unmarshal (AuthRawConfig cfg) = Ok local -> ScopesFromSlice (NewUserDefaultScopes cfg) = Ok scopes ->
  NewProvider others cfg now = Ok (LocalProvider {| local_config := local; newUserScopes := scopes;
    sessionTimeout := hours (SessionTimeoutHours cfg) |} (NewRateLimiter (RateLimits cfg) now)).
Proof. intros Hlocal Hraw Hscopes. unfold NewProvider, local_Configure. rewrite Hlocal. cbn. by rewrite Hraw, Hscopes. Qed.
Lemma ui_start secret (cfg cfg' : AuthConfig) local scopes gatewayAddr ca w :
  faults w = [] -> is_file w (FsConfig_DbFile root) -> file_at w (path_of (entry AuthDir) HmacFile) = Some secret ->
  fs w !! branding_path <> Some Dir -> file_at w (path_of (entry AuthDir) AuthConfigFile) = Some (json_Marshal cfg) ->
  json_Unmarshal (json_Marshal cfg) = Ok cfg' -> AuthType cfg' = "local" ->
  json_Unmarshal (AuthRawConfig cfg') = Ok local -> ScopesFromSlice (NewUserDefaultScopes cfg') = Ok scopes ->
  LoadDeviceCa (FsConfig_CertsDir root) gatewayAddr w = (Ok ca, w) ->
  ∃ ui limiter, ui_NewServer others root gatewayAddr w = (Ok ui, w) ∧
    ui_provider ui = LocalProvider {| local_config := local; newUserScopes := scopes;
      sessionTimeout := hours (SessionTimeoutHours (with_default_timeout cfg')) |} limiter ∧
    authConfig (ui_users ui) = with_default_timeout cfg' ∧ ui_ca ui = ca.
Proof.
  intros Hf Hdb Hsec Hbr Hcfg Hdec Hlocal Hraw Hscopes Hca. destruct (ReadBranding_Ok w Hf Hbr) as [b Hb].
  set (cfg2 := with_default_timeout cfg') in *.
  assert (NewProvider others cfg2 (clock w) = Ok (LocalProvider {| local_config := local; newUserScopes := scopes;
      sessionTimeout := hours (SessionTimeoutHours cfg2) |} (NewRateLimiter (RateLimits cfg2) (clock w)))) as Hprov.
  { apply provider_start; unfold cfg2, with_default_timeout; by destruct (_ =? 0). }
  eexists _, _. unfold ui_NewServer, api_NewStorage. rewrite (bind_Ok _ _ _ _ _ (wrap_Ok _ _ _ _ _ (GetAuthConfig_at w _ _ Hf Hcfg Hdec))). fold cfg2.
  rewrite (bind_Ok _ _ w tt w) by (apply wrap_Ok; by rewrite (bind_Ok _ _ _ _ _ (InitStmt_again _ _ w Hf Hdb)), InitStmt_again).
  rewrite (bind_Ok _ _ _ _ _ (wrap_Ok _ _ _ _ _ (users_start _ cfg2 w Hf Hdb Hsec))), (bind_Ok _ _ _ _ _ (wrap_Ok _ _ _ _ _ Hb)).
  unfold time_now_ms. rewrite (bind_Ok (gets _) _ _ _ _ eq_refl). cbn [fst snd].
  rewrite Hprov, (bind_Ok _ _ w _ w) by reflexivity. by rewrite (bind_Ok _ _ _ _ _ (wrap_Ok _ _ _ _ _ Hca)).
Qed.

(** All that a start needs is loaded, and nothing is changed. *)
Lemma startable_starts dns notAfter sgs cfg cfg' local scopes gatewayAddr port w :
  faults w = [] -> startable dns notAfter sgs cfg w -> clock w <= notAfter / 1000 * 1000 -> SplitHostPort gatewayAddr = Ok port ->
  json_Unmarshal (json_Marshal cfg) = Ok cfg' -> AuthType cfg' = "local" ->
  json_Unmarshal (AuthRawConfig cfg') = Ok local -> ScopesFromSlice (NewUserDefaultScopes cfg') = Ok scopes ->
  ∃ ui gw limiter, ServeCmd_start others root gatewayAddr w = (Ok (with_signers sgs h, ui, gw), w) ∧
    ui_provider ui = LocalProvider {| local_config := local; newUserScopes := scopes;
      sessionTimeout := hours (SessionTimeoutHours (with_default_timeout cfg')) |} limiter ∧
    DgUrl <$> ui_ca ui = Some ("https://" +:+ dns +:+ ":" +:+ port) ∧ gs_url gw = "https://" +:+ JoinHostPort dns port.
Proof.
  intros Hf [Hl (secret & Ht) Hdb Hcfg Hpki Hbr] Hclock Hport Hdec Hlocal Hraw Hscopes.
  assert (file_at w (path_of (entry AuthDir) HmacFile) = Some secret) as Hsec by (rewrite <-tuf_auth_eq; apply Ht).
  destruct (ready_loads h (tuf_root_ok root root_ok) key_ids tuf_auth_ok tuf_auth_apart _ _ _ Hf Ht) as [_ Hload].
  destruct (LoadDeviceCa_loads root root_ok _ _ _ _ _ Hf Hpki Hport) as (ca & Hca & Hurl).
  destruct (loadTlsConfig_loads root root_ok _ _ _ Hf Hpki Hclock) as (tls & Htls & Hdns).
  rewrite <-db_eq in Hdb by done. rewrite <-certs_eq in Hca, Htls by done.
  destruct (ui_start _ _ _ _ _ _ _ w Hf Hdb Hsec Hbr Hcfg Hdec Hlocal Hraw Hscopes Hca) as (ui & limiter & Hui & Hprov & _ & Hcaq).
  unfold ServeCmd_start. rewrite (bind_Ok _ _ _ _ _ (wrap_Ok _ _ _ _ _ (NewFs_again root root_ok w Hf Hl))).
  rewrite (bind_Ok _ _ _ _ _ (wrap_Ok _ _ _ _ _ Hload)), (bind_Ok _ _ _ _ _ (wrap_Ok _ _ _ _ _ (NewDb_again _ _ Hf Hdb))).
  rewrite (bind_Ok _ _ _ _ _ Hui). unfold gateway_NewServer, gateway_NewStorage.
  rewrite bind_assoc, (bind_Ok _ _ _ _ _ (wrap_Ok _ _ _ _ _ Htls)), bind_assoc.
  rewrite (bind_Ok _ _ _ _ _ (wrap_Ok _ _ _ _ _ (InitStmt_again _ gateway_statements w Hf Hdb))), Hport.
  eexists ui, _, limiter. split; [reflexivity|]. cbn. by rewrite Hprov, Hcaq, Hdns, <-Hurl.
Qed.

(** ** The set-up of a development server *)

Notation K := (kept (made root)).
Definition dev_cfg : AuthConfig := init_config "local" local_config_text.
Lemma AuthInit_Ok w w' :
  AuthInitCmd_Run {| ai_Test := false; ai_Local := true |} root w = (Ok tt, w') ->
  file_at w' (path_of (entry AuthDir) AuthConfigFile) = Some (json_Marshal dev_cfg).
Proof.
  unfold AuthInitCmd_Run. intros E. do 3 (apply bind_inv_Ok in E as (? & ? & _ & E)). cbn [ai_Local] in E.
  unfold SaveAuthConfig in E. rewrite auth_eq in E by done. apply wrap_Ok_inv, writeFile_files in E as [_ H']; [done| |apply config_name].
  by apply auth_dir_ok.
Qed.
(** Entries of [users] and other directories are no path of a new account. *)
Lemma not_user_path d n : dir_ok d -> name_ok n -> d <> root -> d <> entry AuditDir -> ~ user_path root (path_of d n).
Proof.
  intros Hd Hn Hroot Haudit [E|Hin].
  - apply path_of_dir_inj in E as [-> _]; [done|done..|by apply (bool_decide_unpack _)].
  - revert Hin. apply not_in_dirs; [|done..|set_solver]. apply Forall_singleton. by apply audit_dir_ok.
Qed.
Lemma deep_not_root d l : comps d = comps root ++ l -> l <> [] -> d <> root.
Proof. intros Hc Hl ->. rewrite <-(app_nil_r (comps root)) in Hc at 1. apply app_inv_head in Hc. by subst. Qed.
Lemma tuf_dir_user d : d ∈ [tuf_root h; keysDir h; default_dir h] -> d <> root ∧ d <> entry AuditDir.
Proof.
  intros (_ & l & Hc)%tuf_dirs_under. split; [by eapply deep_not_root|]. intros ->.
  rewrite comps_entry in Hc; [|done|by apply (bool_decide_unpack _)]. by apply app_inv_head in Hc.
Qed.
Lemma tuf_ready_kept secret sgs w w' : K (user_path root) w w' -> tuf_ready h secret sgs w -> tuf_ready h secret sgs w'.
Proof.
  intros Hk [Hst Hnone [Hne Hsec] (v & r & Hv) Hdir].
  assert (∀ d n, d ∈ [tuf_root h; keysDir h; default_dir h] -> name_ok n -> file_at w' (path_of d n) = file_at w (path_of d n)) as Hsame.
  { intros d n Hd Hn. destruct (tuf_dir_user d Hd), (tuf_dirs_under d Hd). eapply kept_file_at; [exact Hk|]. by apply not_user_path. }
  constructor; [|done| | |].
  - intros role Hr. destruct (Hst role Hr) as (s & Hs & Hok & c & Hc & Hkey). exists s. split; [done|]. split; [done|]. exists c.
    rewrite Hsame; [done|set_solver|by apply role_key_name_ok].
  - split; [done|]. rewrite <-Hsec, tuf_auth_eq. eapply kept_file_at; [exact Hk|]. apply not_user_path.
    + by apply auth_dir_ok.
    + apply hmac_name.
    + apply (deep_not_root _ [AuthDir]); [|done]. apply comps_entry; [done|by apply (bool_decide_unpack _)].
    + by intros E%path_of_inj.
  - exists v, r. unfold root_at. rewrite Hsame; [exact Hv|set_solver|apply root_name_ok].
  - eapply kept_dir; [exact Hk| |exact Hdir]. rewrite tuf_root_entry. intros [E|Hin].
    + by apply path_of_inj in E.
    + destruct Hin as (d & n & Hd & Hn & E). apply list_elem_of_singleton in Hd as ->.
      apply path_of_dir_inj in E as [E _]; [|done|by apply audit_dir_ok|apply tuf_name|done].
      symmetry in E. revert E. apply (deep_not_root _ [AuditDir]); [|done]. apply comps_entry; [done|by apply (bool_decide_unpack _)].
Qed.
(** A new account leaves the file of the database. *)
Lemma UserAdd_file c typed w w' : TokenFile c = "" -> UserAddCmd_Run c typed root w = (Ok tt, w') -> is_file w' (entry DbFile).
Proof.
  intros Ht E. unfold UserAddCmd_Run in E. do 3 (apply bind_inv_Ok in E as (? & ? & _ & E)).
  destruct (negb _); [by apply fail_inv in E as [[=] _]|]. do 2 (apply bind_inv_Ok in E as (? & ? & _ & E)).
  apply bind_wrap_Ok in E as (st & w1 & E1 & E). pose proof (kept_NewStorage root root_ok _ _ _ _ E1) as [_ Hst].
  unfold users_NewStorage in E1. apply bind_inv_Ok in E1 as (? & w2 & _ & E1). apply bind_inv_Ok in E1 as ([] & w3 & E3 & E1).
  apply ret_inv in E1 as [_ ->]. apply InitStmt_file in E3; [|done]. rewrite db_eq in E3 by done.
  destruct (kept_add_user root root_ok st c _ _ Hst Ht _ _ _ E) as [Hk _]. unfold is_file.
  erewrite kept_file_at; [exact E3|exact Hk|]. apply not_in_dirs; [|done|by apply (bool_decide_unpack _)|].
  - apply Forall_singleton. by apply audit_dir_ok.
  - intros Hin%list_elem_of_singleton. symmetry in Hin. revert Hin. apply (deep_not_root _ [AuditDir]); [|done].
    apply comps_entry; [done|by apply (bool_decide_unpack _)].
Qed.

(** All paths that the commands write. *)
Definition dev_path (k : string) : Prop :=
  in_dirs [entry CertsDir; entry AuthDir; entry AuditDir; tuf_root h; keysDir h; default_dir h] k \/ k = entry DbFile.
Lemma in_dirs_wider l l' k : l ⊆ l' -> in_dirs l k -> in_dirs l' k.
Proof. intros Hl (d & n & Hd & ?). exists d, n. split; [by apply Hl|done]. Qed.
Lemma dev_dirs_deep d : d ∈ [entry CertsDir; entry AuthDir; entry AuditDir; tuf_root h; keysDir h; default_dir h] ->
  dir_ok d ∧ (length (comps root) < length (comps d))%nat ∧ d <> entry BrandingDir.
Proof.
  assert (∀ n, n ∈ [CertsDir; AuthDir; AuditDir] -> name_ok n) as Hn.
  { intros n Hn. apply std_name. unfold std_names. set_solver. }
  assert (∀ n, n ∈ [CertsDir; AuthDir; AuditDir] -> dir_ok (entry n) ∧ (length (comps root) < length (comps (entry n)))%nat ∧ entry n <> entry BrandingDir) as Hstd.
  { intros n Hin. split; [apply entry_dir_ok; auto|]. rewrite comps_entry, length_app by auto. split; [simpl; lia|].
    intros ->%path_of_inj. revert Hin. apply (bool_decide_unpack _). vm_compute. exact I. }
  change [entry CertsDir; entry AuthDir; entry AuditDir; tuf_root h; keysDir h; default_dir h]
    with (map (λ n, entry n) [CertsDir; AuthDir; AuditDir] ++ [tuf_root h; keysDir h; default_dir h]).
  intros [(n & -> & Hin)%list_elem_of_fmap|Hd]%elem_of_app; [by apply Hstd|].
  apply tuf_dirs_under in Hd as (Hok & l & Hc). split; [done|]. rewrite Hc, length_app. split; [simpl; lia|]. intros ->.
  rewrite comps_entry in Hc; [|done|by apply (bool_decide_unpack _)]. by apply app_inv_head in Hc.
Qed.
Lemma laid_out_dev w w' : K dev_path w w' -> laid_out root w -> laid_out root w'.
Proof.
  intros Hk. eapply laid_out_kept; [|exact Hk]. intros n a Hn Ha [Hin|E].
  - revert Hin. apply (std_not_in_dirs root root_ok _ n); [|done..]. intros d Hd. by destruct (dev_dirs_deep d Hd) as (? & ? & _).
  - by apply (std_not_db root root_ok n a).
Qed.
Lemma branding_dev w w' : K dev_path w w' -> fs w !! branding_path <> Some Dir -> fs w' !! branding_path <> Some Dir.
Proof.
  intros [Hk _] Hb. destruct (Hk branding_path) as [->|(Hm & _)]; [|done|by apply branding_not_made in Hm].
  assert (dir_ok (entry BrandingDir)) as Hbd by (apply entry_dir_ok; [done|by apply (bool_decide_unpack _)]).
  assert (name_ok BrandingConfigFile) as Hbn by by apply (bool_decide_unpack _).
  intros [(d & n & Hd & Hn & E)|E].
  - destruct (dev_dirs_deep d Hd) as (Hok & _ & Hne). by apply path_of_dir_inj in E as [E _].
  - apply path_of_dir_inj in E as [E _]; [|done..|by apply (bool_decide_unpack _)]. revert E.
    apply (deep_not_root _ [BrandingDir]); [|done]. apply comps_entry; [done|by apply (bool_decide_unpack _)].
Qed.

(** Each command, as a step of the set-up. *)
Lemma dev_PkiInit c : keeps (K dev_path) (PkiInitCmd_Run c root) any.
Proof. eapply kept_wider; [|by apply kept_PkiInit]. intros k Hk. left. eapply in_dirs_wider; [|exact Hk]. set_solver. Qed.
Lemma dev_AuthInit c : keeps (K dev_path) (AuthInitCmd_Run c root) any.
Proof. eapply kept_wider; [|by apply kept_AuthInit]. intros k Hk. left. eapply in_dirs_wider; [|exact Hk]. set_solver. Qed.
Lemma dev_InitTuf : keeps (K dev_path) (InitTuf h) any.
Proof. eapply kept_wider; [|by apply kept_InitTuf]. intros k Hk. left. eapply in_dirs_wider; [|exact Hk]. set_solver. Qed.
Lemma dev_UserAdd c typed : TokenFile c = "" -> keeps (K dev_path) (UserAddCmd_Run c typed root) any.
Proof.
  intros Ht. eapply kept_wider; [|by apply kept_UserAdd]. intros k [->|Hk]; [by right|left]. eapply in_dirs_wider; [|exact Hk]. set_solver.
Qed.
(** A step that writes to other directories leaves the certificates. *)
Lemma pki_files_apart S dns notAfter w w' :
  (∀ n, name_ok n -> ~ S (path_of (entry CertsDir) n)) -> K S w w' -> pki_files root dns notAfter w -> pki_files root dns notAfter w'.
Proof.
  intros Hs Hk Hp. eapply pki_files_kept; [done|done| |exact Hp]. intros n Hn. eapply kept_file_at; [exact Hk|]. by apply Hs, cert_name.
Qed.
Lemma certs_no_user n : name_ok n -> ~ user_path root (path_of (entry CertsDir) n).
Proof.
  intros Hn. apply not_user_path; [by apply certs_dir_ok|done| |by intros E%path_of_inj].
  apply (deep_not_root _ [CertsDir]); [|done]. apply comps_entry; [done|by apply (bool_decide_unpack _)].
Qed.
Lemma auth_no_user n : name_ok n -> ~ user_path root (path_of (entry AuthDir) n).
Proof.
  intros Hn. apply not_user_path; [by apply auth_dir_ok|done| |by intros E%path_of_inj].
  apply (deep_not_root _ [AuthDir]); [|done]. apply comps_entry; [done|by apply (bool_decide_unpack _)].
Qed.
Lemma no_tuf_path d n : d ∈ [entry CertsDir; entry AuthDir] -> name_ok n -> ~ in_dirs [tuf_root h; keysDir h; default_dir h] (path_of d n).
Proof.
  intros Hd Hn. assert (dir_ok d ∧ ∃ x, d = entry x ∧ name_ok x ∧ x <> TufDir) as (Hok & x & -> & Hx & Hne).
  { rewrite !elem_of_cons, elem_of_nil in Hd. destruct Hd as [->|[->|[]]].
    - split; [by apply certs_dir_ok|]. exists CertsDir. split; [done|]. split; [by apply (bool_decide_unpack _)|done].
    - split; [by apply auth_dir_ok|]. exists AuthDir. split; [done|]. split; [by apply (bool_decide_unpack _)|done]. }
  apply not_in_dirs; [|done|done|].
  - apply Forall_forall. intros e He. by destruct (tuf_dirs_under e He).
  - intros (_ & l & Hc)%tuf_dirs_under. rewrite comps_entry in Hc by done. apply app_inv_head in Hc. by simplify_eq.
Qed.
Lemma no_auth_path n : name_ok n -> ~ in_dirs [entry AuthDir] (path_of (entry CertsDir) n).
Proof.
  intros Hn. apply not_in_dirs; [apply Forall_singleton; by apply auth_dir_ok|by apply certs_dir_ok|done|].
  by intros E%list_elem_of_singleton%path_of_inj.
Qed.
Notation admin_cmd c := {| ua_Username := "admin"; ua_Password := AdminPassword c; ua_AllowedScopes := []; TokenFile := "" |}.
Definition dns_of (c : DevServerInitCmd) (hostname : result string) : result string :=
  if negb (String.eqb (ds_DnsName c) "") then Ok (ds_DnsName c) else hostname.
Lemma DevInit_startable c hostname w w' :
  faults w = [] -> fs w !! branding_path <> Some Dir -> DevServerInitCmd_Run c hostname root w = (Ok tt, w') ->
  faults w' = [] ∧ ∃ dns sgs w5, dns_of c hostname = Ok dns ∧ startable dns (AddDate_days (clock w) 365) sgs dev_cfg w' ∧
    UserAddCmd_Run (admin_cmd c) (Err ErrIO) root w5 = (Ok tt, w') ∧ faults w5 = [] ∧ rnd w5 = rnd w ∧
    file_at w5 (path_of (entry AuthDir) AuthConfigFile) = Some (json_Marshal dev_cfg).
Proof.
  intros Hf Hb E. unfold DevServerInitCmd_Run in E. apply bind_inv_Ok in E as ([] & w1 & E1 & E).
  apply bind_wrap_Ok in E as ([] & w2 & E2 & E). apply bind_lift_Ok in E as (dns & Hdns & E).
  apply bind_wrap_Ok in E as ([] & w3 & E3 & E). apply bind_wrap_Ok in E as ([] & w4 & E4 & E).
  apply bind_inv_Ok in E as ([] & w5 & E5 & E6). apply wrap_Ok_inv in E6.
  pose proof (NewFs_lays_out root root_ok _ _ E1) as Hlay. unfold AssertCleanPki in E2.
  apply (kept_NewFs root root_ok dev_path) in E1 as [K1 _]. apply (kept_assertClean root dev_path) in E2 as [K2 _].
  pose proof (dev_PkiInit _ _ _ _ E3) as [K3 _]. pose proof (dev_AuthInit _ _ _ _ E4) as [K4 _].
  pose proof (dev_InitTuf _ _ _ E5) as [K5 _]. pose proof E6 as Elast. pose proof (λ Ht, dev_UserAdd _ _ Ht _ _ _ E6) as K6. destruct (K6 eq_refl) as [K6' _]. clear K6. rename K6' into K6.
  assert (K dev_path w1 w') as K16 by (etrans; [exact K2|]; etrans; [exact K3|]; etrans; [exact K4|]; by etrans).
  assert (K dev_path w w') as Kall by by etrans.
  assert (faults w5 = []) as Hf5 by (eapply kept_calm; [|exact Hf]; etrans; [exact K1|]; etrans; [exact K2|]; etrans; [exact K3|]; by etrans).
  assert (clock w2 = clock w) as Hclock by (destruct K1 as (_ & ? & _), K2 as (_ & ? & _); congruence).
  apply PkiInit_Ok in E3; [|done..]. cbn [pki_DnsName TlsExpiryDays] in E3. rewrite Hclock in E3. pose proof E4 as Ecfg. apply AuthInit_Ok in Ecfg.
  apply (kept_AuthInit root root_ok) in E4 as [K4' _]. pose proof (kept_InitTuf root root_ok _ _ _ E5) as [K5' _].
  pose proof E6 as Hdb. apply UserAdd_file in Hdb; [|done]. apply (kept_UserAdd root root_ok) in E6 as [K6' _]; [|done].
  apply (InitTuf_Ok h (tuf_root_ok root root_ok) key_ids tuf_auth_ok tuf_auth_apart) in E5 as (secret & troot & sgs & Ht & _); [|done].
  split; [by eapply (kept_calm _ _ w)|]. exists dns, sgs, w5. split.
  { unfold dns_of. destruct (negb _); [done|]. destruct hostname; congruence. }
  assert (K dev_path w w5) as (_ & _ & Hrnd & _) by (etrans; [exact K1|]; etrans; [exact K2|]; etrans; [exact K3|]; by etrans).
  rewrite <-(kept_file_at _ _ _ _ _ K5') in Ecfg by (apply no_tuf_path; [set_solver|apply config_name]).
  split; [|done].
  constructor; [by apply (laid_out_dev w1)|exists secret; by eapply tuf_ready_kept|done| | |by apply (branding_dev w)].
  - rewrite (kept_file_at _ _ _ _ _ K6'); [done|apply auth_no_user, config_name].
  - eapply pki_files_apart; [exact certs_no_user|exact K6'|]. eapply pki_files_apart; [|exact K5'|].
    { intros n Hn. apply no_tuf_path; [set_solver|done]. }
    eapply pki_files_apart; [exact no_auth_path|exact K4'|done].
Qed.
(** All that there is to grant. *)
Definition all_scopes : Scopes := foldr Z.lor 0 (map fst maskToString).
Lemma ScopesAvailable_all : ScopesFromSlice ScopesAvailable = Ok all_scopes. Proof. by vm_compute. Qed.

End Start.

(** ** What is there is not written over *)

Section NoOverwrite.
Context `{XC : X509}.
Variable root : string.
Hypothesis root_ok : dir_ok root.
Lemma os_Stat_there p w r w' : honest w -> os_Stat p w = (r, w') -> fs w !! p <> None ->
  match r with Ok _ => True | Err e => errors_Is e ErrNotExist = false end.
Proof.
  intros Hh E Hp. unfold os_Stat, syscall in E. unfold honest in Hh. destruct (faults w) as [|[e|] l].
  - destruct (fs w !! p); by simplify_eq.
  - simplify_eq. by apply Forall_inv in Hh.
  - cbn in E. destruct (fs w !! p); by simplify_eq.
Qed.
Lemma assertClean_refuses d l n w :
  honest w -> dir_ok d -> Forall name_ok l -> n ∈ l -> fs w !! path_of d n <> None ->
  ∃ e w', assertClean d l w = (Err e, w').
Proof.
  intros Hh Hd. revert w Hh. induction l as [|m l IH]; intros w Hh Hl Hn Hp; [by apply elem_of_nil in Hn|].
  apply Forall_cons in Hl as [Hm Hl]. unfold assertClean. cbn [forM]. rewrite Join_entry by done. rewrite bind_assoc.
  destruct (os_Stat (path_of d m) w) as [r w1] eqn:E. rewrite (bind_try _ _ _ _ _ E). pose proof (os_Stat_there _ _ _ _ Hh E) as Hr.
  destruct r as [x|err]; [by eexists _, _|]. destruct (errors_Is err ErrNotExist) eqn:He; [|by eexists _, _]. cbn [negb].
  apply elem_of_cons in Hn as [->|Hn]; [by apply Hr in Hp|].
  pose proof (kept_Stat (λ _, False) (λ _, False) _ _ _ _ E) as [[Hk (_ & _ & Hs)] _].
  destruct (IH w1) as (e & w2 & E2); [by eapply honest_suffix|done|done|by destruct (Hk (path_of d n)) as [->|([] & _)]; [tauto|]|].
  exists e, w2. exact E2.
Qed.

(** C34. A key or certificate that is there is never replaced by new ones: the set-up
    of the keys fails and writes no file, whatever else fails on the way. *)
Theorem pki_init_never_overwrites c n w r w' :
  honest w -> n ∈ cert_names -> fs w !! path_of (path_of root CertsDir) n <> None ->
  PkiInitCmd_Run c root w = (r, w') -> is_Ok r = false ∧ kept (made root) (λ _, False) w w'.
Proof.
  intros Hh Hn Hp E. unfold PkiInitCmd_Run in E. rewrite certs_eq in E by done.
  apply bind_inv in E as [([] & w1 & E1 & E)|(err & E & ->)]; [|by apply (kept_NewFs root root_ok (λ _, False)) in E as [? _]].
  apply (kept_NewFs root root_ok (λ _, False)) in E1 as [Hk _].
  destruct (assertClean_refuses (path_of root CertsDir) [CertsTlsCsrFile; CertsTlsKeyFile; CertsTlsPemFile; CertsRootKeyFile;
    CertsRootPemFile; CertsDeviceCaKeyFile; CertsDeviceCaPemFile; CertsCasPemFile] n w1) as (e & w2 & E2).
  - destruct Hk as (_ & _ & _ & Hs). by eapply honest_suffix.
  - by apply certs_dir_ok.
  - apply (bool_decide_unpack _). vm_compute. exact I.
  - unfold cert_names in Hn. set_solver.
  - destruct Hk as [Hk _]. destruct (Hk (path_of (path_of root CertsDir) n)) as [->|(_ & ? & _)]; [tauto|done|done].
  - unfold AssertCleanPki in E. rewrite (bind_Err _ _ _ _ _ E2) in E. injection E as <- <-. split; [done|].
    apply (kept_assertClean root (λ _, False)) in E2 as [? _]. by etrans.
Qed.
End NoOverwrite.
