(* ===== verification/WitnessesSetup.v ===== *)
(** Concrete runs for the theorems on the set-up of a server: an empty disk on
    which a development server is set up and started. *)
From S2P Require Import Prelude GoStrings Bytes GoPath Schema World BaseFs Crypto Models Tuf TufFs TufKeys Toys Http Limiter Scopes Users UserOps FsHandles Auth AuthLocal UiApi Gateway WebPages Witnesses WitnessesTuf WitnessesUi SetupPki Setup SetupSpec ServeSpec.
Import Users UserRuns LoginRuns TufRuns.

Module SetupRuns.
(** A certificate is the text of its fields, a key is its random seed, and PEM
    leaves the bytes as they are. *)
Notation fields := ((string * list string) * (Z * (list string * Z)))%type.
Definition certificate_text (t : x509_template) : string :=
  @json_Marshal fields toy_codec ((n_CommonName (xt_Subject t), n_OrganizationalUnit (xt_Subject t)),
    (if xt_IsCA t && xt_BasicConstraintsValid t then 1 else 0, (xt_DNSNames t, xt_NotAfter t / 1000))).
Definition certificate_fields (s : string) : result fields := @json_Unmarshal fields toy_codec s.
Definition field {A} (get : fields -> A) (zero : A) (c : Certificate) : A :=
  match certificate_fields (Raw c) with Ok d => get d | Err _ => zero end.
#[export] Instance certs : CertCodec :=
  {| pem_cert raw := raw; pem_decode s := Some (s, "");
     ParseCertificate s := d ← certificate_fields s; Ok {| Raw := s; NotAfter := d.2.2.2; CommonName := d.1.1 |} |}.
Notation csr_fields := ((string * list string) * list string)%type.
#[export] Instance csrs : CsrCodec :=
  {| csr := csr_fields; pem_block s := Some ("", s); ParseCertificateRequest := @json_Unmarshal csr_fields toy_codec;
     CheckSignature _ := Ok tt; csr_CommonName r := r.1.1; CreateCertificate _ _ := Err ErrIO |}.
#[export] Instance x509 : X509 :=
  {| ec_key := string; ecdsa_GenerateKey r := Ok r; ec_PublicKey k := k; MarshalECPrivateKey k := Ok k; ParseECPrivateKey s := Ok s;
     x509_CreateCertificate _ t _ _ _ := Ok (certificate_text t);
     x509_CreateCertificateRequest _ t _ := Ok (@json_Marshal csr_fields toy_codec
       ((n_CommonName (ct_csr_Subject t), n_OrganizationalUnit (ct_csr_Subject t)), ct_csr_DNSNames t));
     cert_Subject := field (λ d, Build_x509_name d.1.1 d.1.2) (Build_x509_name "" []);
     cert_IsCA := field (λ d, Z.eqb 1 d.2.1) false; cert_DNSNames := field (λ d, d.2.2.1) [];
     csr_Subject r := Build_x509_name r.1.1 r.1.2; csr_DNSNames r := r.2;
     pem_Encode _ bytes := bytes; AppendCertsFromPEM _ := []; tls_X509KeyPair c _ := Ok c;
     AddDate_days t d := t + d * 86400000 |}.
Lemma certificate_parses t : certificate_fields (certificate_text t) =
  Ok ((n_CommonName (xt_Subject t), n_OrganizationalUnit (xt_Subject t)),
    (if xt_IsCA t && xt_BasicConstraintsValid t then 1 else 0, (xt_DNSNames t, xt_NotAfter t / 1000))).
Proof. exact (@json_roundtrip fields toy_codec toy_codec_laws _). Qed.
#[export] Instance x509_laws : X509Laws.
Proof.
  constructor; try done.
  - intros r t p pub key der E. injection E as <-. exists (Build_Certificate (certificate_text t) (xt_NotAfter t / 1000) (n_CommonName (xt_Subject t))).
    unfold ParseCertificate, certs, cert_Subject, cert_IsCA, cert_DNSNames, x509, field. cbn [Raw]. rewrite certificate_parses.
    split_and!; cbn; destruct (xt_Subject t), (xt_IsCA t), (xt_BasicConstraintsValid t); done.
  - intros r t key der req E E'. injection E as <-.
    pose proof (@json_roundtrip csr_fields toy_codec toy_codec_laws
      ((n_CommonName (ct_csr_Subject t), n_OrganizationalUnit (ct_csr_Subject t)), ct_csr_DNSNames t)) as Hr.
    assert (req = ((n_CommonName (ct_csr_Subject t), n_OrganizationalUnit (ct_csr_Subject t)), ct_csr_DNSNames t)) as ->.
    { apply (f_equal (λ r, match r with Ok a => a | Err _ => req end)) in Hr. etrans; [|exact Hr].
      exact (f_equal (λ r, match r with Ok a => a | Err _ => req end) (eq_sym E')). }
    cbn. by destruct (ct_csr_Subject t).
Qed.
#[export] Instance hosts : HostPort :=
  {| SplitHostPort a := match Split a ":" with [_; port] => Ok port | _ => Err (ErrMsg "missing port in address") end;
     JoinHostPort host port := host +:+ ":" +:+ port |}.

(** The configuration of the authentication. *)
#[export] Instance tokens_limits : Tokens RateLimitConfig :=
  tokens_iso (λ r, (AttemptsPerSecond r, (AttemptsBlockDurationSec r, (BadAuthLimit r, BadAuthBlockDurationSec r))))
    (λ p, {| AttemptsPerSecond := p.1; AttemptsBlockDurationSec := p.2.1; BadAuthLimit := p.2.2.1; BadAuthBlockDurationSec := p.2.2.2 |}).
#[export] Instance tokens_auth : Tokens AuthConfig :=
  tokens_iso (λ c, (AuthType c, (SessionTimeoutHours c, (MaxTokenLifetimeDays c, (NewUserDefaultScopes c, (RateLimits c, AuthRawConfig c))))))
    (λ p, {| AuthType := p.1; SessionTimeoutHours := p.2.1; MaxTokenLifetimeDays := p.2.2.1; NewUserDefaultScopes := p.2.2.2.1;
             RateLimits := p.2.2.2.2.1; AuthRawConfig := p.2.2.2.2.2 |}).
Definition relaxed : authConfigLocal :=
  {| MinPasswordLength := 0; PasswordHistory := 0; PasswordAgeDays := 0;
     ComplexityRules := {| RequireUppercase := false; RequireLowercase := false; RequireDigit := false; RequireSpecialChar := "" |};
     DevelopmentCookies := true |}.
#[export] Instance local_text : JSON authConfigLocal :=
  {| json_Marshal _ := local_config_text;
     json_Unmarshal s := if String.eqb s local_config_text then Ok relaxed else Err (ErrMsg "invalid JSON") |}.
#[export] Instance no_branding : JSON brandingFile := {| json_Marshal _ := ""; json_Unmarshal _ := Err ErrIO |}.

(** An empty disk. *)
Definition w : world := World {["/d" := Dir]} 1000000 [] empty_db (λ _, "ABCDEFGHIJKLMNOPQRSTUVWXYZ012345") 0.
Definition init : DevServerInitCmd := {| ds_DnsName := ""; AdminPassword := "letmein" |}.
Definition set_up : world := (DevServerInitCmd_Run init (Ok "myhost") "/d" w).2.
Lemma data_root_ok : dir_ok "/d".
Proof. apply dir_computed. vm_compute. reflexivity. Qed.
End SetupRuns.
Import SetupRuns.


(** A second account on that server, with a token in a file. *)
Lemma user_add_login_witness : ∃ w' u,
  UserAddCmd_Run {| ua_Username := "bob"; ua_Password := "secret"; ua_AllowedScopes := ["devices:read"]; TokenFile := "/d/bob.token" |}
    (Err ErrIO) "/d" set_up = (Ok tt, w') ∧
  Storage_Get "bob" w' = (Ok (Some u, None), w') ∧ PasswordVerify "secret" (Password u) = Ok true ∧ AllowedScopes u = ScopeDevicesR.
Proof.
  set (c := {| ua_Username := "bob"; ua_Password := "secret"; ua_AllowedScopes := ["devices:read"]; TokenFile := "/d/bob.token" |}).
  destruct (user_add_login "/d" data_root_ok c (Err ErrIO) set_up (UserAddCmd_Run c (Err ErrIO) "/d" set_up).2)
    as (password & text & cfg & scopes & hashed & i & d & Hpw & _ & _ & _ & Hs & _ & _ & Hv & Hu).
  - vm_compute. reflexivity.
  - intros n. vm_compute. discriminate.
  - apply run_Ok. vm_compute. reflexivity.
  - assert (Ok scopes = Ok ScopeDevicesR) as E by (rewrite <-Hs; vm_compute; reflexivity). injection E as ->.
    assert (Ok password = Ok "secret") as E by (rewrite <-Hpw; vm_compute; reflexivity). injection E as ->.
    destruct Hu as (u & Hu & _ & _ & Hp & Hsc); [vm_compute; discriminate|].
    exists (UserAddCmd_Run c (Err ErrIO) "/d" set_up).2, u. split; [apply run_Ok; vm_compute; reflexivity|].
    split; [exact Hu|]. rewrite Hp. split; [exact Hv|exact Hsc].
Defined.

(** The keys of that server are not made again, with a failing disk or not. *)
Definition again : PkiInitCmd := {| pki_DnsName := "other"; pki_OU := "ou"; TlsExpiryDays := 1; CaExpiryDays := 1 |}.
Definition shaky : world := with_faults [None; None; None; None; None; None; Some ErrIO] set_up.
Lemma pki_init_never_overwrites_witness : ∃ r w',
  PkiInitCmd_Run again "/d" shaky = (r, w') ∧ is_Ok r = false ∧ kept (made "/d") (λ _, False) shaky w'.
Proof.
  destruct (PkiInitCmd_Run again "/d" shaky) as [r w'] eqn:E. exists r, w'. split; [reflexivity|].
  apply (pki_init_never_overwrites "/d" data_root_ok again CertsTlsPemFile shaky r w').
  - unfold honest. change (faults shaky) with [None; None; None; None; None; None; Some ErrIO]. repeat constructor.
  - apply (bool_decide_unpack _). vm_compute. exact I.
  - vm_compute. discriminate.
  - exact E.
Defined.
